(* ===== verification/_CoqProject ===== *)
-Q . S2P
Prelude.v
Buf.v
Seq.v
Reject.v
Errors.v
LossList.v
Time.v
Timestamp.v
Rtt.v
Drift.v
Rate.v
LiveCc.v
PacketTypes.v
Handshake.v
Control.v
Packet.v
SendBuffer.v
RecvBuffer.v
Fec.v
KeyMaterial.v
Crypto.v
Config.v
Event.v
Fragment.v
ConnState.v
Rekey.v
Arq.v
Setup.v
Conn.v
ConnInv.v
ConnStart.v
Listener.v
ListenerInv.v
Session.v
Delivery.v
Safety.v
Sending.v
Receiving.v
Lifecycle.v
Admission.v
Feedback.v
Batch.v
Runtime.v
TokioUdp.v
TokioBind.v
Driver.v
Stream.v
Endpoint.v
Api.v
EndpointInv.v
Strangers.v
EndpointRuns.v
DriverInv.v
DriverRuns.v
Genuine.v
SendInv.v
ReadInv.v
Rotation.v
EndToEnd.v
Repair.v
Complete.v
