(* ===== verification/Prelude.v ===== *)
(** * srtrust: a verification library for an SRT stack

    [srtrust] implements SRT (Secure Reliable Transport).  The crate
    [crates/srt-protocol] is a sans-I/O core: a [Connection] and a [Listener] are
    values that are fed datagrams, timers and calls, and queue datagrams, timer
    requests and events.  The crate [crates/srt] runs that core: one task per
    connection, one task per listening socket, channels in between, and handles
    for the application.  This library models both and proves them correct, from
    the bit layout of a header up to the channels of the tasks.

    ** How the code is modelled

    A Rust function is a Rocq function of the same name; a method on [&mut self]
    returns the updated record.  A function that can panic returns [panicky], one
    that also returns a [Result] returns [res] (with [Crash] for a panic), so
    that "does not panic" is a theorem.  Machine integers are [Z] with their
    wrap-around and saturation written out ([wrap32], [sat_mul64], ...), plain
    operators wrapping as they do in a release build; an
    [Instant] and a [Duration] are nanoseconds in [Z], whose sums are exact where
    the source's can overflow and panic; bytes are
    [list byte].  A [HashMap] or [BTreeMap] is a [gmap]; where the source walks a
    hash map, the order is the parameter [HashOrder].  Recursion follows the data
    where it can.  Otherwise it runs on fuel whose exhaustion is a panic, so every
    theorem that a call returns proves the fuel sufficient: a delivery pass has
    one unit per slot of the receive buffer, shedding one per packet of the send
    buffer, the loss-list decoder one per byte, pacing the source's own bound
    ([MAX_PACE_BURST]), the drain loops of the tasks one per queued item, the
    command batch the command channel's capacity, and a socket's poll one per
    pending wake-up and two to spare.

    Code that is not in the repository is a parameter, with its documented
    behaviour as a class of laws and an instance that shows the laws can hold:
    [BytesApi]/[BytesSpec] for the [bytes] crate ([vec_bytes]),
    [CryptoPrims]/[CryptoSpec] for AES, GCM, PBKDF2 and key wrap ([toy_prims]),
    [TokioSocket] and [QuinnUdp] with [TokioUdpSpec] for Tokio's readiness and
    [quinn-udp]'s system calls ([ToyNet]), [Socket2]/[Socket2Spec] for opening
    sockets ([ToyKernel]), [Mpsc]/[MpscSpec] for tokio's bounded channel
    ([ChanState]), [PollSender] for tokio-util's sink adapter.  The source's own
    traits are interfaces: the drivers are verified against [AsyncUdpSocket] with
    [UdpSpec] and against [Runtime], and [TokioUdp] discharges them for the
    default runtime.

    ** The parts and their files

    Foundations: this file (outcomes, integers, bytes, generic lemmas), [Buf]
    (the [bytes] calls), [Time] ([std::time]).

    The wire ([crates/srt-protocol/src]): [Seq] ([seq.rs]), [Reject] and
    [Handshake] ([handshake.rs]), [Errors] ([error.rs]), [LossList]
    ([loss_list.rs]), [Timestamp] ([timestamp.rs]), [PacketTypes] and [Packet]
    ([packet.rs]), [Control] ([control.rs]), [KeyMaterial]
    ([crypto/key_material.rs]), [Crypto] ([crypto/]).

    Estimators and buffers: [Rtt], [Drift], [Rate], [LiveCc], [SendBuffer],
    [RecvBuffer], [Fec], each after the source file of its name.

    The connection ([connection.rs], [connection/], [stats.rs]): [Config] and
    [Event], [Fragment] (fragmentation, reassembly), [ConnState] (the record of
    every field, queues, timers), [Rekey] ([rekey.rs]), [Arq] ([arq.rs]),
    [Setup] ([setup.rs]), [Conn] (the public calls).  [ConnInv] has its invariant
    [conn_ok], and [advance], the relation every internal step is shown to be in;
    [ConnStart] the fresh connections ([starts]), the public calls as steps
    ([conn_step], [reaches]) and the preservation of [conn_ok].

    The listener: [Listener] ([listener.rs]), [ListenerInv] ([ln_ok] and its
    preservation).

    The I/O layer ([crates/srt/src]): [Batch] ([batch.rs]), [Runtime] (the traits
    of [runtime.rs], channels), [TokioUdp] and [TokioBind] (their default
    implementation, [TokioUdpSocket] and [TokioRuntime]), [Driver] ([drive_connection]), [Stream]
    ([stream.rs]), [Endpoint] ([drive_endpoint]), [Api] ([lib.rs]).  [DriverInv]
    and [EndpointInv] have the invariants of the two tasks, [Strangers] what the second does
    with datagrams of no connection.

    A datagram goes from the socket to [Endpoint] (or to a caller's own
    [Driver]), over a channel to [Driver], through [feed_recv_buf] in [Conn] to
    the handler in [Setup], [Arq] or [Rekey], as events back to [Driver], and over
    the data channel to the handle in [Stream].  A message goes the other way.

    Two ends together: [Genuine] (datagrams that carry no stream data, and what
    they leave alone), [SendInv] (every data datagram of a run carries a fragment
    of a message the application sent), [ReadInv] (everything a receiver delivers
    is put together from such fragments, and every message missing before the
    delivery point is paid for by a skipped packet), [EndToEnd], [Repair] (one
    report of missing packets, its answer, and what the answer restores),
    [Complete] (the drop counter covers every loss; what arrives is delivered).

    ** What is proved

    - Two ends and any network: what one application receives is a subsequence of
      what the other sent, whole messages, in order, none twice, whatever the
      network loses, repeats, reorders or delays, and whatever datagrams it adds that
      carry no data, no keys and no drop request, and name the sender's initial
      number if they conclude a handshake ([network]); without FEC, under fixed keys
      and for fewer than 2^30 packets.  Stated for two cores under arbitrary calls and for two driver tasks
      under arbitrary schedules, with sessions executed in the witnesses
      ([EndToEnd]).  Conversely, every accepted message before the receiver's
      delivery point was delivered or is covered by its drop counter, so a receiver
      that counts no drops has delivered exactly a prefix of what the sender accepted;
      and when all packets have arrived and are due, a delivery pass
      completes the stream ([Complete]; for the tasks' applications, [EndToEnd]).
      On top of any such run, one loss report that is due, and its answer while the
      packets are not too late, leave nothing missing that the sender still holds
      ([Repair]), and if that was all, the whole stream is delivered ([Complete]).
    - Every run: no panic written in the core is reached (memory, time sums and
      overflow checks aside, see the end of this text), failure is final, a listener keeps nothing for a
      peer without a cookie, bookkeeping stays bounded ([Safety], [Feedback]).
    - Sessions: the handshake establishes matching parameters and keys
      ([Session]); cookies, ids and rejections ([Admission]); a key rotation,
      which nothing but the peer's echo completes ([Rotation]); time-outs, idle peers, the graceful close ([Lifecycle]).
    - Transfer: a message crosses the wire intact and within the MTU
      ([Delivery]); retransmission, shedding and pacing ([Sending]); delivery on
      the sender's clock ([Receiving]); the ACK round trip ([Feedback]); the
      buffers' functional behaviour and the recovery of any single loss
      ([SendBuffer], [RecvBuffer], [Fec]).
    - Codecs: round trips, total and sound decoders ([Packet], [KeyMaterial],
      [LossList]); counters that differ for different packets of one direction ([Crypto];
      the two directions share them, [directions_share_numbers]).
    - Arithmetic: the circular order and the estimators ([Seq], [Rtt], [Drift],
      [Rate]).
    - The I/O layer: configuration errors come first and are exact ([Api]); a
      driver task adds nothing to the core and no panic, the application's
      stream is neither lost, repeated nor reordered, batching does not show on
      the wire ([DriverRuns], for callers that own their socket and for accepted
      connections alike); the Tokio socket is the socket this assumes,
      as far as the sends quinn-udp reports successful go ([TokioUdp]) and binding leaks none ([TokioBind]); the demultiplexer's tables stay consistent and
      each datagram goes where it belongs, a stranger's to the core listener, whose
      requests and responses are then settled and sent ([Strangers], [EndpointRuns]).

    Liveness of the peer and of the network is never assumed; [Repair] and
    [Complete] say what follows when the packets do arrive.  What a pair of
    endpoints does together is stated on the datagrams one queues and the other
    is fed.

    ** How the tasks are modelled

    An [await] stands for its completion: one round of a task is one step, and
    what it read (a datagram, the clock, random bytes) is an argument of the step.
    Between rounds the surroundings take arbitrary steps ([drives], [ep_step]): the
    application queues commands, reads or drops its handles; the network and the
    other tasks fill and empty channels.  Within a round nothing interleaves; in
    particular a command batch drains what was queued when it began.  Tasks that
    share a socket each see their own sends, which is all [UdpSpec] speaks of; which task's waker the shared socket keeps is
    not modelled (Tokio keeps the last one only).
    Senders cloned into two tables, and the peer address a task shares with the
    demultiplexer, are cells of a store named by the task's number.

    ** Not modelled

    - Tokio, quinn-udp and socket2 themselves: readiness, system calls and socket
      options are parameters.
    - The end-to-end theorems leave out FEC, because there the property fails
      ([fec_recovery_delivers_a_fragment]), and key rotation during the run (a
      rotation step is correct by itself, [Rotation]); they speak of streams of
      fewer than 2^30 fragments, since beyond that an old duplicate can be
      mistaken for a new packet.
    - [Display] and [Debug] texts, logging; accessors that return a field are the
      field.
    - Tests, the network simulator, benchmarks and examples.
    - Cryptographic strength: the laws of [CryptoSpec] say that unwrapping inverts
      wrapping and decryption inverts encryption, nothing about an attacker.
    - Memory: a list may grow as far as the model lets it; where the source bounds
      a buffer, so does the model.  One packet can make the receive buffer grow to
      2^30 slots.
    - Overflow panics: [Instant + Duration] panics for a latency, linger or idle
      time-out near [Duration::MAX], which [validate] lets through; checked builds
      also panic where a release build wraps (the [i64] drop budget, a rejection code
      near 2^32). *)

From stdpp Require Export prelude list gmap.
From Stdlib Require Export ZArith Lia.
From Stdlib Require Import Init.Byte Strings.Byte.
From coqutil Require Import Datatypes.RecordSetters.

#[global] Open Scope Z_scope.

(** One setter per field, so that updates stay small terms. *)
Ltac mk_setter getter :=
  lazymatch goal with |- @Setter ?R ?E _ => setter R E getter end.

Abbreviation byte := Corelib.Init.Byte.byte.
Abbreviation zero_byte := Corelib.Init.Byte.x00.

(** ** Outcomes

    A Rust function that can panic but not fail returns a [panicky]; one that
    returns a [Result] and can also panic returns a [res].  Panics are values
    here so that "never panics" is a theorem and not a convention. *)

Inductive panicky (A : Type) : Type :=
  | Ret (a : A)
  | Panic.
Arguments Ret {A} a.
Arguments Panic {A}.

Inductive res (E A : Type) : Type :=
  | Ok (a : A)
  | Err (e : E)
  | Crash.
Arguments Ok {E A} a.
Arguments Err {E A} e.
Arguments Crash {E A}.

#[export] Instance panicky_ret : MRet panicky := fun A a => Ret a.
#[export] Instance panicky_bind : MBind panicky := fun A B f m =>
  match m with Ret a => f a | Panic => Panic end.

#[export] Instance res_ret E : MRet (res E) := fun A a => Ok a.
#[export] Instance res_bind E : MBind (res E) := fun A B f m =>
  match m with Ok a => f a | Err e => Err e | Crash => Crash end.

#[export] Instance panicky_fmap : FMap panicky := fun A B f m =>
  match m with Ret a => Ret (f a) | Panic => Panic end.
#[export] Instance res_fmap E : FMap (res E) := fun A B f m =>
  match m with Ok a => Ok (f a) | Err e => Err e | Crash => Crash end.

(** Running a panicking computation inside a fallible one. *)
Definition lift {E A} (m : panicky A) : res E A :=
  match m with Ret a => Ok a | Panic => Crash end.

(** [Result::map_err], also what [?] does through [From]. *)
Definition map_err {E E' A} (f : E -> E') (m : res E A) : res E' A :=
  match m with Ok a => Ok a | Err e => Err (f e) | Crash => Crash end.

Definition no_panic {A} (m : panicky A) : Prop := m <> Panic.
Definition no_crash {E A} (m : res E A) : Prop := m <> Crash.

(** Total correctness of a panicking computation: it returns, and the result
    satisfies [Q]. *)
Definition wp {A} (m : panicky A) (Q : A -> Prop) : Prop :=
  match m with Ret a => Q a | Panic => False end.

Lemma wp_bind {A B} (m : panicky A) (k : A -> panicky B) Q R :
  wp m Q -> (forall a, Q a -> wp (k a) R) -> wp (m ≫= k) R.
Proof. destruct m; simpl; intros H1 H2; [by apply H2|done]. Qed.

Lemma wp_mono {A} (m : panicky A) (Q R : A -> Prop) :
  wp m Q -> (forall a, Q a -> R a) -> wp m R.
Proof. destruct m; simpl; auto. Qed.

Lemma wp_ret {A} (m : panicky A) Q : wp m Q <-> exists a, m = Ret a /\ Q a.
Proof.
  destruct m; simpl; split; intros H; [by eexists|by destruct H as (? & [= ->] & ?)|done|].
  by destruct H as (? & ? & _).
Qed.

(** Partial correctness: whatever it returns satisfies [Q]. *)
Definition wlp {A} (m : panicky A) (Q : A -> Prop) : Prop :=
  match m with Ret a => Q a | Panic => True end.

Lemma wlp_bind {A B} (m : panicky A) (k : A -> panicky B) Q R :
  wlp m Q -> (forall a, Q a -> wlp (k a) R) -> wlp (m ≫= k) R.
Proof. destruct m; simpl; intros H1 H2; [by apply H2|done]. Qed.

Lemma wlp_mono {A} (m : panicky A) (Q R : A -> Prop) :
  wlp m Q -> (forall a, Q a -> R a) -> wlp m R.
Proof. destruct m; simpl; auto. Qed.

Lemma wlp_any {A} (m : panicky A) (Q : A -> Prop) : (forall a, m = Ret a -> Q a) -> wlp m Q.
Proof. destruct m; simpl; auto. Qed.

Lemma wlp_and {A} (m : panicky A) (Q R : A -> Prop) :
  wlp m Q -> wlp m R -> wlp m (fun a => Q a /\ R a).
Proof. by destruct m. Qed.

Lemma wp_wlp {A} (m : panicky A) (Q : A -> Prop) : wp m Q -> wlp m Q.
Proof. by destruct m. Qed.

(** [expect]/[unwrap] on an option. *)
Definition expect {A} (o : option A) : panicky A :=
  match o with Some a => Ret a | None => Panic end.

(** ** Machine integers

    A [w]-bit unsigned integer is a [Z] in [[0, 2^w)]; arithmetic wraps where
    the source says [wrapping_*], saturates where it says [saturating_*]. *)

Definition u8_ok (z : Z) : Prop := 0 <= z < 256.
Definition u16_ok (z : Z) : Prop := 0 <= z < 65536.
Definition u32_ok (z : Z) : Prop := 0 <= z < 4294967296.
Definition u64_ok (z : Z) : Prop := 0 <= z < 18446744073709551616.

Definition u32_max : Z := 4294967295.
Definition u64_max : Z := 18446744073709551615.
Definition i64_max : Z := 9223372036854775807.
Definition u16_max : Z := 65535.

Definition wrap32 (z : Z) : Z := z mod 4294967296.
Definition wrap64 (z : Z) : Z := z mod 18446744073709551616.

(** [x as i32] for a [u32] [x]: two's complement reinterpretation. *)
Definition as_i32 (z : Z) : Z := if z <? 2147483648 then z else z - 4294967296.
(** [x as i8] for a [u8] [x] and back. *)
Definition as_i8 (z : Z) : Z := if z <? 128 then z else z - 256.

(** [u32::try_from(v).unwrap_or(u32::MAX)] and its siblings, for [v >= 0]. *)
Definition clamp (m v : Z) : Z := if v <=? m then v else m.

(** [u64::saturating_mul] / [abs_diff] / [saturating_sub]. *)
Definition sat_mul64 (a b : Z) : Z := clamp u64_max (a * b).
Definition abs_diff (a b : Z) : Z := Z.abs (a - b).
Definition sat_sub (a b : Z) : Z := Z.max 0 (a - b).

(** The counters of [Stats] are [u64]s bumped with [+=]. *)
Definition add64 (a b : Z) : Z := wrap64 (a + b).
Definition add32 (a b : Z) : Z := wrap32 (a + b).

(** ** Bytes *)

Definition u8_of_Z (z : Z) : byte :=
  match Byte.of_N (Z.to_N (z mod 256)) with Some b => b | None => x00 end.
Definition u8_to_Z (b : byte) : Z := Z.of_N (Byte.to_N b).

#[export] Instance byte_eq_dec : EqDecision byte := Byte.byte_eq_dec.

(** [u8 ^ u8] *)
Definition byte_xor (a b : byte) : byte := u8_of_Z (Z.lxor (u8_to_Z a) (u8_to_Z b)).

(** [uN::to_be_bytes] at [n] bytes and [uN::from_be_bytes]. *)
Fixpoint be_bytes (n : nat) (v : Z) : list byte :=
  match n with
  | O => []
  | S n => u8_of_Z (v / 256 ^ Z.of_nat n) :: be_bytes n v
  end.
Fixpoint be_val (bs : list byte) : Z :=
  match bs with
  | [] => 0
  | b :: bs => u8_to_Z b * 256 ^ Z.of_nat (length bs) + be_val bs
  end.

Lemma u8_to_Z_range b : 0 <= u8_to_Z b < 256.
Proof.
  unfold u8_to_Z. pose proof (Byte.to_N_bounded b). lia.
Qed.

Lemma u8_to_of z : u8_to_Z (u8_of_Z z) = z mod 256.
Proof.
  unfold u8_of_Z, u8_to_Z.
  pose proof (Z.mod_pos_bound z 256 ltac:(lia)) as Hb.
  destruct (Byte.of_N (Z.to_N (z mod 256))) eqn:E.
  - apply Byte.to_of_N in E. rewrite E. lia.
  - apply Byte.of_N_None_iff in E. lia.
Qed.

Lemma u8_to_Z_inj a b : u8_to_Z a = u8_to_Z b -> a = b.
Proof.
  unfold u8_to_Z. intros H.
  assert (Byte.to_N a = Byte.to_N b) as E by lia.
  pose proof (Byte.of_to_N a) as Ha. pose proof (Byte.of_to_N b) as Hb.
  rewrite E in Ha. congruence.
Qed.

Lemma u8_of_to b : u8_of_Z (u8_to_Z b) = b.
Proof.
  apply u8_to_Z_inj. rewrite u8_to_of. apply Z.mod_small, u8_to_Z_range.
Qed.

Lemma length_be_bytes n v : length (be_bytes n v) = n.
Proof. induction n; simpl; lia. Qed.

Lemma be_val_range bs : 0 <= be_val bs < 256 ^ Z.of_nat (length bs).
Proof.
  induction bs as [|b bs IH]; simpl be_val; [simpl; lia|].
  pose proof (u8_to_Z_range b). simpl length.
  rewrite Nat2Z.inj_succ, Z.pow_succ_r by lia. nia.
Qed.

Lemma be_val_app xs ys : be_val (xs ++ ys) = be_val xs * 256 ^ Z.of_nat (length ys) + be_val ys.
Proof.
  induction xs as [|x xs IH]; simpl be_val; [lia|].
  rewrite IH, length_app, Nat2Z.inj_add, Z.pow_add_r by lia. lia.
Qed.

Lemma be_val_bytes n v : be_val (be_bytes n v) = v mod 256 ^ Z.of_nat n.
Proof.
  induction n as [|n IH]; [simpl; by rewrite Z.mod_1_r|].
  cbn [be_bytes be_val]. rewrite u8_to_of, length_be_bytes, IH.
  rewrite Nat2Z.inj_succ, Z.pow_succ_r by lia.
  rewrite (Z.mul_comm 256), Z.rem_mul_r by lia. lia.
Qed.

Lemma be_bytes_mod n v : be_bytes n (v mod 256 ^ Z.of_nat n) = be_bytes n v.
Proof.
  enough (forall m, (n <= m)%nat -> be_bytes n (v mod 256 ^ Z.of_nat m) = be_bytes n v)
    as H by (apply H; lia).
  induction n as [|n IH]; intros m Hm; [done|].
  cbn [be_bytes]. rewrite IH by lia. f_equal.
  apply u8_to_Z_inj. rewrite !u8_to_of.
  replace (256 ^ Z.of_nat m) with (256 ^ Z.of_nat n * (256 * 256 ^ Z.of_nat (m - n - 1))).
  2: { rewrite <- Z.pow_succ_r, <- Z.pow_add_r by lia. f_equal. lia. }
  assert (0 < 256 ^ Z.of_nat n) by lia.
  assert (0 < 256 ^ Z.of_nat (m - n - 1)) by lia.
  rewrite Z.rem_mul_r by lia.
  rewrite Z.add_comm, (Z.mul_comm (256 ^ Z.of_nat n)), Z.div_add_l by lia.
  rewrite (Z.div_small (v mod _)) by (apply Z.mod_pos_bound; lia).
  rewrite Z.add_0_r, Z.rem_mul_r, (Z.mul_comm 256), Z.mod_add by lia.
  apply Z.mod_mod. lia.
Qed.

Lemma be_bytes_val bs n : length bs = n -> be_bytes n (be_val bs) = bs.
Proof.
  intros <-. induction bs as [|b bs IH]; [done|].
  cbn [length be_bytes be_val]. pose proof (be_val_range bs).
  rewrite Z.div_add_l, Z.div_small, Z.add_0_r, u8_of_to by lia. f_equal.
  rewrite <- be_bytes_mod, Z.add_comm, Z.mod_add, be_bytes_mod by lia. exact IH.
Qed.

#[global] Arguments be_bytes : simpl never.
#[global] Arguments be_val : simpl never.

Lemma be_bytes_inj n v w :
  0 <= v < 256 ^ Z.of_nat n -> 0 <= w < 256 ^ Z.of_nat n ->
  be_bytes n v = be_bytes n w -> v = w.
Proof.
  intros Hv Hw H. apply (f_equal be_val) in H.
  by rewrite !be_val_bytes, !Z.mod_small in H.
Qed.

(** ** Byte-wise xor *)

Lemma lxor_range k a b : 0 <= k -> 0 <= a < 2 ^ k -> 0 <= b < 2 ^ k -> 0 <= Z.lxor a b < 2 ^ k.
Proof.
  intros Hk Ha Hb. assert (0 <= Z.lxor a b) as H0 by (apply Z.lxor_nonneg; lia).
  split; [done|]. destruct (Z.eq_dec (Z.lxor a b) 0) as [->|Hne]; [lia|].
  apply Z.log2_lt_pow2; [lia|]. pose proof (Z.log2_lxor a b ltac:(lia) ltac:(lia)) as Hl.
  assert (forall z, 0 <= z < 2 ^ k -> z <> 0 -> Z.log2 z < k) as Hz.
  { intros z Hz Hnz. apply Z.log2_lt_pow2; lia. }
  destruct (Z.eq_dec a 0) as [->|Ha0]; [rewrite Z.lxor_0_l in *; apply Hz; lia|].
  destruct (Z.eq_dec b 0) as [->|Hb0]; [rewrite Z.lxor_0_r in *; apply Hz; lia|].
  pose proof (Hz a Ha Ha0). pose proof (Hz b Hb Hb0). lia.
Qed.

Lemma byte_xor_to_Z a b : u8_to_Z (byte_xor a b) = Z.lxor (u8_to_Z a) (u8_to_Z b).
Proof.
  unfold byte_xor. rewrite u8_to_of. apply Z.mod_small.
  apply (lxor_range 8); [lia|apply u8_to_Z_range..].
Qed.

Lemma byte_xor_comm a b : byte_xor a b = byte_xor b a.
Proof. apply u8_to_Z_inj. by rewrite !byte_xor_to_Z, Z.lxor_comm. Qed.
Lemma byte_xor_assoc a b c : byte_xor a (byte_xor b c) = byte_xor (byte_xor a b) c.
Proof. apply u8_to_Z_inj. by rewrite !byte_xor_to_Z, Z.lxor_assoc. Qed.
Lemma byte_xor_cancel a b : byte_xor (byte_xor a b) b = a.
Proof.
  apply u8_to_Z_inj. by rewrite !byte_xor_to_Z, Z.lxor_assoc, Z.lxor_nilpotent, Z.lxor_0_r.
Qed.
Lemma byte_xor_0_l b : byte_xor x00 b = b.
Proof. apply u8_to_Z_inj. by rewrite byte_xor_to_Z, Z.lxor_0_l. Qed.

(** [for (slot, byte) in xs.iter_mut().zip(ys) { *slot ^= byte }] *)
Fixpoint xor_zip (xs ys : list byte) : list byte :=
  match xs, ys with
  | x :: xs, y :: ys => byte_xor x y :: xor_zip xs ys
  | _, _ => xs
  end.

Lemma length_xor_zip xs ys : length (xor_zip xs ys) = length xs.
Proof. revert ys. induction xs as [|x xs IH]; intros [|y ys]; simpl; congruence. Qed.

Lemma xor_zip_comm xs ys zs : xor_zip (xor_zip xs ys) zs = xor_zip (xor_zip xs zs) ys.
Proof.
  revert ys zs. induction xs as [|x xs IH]; intros [|y ys] [|z zs]; try done.
  simpl. rewrite IH. f_equal. by rewrite <- !byte_xor_assoc, (byte_xor_comm y).
Qed.

Lemma xor_zip_cancel xs ys : xor_zip (xor_zip xs ys) ys = xs.
Proof.
  revert ys. induction xs as [|x xs IH]; intros [|y ys]; try done.
  simpl. by rewrite IH, byte_xor_cancel.
Qed.

(** Into a zeroed buffer: the bytes, cut or zero-padded to its length. *)
Lemma xor_zip_zeros n ys :
  (length ys <= n)%nat ->
  xor_zip (replicate n x00) ys = ys ++ replicate (n - length ys) x00.
Proof.
  revert ys. induction n as [|n IH]; intros [|y ys] H; simpl in *; try done; [lia|].
  rewrite IH, byte_xor_0_l by lia. done.
Qed.

(** Splitting a long enough list at [n]. *)
Lemma split_at_length {A} (n : nat) (l : list A) :
  (n <= length l)%nat -> exists p q, l = p ++ q /\ length p = n.
Proof.
  intros H. exists (take n l), (drop n l). split; [by rewrite take_drop|].
  rewrite length_take. lia.
Qed.

(** [Iterator::position] and [Iterator::rposition]. *)
Fixpoint position {A} (p : A -> bool) (l : list A) : option nat :=
  match l with
  | [] => None
  | x :: l => if p x then Some O else S <$> position p l
  end.

Fixpoint rposition {A} (p : A -> bool) (l : list A) : option nat :=
  match l with
  | [] => None
  | x :: l =>
      match rposition p l with
      | Some i => Some (S i)
      | None => if p x then Some O else None
      end
  end.

Lemma position_spec {A} (p : A -> bool) l i :
  position p l = Some i <->
  (exists x, l !! i = Some x /\ p x = true) /\
  (forall j y, (j < i)%nat -> l !! j = Some y -> p y = false).
Proof.
  revert i. induction l as [|x l IH]; intros i; simpl.
  { split; [done|]. intros [(y & Hy & _) _]. by rewrite lookup_nil in Hy. }
  destruct (p x) eqn:Hx.
  - split.
    + intros [= <-]. split; [by exists x|]. intros j y Hj. lia.
    + intros [(y & Hy & Hp) Hall]. destruct i as [|i]; [done|].
      specialize (Hall O x ltac:(lia) eq_refl). congruence.
  - rewrite fmap_Some. split.
    + intros (k & Hk & ->). apply IH in Hk as [Hex Hall]. split; [done|].
      intros [|j] y Hj Hy; simpl in Hy; [simplify_eq; congruence|]. apply (Hall j); [lia|done].
    + intros [(y & Hy & Hp) Hall]. destruct i as [|i]; simpl in Hy; [simplify_eq; congruence|].
      exists i. split; [|done]. apply IH. split; [by exists y|].
      intros j z Hj Hz. apply (Hall (S j)); [lia|done].
Qed.

Lemma rposition_spec {A} (p : A -> bool) l i :
  rposition p l = Some i <->
  (exists x, l !! i = Some x /\ p x = true) /\
  (forall j y, (i < j)%nat -> l !! j = Some y -> p y = false).
Proof.
  revert i. induction l as [|x l IH]; intros i; simpl.
  { split; [done|]. intros [(y & Hy & _) _]. by rewrite lookup_nil in Hy. }
  destruct (rposition p l) as [k|] eqn:Ek.
  - destruct (proj1 (IH k) eq_refl) as [(z & Hz & Hpz) Hall]. split.
    + intros [= <-]. split; [by exists z|].
      intros [|j] y Hj Hy; simpl in Hy; [lia|]. apply (Hall j); [lia|done].
    + intros [(y & Hy & Hp) Hall'].
      destruct i as [|i].
      { specialize (Hall' (S k) z ltac:(lia) Hz). congruence. }
      f_equal. assert (Some k = Some i) as [=]; [|congruence]. apply IH.
      split; [by exists y|]. intros j w Hj Hw. apply (Hall' (S j)); [lia|done].
  - assert (forall j y, l !! j = Some y -> p y = false) as Hno.
    { clear -Ek. induction l as [|a l IH]; intros j y Hy; [by rewrite lookup_nil in Hy|].
      simpl in Ek. destruct (rposition p l) eqn:El; [done|]. destruct (p a) eqn:Ha; [done|].
      destruct j; simpl in Hy; [simplify_eq; congruence|]. by eapply IH. }
    destruct (p x) eqn:Hx.
    + split.
      * intros [= <-]. split; [by exists x|]. intros [|j] y Hj Hy; [lia|]. by eapply Hno.
      * intros [(y & Hy & Hp) _]. destruct i as [|i]; [done|].
        apply Hno in Hy. congruence.
    + split; [done|]. intros [(y & Hy & Hp) _].
      destruct i as [|i]; simpl in Hy; [simplify_eq; congruence|]. apply Hno in Hy. congruence.
Qed.

Lemma rposition_none {A} (p : A -> bool) l :
  rposition p l = None -> Forall (fun x => p x = false) l.
Proof.
  induction l as [|a l IH]; simpl; intros H; constructor.
  - destruct (rposition p l); [done|]. by destruct (p a).
  - apply IH. by destruct (rposition p l).
Qed.

Lemma rposition_snoc {A} (p : A -> bool) l x :
  rposition p (l ++ [x]) = if p x then Some (length l) else rposition p l.
Proof.
  induction l as [|a l IH]; simpl; [by destruct (p x)|].
  rewrite IH. destruct (p x); [done|]. done.
Qed.

(** ** Queues that only grow

    [grows P l l']: [l'] is [l] with elements that satisfy [P] appended. *)
Definition grows {A} (P : A -> Prop) (l l' : list A) : Prop :=
  exists k, l' = l ++ k /\ Forall P k.

#[export] Instance grows_preorder {A} (P : A -> Prop) : PreOrder (grows P).
Proof.
  split.
  - intros l. exists []. split; [by rewrite app_nil_r|constructor].
  - intros l1 l2 l3 (k & -> & Hk) (k' & -> & Hk'). exists (k ++ k').
    split; [by rewrite app_assoc|]. by apply Forall_app.
Qed.

Lemma grows_snoc {A} (P : A -> Prop) l x : P x -> grows P l (l ++ [x]).
Proof. intros H. exists [x]. split; [done|]. by constructor. Qed.

Lemma grows_prefix {A} (P : A -> Prop) l l' : grows P l l' -> prefix l l'.
Proof. intros (k & -> & _). by exists k. Qed.

Lemma grows_Forall {A} (P : A -> Prop) l l' : grows P l l' -> Forall P l -> Forall P l'.
Proof. intros (k & -> & Hk) Hl. by apply Forall_app. Qed.

(** ** Bit masks and shifts as arithmetic *)

Lemma land_mask k z : 0 <= k -> Z.land z (2 ^ k - 1) = z mod 2 ^ k.
Proof. intros. rewrite <- Z.land_ones by lia. f_equal. rewrite Z.ones_equiv. lia. Qed.

Lemma land_mask31 z : Z.land z 0x7FFFFFFF = z mod 0x80000000.
Proof. exact (land_mask 31 z ltac:(lia)). Qed.

(** Testing the single bit [2^k]. *)
Lemma land_bit k z : 0 <= k -> Z.land z (2 ^ k) = if Z.testbit z k then 2 ^ k else 0.
Proof.
  intros Hk. apply Z.bits_inj'. intros i Hi. rewrite Z.land_spec.
  destruct (decide (i = k)) as [->|Hne].
  - rewrite Z.pow2_bits_true by lia. rewrite andb_true_r.
    destruct (Z.testbit z k) eqn:E; [by rewrite Z.pow2_bits_true|by rewrite Z.bits_0].
  - rewrite Z.pow2_bits_false by lia. rewrite andb_false_r.
    destruct (Z.testbit z k); [by rewrite Z.pow2_bits_false by lia|by rewrite Z.bits_0].
Qed.

Lemma testbit_div k z : 0 <= k -> Z.testbit z k = (z / 2 ^ k mod 2 =? 1).
Proof.
  intros Hk.
  destruct (Z.testbit z k) eqn:E.
  - apply Z.testbit_true in E; [|lia]. by rewrite E.
  - apply Z.testbit_false in E; [|lia]. by rewrite E.
Qed.

(** Or-ing fields that do not overlap is adding them. *)
Lemma lor_add a b k : 0 <= k -> 0 <= b < 2 ^ k -> Z.lor (a * 2 ^ k) b = a * 2 ^ k + b.
Proof.
  intros Hk Hb. rewrite <- Z.shiftl_mul_pow2 by lia.
  rewrite <- Z.lxor_lor, Z.add_nocarry_lxor; [done|..].
  all: apply Z.bits_inj'; intros i Hi; rewrite Z.land_spec, Z.bits_0.
  all: destruct (decide (i < k)) as [Hlt|Hge];
    [rewrite Z.shiftl_spec_low by lia; done|].
  all: rewrite <- (Z.mod_small b (2 ^ k)) by lia;
    rewrite Z.mod_pow2_bits_high by lia; apply andb_false_r.
Qed.

(** [lia] after turning [/] and [mod] by constants into linear facts. *)
Create HintDb srt.

Ltac zmod := unfold wrap32, wrap64, as_i32, clamp, add32, add64 in *;
  Z.to_euclidean_division_equations; lia.
