(* ===== verification/Buf.v ===== *)
(** * Buf: the byte-buffer interface of the codecs

    The [bytes] crate is not part of this repository, so the codecs are written
    against its interface: [BytesApi] holds the operations the sources call on
    [BytesMut] (append) and on a [&[u8]] cursor (consume), [BytesSpec] states
    their documented behaviour (big-endian order, panic on underrun).
    [vec_bytes] is one implementation, used by the witnesses. *)

From S2P Require Import Prelude.

Class BytesApi : Type := {
  put_u8 : list byte -> Z -> list byte;
  put_u16 : list byte -> Z -> list byte;
  put_u32 : list byte -> Z -> list byte;
  put_slice : list byte -> list byte -> list byte;
  remaining : list byte -> nat;
  get_u8 : list byte -> panicky (Z * list byte);
  get_u16 : list byte -> panicky (Z * list byte);
  get_u32 : list byte -> panicky (Z * list byte);
  (** [copy_to_slice] into an [n]-byte array, [copy_to_bytes(n)] *)
  copy_to_slice : nat -> list byte -> panicky (list byte * list byte);
  copy_to_bytes : nat -> list byte -> panicky (list byte * list byte);
}.

(** Reading [n] bytes off the front: the cursor advances, an underrun panics. *)
Definition take_front (n : nat) (buf : list byte) : panicky (list byte * list byte) :=
  if decide (n <= length buf)%nat then Ret (take n buf, drop n buf) else Panic.

Definition take_be (n : nat) (buf : list byte) : panicky (Z * list byte) :=
  '(p, r) ← take_front n buf; Ret (be_val p, r).

Class BytesSpec (B : BytesApi) : Prop := {
  put_u8_spec out v : put_u8 out v = out ++ be_bytes 1 v;
  put_u16_spec out v : put_u16 out v = out ++ be_bytes 2 v;
  put_u32_spec out v : put_u32 out v = out ++ be_bytes 4 v;
  put_slice_spec out s : put_slice out s = out ++ s;
  remaining_spec buf : remaining buf = length buf;
  get_u8_spec buf : get_u8 buf = take_be 1 buf;
  get_u16_spec buf : get_u16 buf = take_be 2 buf;
  get_u32_spec buf : get_u32 buf = take_be 4 buf;
  copy_to_slice_spec n buf : copy_to_slice n buf = take_front n buf;
  copy_to_bytes_spec n buf : copy_to_bytes n buf = take_front n buf;
}.

#[export] Instance vec_bytes : BytesApi := {
  put_u8 out v := out ++ be_bytes 1 v;
  put_u16 out v := out ++ be_bytes 2 v;
  put_u32 out v := out ++ be_bytes 4 v;
  put_slice out s := out ++ s;
  remaining := length;
  get_u8 := take_be 1;
  get_u16 := take_be 2;
  get_u32 := take_be 4;
  copy_to_slice := take_front;
  copy_to_bytes := take_front;
}.

#[export] Instance vec_bytes_spec : BytesSpec vec_bytes.
Proof. by constructor. Qed.

(** ** Consequences the codecs use *)

Lemma take_front_app n p r : length p = n -> take_front n (p ++ r) = Ret (p, r).
Proof.
  intros <-. unfold take_front. rewrite decide_True by (rewrite length_app; lia).
  by rewrite take_app_length, drop_app_length.
Qed.

Lemma take_front_short n buf : (length buf < n)%nat -> take_front n buf = Panic.
Proof. intros. unfold take_front. by rewrite decide_False by lia. Qed.

(** Enough input: the read succeeds and splits the buffer. *)
Lemma take_front_ok n buf :
  (n <= length buf)%nat ->
  exists p r, take_front n buf = Ret (p, r) /\ buf = p ++ r /\ length p = n.
Proof.
  intros [p [r [-> Hp]]]%split_at_length. exists p, r. split_and!; [|done..].
  by apply take_front_app.
Qed.

Lemma take_be_app n v r :
  0 <= v < 256 ^ Z.of_nat n -> take_be n (be_bytes n v ++ r) = Ret (v, r).
Proof.
  intros Hv. unfold take_be. rewrite take_front_app by apply length_be_bytes. simpl.
  by rewrite be_val_bytes, Z.mod_small.
Qed.

Lemma take_be_ok n buf :
  (n <= length buf)%nat ->
  exists v r, take_be n buf = Ret (v, r) /\ buf = be_bytes n v ++ r /\
              0 <= v < 256 ^ Z.of_nat n.
Proof.
  intros (p & r & E & -> & Hp)%take_front_ok. exists (be_val p), r.
  unfold take_be. rewrite E. split_and!; [done| |..].
  - by rewrite be_bytes_val.
  - subst n. apply be_val_range.
  - subst n. apply be_val_range.
Qed.

Create Rewrite HintDb bytes.
#[export] Hint Rewrite @put_u8_spec @put_u16_spec @put_u32_spec @put_slice_spec
  @remaining_spec @get_u8_spec @get_u16_spec @get_u32_spec @copy_to_slice_spec
  @copy_to_bytes_spec using typeclasses eauto : bytes.

(** Replace the interface by its specification everywhere. *)
Ltac buf_spec := autorewrite with bytes in *.

Ltac buf_len := rewrite ?length_app, ?length_be_bytes in *; simpl in *; lia.

(** A value fits its field. *)
Ltac be_side := first
  [ assumption
  | match goal with |- 0 <= ?v < 256 ^ Z.of_nat ?n =>
      let b := eval vm_compute in (256 ^ Z.of_nat n) in change (0 <= v < b)
    end; unfold u8_ok, u16_ok, u32_ok in *; lia ].

(** Consume one field: the goal reads [take_be n (be_bytes n v ++ r)] or
    [take_front n (p ++ r)] under a bind. *)
Ltac buf_read :=
  rewrite ?get_u8_spec, ?get_u16_spec, ?get_u32_spec, ?copy_to_slice_spec,
    ?copy_to_bytes_spec; rewrite <- ?app_assoc;
  first
    [ rewrite take_be_app by be_side
    | rewrite take_front_app by (assumption || buf_len) ];
  cbn [mbind panicky_bind res_bind lift].

(** Read one field off a buffer known to be long enough. *)
Ltac buf_take n buf v r Hv :=
  rewrite ?get_u8_spec, ?get_u16_spec, ?get_u32_spec;
  let E := fresh in
  destruct (take_be_ok n buf ltac:(buf_len)) as (v & r & E & -> & Hv);
  rewrite E; clear E; rewrite ?length_app, ?length_be_bytes in *;
  cbn [mbind panicky_bind res_bind lift].
