(* ===== verification/Seq.v ===== *)
(** * Seq: 31-bit circular sequence numbers ([seq.rs])

    [SeqNumber] is the newtype over [u32]; [seq_ok] is the 31-bit invariant its
    private field keeps.  The circular offset is characterised once
    ([offset_from_spec]) and every later proof goes through that lemma. *)

From S2P Require Import Prelude.

Record SeqNumber : Type := MkSeq { seq_raw : Z }.

#[export] Instance seq_eq_dec : EqDecision SeqNumber.
Proof. solve_decision. Defined.

Definition seq_MASK : Z := 0x7FFFFFFF.
Definition seq_COUNT : Z := 0x80000000.
Definition seq_THRESHOLD : Z := 0x3FFFFFFF.

Definition seq_ok (s : SeqNumber) : Prop := 0 <= seq_raw s < seq_COUNT.

Definition seq_new (value : Z) : SeqNumber := MkSeq (Z.land value seq_MASK).
Definition seq_value (s : SeqNumber) : Z := seq_raw s.

Definition seq_ZERO : SeqNumber := MkSeq 0.
Definition seq_MAX : SeqNumber := MkSeq seq_MASK.

Definition seq_next (s : SeqNumber) : SeqNumber :=
  MkSeq (Z.land (seq_raw s + 1) seq_MASK).

Definition seq_prev (s : SeqNumber) : SeqNumber :=
  MkSeq (Z.land (wrap32 (seq_raw s - 1)) seq_MASK).

(** [offset_from]: both subtractions wrap at [2^32]; the result is an [i32]. *)
Definition offset_from (s other : SeqNumber) : Z :=
  let forward := Z.land (wrap32 (seq_raw s - seq_raw other)) seq_MASK in
  if forward <=? seq_THRESHOLD then as_i32 forward
  else as_i32 (wrap32 (forward - seq_COUNT)).

Definition circular_cmp (s other : SeqNumber) : comparison :=
  match Z.sgn (offset_from s other) with
  | 1 => Gt
  | -1 => Lt
  | _ => Eq
  end.

(** [impl Add<u32>] *)
Definition seq_add (s : SeqNumber) (n : Z) : SeqNumber :=
  MkSeq (Z.land (wrap32 (seq_raw s + n)) seq_MASK).

(** ** Arithmetic reading *)

Lemma seq_new_mod v : seq_raw (seq_new v) = v mod 0x80000000.
Proof. apply land_mask31. Qed.

Lemma wrap32_mod31 z : wrap32 z mod 0x80000000 = z mod 0x80000000.
Proof. zmod. Qed.

Lemma seq_next_mod s : seq_raw (seq_next s) = (seq_raw s + 1) mod 0x80000000.
Proof. apply land_mask31. Qed.

Lemma seq_prev_mod s : seq_raw (seq_prev s) = (seq_raw s - 1) mod 0x80000000.
Proof. cbn. by rewrite land_mask31, wrap32_mod31. Qed.

Lemma seq_add_mod s n : seq_raw (seq_add s n) = (seq_raw s + n) mod 0x80000000.
Proof. cbn. by rewrite land_mask31, wrap32_mod31. Qed.

Lemma seq_eq a b : seq_raw a = seq_raw b -> a = b.
Proof. destruct a, b; simpl; congruence. Qed.

(** The circular offset of [s] from [other] is the representative of their
    difference modulo [2^31] in [-2^30 .. 2^30 - 1]. *)
Lemma offset_from_eq s other :
  offset_from s other =
  (seq_raw s - seq_raw other + 0x40000000) mod 0x80000000 - 0x40000000.
Proof.
  unfold offset_from, seq_MASK, seq_THRESHOLD, seq_COUNT.
  rewrite land_mask31, wrap32_mod31.
  destruct (Z.leb_spec ((seq_raw s - seq_raw other) mod 0x80000000) 0x3FFFFFFF).
  - unfold as_i32. rewrite (proj2 (Z.ltb_lt _ _)) by lia. zmod.
  - assert (wrap32 ((seq_raw s - seq_raw other) mod 0x80000000 - 0x80000000)
            = (seq_raw s - seq_raw other) mod 0x80000000 + 0x80000000) as -> by zmod.
    unfold as_i32. rewrite (proj2 (Z.ltb_ge _ _)) by zmod. zmod.
Qed.

Lemma offset_from_range s other : -0x40000000 <= offset_from s other < 0x40000000.
Proof. rewrite offset_from_eq. zmod. Qed.

Lemma offset_from_unique s other d :
  -0x40000000 <= d < 0x40000000 ->
  (seq_raw s - seq_raw other - d) mod 0x80000000 = 0 ->
  offset_from s other = d.
Proof. intros. rewrite offset_from_eq. zmod. Qed.

Lemma offset_from_spec s other d :
  seq_ok s -> -0x40000000 <= d < 0x40000000 ->
  offset_from s other = d <-> s = MkSeq ((seq_raw other + d) mod 0x80000000).
Proof.
  intros [Hs1 Hs2] Hd. unfold seq_COUNT in *. split.
  - intros <-. apply seq_eq. simpl. rewrite offset_from_eq. zmod.
  - intros ->. apply offset_from_unique; simpl in *; [lia|]. zmod.
Qed.

Lemma circular_cmp_eq a b :
  circular_cmp a b = (offset_from a b ?= 0).
Proof.
  unfold circular_cmp. destruct (offset_from a b); reflexivity.
Qed.

Lemma circular_lt a b : circular_cmp a b = Lt <-> offset_from a b < 0.
Proof. rewrite circular_cmp_eq. apply Z.compare_lt_iff. Qed.
Lemma circular_gt a b : circular_cmp a b = Gt <-> 0 < offset_from a b.
Proof. rewrite circular_cmp_eq. apply Z.compare_gt_iff. Qed.

(** ** The 31-bit invariant *)

Lemma seq_new_ok v : seq_ok (seq_new v).
Proof. unfold seq_ok, seq_COUNT. rewrite seq_new_mod. zmod. Qed.
Lemma seq_next_ok s : seq_ok (seq_next s).
Proof. unfold seq_ok, seq_COUNT. rewrite seq_next_mod. zmod. Qed.
Lemma seq_prev_ok s : seq_ok (seq_prev s).
Proof. unfold seq_ok, seq_COUNT. rewrite seq_prev_mod. zmod. Qed.
Lemma seq_add_ok s n : seq_ok (seq_add s n).
Proof. unfold seq_ok, seq_COUNT. rewrite seq_add_mod. zmod. Qed.

#[export] Hint Resolve seq_new_ok seq_next_ok seq_prev_ok seq_add_ok : srt.

(** ** Shared consequences *)

Lemma seq_new_value s : seq_ok s -> seq_new (seq_value s) = s.
Proof.
  intros H. apply seq_eq. rewrite seq_new_mod. unfold seq_value.
  apply Z.mod_small, H.
Qed.

Lemma seq_prev_next s : seq_ok s -> seq_prev (seq_next s) = s.
Proof.
  intros [H1 H2]. unfold seq_COUNT in *. apply seq_eq.
  rewrite seq_prev_mod, seq_next_mod. zmod.
Qed.

Lemma seq_next_prev s : seq_ok s -> seq_next (seq_prev s) = s.
Proof.
  intros [H1 H2]. unfold seq_COUNT in *. apply seq_eq.
  rewrite seq_next_mod, seq_prev_mod. zmod.
Qed.

Lemma seq_next_inj a b : seq_ok a -> seq_ok b -> seq_next a = seq_next b -> a = b.
Proof.
  intros Ha Hb H. rewrite <- (seq_prev_next a), H by done. by apply seq_prev_next.
Qed.

Lemma seq_add_0 s : seq_ok s -> seq_add s 0 = s.
Proof.
  intros [H1 H2]. apply seq_eq. rewrite seq_add_mod, Z.add_0_r. apply Z.mod_small.
  unfold seq_COUNT in *. lia.
Qed.

Lemma seq_add_next s n : seq_next (seq_add s n) = seq_add s (n + 1).
Proof. apply seq_eq. rewrite seq_next_mod, !seq_add_mod. zmod. Qed.

Lemma seq_next_add s n : seq_add (seq_next s) n = seq_add s (n + 1).
Proof. apply seq_eq. rewrite !seq_add_mod, seq_next_mod. zmod. Qed.

Lemma seq_add_add s n m : seq_add (seq_add s n) m = seq_add s (n + m).
Proof. apply seq_eq. rewrite !seq_add_mod. zmod. Qed.

Lemma seq_add_1 s : seq_add s 1 = seq_next s.
Proof. apply seq_eq. by rewrite seq_add_mod, seq_next_mod. Qed.

Lemma offset_from_add s d :
  -0x40000000 <= d < 0x40000000 -> offset_from (seq_add s d) s = d.
Proof. intros. apply offset_from_unique; [done|]. rewrite seq_add_mod. zmod. Qed.

Lemma offset_from_self s : offset_from s s = 0.
Proof. apply offset_from_unique; [lia|]. zmod. Qed.

Lemma seq_add_offset s other :
  seq_ok s -> seq_add other (offset_from s other) = s.
Proof.
  intros H. symmetry.
  rewrite (proj1 (offset_from_spec s other _ H (offset_from_range s other)) eq_refl) at 1.
  apply seq_eq. by rewrite seq_add_mod.
Qed.

Lemma offset_from_add_l s other n :
  -0x40000000 <= offset_from s other + n < 0x40000000 ->
  offset_from (seq_add s n) other = offset_from s other + n.
Proof.
  intros H. apply offset_from_unique; [done|]. rewrite seq_add_mod.
  rewrite offset_from_eq in *. zmod.
Qed.

Lemma offset_from_inj a b c :
  seq_ok a -> seq_ok b -> offset_from a c = offset_from b c -> a = b.
Proof.
  intros Ha Hb H. rewrite <- (seq_add_offset a c), H by done. by apply seq_add_offset.
Qed.

Lemma seq_add_inj s n m :
  0 <= n < 0x80000000 -> 0 <= m < 0x80000000 -> seq_add s n = seq_add s m -> n = m.
Proof.
  intros Hn Hm H. apply (f_equal seq_raw) in H. rewrite !seq_add_mod in H. zmod.
Qed.

(** Circular sequence arithmetic.  [offset_from] is the unique
    signed distance in [[-2^30, 2^30)] that leads from one 31-bit number to the
    other, adding it back returns the number, the circular order is its sign,
    and on numbers within a quarter of the space of each other that order is
    antisymmetric and transitive, across the wrap included. *)
Theorem circular_order (a b c : SeqNumber) :
  seq_ok a -> seq_ok b -> seq_ok c ->
  (forall d, -0x40000000 <= d < 0x40000000 -> offset_from a b = d <-> a = seq_add b d) /\
  seq_add b (offset_from a b) = a /\
  circular_cmp a b = (offset_from a b ?= 0) /\
  (-0x40000000 < offset_from a b -> offset_from b a = - offset_from a b) /\
  (-0x20000000 <= offset_from a b < 0x20000000 -> -0x20000000 <= offset_from b c < 0x20000000 ->
   offset_from a c = offset_from a b + offset_from b c).
Proof.
  intros Ha Hb Hc. split_and!.
  - intros d Hd. rewrite (offset_from_spec a b d Ha Hd). split; intros ->; apply seq_eq;
      by rewrite seq_add_mod.
  - by apply seq_add_offset.
  - apply circular_cmp_eq.
  - rewrite !offset_from_eq. zmod.
  - rewrite !offset_from_eq. zmod.
Qed.

Lemma circular_order_witness :
  offset_from (MkSeq 2) (MkSeq 0x7ffffffe) = 4 /\ offset_from (MkSeq 0x7ffffffe) (MkSeq 2) = -4.
Proof.
  destruct (circular_order (MkSeq 2) (MkSeq 0x7ffffffe) (MkSeq 9)) as (H1 & _ & _ & H2 & _);
    [by vm_compute..|].
  assert (offset_from (MkSeq 2) (MkSeq 0x7ffffffe) = 4) as E by (apply H1; [lia|reflexivity]).
  split; [exact E|]. rewrite H2; rewrite E; [reflexivity|lia].
Defined.
