(* ===== verification/Reject.v ===== *)
(** * Reject: handshake types and rejection reasons ([handshake.rs])

    The handshake-type newtype and the rejection codes it carries.  They are
    split from [Handshake] because [error.rs] mentions them too. *)

From S2P Require Import Prelude.

(** ** [HandshakeType] *)

Record HandshakeType : Type := MkHsType { hst_raw : Z }.

Definition hst_WAVEHAND := MkHsType 0x00000000.
Definition hst_INDUCTION := MkHsType 0x00000001.
Definition hst_CONCLUSION := MkHsType 0xFFFFFFFF.
Definition hst_AGREEMENT := MkHsType 0xFFFFFFFE.
Definition hst_DONE := MkHsType 0xFFFFFFFD.
Definition hst_REJECTION_BASE : Z := 1000.

Definition hst_from_raw (value : Z) : HandshakeType := MkHsType value.
Definition hst_to_raw (t : HandshakeType) : Z := hst_raw t.

#[export] Instance hst_eq_dec : EqDecision HandshakeType.
Proof. solve_decision. Defined.

(** ** [RejectReason] *)

Inductive RejectReason : Type :=
  | RejUnknown | RejSystem | RejPeer | RejResource | RejRogue | RejBacklog
  | RejInternalError | RejClose | RejVersion | RejRdvCookie | RejBadSecret
  | RejUnsecure | RejMessageApi | RejCongestion | RejFilter | RejGroup
  | RejTimeout
  | RejOther (code : Z).

#[export] Instance reject_reason_eq_dec : EqDecision RejectReason.
Proof. solve_decision. Defined.

Definition rej_code (r : RejectReason) : Z :=
  match r with
  | RejUnknown => 0 | RejSystem => 1 | RejPeer => 2 | RejResource => 3
  | RejRogue => 4 | RejBacklog => 5 | RejInternalError => 6 | RejClose => 7
  | RejVersion => 8 | RejRdvCookie => 9 | RejBadSecret => 10
  | RejUnsecure => 11 | RejMessageApi => 12 | RejCongestion => 13
  | RejFilter => 14 | RejGroup => 15 | RejTimeout => 16
  | RejOther code => code
  end.

Definition rej_from_code (code : Z) : RejectReason :=
  match code with
  | 0 => RejUnknown | 1 => RejSystem | 2 => RejPeer | 3 => RejResource
  | 4 => RejRogue | 5 => RejBacklog | 6 => RejInternalError | 7 => RejClose
  | 8 => RejVersion | 9 => RejRdvCookie | 10 => RejBadSecret
  | 11 => RejUnsecure | 12 => RejMessageApi | 13 => RejCongestion
  | 14 => RejFilter | 15 => RejGroup | 16 => RejTimeout
  | other => RejOther other
  end.

(** [HandshakeType::rejection]: a plain [u32] addition. *)
Definition hst_rejection (reason : RejectReason) : HandshakeType :=
  MkHsType (wrap32 (hst_REJECTION_BASE + rej_code reason)).

Definition hst_reject_reason (t : HandshakeType) : option RejectReason :=
  if (hst_REJECTION_BASE <=? hst_raw t) && (hst_raw t <? hst_raw hst_DONE)
  then Some (rej_from_code (hst_raw t - hst_REJECTION_BASE))
  else None.

(** A reason is canonical when no named variant has its code. *)
Definition rej_canonical (r : RejectReason) : Prop :=
  match r with RejOther c => 16 < c | _ => True end.

(** ** Properties *)

Lemma rej_code_from_code code : rej_code (rej_from_code code) = code.
Proof.
  unfold rej_from_code. destruct code as [|p|p]; try reflexivity.
  do 5 (try (destruct p as [p|p|]; try reflexivity)).
Qed.

Lemma rej_from_code_other c : 16 < c -> rej_from_code c = RejOther c.
Proof.
  intros H. destruct c as [|p|p]; try lia.
  do 5 (try (destruct p as [p|p|]; try reflexivity; try lia)).
Qed.

Lemma rej_from_code_code r : rej_canonical r -> rej_from_code (rej_code r) = r.
Proof.
  destruct r as [| | | | | | | | | | | | | | | | |c]; intros Hc; try reflexivity.
  by apply rej_from_code_other.
Qed.

Lemma hst_reject_roundtrip r :
  rej_canonical r -> 0 <= rej_code r < 0xFFFFFFFD - 1000 ->
  hst_reject_reason (hst_rejection r) = Some r.
Proof.
  intros Hc Hr. unfold hst_reject_reason, hst_rejection, hst_REJECTION_BASE. simpl.
  unfold wrap32. rewrite Z.mod_small by lia.
  rewrite (proj2 (Z.leb_le _ _)), (proj2 (Z.ltb_lt _ _)) by lia. simpl.
  do 2 f_equal. replace (1000 + rej_code r - 1000) with (rej_code r) by lia.
  by apply rej_from_code_code.
Qed.
