(* ===== verification/Errors.v ===== *)
(** * Errors: the error enums ([error.rs])

    Each codec layer has its own error type; the [#[from]] conversions are the
    constructors [PeControl], [CeLossList], [CeHandshake], [CoDecode] and
    [CoCrypto]. *)

From stdpp Require Import strings.
From S2P Require Import Prelude Reject.

Inductive LossListError : Type :=
  | Misaligned (len : nat)
  | TruncatedRange.

Inductive HandshakeError : Type :=
  | HsTooShort (need got : nat)
  | InvalidEncryptionField (raw : Z)
  | ExtensionLength (ext_type : Z) (claimed available : nat)
  | ExtensionContent (ext_type : Z) (len : nat)
  | InvalidStreamId.

Inductive ControlError : Type :=
  | UnknownType (raw : Z)
  | InvalidCifLength (kind : string) (len : nat)
  | CeLossList (e : LossListError)
  | CeHandshake (e : HandshakeError).

Inductive PacketError : Type :=
  | PktTooShort (need got : nat)
  | InvalidKeyFlag (flag : Z)
  | PeControl (e : ControlError).

Inductive CryptoError : Type :=
  | KmTooShort (need got : nat)
  | UnsupportedVersion (v : Z)
  | InvalidPacketType (pt : Z)
  | InvalidSignature (sign : Z)
  | InvalidKeyFlags (kk : Z)
  | UnsupportedCipher (c : Z)
  | InvalidSaltLength (len : nat)
  | InvalidKeyLength (len : nat)
  | IntegrityCheckFailed
  | AuthFailed
  | MissingKeyMaterial
  | UnexpectedKeyMaterial.

Inductive ConfigError : Type :=
  | LatencyTooLow (min_ms : Z)
  | MtuOutOfRange (mtu : Z)
  | FlowWindowTooSmall (min : Z)
  | PassphraseLength (len : nat)
  | ConnectTimeoutTooLow
  | PeerIdleTimeoutTooLow.

Inductive ConnectionError : Type :=
  | HandshakeTimeout
  | ConnTimeout
  | Rejected (reason : RejectReason)
  | InvalidState
  | CoDecode (e : PacketError)
  | CoCrypto (e : CryptoError).

#[export] Instance loss_list_error_eq_dec : EqDecision LossListError.
Proof. solve_decision. Defined.
#[export] Instance handshake_error_eq_dec : EqDecision HandshakeError.
Proof. solve_decision. Defined.
#[export] Instance control_error_eq_dec : EqDecision ControlError.
Proof. solve_decision. Defined.
#[export] Instance packet_error_eq_dec : EqDecision PacketError.
Proof. solve_decision. Defined.
#[export] Instance crypto_error_eq_dec : EqDecision CryptoError.
Proof. solve_decision. Defined.
#[export] Instance config_error_eq_dec : EqDecision ConfigError.
Proof. solve_decision. Defined.
#[export] Instance connection_error_eq_dec : EqDecision ConnectionError.
Proof. solve_decision. Defined.
