(* ===== verification/LossList.v ===== *)
(** * LossList: the NAK loss-list codec ([loss_list.rs])

    [loss_encode]/[loss_decode] follow the source; [parse_words] is the
    word-level specification (spec Appendix A) that [loss_decode] refines. *)

From S2P Require Import Prelude Buf Errors Seq.

Definition RANGE_FLAG : Z := 0x80000000.

Record LossRange : Type := MkRange { range_start : SeqNumber; range_end : SeqNumber }.

#[export] Instance loss_range_eq_dec : EqDecision LossRange.
Proof. solve_decision. Defined.

Definition range_single (s : SeqNumber) : LossRange := MkRange s s.
Definition range_new (start stop : SeqNumber) : LossRange := MkRange start stop.
Definition is_single (r : LossRange) : bool :=
  seq_value (range_start r) =? seq_value (range_end r).

Definition range_ok (r : LossRange) : Prop := seq_ok (range_start r) /\ seq_ok (range_end r).

Section Codec.
Context {B : BytesApi}.

Definition loss_encode_one (out : list byte) (range : LossRange) : list byte :=
  if is_single range then put_u32 out (seq_value (range_start range))
  else
    let out := put_u32 out (Z.lor (seq_value (range_start range)) RANGE_FLAG) in
    put_u32 out (seq_value (range_end range)).

Definition loss_encode (ranges : list LossRange) (out : list byte) : list byte :=
  foldl loss_encode_one out ranges.

(** The [while cur.has_remaining()] loop; each round consumes a word. *)
Fixpoint loss_decode_loop (fuel : nat) (cur : list byte) (ranges : list LossRange)
  : res LossListError (list LossRange) :=
  match fuel with
  | O => Crash
  | S fuel =>
      if (remaining cur =? 0)%nat then Ok ranges else
      '(word, cur) ← lift (get_u32 cur);
      if negb (Z.land word RANGE_FLAG =? 0) then
        if (remaining cur <? 4)%nat then Err TruncatedRange else
        let start := seq_new word in
        '(w2, cur) ← lift (get_u32 cur);
        loss_decode_loop fuel cur (ranges ++ [range_new start (seq_new w2)])
      else
        loss_decode_loop fuel cur (ranges ++ [range_single (seq_new word)])
  end.

Definition loss_decode (buf : list byte) : res LossListError (list LossRange) :=
  if negb (length buf mod 4 =? 0)%nat then Err (Misaligned (length buf))
  else loss_decode_loop (S (length buf)) buf [].
End Codec.

(** ** Specification: the list of 32-bit words *)

Fixpoint parse_words (ws : list Z) : option (list LossRange) :=
  match ws with
  | [] => Some []
  | w :: ws =>
      if RANGE_FLAG <=? w then
        match ws with
        | [] => None
        | w2 :: ws => cons (range_new (seq_new w) (seq_new w2)) <$> parse_words ws
        end
      else cons (range_single (seq_new w)) <$> parse_words ws
  end.

Definition range_words (r : LossRange) : list Z :=
  if is_single r then [seq_value (range_start r)]
  else [seq_value (range_start r) + RANGE_FLAG; seq_value (range_end r)].

Definition words_bytes (ws : list Z) : list byte := ws ≫= be_bytes 4.

Lemma length_words_bytes ws : length (words_bytes ws) = (4 * length ws)%nat.
Proof.
  induction ws; [done|]. cbn [words_bytes mbind list_bind length].
  rewrite length_app, length_be_bytes. fold (words_bytes ws). lia.
Qed.

(** Every word-aligned buffer is the encoding of its words. *)
Lemma aligned_words buf :
  (length buf mod 4 = 0)%nat -> exists ws, buf = words_bytes ws /\ Forall u32_ok ws.
Proof.
  intros H. remember (length buf) as n eqn:Hn. revert buf Hn H.
  induction (lt_wf n) as [n _ IH]. intros buf Hn H.
  destruct (decide (n = 0)%nat) as [->|Hne].
  { exists []. destruct buf; [done|done]. }
  assert (4 <= n)%nat by (pose proof (Nat.div_mod_eq n 4); lia).
  destruct (take_be_ok 4 buf ltac:(lia)) as (v & r & _ & -> & Hv).
  rewrite length_app, length_be_bytes in Hn.
  destruct (IH (length r) ltac:(lia) r eq_refl) as (ws & -> & Hws).
  { subst n. replace (4 + length r)%nat with (length r + 1 * 4)%nat in H by lia.
    by rewrite Nat.Div0.mod_add in H. }
  exists (v :: ws). split; [done|]. by constructor.
Qed.

Lemma range_flag_test w :
  u32_ok w -> negb (Z.land w RANGE_FLAG =? 0) = (RANGE_FLAG <=? w).
Proof.
  intros Hw. unfold u32_ok in Hw. change RANGE_FLAG with (2 ^ 31).
  rewrite land_bit, testbit_div by lia. change (2 ^ 31) with 2147483648.
  destruct (Z.leb_spec 2147483648 w).
  - replace (w / 2147483648) with 1 by zmod. done.
  - replace (w / 2147483648) with 0 by zmod. done.
Qed.

Section Refinement.
Context {B : BytesApi} {HB : BytesSpec B}.

Lemma loss_decode_loop_words fuel ws acc :
  Forall u32_ok ws -> (length ws < fuel)%nat ->
  loss_decode_loop fuel (words_bytes ws) acc =
  match parse_words ws with Some rs => Ok (acc ++ rs) | None => Err TruncatedRange end.
Proof.
  revert ws acc. induction fuel as [|fuel IH]; intros ws acc Hws Hf; [lia|].
  destruct ws as [|w ws]; cbn [loss_decode_loop]; buf_spec.
  { simpl. by rewrite app_nil_r. }
  apply Forall_cons in Hws as [Hw Hws].
  cbn [words_bytes mbind list_bind]. fold (words_bytes ws).
  rewrite length_app, length_be_bytes. cbn [Nat.add Nat.eqb].
  rewrite take_be_app by exact Hw. cbn -[RANGE_FLAG words_bytes Nat.ltb].
  rewrite range_flag_test by done. buf_spec. rewrite length_words_bytes.
  destruct (RANGE_FLAG <=? w) eqn:E.
  - destruct ws as [|w2 ws]; [done|].
    apply Forall_cons in Hws as [Hw2 Hws].
    rewrite (proj2 (Nat.ltb_ge _ _)) by (simpl; lia).
    cbn [words_bytes mbind list_bind]. fold (words_bytes ws).
    rewrite take_be_app by exact Hw2. cbn -[words_bytes].
    simpl in Hf. rewrite IH by (done || lia).
    destruct (parse_words ws); simpl; [|done]. by rewrite <- app_assoc.
  - simpl in Hf. rewrite IH by (done || lia).
    destruct (parse_words ws); simpl; [|done]. by rewrite <- app_assoc.
Qed.

Lemma loss_encode_words rs out :
  Forall range_ok rs -> loss_encode rs out = out ++ words_bytes (rs ≫= range_words).
Proof.
  unfold loss_encode. revert out. induction rs as [|r rs IH]; intros out Hr.
  { simpl. by rewrite app_nil_r. }
  apply Forall_cons in Hr as [[Hs He] Hr]. cbn [foldl]. rewrite IH by done.
  cbn [mbind list_bind]. unfold loss_encode_one, range_words, words_bytes.
  rewrite bind_app, app_assoc. f_equal.
  destruct (is_single r); buf_spec; cbn [mbind list_bind];
    rewrite ?app_nil_r; [done|].
  rewrite <- app_assoc. do 3 f_equal.
  unfold seq_ok, seq_COUNT, seq_value, RANGE_FLAG in *.
  rewrite Z.lor_comm. rewrite Z.add_comm. exact (lor_add 1 _ 31 ltac:(lia) Hs).
Qed.
End Refinement.

Lemma parse_range_words rs :
  Forall range_ok rs -> parse_words (rs ≫= range_words) = Some rs.
Proof.
  induction rs as [|[s e] rs IH]; intros Hr; [done|].
  apply Forall_cons in Hr as [[Hs He] Hr]. rewrite bind_cons. simpl in Hs, He.
  unfold range_words at 1, is_single at 1. cbn [range_start range_end].
  unfold seq_ok, seq_COUNT in Hs, He.
  destruct (Z.eqb_spec (seq_value s) (seq_value e)) as [E|E]; cbn [app parse_words].
  - rewrite (proj2 (Z.leb_gt _ _)) by (unfold RANGE_FLAG, seq_value; lia).
    rewrite IH by done. cbn.
    apply seq_eq in E. subst e. by rewrite seq_new_value.
  - rewrite (proj2 (Z.leb_le _ _)) by (unfold RANGE_FLAG, seq_value; lia).
    rewrite IH by done. cbn.
    rewrite seq_new_value by done. do 3 f_equal.
    apply seq_eq. rewrite seq_new_mod. unfold seq_value, RANGE_FLAG. zmod.
Qed.

Lemma parse_words_ok ws rs : parse_words ws = Some rs -> Forall range_ok rs.
Proof.
  remember (length ws) as n eqn:Hn. revert ws rs Hn.
  induction (lt_wf n) as [n _ IH]. intros ws rs Hn H.
  destruct ws as [|w ws]; simplify_eq/=; [constructor|].
  destruct (RANGE_FLAG <=? w); [destruct ws as [|w2 ws]; [done|]|];
    apply fmap_Some in H as (rs' & H & ->); constructor;
    try (split; apply seq_new_ok); eapply IH; [|done|exact H| |done|exact H]; simpl; lia.
Qed.

Lemma parse_words_length ws rs :
  parse_words ws = Some rs -> (length rs <= length ws)%nat.
Proof.
  remember (length ws) as n eqn:Hn. revert ws rs Hn.
  induction (lt_wf n) as [n _ IH]. intros ws rs Hn H.
  destruct ws as [|w ws]; simplify_eq/=; [lia|].
  destruct (RANGE_FLAG <=? w); [destruct ws as [|w2 ws]; [done|]|];
    apply fmap_Some in H as (rs' & H & ->); simpl.
  - specialize (IH (length ws) ltac:(simpl; lia) ws rs' eq_refl H). lia.
  - specialize (IH (length ws) ltac:(lia) ws rs' eq_refl H). lia.
Qed.

(** The loss list.  The streaming decoder is the word-level
    reading of the specification's Appendix A: a buffer that is not whole words
    is [Misaligned]; otherwise it decodes to what [parse_words] reads from its
    words, or to [TruncatedRange] when a range lacks its second word, and every
    range read is within the 31-bit space.  Encoding any list of ranges and
    decoding it gives the list back. *)
Theorem loss_list_codec {B : BytesApi} {HB : BytesSpec B} :
  (forall buf, (length buf mod 4 <> 0)%nat -> loss_decode buf = Err (Misaligned (length buf))) /\
  (forall buf, (length buf mod 4 = 0)%nat -> exists ws, buf = words_bytes ws /\ Forall u32_ok ws /\
     loss_decode buf = match parse_words ws with Some rs => Ok rs | None => Err TruncatedRange end /\
     (forall rs, parse_words ws = Some rs -> Forall range_ok rs)) /\
  (forall rs, Forall range_ok rs -> loss_decode (loss_encode rs []) = Ok rs).
Proof.
  assert (forall ws, Forall u32_ok ws -> loss_decode (words_bytes ws) =
    match parse_words ws with Some rs => Ok rs | None => Err TruncatedRange end) as Hdec.
  { intros ws Hws. unfold loss_decode. rewrite length_words_bytes.
    rewrite (Nat.mul_comm 4), Nat.Div0.mod_mul. cbn [Nat.eqb negb].
    rewrite loss_decode_loop_words by (done || lia). by destruct (parse_words ws). }
  split_and!.
  - intros buf H. unfold loss_decode. by rewrite (proj2 (Nat.eqb_neq _ _)) by done.
  - intros buf H. destruct (aligned_words buf H) as (ws & -> & Hws). exists ws.
    split_and!; [done|done|by apply Hdec|]. intros rs. apply parse_words_ok.
  - intros rs Hrs. rewrite loss_encode_words by done. cbn [app]. rewrite Hdec.
    + by rewrite parse_range_words.
    + clear -Hrs. induction Hrs as [|r rs Hr Hrs IH]; [constructor|]. rewrite bind_cons.
      apply Forall_app. split; [|exact IH]. destruct Hr as [Hs He].
      unfold seq_ok, seq_COUNT, range_words, u32_ok, RANGE_FLAG, seq_value in *.
      case_match; repeat constructor; lia.
Qed.

Lemma loss_list_codec_witness :
  let rs := [range_single (MkSeq 5); range_new (MkSeq 0x7fffffff) (MkSeq 3)] in
  @loss_decode vec_bytes (@loss_encode vec_bytes rs []) = Ok rs.
Proof.
  apply (proj2 (proj2 (@loss_list_codec vec_bytes vec_bytes_spec))).
  repeat constructor; by vm_compute.
Defined.
