(* ===== verification/Time.v ===== *)
(** * Time: [std::time] as the core uses it

    [Duration] and [Instant] are counts of nanoseconds.  The core never reads a
    clock: every [Instant] is a value its embedder passed in, so the origin is
    arbitrary.  [Instant::checked_sub] fails below the representable range (a
    signed 64-bit second count on the supported platforms). *)

From S2P Require Import Prelude.

Abbreviation Duration := Z (only parsing).
Abbreviation Instant := Z (only parsing).

Definition dur_from_micros (us : Z) : Duration := us * 1000.
Definition dur_from_millis (ms : Z) : Duration := ms * 1000000.
Definition dur_from_secs (s : Z) : Duration := s * 1000000000.

Definition as_micros (d : Duration) : Z := d / 1000.
Definition as_millis (d : Duration) : Z := d / 1000000.
Definition as_secs (d : Duration) : Z := d / 1000000000.

(** [later.saturating_duration_since(earlier)] *)
Definition since (later earlier : Instant) : Duration := Z.max 0 (later - earlier).

Definition dur_saturating_sub (a b : Duration) : Duration := Z.max 0 (a - b).

Definition instant_min : Z := -9223372036854775808 * 1000000000.

Definition checked_sub (i : Instant) (d : Duration) : option Instant :=
  if instant_min <=? i - d then Some (i - d) else None.

Lemma since_nonneg a b : 0 <= since a b.
Proof. unfold since. lia. Qed.

Lemma as_micros_from us : as_micros (dur_from_micros us) = us.
Proof. apply Z.div_mul. lia. Qed.

Lemma as_millis_from ms : as_millis (dur_from_millis ms) = ms.
Proof. apply Z.div_mul. lia. Qed.

Lemma as_micros_mono a b : a <= b -> as_micros a <= as_micros b.
Proof. intros. apply Z.div_le_mono; lia. Qed.

Lemma as_micros_nonneg d : 0 <= d -> 0 <= as_micros d.
Proof. intros. apply Z.div_pos; lia. Qed.
