(* ===== verification/Timestamp.v ===== *)
(** * Timestamp: 32-bit wire timestamps and their unwrapping ([timestamp.rs])

    [TsbpdWrap] follows the source; its specification is a true (unbounded)
    microsecond clock of which the wire carries the low 32 bits:
    [wrap_tracks w M] says that [w] has seen true time [M] as its newest. *)

From S2P Require Import Prelude.

Record Timestamp : Type := MkTs { ts_raw : Z }.

#[export] Instance timestamp_eq_dec : EqDecision Timestamp.
Proof. solve_decision. Defined.

Definition ts_ok (t : Timestamp) : Prop := u32_ok (ts_raw t).

Definition ts_ZERO : Timestamp := MkTs 0.
Definition ts_MAX : Timestamp := MkTs u32_max.
Definition from_micros (micros : Z) : Timestamp := MkTs micros.
Definition ts_as_micros (t : Timestamp) : Z := ts_raw t.

Definition wrapping_add_micros (t : Timestamp) (micros : Z) : Timestamp :=
  MkTs (wrap32 (ts_raw t + micros)).

Definition wrapping_diff (t other : Timestamp) : Z :=
  as_i32 (wrap32 (ts_raw t - ts_raw other)).

Definition ts_circular_cmp (t other : Timestamp) : comparison :=
  match Z.sgn (wrapping_diff t other) with
  | 1 => Gt
  | -1 => Lt
  | _ => Eq
  end.

Record TsbpdWrap : Type := MkWrap { wrap_base : Z; wrap_last : Timestamp }.

Definition wrap_new (first : Timestamp) : TsbpdWrap := MkWrap 0 first.

Definition wrap_observe (w : TsbpdWrap) (ts : Timestamp) : TsbpdWrap :=
  if 0 <? wrapping_diff ts (wrap_last w) then
    let base :=
      if ts_as_micros ts <? ts_as_micros (wrap_last w)
      then wrap64 (wrap_base w + 4294967296) else wrap_base w in
    MkWrap base ts
  else w.

(** [base as i64 + last + diff]; [base] stays below [2^63]. *)
Definition wrap_offset_of (w : TsbpdWrap) (ts : Timestamp) : Z :=
  wrap_base w + ts_as_micros (wrap_last w) + wrapping_diff ts (wrap_last w).

(** ** Specification: a true clock of which the wire keeps 32 bits *)

Definition wire_of (t : Z) : Timestamp := MkTs (wrap32 t).

Definition wrap_tracks (w : TsbpdWrap) (M : Z) : Prop :=
  0 <= M < 2 ^ 63 /\ wrap_last w = wire_of M /\ wrap_base w = M - wrap32 M.

(** Every step stays within the window one circular difference can resolve. *)
Fixpoint within_window (M : Z) (ts : list Z) : Prop :=
  match ts with
  | [] => True
  | t :: ts => 0 <= t < 2 ^ 63 /\ - 2147483648 <= t - M < 2147483648
               /\ within_window (Z.max M t) ts
  end.

Lemma wrapping_diff_wire a b :
  wrapping_diff (wire_of a) (wire_of b) = (a - b + 2147483648) mod 4294967296 - 2147483648.
Proof.
  unfold wrapping_diff, wire_of. simpl.
  replace (wrap32 (wrap32 a - wrap32 b)) with ((a - b) mod 4294967296) by zmod.
  unfold as_i32. destruct (Z.ltb_spec ((a - b) mod 4294967296) 2147483648); zmod.
Qed.

Lemma wrapping_diff_window a b :
  - 2147483648 <= a - b < 2147483648 -> wrapping_diff (wire_of a) (wire_of b) = a - b.
Proof. intros. rewrite wrapping_diff_wire. zmod. Qed.

Lemma wrapping_diff_range a b : - 2147483648 <= wrapping_diff a b < 2147483648.
Proof. unfold wrapping_diff, as_i32. destruct (Z.ltb_spec (wrap32 (ts_raw a - ts_raw b)) 2147483648); zmod. Qed.

Lemma wrap_new_tracks t : 0 <= t < 4294967296 -> wrap_tracks (wrap_new (wire_of t)) t.
Proof. intros. unfold wrap_tracks, wrap_new. simpl. split_and!; try lia; [done|zmod]. Qed.

Lemma wrap_observe_tracks w M t :
  wrap_tracks w M -> 0 <= t < 2 ^ 63 -> - 2147483648 <= t - M < 2147483648 ->
  wrap_tracks (wrap_observe w (wire_of t)) (Z.max M t).
Proof.
  intros (HM & Hl & Hb) Ht Hw. unfold wrap_observe. rewrite Hl.
  rewrite wrapping_diff_window by done.
  destruct (Z.ltb_spec 0 (t - M)).
  - rewrite Z.max_r by lia. unfold wrap_tracks. simpl. split_and!; try lia; [done|].
    rewrite Hb. destruct (Z.ltb_spec (wrap32 t) (wrap32 M)).
    + assert (t - wrap32 t = M - wrap32 M + 4294967296) as -> by zmod.
      unfold wrap64. apply Z.mod_small. zmod.
    + zmod.
  - rewrite Z.max_l by lia. done.
Qed.

Lemma wrap_offset_tracks w M t :
  wrap_tracks w M -> - 2147483648 <= t - M < 2147483648 ->
  wrap_offset_of w (wire_of t) = t.
Proof.
  intros (HM & Hl & Hb) Hw. unfold wrap_offset_of. rewrite Hl, Hb.
  rewrite wrapping_diff_window by done. unfold ts_as_micros, wire_of. simpl. lia.
Qed.
