(* ===== verification/Rtt.v ===== *)
(** * Rtt: round-trip estimation ([rtt.rs]) *)

From S2P Require Import Prelude Time.

Definition INITIAL_RTT : Duration := dur_from_millis 100.
Definition INITIAL_RTT_VAR : Duration := dur_from_millis 50.

Record RttEstimator : Type := MkRtt {
  rtt_rtt : Z;      (** nanoseconds *)
  rtt_var : Z;
  rtt_sampled : bool;
}.

Definition rtt_new : RttEstimator := MkRtt INITIAL_RTT INITIAL_RTT_VAR false.

(** [fn micros]: whole microseconds, clamped to [u64]. *)
Definition micros (d : Duration) : Z := clamp u64_max (as_micros d).

Definition rtt_sample (e : RttEstimator) (sample : Duration) : RttEstimator :=
  let rtt := micros sample in
  if negb (rtt_sampled e) then MkRtt sample (dur_from_micros (rtt / 2)) true
  else
    let old_rtt := micros (rtt_rtt e) in
    let old_var := micros (rtt_var e) in
    let new_var := wrap64 (sat_mul64 old_var 3 + abs_diff old_rtt rtt) / 4 in
    let new_rtt := wrap64 (sat_mul64 old_rtt 7 + rtt) / 8 in
    MkRtt (dur_from_micros new_rtt) (dur_from_micros new_var) true.

(** [rtt + 4 * var] *)
Definition rtt_rto (e : RttEstimator) : Duration := rtt_rtt e + 4 * rtt_var e.

(** ** Bounds *)

Lemma micros_small d h : 0 <= d -> as_micros d <= h -> h <= u64_max -> micros d = as_micros d.
Proof.
  intros. unfold micros, clamp.
  rewrite (proj2 (Z.leb_le _ _)) by lia. done.
Qed.

Lemma sat_mul64_small a b : a * b <= u64_max -> sat_mul64 a b = a * b.
Proof. intros. unfold sat_mul64, clamp. by rewrite (proj2 (Z.leb_le _ _)) by lia. Qed.

(** The estimate after a sample, in exact arithmetic. *)
Definition rtt_within (lo hi : Z) (e : RttEstimator) : Prop :=
  rtt_sampled e = true /\ 0 <= rtt_rtt e /\ 0 <= rtt_var e /\
  lo <= as_micros (rtt_rtt e) <= hi /\ as_micros (rtt_var e) <= hi.

Definition sample_within (lo hi : Z) (d : Duration) : Prop :=
  0 <= d /\ lo <= as_micros d <= hi.

Lemma rtt_first_within lo hi e d :
  rtt_sampled e = false -> 0 <= lo -> hi < 2 ^ 60 -> sample_within lo hi d ->
  rtt_within lo hi (rtt_sample e d).
Proof.
  intros Hs Hlo Hhi (Hd & Hb). unfold rtt_sample. rewrite Hs. simpl.
  rewrite (micros_small d hi) by (unfold u64_max; lia).
  unfold rtt_within. simpl. rewrite as_micros_from. unfold dur_from_micros.
  split_and!; try done; try lia; Z.to_euclidean_division_equations; lia.
Qed.

Lemma rtt_next_within lo hi e d :
  0 <= lo -> hi < 2 ^ 60 -> rtt_within lo hi e -> sample_within lo hi d ->
  rtt_within lo hi (rtt_sample e d).
Proof.
  intros Hlo Hhi (Hs & Hr0 & Hv0 & Hr & Hv) (Hd & Hb).
  unfold rtt_sample. rewrite Hs. simpl.
  rewrite !(micros_small _ hi) by (unfold u64_max; lia).
  pose proof (as_micros_nonneg _ Hv0).
  rewrite !sat_mul64_small by (unfold u64_max; lia).
  unfold rtt_within, abs_diff. simpl. rewrite !as_micros_from.
  set (r := as_micros (rtt_rtt e)) in *. set (v := as_micros (rtt_var e)) in *.
  set (s := as_micros d) in *. unfold dur_from_micros, wrap64.
  rewrite !Z.mod_small by lia.
  split_and!; try done; Z.to_euclidean_division_equations; lia.
Qed.

(** Samples fed in order. *)
Definition rtt_run (samples : list Duration) : RttEstimator := foldl rtt_sample rtt_new samples.

(** The round-trip estimate stays inside its samples.  If every
    measured round trip lies between [lo] and [hi] microseconds, then after any
    number of samples so does the smoothed estimate, the variance never exceeds
    [hi], the retransmission timeout is between [lo] and five times [hi] (plus
    the sub-microsecond rest), and no 64-bit step overflows. *)
Theorem rtt_stays_within_samples (lo hi : Z) (samples : list Duration) :
  0 <= lo -> hi < 2 ^ 60 -> samples <> [] -> Forall (sample_within lo hi) samples ->
  let e := rtt_run samples in
  lo <= as_micros (rtt_rtt e) <= hi /\ as_micros (rtt_var e) <= hi /\
  lo * 1000 <= rtt_rto e < (hi + 1) * 5000.
Proof.
  intros Hlo Hhi Hne Hall e.
  assert (rtt_within lo hi e) as (_ & Hr0 & Hv0 & Hr & Hv).
  { unfold e, rtt_run. destruct samples as [|s ss]; [done|]. apply Forall_cons in Hall as [Hs Hss].
    cbn [foldl]. pose proof (rtt_first_within lo hi rtt_new s eq_refl Hlo Hhi Hs) as H.
    revert H. generalize (rtt_sample rtt_new s) as e0. clear Hs Hne.
    induction Hss as [|x xs Hx Hxs IH]; intros e0 H; [done|]. cbn [foldl]. apply IH.
    by apply rtt_next_within. }
  split_and!; try done; try lia; unfold rtt_rto, as_micros in *; Z.to_euclidean_division_equations; lia.
Qed.

Lemma rtt_stays_within_samples_witness :
  let e := rtt_run [dur_from_millis 40; dur_from_millis 55; dur_from_millis 42] in
  40000 <= as_micros (rtt_rtt e) <= 55000.
Proof.
  apply (rtt_stays_within_samples 40000 55000 [dur_from_millis 40; dur_from_millis 55; dur_from_millis 42]).
  - lia.
  - lia.
  - done.
  - repeat constructor; by vm_compute.
Defined.
