(* ===== verification/Drift.v ===== *)
(** * Drift: clock-drift tracer ([drift.rs]) *)

From S2P Require Import Prelude.

Definition DRIFT_SPAN : Z := 1000.

Record DriftTracer : Type := MkDrift {
  drift_sum_us : Z;
  drift_count : Z;
  drift_correction_us : Z;
  drift_first_rtt_us : option Z;
}.

Definition drift_new : DriftTracer := MkDrift 0 0 0 None.

(** [i64] arithmetic in two's complement. *)
Definition wrap_i64 (z : Z) : Z :=
  (z + 9223372036854775808) mod 18446744073709551616 - 9223372036854775808.

Definition drift_sample (d : DriftTracer) (observed_us rtt_us : Z) : DriftTracer :=
  let first_rtt := default rtt_us (drift_first_rtt_us d) in
  let rtt_delta := Z.quot (wrap_i64 (rtt_us - first_rtt)) 2 in
  let sum := wrap_i64 (drift_sum_us d + wrap_i64 (observed_us - rtt_delta)) in
  let count := add32 (drift_count d) 1 in
  if DRIFT_SPAN <=? count then
    MkDrift 0 0 (wrap_i64 (drift_correction_us d + Z.quot sum count)) (Some first_rtt)
  else MkDrift sum count (drift_correction_us d) (Some first_rtt).

Lemma wrap_i64_small z : - 2 ^ 63 <= z < 2 ^ 63 -> wrap_i64 z = z.
Proof. intros. unfold wrap_i64. rewrite Z.mod_small; lia. Qed.

(** ** The epoch average *)

(** One sample's contribution, in exact arithmetic. *)
Definition drift_term (first : Z) (s : Z * Z) : Z := s.1 - Z.quot (s.2 - first) 2.

Definition sum_terms (first : Z) (ss : list (Z * Z)) : Z :=
  foldr (fun s acc => drift_term first s + acc) 0 ss.

Definition drift_run (d : DriftTracer) (ss : list (Z * Z)) : DriftTracer :=
  foldl (fun d s => drift_sample d s.1 s.2) d ss.

(** Arrival errors below 2^50 us (35 years) and RTTs below 2^50 us. *)
Definition sane_sample (s : Z * Z) : Prop := Z.abs s.1 < 2 ^ 50 /\ 0 <= s.2 < 2 ^ 50.

Lemma drift_term_bound first s :
  0 <= first < 2 ^ 50 -> sane_sample s -> Z.abs (drift_term first s) < 2 ^ 51.
Proof.
  intros Hf [Ho Hr]. unfold drift_term. Z.to_euclidean_division_equations. lia.
Qed.

Lemma drift_sample_exact d first s n :
  0 <= first < 2 ^ 50 -> sane_sample s ->
  drift_first_rtt_us d = Some first ->
  drift_count d = n -> 0 <= n < 999 -> Z.abs (drift_sum_us d) < n * 2 ^ 51 + 1 ->
  drift_sample d s.1 s.2 =
  MkDrift (drift_sum_us d + drift_term first s) (n + 1) (drift_correction_us d) (Some first).
Proof.
  intros Hf Hs Ef <- Hn Hsum. pose proof (drift_term_bound _ _ Hf Hs) as Hb.
  destruct Hs as [Ho Hr]. unfold drift_sample. rewrite Ef. simpl.
  rewrite (wrap_i64_small (s.2 - first)) by lia.
  rewrite (wrap_i64_small (s.1 - _)) by (unfold drift_term in Hb; lia).
  fold (drift_term first s).
  rewrite (wrap_i64_small (drift_sum_us d + drift_term first s)) by lia.
  unfold add32, wrap32. rewrite Z.mod_small by lia.
  rewrite (proj2 (Z.leb_gt _ _)) by (unfold DRIFT_SPAN; lia). done.
Qed.

Lemma drift_run_exact ss d first :
  0 <= first < 2 ^ 50 -> Forall sane_sample ss ->
  drift_first_rtt_us d = Some first ->
  0 <= drift_count d -> drift_count d + Z.of_nat (length ss) <= 999 ->
  Z.abs (drift_sum_us d) < drift_count d * 2 ^ 51 + 1 ->
  drift_run d ss =
  MkDrift (drift_sum_us d + sum_terms first ss) (drift_count d + Z.of_nat (length ss))
          (drift_correction_us d) (Some first).
Proof.
  intros Hf. revert d. induction ss as [|s ss IH]; intros d Hss Ef Hc Hn Hsum.
  - simpl. destruct d; simpl in *. subst. f_equal; lia.
  - apply Forall_cons in Hss as [Hs Hss]. cbn [length] in *. cbn [drift_run foldl].
    rewrite (drift_sample_exact d first s (drift_count d)) by (done || lia).
    fold (drift_run (MkDrift (drift_sum_us d + drift_term first s)
                       (drift_count d + 1) (drift_correction_us d) (Some first)) ss).
    pose proof (drift_term_bound _ _ Hf Hs).
    rewrite IH by (simpl; (done || lia)). simpl. f_equal; lia.
Qed.

(** The drift tracer.  From the start of an epoch, 999
    samples leave the applied correction alone; the 1000th replaces it by the
    correction plus the exact average (rounded toward zero) of the epoch's
    arrival errors, each relieved of half its round-trip increase over the first
    round trip seen, and starts a fresh epoch.  No 64-bit step overflows. *)
Theorem drift_epoch_average (correction first : Z) (ss : list (Z * Z)) (s : Z * Z) :
  Forall sane_sample (ss ++ [s]) -> length ss = 999%nat -> 0 <= first < 2 ^ 50 ->
  Z.abs correction < 2 ^ 60 ->
  let d := MkDrift 0 0 correction (Some first) in
  drift_correction_us (drift_run d ss) = correction /\
  drift_run d (ss ++ [s]) =
    MkDrift 0 0 (correction + Z.quot (sum_terms first (ss ++ [s])) 1000) (Some first).
Proof.
  intros Hall Hl Hf Hc d. apply Forall_app in Hall as [Hss Hs1]. apply Forall_cons in Hs1 as [Hs _].
  assert (drift_run d ss = MkDrift (sum_terms first ss) 999 correction (Some first)) as E.
  { unfold d. rewrite (drift_run_exact ss _ first) by (cbn; (done || lia)). cbn. rewrite Hl. done. }
  rewrite E. split; [done|]. unfold drift_run. rewrite foldl_app. fold (drift_run d ss). rewrite E.
  cbn [foldl]. pose proof (drift_term_bound _ _ Hf Hs) as Hb.
  assert (Z.abs (sum_terms first ss) <= 999 * 2 ^ 51) as Hsum.
  { assert (Z.of_nat (length ss) = 999) as <- by lia. clear -Hss Hf.
    induction Hss as [|x xs Hx Hxs IH]; cbn [sum_terms foldr length]; [lia|].
    fold (sum_terms first xs). pose proof (drift_term_bound _ _ Hf Hx). lia. }
  assert (sum_terms first (ss ++ [s]) = sum_terms first ss + drift_term first s) as Hsnoc.
  { clear. induction ss as [|x xs IH]; cbn [app sum_terms foldr]; [lia|].
    fold (sum_terms first (xs ++ [s])) (sum_terms first xs). lia. }
  rewrite Hsnoc. destruct Hs as [Ho Hr]. unfold drift_sample. cbn [drift_first_rtt_us default drift_sum_us
    drift_count drift_correction_us from_option].
  change (id first) with first.
  rewrite (wrap_i64_small (s.2 - first)) by lia.
  rewrite (wrap_i64_small (s.1 - _)) by (unfold drift_term in Hb; lia).
  fold (drift_term first s). rewrite (wrap_i64_small (sum_terms first ss + drift_term first s)) by lia.
  change (add32 999 1) with 1000. change (DRIFT_SPAN <=? 1000) with true. cbv iota.
  rewrite wrap_i64_small; [done|].
  assert (Z.abs (Z.quot (sum_terms first ss + drift_term first s) 1000) <= 2 ^ 51)
    by (Z.to_euclidean_division_equations; lia).
  lia.
Qed.

Lemma drift_epoch_average_witness :
  drift_run (MkDrift 0 0 10 (Some 40000)) (replicate 999 (250, 40000) ++ [(250, 40000)]) =
    MkDrift 0 0 (10 + Z.quot (sum_terms 40000 (replicate 999 (250, 40000) ++ [(250, 40000)])) 1000)
      (Some 40000).
Proof.
  apply (drift_epoch_average 10 40000 (replicate 999 (250, 40000)) (250, 40000)).
  - apply Forall_app. split; [|repeat constructor; unfold sane_sample; cbn; lia].
    apply Forall_replicate. unfold sane_sample. cbn. lia.
  - reflexivity.
  - lia.
  - lia.
Defined.
