(* ===== verification/Rate.v ===== *)
(** * Rate: receiver delivery-rate estimation ([rate.rs]) *)

From S2P Require Import Prelude.

Definition WIRE_HEADER : Z := 16 + 28.
Definition WINDOW_US : Z := 1000000.

Record RateEstimator : Type := MkRate {
  rate_window_start_us : option Z;
  rate_last_us : option Z;
  rate_packets : Z;
  rate_bytes : Z;
  rate_min_gap_us : Z;
  rate_pps : Z;
  rate_bps : Z;
  rate_peak_pps : Z;
}.

Definition rate_new : RateEstimator := MkRate None None 0 0 0 0 0 0.

Definition clamp_u32 (v : Z) : Z := clamp u32_max v.

(** Products and sums of [u64]s: [1_000_000 * x] may wrap only past [2^44]
    packets or bytes in a window. *)
Definition rate_record (r : RateEstimator) (now_us payload : Z) : RateEstimator :=
  let start := default now_us (rate_window_start_us r) in
  let min_gap :=
    match rate_last_us r with
    | Some last =>
        let gap := sat_sub now_us last in
        if (0 <? gap) && ((rate_min_gap_us r =? 0) || (gap <? rate_min_gap_us r))
        then clamp_u32 gap else rate_min_gap_us r
    | None => rate_min_gap_us r
    end in
  let packets := add32 (rate_packets r) 1 in
  let bytes := add64 (rate_bytes r) (payload + WIRE_HEADER) in
  let elapsed := sat_sub now_us start in
  if WINDOW_US <=? elapsed then
    MkRate (Some now_us) (Some now_us) 0 0 0
      (clamp_u32 (wrap64 (1000000 * packets) / elapsed))
      (clamp_u32 (wrap64 (1000000 * bytes) / elapsed))
      (if 0 <? min_gap then clamp_u32 (1000000 / min_gap) else rate_peak_pps r)
  else
    MkRate (Some start) (Some now_us) packets bytes min_gap
      (rate_pps r) (rate_bps r) (rate_peak_pps r).

Definition delivery_rate (r : RateEstimator) : Z * Z := (rate_pps r, rate_bps r).
Definition peak_rate (r : RateEstimator) : Z := rate_peak_pps r.

Lemma clamp_u32_range v : 0 <= v -> u32_ok (clamp_u32 v).
Proof. intros. unfold clamp_u32, clamp, u32_ok, u32_max. destruct (Z.leb_spec v 4294967295); lia. Qed.

(** ** A window's arrivals *)

(** Arrivals [(time, payload)] recorded in order. *)
Definition rate_run (r : RateEstimator) (xs : list (Z * Z)) : RateEstimator :=
  foldl (fun r x => rate_record r x.1 x.2) r xs.

Definition wire_bytes (xs : list (Z * Z)) : Z :=
  foldr (fun x acc => x.2 + WIRE_HEADER + acc) 0 xs.

Lemma rate_record_open r start x :
  rate_window_start_us r = Some start ->
  start <= x.1 < start + WINDOW_US -> 0 <= x.2 < 4294967296 ->
  0 <= rate_packets r < 2 ^ 31 -> 0 <= rate_bytes r < 2 ^ 63 ->
  exists gap, rate_record r x.1 x.2 =
    MkRate (Some start) (Some x.1) (rate_packets r + 1)
      (rate_bytes r + (x.2 + WIRE_HEADER)) gap (rate_pps r) (rate_bps r) (rate_peak_pps r).
Proof.
  intros Hst Ht Hx Hp Hb. eexists. unfold rate_record. rewrite Hst. change (default x.1 (Some start)) with start.
  unfold WINDOW_US, WIRE_HEADER, sat_sub, add32, add64, wrap32, wrap64 in *.
  rewrite (proj2 (Z.leb_gt 1000000 _)) by lia. cbv iota.
  rewrite !Z.mod_small by lia. reflexivity.
Qed.

(** Inside the window nothing is published, everything is counted. *)
Lemma rate_run_open xs r start :
  rate_window_start_us r = Some start ->
  Forall (fun x => start <= x.1 < start + WINDOW_US /\ 0 <= x.2 < 4294967296) xs ->
  0 <= rate_packets r -> rate_packets r + Z.of_nat (length xs) < 2 ^ 30 ->
  0 <= rate_bytes r -> rate_bytes r + wire_bytes xs < 2 ^ 62 ->
  rate_window_start_us (rate_run r xs) = Some start /\
  rate_packets (rate_run r xs) = rate_packets r + Z.of_nat (length xs) /\
  rate_bytes (rate_run r xs) = rate_bytes r + wire_bytes xs /\
  delivery_rate (rate_run r xs) = delivery_rate r.
Proof.
  revert r. induction xs as [|x xs IH]; intros r Hst Hxs Hp Hpn Hb Hbn.
  { simpl. rewrite Hst. split_and!; [done|lia|lia|done]. }
  apply Forall_cons in Hxs as [[Ht Hx] Hxs].
  cbn [length wire_bytes foldr] in *. fold (wire_bytes xs) in *.
  assert (0 <= wire_bytes xs) as Hwb.
  { clear -Hxs. induction Hxs as [|y ys [_ Hy]]; simpl; unfold WIRE_HEADER; lia. }
  cbn [rate_run foldl]. change (foldl _ ?r0 xs) with (rate_run r0 xs).
  destruct (rate_record_open r start x) as [g ->]; [done|lia|lia|lia|
    unfold WIRE_HEADER in *; lia|].
  destruct (IH (MkRate (Some start) (Some x.1) (rate_packets r + 1)
      (rate_bytes r + (x.2 + WIRE_HEADER)) g (rate_pps r) (rate_bps r) (rate_peak_pps r)))
    as (-> & -> & -> & ->); cbn [rate_window_start_us rate_packets rate_bytes];
    unfold WIRE_HEADER in *; try done; try lia.
  split_and!; try done; lia.
Qed.

(** The arrival that ends the window publishes the averages over it. *)
Lemma rate_record_close r start x :
  rate_window_start_us r = Some start ->
  start + WINDOW_US <= x.1 -> 0 <= x.2 < 4294967296 ->
  0 <= rate_packets r < 2 ^ 31 -> 0 <= rate_bytes r < 2 ^ 40 ->
  exists peak, rate_record r x.1 x.2 =
    MkRate (Some x.1) (Some x.1) 0 0 0
      (clamp_u32 (1000000 * (rate_packets r + 1) / (x.1 - start)))
      (clamp_u32 (1000000 * (rate_bytes r + (x.2 + WIRE_HEADER)) / (x.1 - start))) peak.
Proof.
  intros Hst Ht Hx Hp Hb. eexists. unfold rate_record. rewrite Hst. change (default x.1 (Some start)) with start.
  unfold WINDOW_US, WIRE_HEADER, sat_sub, add32, add64, wrap32, wrap64 in *.
  rewrite !(Z.max_r 0 (x.1 - start)) by lia. rewrite (proj2 (Z.leb_le 1000000 _)) by lia. cbv iota.
  rewrite (Z.mod_small (rate_packets r + 1)) by lia.
  rewrite (Z.mod_small (rate_bytes r + _)) by lia.
  rewrite (Z.mod_small (1000000 * (rate_packets r + 1))) by lia.
  rewrite (Z.mod_small (1000000 * (rate_bytes r + _))) by lia. reflexivity.
Qed.

(** The delivery-rate estimate.  Within a second of the start
    of a measuring window arrivals leave the published rates alone; the first
    arrival after it publishes the packets and the wire bytes (payload plus 44
    bytes of headers each) of the whole window, itself included, divided by the
    time it really took and rounded down, and opens an empty window there. *)
Theorem rate_window_is_exact (r : RateEstimator) (start : Z) (xs : list (Z * Z)) (x : Z * Z) :
  rate_window_start_us r = Some start -> 0 <= rate_packets r -> 0 <= rate_bytes r ->
  Forall (fun y => start <= y.1 < start + WINDOW_US /\ 0 <= y.2 < 4294967296) xs ->
  start + WINDOW_US <= x.1 -> 0 <= x.2 < 4294967296 ->
  rate_packets r + Z.of_nat (length xs) < 2 ^ 30 -> rate_bytes r + wire_bytes xs < 2 ^ 40 ->
  delivery_rate (rate_run r xs) = delivery_rate r /\
  let closed := rate_run r (xs ++ [x]) in
  delivery_rate closed =
    (clamp_u32 (1000000 * (rate_packets r + Z.of_nat (length (xs ++ [x]))) / (x.1 - start)),
     clamp_u32 (1000000 * (rate_bytes r + wire_bytes (xs ++ [x])) / (x.1 - start))) /\
  rate_window_start_us closed = Some x.1 /\ rate_packets closed = 0 /\ rate_bytes closed = 0.
Proof.
  intros Hst Hp Hb Hxs Hx1 Hx2 Hpn Hbn.
  destruct (rate_run_open xs r start Hst Hxs Hp Hpn Hb) as (E1 & E2 & E3 & E4); [lia|].
  split; [exact E4|]. cbv zeta. unfold rate_run at 1 2 3 4. rewrite foldl_app. cbn [foldl].
  fold (rate_run r xs).
  assert (0 <= wire_bytes xs) as Hw.
  { clear -Hxs. induction Hxs as [|y ys [_ Hy]]; simpl; unfold WIRE_HEADER; lia. }
  destruct (rate_record_close (rate_run r xs) start x E1 Hx1 Hx2) as [peak ->]; [lia|lia|].
  assert (wire_bytes (xs ++ [x]) = wire_bytes xs + (x.2 + WIRE_HEADER)) as ->.
  { clear. induction xs as [|y ys IH]; cbn [wire_bytes foldr app]; [lia|].
    fold (wire_bytes (ys ++ [x])) (wire_bytes ys). lia. }
  rewrite E2, E3, length_app. cbn [length].
  replace (rate_packets r + Z.of_nat (length xs + 1)) with (rate_packets r + Z.of_nat (length xs) + 1) by lia.
  rewrite (Z.add_assoc (rate_bytes r)). split_and!; reflexivity.
Qed.

Lemma rate_window_is_exact_witness :
  delivery_rate (rate_run (MkRate (Some 0) (Some 0) 1 1360 0 0 0 0)
    ([(250000, 1316); (500000, 1316); (750000, 1316)] ++ [(1000000, 1316)])) = (5, 6800).
Proof.
  destruct (rate_window_is_exact (MkRate (Some 0) (Some 0) 1 1360 0 0 0 0) 0
    [(250000, 1316); (500000, 1316); (750000, 1316)] (1000000, 1316)) as (_ & H & _).
  - reflexivity.
  - cbn; lia.
  - cbn; lia.
  - unfold WINDOW_US. repeat constructor; cbn; lia.
  - unfold WINDOW_US. cbn; lia.
  - vm_compute. split; [intros [=]|reflexivity].
  - vm_compute. reflexivity.
  - vm_compute. reflexivity.
  - rewrite H. reflexivity.
Defined.
