(* ===== verification/LiveCc.v ===== *)
(** * LiveCc: sender pacing arithmetic ([live_cc.rs])

    The average payload is an [f64]; it is modelled bit-exactly with the
    Standard Library's [SpecFloat] at binary64 ([prec = 53], [emax = 1024]). *)

From Stdlib Require Import Floats.SpecFloat.
From S2P Require Import Prelude Time.

Definition MAX_PAYLOAD : Z := 1456.
Definition WIRE_OVERHEAD : Z := 44.

(** ** binary64 *)

Definition f64 : Type := spec_float.
Definition f64_of_Z (z : Z) : f64 := binary_normalize 53 1024 z 0 false.
Definition f64_mul : f64 -> f64 -> f64 := SFmul 53 1024.
Definition f64_add : f64 -> f64 -> f64 := SFadd 53 1024.
Definition f64_div : f64 -> f64 -> f64 := SFdiv 53 1024.

(** [x.round() as u64]: half away from zero, then the saturating cast. *)
Definition f64_round_u64 (x : f64) : Z :=
  match x with
  | S754_finite false m e =>
      clamp u64_max
        (if 0 <=? e then Z.pos m * 2 ^ e else (Z.pos m + 2 ^ (- e - 1)) / 2 ^ (- e))
  | S754_infinity false => u64_max
  | _ => 0
  end.

Record LiveCc : Type := MkCc {
  cc_max_bw : Z;
  cc_avg_payload : f64;
  cc_snd_period : Z;   (** nanoseconds *)
}.

Definition compute_period (cc : LiveCc) : Duration :=
  let pkt_size := add64 (f64_round_u64 (cc_avg_payload cc)) WIRE_OVERHEAD in
  dur_from_micros (sat_mul64 pkt_size 1000000 / cc_max_bw cc).

Definition cc_new (max_bw : Z) : LiveCc :=
  let cc := MkCc max_bw (f64_of_Z MAX_PAYLOAD) 0 in
  MkCc max_bw (f64_of_Z MAX_PAYLOAD) (compute_period cc).

Definition on_packet_sent (cc : LiveCc) (payload_size : Z) : LiveCc :=
  let size := f64_of_Z payload_size in
  MkCc (cc_max_bw cc)
    (f64_add (f64_mul (f64_div (f64_of_Z 7) (f64_of_Z 8)) (cc_avg_payload cc))
             (f64_mul (f64_div (f64_of_Z 1) (f64_of_Z 8)) size))
    (cc_snd_period cc).

Definition cc_on_ack (cc : LiveCc) : LiveCc :=
  MkCc (cc_max_bw cc) (cc_avg_payload cc) (compute_period cc).

(** The initial average rounds to the maximum payload. *)
Example f64_round_1456 : f64_round_u64 (f64_of_Z 1456) = 1456.
Proof. vm_compute. reflexivity. Qed.

(** A tie rounds away from zero. *)
Example f64_round_half : f64_round_u64 (f64_div (f64_of_Z 5) (f64_of_Z 2)) = 3.
Proof. vm_compute. reflexivity. Qed.
