(* ===== verification/PacketTypes.v ===== *)
(** * PacketTypes: the header fields of a packet ([packet.rs])

    The newtypes and enums of the 16-byte header, and [DataPacket] with the
    AES-GCM additional authenticated data it yields. *)

From S2P Require Import Prelude Errors Seq Timestamp.

Record SocketId : Type := MkSocketId { socket_id_value : Z }.
Definition socket_id_new (value : Z) : SocketId := MkSocketId value.

Definition MSG_MASK : Z := 0x03FFFFFF.
Record MsgNumber : Type := MkMsg { msg_value : Z }.
Definition msg_new (value : Z) : MsgNumber := MkMsg (Z.land value MSG_MASK).

Inductive PacketPosition : Type := First | Middle | Last | Single.

Definition position_to_bits (p : PacketPosition) : Z :=
  match p with First => 2 | Middle => 0 | Last => 1 | Single => 3 end.

Definition position_from_bits (bits : Z) : PacketPosition :=
  match Z.land bits 3 with 2 => First | 1 => Last | 3 => Single | _ => Middle end.

Inductive Encryption : Type := EncNone | EncEven | EncOdd.

Definition enc_to_bits (e : Encryption) : Z :=
  match e with EncNone => 0 | EncEven => 1 | EncOdd => 2 end.

Definition enc_from_bits (bits : Z) : res PacketError Encryption :=
  match Z.land bits 3 with
  | 0 => Ok EncNone
  | 1 => Ok EncEven
  | 2 => Ok EncOdd
  | other => Err (InvalidKeyFlag other)
  end.

#[export] Instance socket_id_eq_dec : EqDecision SocketId.
Proof. solve_decision. Defined.
#[export] Instance msg_eq_dec : EqDecision MsgNumber.
Proof. solve_decision. Defined.
#[export] Instance position_eq_dec : EqDecision PacketPosition.
Proof. solve_decision. Defined.
#[export] Instance encryption_eq_dec : EqDecision Encryption.
Proof. solve_decision. Defined.

Record DataPacket : Type := MkData {
  dp_seq : SeqNumber;
  dp_position : PacketPosition;
  dp_in_order : bool;
  dp_encryption : Encryption;
  dp_retransmitted : bool;
  dp_message_number : MsgNumber;
  dp_timestamp : Timestamp;
  dp_dest_socket_id : SocketId;
  dp_payload : list byte;
}.

#[export] Instance data_packet_eq_dec : EqDecision DataPacket.
Proof. solve_decision. Defined.

(** [u32::from(bool)] *)
Definition b2z (b : bool) : Z := if b then 1 else 0.

(** The second header word, with the [R] flag given separately: [header_aad]
    leaves it out, [Packet::encode] puts it at bit 26. *)
Definition word1_without_r (d : DataPacket) : Z :=
  Z.lor (Z.lor (Z.lor
    (Z.shiftl (position_to_bits (dp_position d)) 30)
    (Z.shiftl (b2z (dp_in_order d)) 29))
    (Z.shiftl (enc_to_bits (dp_encryption d)) 27))
    (msg_value (dp_message_number d)).

Definition header_aad (d : DataPacket) : list byte :=
  be_bytes 4 (seq_value (dp_seq d)) ++ be_bytes 4 (word1_without_r d) ++
  be_bytes 4 (ts_as_micros (dp_timestamp d)) ++
  be_bytes 4 (socket_id_value (dp_dest_socket_id d)).

(** The invariants the newtypes keep. *)
Definition msg_ok (m : MsgNumber) : Prop := 0 <= msg_value m < 0x04000000.
Definition socket_id_ok (s : SocketId) : Prop := u32_ok (socket_id_value s).
Definition data_packet_ok (d : DataPacket) : Prop :=
  seq_ok (dp_seq d) /\ msg_ok (dp_message_number d) /\ ts_ok (dp_timestamp d) /\
  socket_id_ok (dp_dest_socket_id d).

Lemma msg_new_mod v : msg_value (msg_new v) = v mod 0x04000000.
Proof. exact (land_mask 26 v ltac:(lia)). Qed.

Lemma msg_new_ok v : msg_ok (msg_new v).
Proof. unfold msg_ok. rewrite msg_new_mod. zmod. Qed.

Lemma enc_from_to_bits e : enc_from_bits (enc_to_bits e) = Ok e.
Proof. by destruct e. Qed.

Lemma land3_range bits : 0 <= Z.land bits 3 < 4.
Proof. change 3 with (2 ^ 2 - 1). rewrite land_mask by lia. apply Z.mod_pos_bound. lia. Qed.

Lemma enc_from_bits_ok bits e : enc_from_bits bits = Ok e -> enc_to_bits e = Z.land bits 3.
Proof.
  unfold enc_from_bits. pose proof (land3_range bits).
  destruct (Z.land bits 3) as [|[[]|[]|]|] eqn:E; intros; simplify_eq; try done; lia.
Qed.

Lemma enc_from_bits_no_crash bits : no_crash (enc_from_bits bits).
Proof. unfold enc_from_bits, no_crash. by destruct (Z.land bits 3) as [|[[]|[]|]|]. Qed.

Lemma position_to_from_bits bits : position_to_bits (position_from_bits bits) = Z.land bits 3.
Proof.
  unfold position_from_bits. pose proof (land3_range bits).
  destruct (Z.land bits 3) as [|[[]|[]|]|] eqn:E; simpl; lia.
Qed.

(** ** The flag word as a sum of fields *)

Definition flag_sum (pp o kk r m : Z) : Z :=
  pp * 2 ^ 30 + o * 2 ^ 29 + kk * 2 ^ 27 + r * 2 ^ 26 + m.

Lemma word1_or_sum pp o kk r m :
  0 <= pp < 4 -> 0 <= o < 2 -> 0 <= kk < 4 -> 0 <= r < 2 -> 0 <= m < 2 ^ 26 ->
  Z.lor (Z.lor (Z.lor (Z.lor (Z.shiftl pp 30) (Z.shiftl o 29)) (Z.shiftl kk 27))
               (Z.shiftl r 26)) m
  = flag_sum pp o kk r m.
Proof.
  intros. unfold flag_sum. rewrite !Z.shiftl_mul_pow2 by lia.
  rewrite (lor_add pp (o * 2 ^ 29) 30) by lia.
  replace (pp * 2 ^ 30 + o * 2 ^ 29) with ((pp * 2 + o) * 2 ^ 29) by lia.
  rewrite (lor_add _ (kk * 2 ^ 27) 29) by lia.
  replace ((pp * 2 + o) * 2 ^ 29 + kk * 2 ^ 27) with ((pp * 8 + o * 4 + kk) * 2 ^ 27) by lia.
  rewrite (lor_add _ (r * 2 ^ 26) 27) by lia.
  replace ((pp * 8 + o * 4 + kk) * 2 ^ 27 + r * 2 ^ 26)
    with ((pp * 16 + o * 8 + kk * 2 + r) * 2 ^ 26) by lia.
  rewrite (lor_add _ m 26) by lia. lia.
Qed.

Lemma position_bits_range p : 0 <= position_to_bits p < 4.
Proof. destruct p; simpl; lia. Qed.
Lemma enc_bits_range e : 0 <= enc_to_bits e < 4.
Proof. destruct e; simpl; lia. Qed.
Lemma b2z_range b : 0 <= b2z b < 2.
Proof. destruct b; simpl; lia. Qed.

#[export] Hint Resolve position_bits_range enc_bits_range b2z_range msg_new_ok : srt.

Lemma word1_without_r_sum d :
  msg_ok (dp_message_number d) ->
  word1_without_r d =
  flag_sum (position_to_bits (dp_position d)) (b2z (dp_in_order d))
           (enc_to_bits (dp_encryption d)) 0 (msg_value (dp_message_number d)).
Proof.
  intros Hm. rewrite <- word1_or_sum; auto with srt; try lia.
  unfold word1_without_r. by rewrite Z.shiftl_0_l, Z.lor_0_r.
Qed.
