(* ===== verification/Handshake.v ===== *)
(** * Handshake: the handshake body and its extensions ([handshake.rs])

    The encoder appends to a [BytesMut] and panics only where the source's
    [expect] does (an extension whose length does not fit the 16-bit word
    count); the decoder returns errors and never panics. *)

From S2P Require Import Prelude Buf Errors Seq Reject PacketTypes.

Definition BASE_LEN : nat := 48.
Definition EXT_HSREQ : Z := 1.
Definition EXT_HSRSP : Z := 2.
Definition EXT_SID : Z := 5.
Definition SRT_HS_LEN : nat := 12.

(** ** [EncryptionField] *)

Inductive EncryptionField : Type := EfNone | EfAes128 | EfAes192 | EfAes256.

#[export] Instance encryption_field_eq_dec : EqDecision EncryptionField.
Proof. solve_decision. Defined.

Definition ef_to_raw (e : EncryptionField) : Z :=
  match e with EfNone => 0 | EfAes128 => 2 | EfAes192 => 3 | EfAes256 => 4 end.

Definition ef_from_raw (raw : Z) : res HandshakeError EncryptionField :=
  match raw with
  | 0 => Ok EfNone
  | 2 => Ok EfAes128
  | 3 => Ok EfAes192
  | 4 => Ok EfAes256
  | other => Err (InvalidEncryptionField other)
  end.

(** ** [SrtFlags] *)

Record SrtFlags : Type := MkFlags { flags_bits : Z }.
Definition TSBPD_SND : Z := 0x1.
Definition TSBPD_RCV : Z := 0x2.
Definition CRYPT : Z := 0x4.
Definition TLPKTDROP : Z := 0x8.
Definition PERIODIC_NAK : Z := 0x10.
Definition REXMIT : Z := 0x20.
Definition STREAM : Z := 0x40.
Definition PACKET_FILTER : Z := 0x80.
Definition flags_contains (f : SrtFlags) (flag : Z) : bool :=
  Z.land (flags_bits f) flag =? flag.

Record SrtHandshake : Type := MkSrtHs {
  sh_srt_version : Z;
  sh_flags : SrtFlags;
  sh_recv_tsbpd_delay : Z;
  sh_send_tsbpd_delay : Z;
}.

(** A Rust [String] is its UTF-8 bytes. *)
Inductive HandshakeExtension : Type :=
  | HsReq (hs : SrtHandshake)
  | HsRsp (hs : SrtHandshake)
  | StreamId (s : list byte)
  | ExtRaw (ext_type : Z) (content : list byte).

Record Handshake : Type := MkHandshake {
  hs_version : Z;
  hs_encryption : EncryptionField;
  hs_extension_field : Z;
  hs_initial_seq : SeqNumber;
  hs_mtu : Z;
  hs_max_flow_window : Z;
  hs_handshake_type : HandshakeType;
  hs_srt_socket_id : SocketId;
  hs_syn_cookie : Z;
  hs_peer_ip : list byte;
  hs_extensions : list HandshakeExtension;
}.

#[export] Instance srt_flags_eq_dec : EqDecision SrtFlags.
Proof. solve_decision. Defined.
#[export] Instance srt_handshake_eq_dec : EqDecision SrtHandshake.
Proof. solve_decision. Defined.
#[export] Instance handshake_extension_eq_dec : EqDecision HandshakeExtension.
Proof. solve_decision. Defined.
#[export] Instance handshake_eq_dec : EqDecision Handshake.
Proof. solve_decision. Defined.

(** [String::from_utf8]'s test: the well-formed byte sequences of Unicode's
    Table 3-7 (no overlong forms, no surrogates, nothing above U+10FFFF). *)
Definition in_span (lo hi : Z) (b : byte) : bool := (lo <=? u8_to_Z b) && (u8_to_Z b <=? hi).
Definition utf8_cont : byte -> bool := in_span 0x80 0xBF.

Fixpoint utf8_valid (bs : list byte) : bool :=
  match bs with
  | [] => true
  | b0 :: r =>
      if in_span 0 0x7F b0 then utf8_valid r
      else match r with
      | b1 :: r1 =>
          if in_span 0xC2 0xDF b0 then utf8_cont b1 && utf8_valid r1
          else match r1 with
          | b2 :: r2 =>
              let lead3 :=
                if in_span 0xE0 0xE0 b0 then in_span 0xA0 0xBF b1
                else if in_span 0xED 0xED b0 then in_span 0x80 0x9F b1
                else in_span 0xE1 0xEF b0 && utf8_cont b1 in
              if in_span 0xE0 0xEF b0 then lead3 && utf8_cont b2 && utf8_valid r2
              else match r2 with
              | b3 :: r3 =>
                  (if in_span 0xF0 0xF0 b0 then in_span 0x90 0xBF b1
                   else if in_span 0xF4 0xF4 b0 then in_span 0x80 0x8F b1
                   else in_span 0xF1 0xF3 b0 && utf8_cont b1)
                  && utf8_cont b2 && utf8_cont b3 && utf8_valid r3
              | _ => false
              end
          | _ => false
          end
      | _ => false
      end
  end.

(** Reversal within each 4-byte block; [chunks_exact(4)] drops a remainder. *)
Fixpoint rev_chunks (bs : list byte) : list byte :=
  match bs with
  | a :: b :: c :: d :: r => d :: c :: b :: a :: rev_chunks r
  | _ => []
  end.

Definition is_nonzero (b : byte) : bool := negb (u8_to_Z b =? 0).

Definition decode_stream_id (content : list byte) : res HandshakeError (list byte) :=
  let bytes := rev_chunks content in
  let stop := match rposition is_nonzero bytes with Some i => S i | None => O end in
  let bytes := take stop bytes in
  if utf8_valid bytes then Ok bytes else Err InvalidStreamId.

Section Codec.
Context {B : BytesApi}.

Definition srt_hs_encode (hs : SrtHandshake) (out : list byte) : list byte :=
  let out := put_u32 out (sh_srt_version hs) in
  let out := put_u32 out (flags_bits (sh_flags hs)) in
  let out := put_u16 out (sh_recv_tsbpd_delay hs) in
  put_u16 out (sh_send_tsbpd_delay hs).

Definition srt_hs_decode (content : list byte) : panicky SrtHandshake :=
  '(version, r) ← get_u32 content;
  '(flags, r) ← get_u32 r;
  '(recv, r) ← get_u16 r;
  '(send, r) ← get_u16 r;
  Ret (MkSrtHs version (MkFlags flags) recv send).

Definition put_ext_header (out : list byte) (ext_type : Z) (content_len : nat)
  : panicky (list byte) :=
  let words := Z.of_nat (content_len / 4) in
  words ← expect (if words <=? u16_max then Some words else None);
  Ret (put_u16 (put_u16 out ext_type) words).

(** [for chunk in padded.chunks_exact(4)] *)
Fixpoint put_chunks_rev (out padded : list byte) : list byte :=
  match padded with
  | a :: b :: c :: d :: r =>
      let out := put_u8 out (u8_to_Z d) in
      let out := put_u8 out (u8_to_Z c) in
      let out := put_u8 out (u8_to_Z b) in
      let out := put_u8 out (u8_to_Z a) in
      put_chunks_rev out r
  | _ => out
  end.

(** [bytes.len().div_ceil(4) * 4] *)
Definition padded_len (n : nat) : nat := (n + 3) / 4 * 4.

Definition encode_stream_id (stream_id out : list byte) : list byte :=
  let padded :=
    stream_id ++ replicate (padded_len (length stream_id) - length stream_id) (u8_of_Z 0) in
  put_chunks_rev out padded.

Definition ext_encode (e : HandshakeExtension) (out : list byte) : panicky (list byte) :=
  match e with
  | HsReq hs =>
      out ← put_ext_header out EXT_HSREQ SRT_HS_LEN; Ret (srt_hs_encode hs out)
  | HsRsp hs =>
      out ← put_ext_header out EXT_HSRSP SRT_HS_LEN; Ret (srt_hs_encode hs out)
  | StreamId s =>
      let content := encode_stream_id s [] in
      out ← put_ext_header out EXT_SID (length content);
      Ret (put_slice out content)
  | ExtRaw ext_type content =>
      out ← put_ext_header out ext_type (length content);
      Ret (put_slice out content)
  end.

Definition ext_decode (ext_type : Z) (content : list byte)
  : res HandshakeError HandshakeExtension :=
  if ((ext_type =? EXT_HSREQ) || (ext_type =? EXT_HSRSP))
     && negb (length content =? SRT_HS_LEN)%nat
  then Err (ExtensionContent ext_type (length content))
  else if ext_type =? EXT_HSREQ then HsReq <$> lift (srt_hs_decode content)
  else if ext_type =? EXT_HSRSP then HsRsp <$> lift (srt_hs_decode content)
  else if ext_type =? EXT_SID then StreamId <$> decode_stream_id content
  else Ok (ExtRaw ext_type content).

Fixpoint exts_encode (es : list HandshakeExtension) (out : list byte)
  : panicky (list byte) :=
  match es with
  | [] => Ret out
  | e :: es => out ← ext_encode e out; exts_encode es out
  end.

Definition hs_encode (h : Handshake) (out : list byte) : panicky (list byte) :=
  let out := put_u32 out (hs_version h) in
  let out := put_u16 out (ef_to_raw (hs_encryption h)) in
  let out := put_u16 out (hs_extension_field h) in
  let out := put_u32 out (seq_value (hs_initial_seq h)) in
  let out := put_u32 out (hs_mtu h) in
  let out := put_u32 out (hs_max_flow_window h) in
  let out := put_u32 out (hst_to_raw (hs_handshake_type h)) in
  let out := put_u32 out (socket_id_value (hs_srt_socket_id h)) in
  let out := put_u32 out (hs_syn_cookie h) in
  let out := put_slice out (hs_peer_ip h) in
  exts_encode (hs_extensions h) out.

(** [while cur.remaining() >= 4]; each round consumes at least a TLV header. *)
Fixpoint exts_decode (fuel : nat) (cur : list byte) (exts : list HandshakeExtension)
  : res HandshakeError (list HandshakeExtension) :=
  match fuel with
  | O => Crash
  | S fuel =>
      if (remaining cur <? 4)%nat then Ok exts else
      '(ext_type, cur) ← lift (get_u16 cur);
      '(words, cur) ← lift (get_u16 cur);
      let content_len := (Z.to_nat words * 4)%nat in
      if (remaining cur <? content_len)%nat
      then Err (ExtensionLength ext_type content_len (remaining cur)) else
      '(content, cur) ← lift (copy_to_bytes content_len cur);
      e ← ext_decode ext_type content;
      exts_decode fuel cur (exts ++ [e])
  end.

Definition hs_decode (cif : list byte) : res HandshakeError Handshake :=
  if (length cif <? BASE_LEN)%nat then Err (HsTooShort BASE_LEN (length cif)) else
  '(version, cur) ← lift (get_u32 cif);
  '(enc, cur) ← lift (get_u16 cur);
  encryption ← ef_from_raw enc;
  '(extension_field, cur) ← lift (get_u16 cur);
  '(initial_seq, cur) ← lift (get_u32 cur);
  '(mtu, cur) ← lift (get_u32 cur);
  '(max_flow_window, cur) ← lift (get_u32 cur);
  '(handshake_type, cur) ← lift (get_u32 cur);
  '(srt_socket_id, cur) ← lift (get_u32 cur);
  '(syn_cookie, cur) ← lift (get_u32 cur);
  '(peer_ip, cur) ← lift (copy_to_slice 16 cur);
  extensions ← exts_decode (S (length cur)) cur [];
  Ok (MkHandshake version encryption extension_field (seq_new initial_seq) mtu
        max_flow_window (hst_from_raw handshake_type) (socket_id_new srt_socket_id)
        syn_cookie peer_ip extensions).
End Codec.

(** ** Well-formed bodies: what the encoder accepts and the decoder yields *)

Definition srt_hs_ok (hs : SrtHandshake) : Prop :=
  u32_ok (sh_srt_version hs) /\ u32_ok (flags_bits (sh_flags hs)) /\
  u16_ok (sh_recv_tsbpd_delay hs) /\ u16_ok (sh_send_tsbpd_delay hs).

(** The wire pads with NUL to a word, so a trailing NUL cannot survive. *)
Definition no_trailing_nul (s : list byte) : Prop :=
  match last s with Some b => is_nonzero b = true | None => True end.

Definition words_fit (n : nat) : Prop := Z.of_nat (n / 4) <= u16_max.

Definition ext_ok (e : HandshakeExtension) : Prop :=
  match e with
  | HsReq hs | HsRsp hs => srt_hs_ok hs
  | StreamId s =>
      utf8_valid s = true /\ no_trailing_nul s /\ words_fit (padded_len (length s))
  | ExtRaw ext_type content =>
      u16_ok ext_type /\ ext_type <> EXT_HSREQ /\ ext_type <> EXT_HSRSP /\
      ext_type <> EXT_SID /\ (length content mod 4 = 0)%nat /\ words_fit (length content)
  end.

Definition hs_ok (h : Handshake) : Prop :=
  u32_ok (hs_version h) /\ u16_ok (hs_extension_field h) /\ seq_ok (hs_initial_seq h) /\
  u32_ok (hs_mtu h) /\ u32_ok (hs_max_flow_window h) /\
  u32_ok (hst_raw (hs_handshake_type h)) /\ socket_id_ok (hs_srt_socket_id h) /\
  u32_ok (hs_syn_cookie h) /\ length (hs_peer_ip h) = 16%nat /\
  Forall ext_ok (hs_extensions h).

(** ** The stream-id packing *)

Lemma rev_chunks_involutive k bs :
  length bs = (4 * k)%nat -> rev_chunks (rev_chunks bs) = bs.
Proof.
  revert bs. induction k as [|k IH]; intros bs H; [by destruct bs|].
  destruct bs as [|a [|b [|c [|d r]]]]; simpl in H; try lia.
  cbn [rev_chunks]. by rewrite IH by lia.
Qed.

Lemma length_rev_chunks k bs : length bs = (4 * k)%nat -> length (rev_chunks bs) = (4 * k)%nat.
Proof.
  revert bs. induction k as [|k IH]; intros bs H; [by destruct bs|].
  destruct bs as [|a [|b [|c [|d r]]]]; simpl in H; try lia.
  cbn [rev_chunks length]. rewrite IH by lia. lia.
Qed.

Lemma padded_len_bounds n : (n <= padded_len n < n + 4)%nat /\ (padded_len n mod 4 = 0)%nat.
Proof.
  unfold padded_len. split; [|by rewrite Nat.Div0.mod_mul].
  pose proof (Nat.div_mod_eq (n + 3) 4). pose proof (Nat.mod_upper_bound (n + 3) 4). lia.
Qed.

Definition pad_words (s : list byte) : list byte :=
  s ++ replicate (padded_len (length s) - length s) (u8_of_Z 0).

Lemma length_pad_words s : length (pad_words s) = (4 * ((length s + 3) / 4))%nat.
Proof.
  unfold pad_words. rewrite length_app, length_replicate.
  pose proof (padded_len_bounds (length s)). unfold padded_len in *. lia.
Qed.

Lemma rposition_app_none {A} (p : A -> bool) l t :
  Forall (fun x => p x = false) t -> rposition p (l ++ t) = rposition p l.
Proof.
  intros Ht. induction l as [|x l IH]; simpl; [|by rewrite IH].
  induction Ht as [|y t Hy Ht IHt]; simpl; [done|]. by rewrite IHt, Hy.
Qed.

Definition trim_end (s : list byte) : list byte :=
  take (match rposition is_nonzero s with Some i => S i | None => O end) s.

Lemma trim_end_no_trailing s : no_trailing_nul (trim_end s).
Proof.
  unfold trim_end, no_trailing_nul.
  destruct (rposition is_nonzero s) as [i|] eqn:E; [|done].
  apply rposition_spec in E as [(x & Hx & Hp) _].
  by rewrite (take_S_r _ _ _ Hx), last_snoc.
Qed.

Lemma trim_end_length s : (length (trim_end s) <= length s)%nat.
Proof. unfold trim_end. rewrite length_take. lia. Qed.

Lemma trim_end_pad s : no_trailing_nul s -> trim_end (pad_words s) = s.
Proof.
  intros H. unfold trim_end, pad_words. rewrite rposition_app_none.
  2: { apply Forall_replicate. vm_compute. done. }
  destruct s as [|x s _] using rev_ind; [done|].
  unfold no_trailing_nul in H. rewrite last_snoc in H. rewrite rposition_snoc, H.
  apply take_app_length'. rewrite length_app. simpl. lia.
Qed.

Lemma decode_stream_id_eq c :
  decode_stream_id c =
  let s := trim_end (rev_chunks c) in if utf8_valid s then Ok s else Err InvalidStreamId.
Proof. reflexivity. Qed.

Lemma decode_stream_id_pad s :
  utf8_valid s = true -> no_trailing_nul s ->
  decode_stream_id (rev_chunks (pad_words s)) = Ok s.
Proof.
  intros Hu Hn. rewrite decode_stream_id_eq.
  rewrite (rev_chunks_involutive _ _ (length_pad_words s)). cbn zeta.
  by rewrite trim_end_pad, Hu by done.
Qed.

(** ** The TLV of one extension *)

Definition srt_hs_bytes (hs : SrtHandshake) : list byte :=
  be_bytes 4 (sh_srt_version hs) ++ be_bytes 4 (flags_bits (sh_flags hs)) ++
  be_bytes 2 (sh_recv_tsbpd_delay hs) ++ be_bytes 2 (sh_send_tsbpd_delay hs).

Definition ext_type_of (e : HandshakeExtension) : Z :=
  match e with
  | HsReq _ => EXT_HSREQ | HsRsp _ => EXT_HSRSP | StreamId _ => EXT_SID
  | ExtRaw t _ => t
  end.

Definition ext_content (e : HandshakeExtension) : list byte :=
  match e with
  | HsReq hs | HsRsp hs => srt_hs_bytes hs
  | StreamId s => rev_chunks (pad_words s)
  | ExtRaw _ content => content
  end.

Definition ext_bytes (e : HandshakeExtension) : list byte :=
  be_bytes 2 (ext_type_of e) ++ be_bytes 2 (Z.of_nat (length (ext_content e) / 4)) ++
  ext_content e.

Definition hs_fixed (h : Handshake) : list byte :=
  be_bytes 4 (hs_version h) ++ be_bytes 2 (ef_to_raw (hs_encryption h)) ++
  be_bytes 2 (hs_extension_field h) ++ be_bytes 4 (seq_value (hs_initial_seq h)) ++
  be_bytes 4 (hs_mtu h) ++ be_bytes 4 (hs_max_flow_window h) ++
  be_bytes 4 (hst_raw (hs_handshake_type h)) ++
  be_bytes 4 (socket_id_value (hs_srt_socket_id h)) ++ be_bytes 4 (hs_syn_cookie h) ++
  hs_peer_ip h.

Definition hs_bytes (h : Handshake) : list byte :=
  hs_fixed h ++ (hs_extensions h ≫= ext_bytes).

Lemma ext_content_words e :
  ext_ok e -> (length (ext_content e) = length (ext_content e) / 4 * 4)%nat /\
              words_fit (length (ext_content e)).
Proof.
  assert (forall k n, n = (4 * k)%nat -> (n = n / 4 * 4)%nat) as Hdiv.
  { intros k n ->. rewrite (Nat.mul_comm 4 k), Nat.div_mul; lia. }
  destruct e as [hs|hs|s|t c]; intros H; cbn [ext_content].
  1,2: split; [by vm_compute|unfold words_fit; vm_compute; done].
  - pose proof (length_rev_chunks _ _ (length_pad_words s)) as Hl. split.
    + by eapply Hdiv.
    + destruct H as (_ & _ & H). unfold words_fit, padded_len in *. rewrite Hl.
      by rewrite (Nat.mul_comm 4).
  - destruct H as (_ & _ & _ & _ & H & Hf). split; [|done].
    pose proof (Nat.div_mod_eq (length c) 4). lia.
Qed.

Section Proofs.
Context {B : BytesApi} {HB : BytesSpec B}.

Lemma srt_hs_encode_bytes hs out : srt_hs_encode hs out = out ++ srt_hs_bytes hs.
Proof. unfold srt_hs_encode, srt_hs_bytes. buf_spec. by rewrite <- !app_assoc. Qed.

Lemma srt_hs_decode_bytes hs : srt_hs_ok hs -> srt_hs_decode (srt_hs_bytes hs) = Ret hs.
Proof.
  intros (H1 & H2 & H3 & H4). unfold srt_hs_decode, srt_hs_bytes. buf_spec.
  rewrite <- (app_nil_r (be_bytes 2 (sh_send_tsbpd_delay hs))). do 4 buf_read.
  by destruct hs as [? [] ? ?].
Qed.

Lemma srt_hs_decode_total c :
  length c = SRT_HS_LEN -> exists hs, srt_hs_decode c = Ret hs /\ srt_hs_ok hs.
Proof.
  unfold SRT_HS_LEN, srt_hs_decode. intros H.
  buf_take 4%nat c v r Hv. buf_take 4%nat r f r1 Hf.
  buf_take 2%nat r1 a r2 Ha. buf_take 2%nat r2 b r3 Hb.
  eexists; split; [done|]. by unfold srt_hs_ok.
Qed.

Lemma put_chunks_rev_eq out p : put_chunks_rev out p = out ++ rev_chunks p.
Proof.
  remember (length p) as n eqn:Hn. revert out p Hn.
  induction (lt_wf n) as [n _ IH]. intros out p Hn.
  destruct p as [|a [|b [|c [|d r]]]]; cbn [put_chunks_rev rev_chunks];
    try by rewrite app_nil_r.
  rewrite (IH (length r)) by (simpl in Hn; done || lia). buf_spec.
  rewrite <- !app_assoc. f_equal.
  assert (forall x, be_bytes 1 (u8_to_Z x) = [x]) as Hx.
  { intros x. unfold be_bytes. by rewrite Z.div_1_r, u8_of_to. }
  by rewrite !Hx.
Qed.

Lemma put_ext_header_ok out t n :
  words_fit n ->
  put_ext_header out t n = Ret (out ++ be_bytes 2 t ++ be_bytes 2 (Z.of_nat (n / 4))).
Proof.
  unfold words_fit, put_ext_header. intros H. rewrite (proj2 (Z.leb_le _ _) H). simpl.
  buf_spec. by rewrite <- app_assoc.
Qed.

Lemma ext_encode_bytes e out : ext_ok e -> ext_encode e out = Ret (out ++ ext_bytes e).
Proof.
  intros He. destruct (ext_content_words e He) as [_ Hfit].
  destruct e as [hs|hs|s|t c]; cbn [ext_encode]; unfold ext_bytes;
    unfold encode_stream_id; rewrite ?put_chunks_rev_eq.
  1,2: rewrite put_ext_header_ok by done; simpl; rewrite srt_hs_encode_bytes;
    by rewrite <- !app_assoc.
  - change (s ++ replicate _ _) with (pad_words s). cbn [app].
    rewrite put_ext_header_ok by done. simpl. buf_spec. by rewrite <- !app_assoc.
  - rewrite put_ext_header_ok by done. simpl. buf_spec. by rewrite <- !app_assoc.
Qed.

Lemma exts_encode_bytes es out :
  Forall ext_ok es -> exts_encode es out = Ret (out ++ (es ≫= ext_bytes)).
Proof.
  intros H. revert out. induction H as [|e es He Hes IH]; intros out.
  { simpl. by rewrite app_nil_r. }
  cbn [exts_encode]. rewrite ext_encode_bytes by done. simpl. rewrite IH.
  by rewrite <- app_assoc.
Qed.

Lemma hs_encode_bytes h out : hs_ok h -> hs_encode h out = Ret (out ++ hs_bytes h).
Proof.
  intros H. unfold hs_encode. rewrite exts_encode_bytes by apply H.
  unfold hs_bytes, hs_fixed, hst_to_raw. buf_spec. by rewrite <- !app_assoc.
Qed.

Lemma ext_decode_bytes e : ext_ok e -> ext_decode (ext_type_of e) (ext_content e) = Ok e.
Proof.
  destruct e as [hs|hs|s|t c]; intros H; cbn [ext_type_of ext_content]; unfold ext_decode.
  1,2: cbn -[srt_hs_decode srt_hs_bytes];
    rewrite (srt_hs_decode_bytes hs H) by done; done.
  - destruct H as (Hu & Hn & _). cbn -[decode_stream_id rev_chunks].
    by rewrite decode_stream_id_pad.
  - destruct H as (_ & H1 & H2 & H3 & _).
    rewrite !(proj2 (Z.eqb_neq _ _)) by done. done.
Qed.

Lemma ext_decode_total t c :
  u16_ok t -> (length c mod 4 = 0)%nat -> words_fit (length c) ->
  (exists e, ext_decode t c = Ok e /\ ext_ok e) \/ (exists x, ext_decode t c = Err x).
Proof.
  intros Ht Hl Hf. unfold ext_decode.
  destruct (Z.eqb_spec t EXT_HSREQ) as [->|N1]; [|destruct (Z.eqb_spec t EXT_HSRSP) as [->|N2]].
  1,2: destruct (Nat.eqb_spec (length c) SRT_HS_LEN) as [E|E]; [left|right; by eexists];
    destruct (srt_hs_decode_total c E) as (hs & -> & Hok); by eexists.
  destruct (Z.eqb_spec t EXT_SID) as [->|N3]; simpl.
  - rewrite decode_stream_id_eq. cbn zeta.
    destruct (utf8_valid _) eqn:Hu; [left|right; by eexists].
    eexists; split; [done|]. cbn [ext_ok]. split_and!; [done|apply trim_end_no_trailing|].
    pose proof (trim_end_length (rev_chunks c)) as Hle.
    assert (length c = 4 * (length c / 4))%nat as Hc by (pose proof (Nat.div_mod_eq (length c) 4); lia).
    rewrite (length_rev_chunks _ _ Hc), <- Hc in Hle.
    unfold words_fit, padded_len in *. rewrite Nat.div_mul by lia.
    assert ((length (trim_end (rev_chunks c)) + 3) / 4 <= length c / 4)%nat; [|lia].
    rewrite Hc in Hle.
    transitivity ((4 * (length c / 4) + 3) / 4)%nat.
    { apply Nat.Div0.div_le_mono. lia. }
    rewrite (Nat.mul_comm 4), Nat.div_add_l by lia. simpl. lia.
  - left. eexists; split; [done|]. by unfold ext_ok.
Qed.

Lemma exts_decode_bytes fuel es acc :
  Forall ext_ok es -> (length (es ≫= ext_bytes) < fuel)%nat ->
  exts_decode fuel (es ≫= ext_bytes) acc = Ok (acc ++ es).
Proof.
  intros H. revert fuel acc. induction H as [|e es He Hes IH]; intros fuel acc Hf;
    (destruct fuel as [|fuel]; [lia|]); cbn [exts_decode].
  { cbn. buf_spec. cbn. by rewrite app_nil_r. }
  rewrite bind_cons in *. destruct (ext_content_words e He) as [Hw Hfit].
  unfold words_fit in Hfit.
  rewrite remaining_spec, length_app in *.
  assert (length (ext_bytes e) = 4 + length (ext_content e))%nat as Hlen.
  { unfold ext_bytes. buf_len. }
  rewrite (proj2 (Nat.ltb_ge _ _)) by lia.
  assert (0 <= ext_type_of e < 256 ^ Z.of_nat 2) as Ht.
  { destruct e; [vm_compute; intuition congruence..|]. apply He. }
  unfold ext_bytes at 1. buf_read. rewrite get_u16_spec.
  rewrite take_be_app by (unfold u16_max in Hfit; change (256 ^ Z.of_nat 2) with 65536; lia).
  cbn [mbind res_bind lift panicky_bind]. rewrite Nat2Z.id, <- Hw, remaining_spec, length_app.
  rewrite (proj2 (Nat.ltb_ge _ _)) by lia.
  rewrite copy_to_bytes_spec, take_front_app by done.
  cbn [mbind res_bind lift panicky_bind].
  rewrite ext_decode_bytes by done. cbn [mbind res_bind].
  rewrite IH by lia. by rewrite <- app_assoc.
Qed.

(** The TLV loop ends, never reads past the buffer, and yields encodable
    extensions. *)
Lemma exts_decode_total fuel cur acc :
  (length cur < fuel)%nat -> Forall ext_ok acc ->
  (exists es, exts_decode fuel cur acc = Ok es /\ Forall ext_ok es) \/
  (exists x, exts_decode fuel cur acc = Err x).
Proof.
  revert cur acc. induction fuel as [|fuel IH]; intros cur acc Hf Hacc; [lia|].
  cbn [exts_decode]. rewrite remaining_spec.
  destruct (Nat.ltb_spec (length cur) 4); [left; eauto|].
  buf_take 2%nat cur t r Ht.
  buf_take 2%nat r w r' Hw.
  rewrite remaining_spec.
  destruct (Nat.ltb_spec (length r') (Z.to_nat w * 4)); [right; eauto|].
  rewrite copy_to_bytes_spec.
  destruct (take_front_ok _ _ H0) as (c & r2 & -> & -> & Hc).
  cbn [mbind res_bind lift panicky_bind].
  destruct (ext_decode_total t c) as [(e & -> & He)|[x ->]].
  - exact Ht.
  - by rewrite Hc, Nat.Div0.mod_mul.
  - unfold words_fit. rewrite Hc, Nat.div_mul by lia.
    change (256 ^ Z.of_nat 2) with 65536 in Hw. unfold u16_max. lia.
  - cbn [mbind res_bind]. apply IH; [rewrite length_app in Hf; lia|].
    apply Forall_app. split; [done|by constructor].
  - right. by exists x.
Qed.

Lemma hs_decode_bytes h : hs_ok h -> hs_decode (hs_bytes h) = Ok h.
Proof.
  intros (H1 & H2 & H3 & H4 & H5 & H6 & H7 & H8 & H9 & H10).
  assert (0 <= seq_value (hs_initial_seq h) < 256 ^ Z.of_nat 4) as H3'.
  { unfold seq_ok, seq_COUNT in H3. change (256 ^ Z.of_nat 4) with 4294967296. unfold seq_value. lia. }
  assert (0 <= ef_to_raw (hs_encryption h) < 256 ^ Z.of_nat 2) as H11.
  { change (256 ^ Z.of_nat 2) with 65536. destruct (hs_encryption h); simpl; lia. }
  unfold hs_decode, hs_bytes, hs_fixed.
  rewrite (proj2 (Nat.ltb_ge _ _))
    by (rewrite !length_app, !length_be_bytes, H9; unfold BASE_LEN; lia).
  buf_read. buf_read.
  replace (ef_from_raw (ef_to_raw (hs_encryption h))) with (Ok (E:=HandshakeError) (hs_encryption h))
    by (by destruct (hs_encryption h)).
  cbn [mbind res_bind]. do 8 buf_read.
  rewrite exts_decode_bytes by (done || lia). cbn [mbind res_bind app].
  rewrite seq_new_value by done. by destruct h as [? ? ? ? ? ? [] [] ? ? ?].
Qed.

Lemma hs_decode_total cif :
  (exists h, hs_decode cif = Ok h /\ hs_ok h) \/ (exists x, hs_decode cif = Err x).
Proof.
  unfold hs_decode, BASE_LEN.
  destruct (Nat.ltb_spec (length cif) 48); [right; eauto|].
  buf_take 4%nat cif v r Hv.
  buf_take 2%nat r enc r1 He.
  destruct (ef_from_raw enc) as [ef|x|] eqn:Eef.
  2: right; by exists x.
  2: { unfold ef_from_raw in Eef. by repeat case_match. }
  cbn [mbind res_bind].
  buf_take 2%nat r1 ext r2 Hext.
  buf_take 4%nat r2 sq r3 Hsq.
  buf_take 4%nat r3 mtu r4 Hmtu.
  buf_take 4%nat r4 fw r5 Hfw.
  buf_take 4%nat r5 ht r6 Hht.
  buf_take 4%nat r6 sid r7 Hsid.
  buf_take 4%nat r7 ck r8 Hck.
  rewrite copy_to_slice_spec.
  destruct (take_front_ok 16 r8 ltac:(lia)) as (ip & r9 & -> & -> & Hip).
  cbn [mbind res_bind lift panicky_bind].
  destruct (exts_decode_total (S (length r9)) r9 [] ltac:(lia) ltac:(constructor))
    as [(es & -> & Hes)|[x ->]]; [left|right; by exists x].
  cbn [mbind res_bind]. eexists; split; [done|].
  unfold hs_ok; simpl. split_and!; try done. apply seq_new_ok.
Qed.
End Proofs.
