(* ===== verification/Control.v ===== *)
(** * Control: typed control bodies ([control.rs]) *)

From stdpp Require Import strings.
From S2P Require Import Prelude Buf Errors Seq LossList Reject PacketTypes Handshake.

Inductive ControlType : Type :=
  | CtHandshake | CtKeepalive | CtAck | CtNak | CtCongestionWarning | CtShutdown
  | CtAckAck | CtDropReq | CtPeerError | CtUserDefined.

#[export] Instance control_type_eq_dec : EqDecision ControlType.
Proof. solve_decision. Defined.

Definition ct_to_raw (t : ControlType) : Z :=
  match t with
  | CtHandshake => 0x0000 | CtKeepalive => 0x0001 | CtAck => 0x0002 | CtNak => 0x0003
  | CtCongestionWarning => 0x0004 | CtShutdown => 0x0005 | CtAckAck => 0x0006
  | CtDropReq => 0x0007 | CtPeerError => 0x0008 | CtUserDefined => 0x7FFF
  end.

Definition ct_from_raw (raw : Z) : res ControlError ControlType :=
  match raw with
  | 0x0000 => Ok CtHandshake | 0x0001 => Ok CtKeepalive | 0x0002 => Ok CtAck
  | 0x0003 => Ok CtNak | 0x0004 => Ok CtCongestionWarning | 0x0005 => Ok CtShutdown
  | 0x0006 => Ok CtAckAck | 0x0007 => Ok CtDropReq | 0x0008 => Ok CtPeerError
  | 0x7FFF => Ok CtUserDefined
  | other => Err (UnknownType other)
  end.

Inductive AckCif : Type :=
  | AckLight
  | AckSmall (rtt rtt_variance avail_buffer_size : Z)
  | AckFull (rtt rtt_variance avail_buffer_size
             packets_recv_rate estimated_link_capacity receiving_rate : Z).

Record Ack : Type := MkAck {
  ack_ack_number : Z;
  ack_last_ack_seq : SeqNumber;
  ack_cif : AckCif;
}.

Inductive ControlBody : Type :=
  | CbKeepalive
  | CbShutdown
  | CbCongestionWarning
  | CbAckAck (ack_number : Z)
  | CbDropReq (message_number : Z) (first last : SeqNumber)
  | CbPeerError (error_code : Z)
  | CbAck (ack : Ack)
  | CbNak (loss : list LossRange)
  | CbHandshake (hs : Handshake)
  | CbRaw (control_type : ControlType) (subtype type_specific : Z) (cif : list byte).

#[export] Instance ack_cif_eq_dec : EqDecision AckCif.
Proof. solve_decision. Defined.
#[export] Instance ack_eq_dec : EqDecision Ack.
Proof. solve_decision. Defined.
#[export] Instance control_body_eq_dec : EqDecision ControlBody.
Proof. solve_decision. Defined.

(** The control type, subtype and type-specific header words. *)
Definition to_wire (b : ControlBody) : Z * Z * Z :=
  match b with
  | CbKeepalive => (ct_to_raw CtKeepalive, 0, 0)
  | CbShutdown => (ct_to_raw CtShutdown, 0, 0)
  | CbCongestionWarning => (ct_to_raw CtCongestionWarning, 0, 0)
  | CbAckAck ack_number => (ct_to_raw CtAckAck, 0, ack_number)
  | CbDropReq message_number _ _ => (ct_to_raw CtDropReq, 0, message_number)
  | CbPeerError error_code => (ct_to_raw CtPeerError, 0, error_code)
  | CbAck ack => (ct_to_raw CtAck, 0, ack_ack_number ack)
  | CbNak _ => (ct_to_raw CtNak, 0, 0)
  | CbHandshake _ => (ct_to_raw CtHandshake, 0, 0)
  | CbRaw control_type subtype type_specific _ =>
      (ct_to_raw control_type, subtype, type_specific)
  end.

Section Codec.
Context {B : BytesApi}.

Definition encode_cif (b : ControlBody) (out : list byte) : panicky (list byte) :=
  match b with
  | CbKeepalive | CbShutdown | CbCongestionWarning | CbAckAck _ | CbPeerError _ => Ret out
  | CbDropReq _ first last =>
      let out := put_u32 out (seq_value first) in
      Ret (put_u32 out (seq_value last))
  | CbAck ack =>
      let out := put_u32 out (seq_value (ack_last_ack_seq ack)) in
      match ack_cif ack with
      | AckLight => Ret out
      | AckSmall rtt rtt_variance avail =>
          Ret (put_u32 (put_u32 (put_u32 out rtt) rtt_variance) avail)
      | AckFull rtt rtt_variance avail rate capacity bps =>
          let out := put_u32 (put_u32 (put_u32 out rtt) rtt_variance) avail in
          Ret (put_u32 (put_u32 (put_u32 out rate) capacity) bps)
      end
  | CbNak loss => Ret (loss_encode loss out)
  | CbHandshake hs => hs_encode hs out
  | CbRaw _ _ _ cif => Ret (put_slice out cif)
  end.

(** The ACK's form is chosen by the CIF's length. *)
Definition decode_ack (ack_number : Z) (cif : list byte) : res ControlError ControlBody :=
  let make s c := CbAck (MkAck ack_number s c) in
  if (length cif =? 4)%nat then
    '(s, r) ← lift (get_u32 cif);
    Ok (make (seq_new s) AckLight)
  else if (length cif =? 16)%nat then
    '(s, r) ← lift (get_u32 cif);
    '(rtt, r) ← lift (get_u32 r);
    '(var, r) ← lift (get_u32 r);
    '(avail, r) ← lift (get_u32 r);
    Ok (make (seq_new s) (AckSmall rtt var avail))
  else if (length cif =? 28)%nat then
    '(s, r) ← lift (get_u32 cif);
    '(rtt, r) ← lift (get_u32 r);
    '(var, r) ← lift (get_u32 r);
    '(avail, r) ← lift (get_u32 r);
    '(rate, r) ← lift (get_u32 r);
    '(capacity, r) ← lift (get_u32 r);
    '(bps, r) ← lift (get_u32 r);
    Ok (make (seq_new s) (AckFull rtt var avail rate capacity bps))
  else Err (InvalidCifLength "ACK" (length cif)).

Definition cb_decode (raw_type subtype type_specific : Z) (cif : list byte)
  : res ControlError ControlBody :=
  control_type ← ct_from_raw raw_type;
  match control_type with
  | CtKeepalive => Ok CbKeepalive
  | CtShutdown => Ok CbShutdown
  | CtCongestionWarning => Ok CbCongestionWarning
  | CtAckAck => Ok (CbAckAck type_specific)
  | CtPeerError => Ok (CbPeerError type_specific)
  | CtDropReq =>
      if negb (remaining cif =? 8)%nat
      then Err (InvalidCifLength "drop request" (length cif)) else
      '(first, r) ← lift (get_u32 cif);
      '(last, r) ← lift (get_u32 r);
      Ok (CbDropReq type_specific (seq_new first) (seq_new last))
  | CtAck => decode_ack type_specific cif
  | CtNak => CbNak <$> map_err CeLossList (loss_decode cif)
  | CtHandshake => CbHandshake <$> map_err CeHandshake (hs_decode cif)
  | CtUserDefined => Ok (CbRaw control_type subtype type_specific cif)
  end.
End Codec.

(** ** Well-formed bodies *)

Definition ack_cif_words (c : AckCif) : list Z :=
  match c with
  | AckLight => []
  | AckSmall a b c => [a; b; c]
  | AckFull a b c d e f => [a; b; c; d; e; f]
  end.

Definition cb_ok (b : ControlBody) : Prop :=
  match b with
  | CbKeepalive | CbShutdown | CbCongestionWarning => True
  | CbAckAck n => u32_ok n
  | CbPeerError n => u32_ok n
  | CbDropReq n first last => u32_ok n /\ seq_ok first /\ seq_ok last
  | CbAck a => u32_ok (ack_ack_number a) /\ seq_ok (ack_last_ack_seq a) /\
               Forall u32_ok (ack_cif_words (ack_cif a))
  | CbNak loss => Forall range_ok loss
  | CbHandshake hs => hs_ok hs
  | CbRaw t subtype type_specific _ =>
      t = CtUserDefined /\ u16_ok subtype /\ u32_ok type_specific
  end.

Definition cif_bytes (b : ControlBody) : list byte :=
  match b with
  | CbKeepalive | CbShutdown | CbCongestionWarning | CbAckAck _ | CbPeerError _ => []
  | CbDropReq _ first last => words_bytes [seq_value first; seq_value last]
  | CbAck a => words_bytes (seq_value (ack_last_ack_seq a) :: ack_cif_words (ack_cif a))
  | CbNak loss => words_bytes (loss ≫= range_words)
  | CbHandshake hs => hs_bytes hs
  | CbRaw _ _ _ cif => cif
  end.

Lemma ct_from_to_raw t : ct_from_raw (ct_to_raw t) = Ok t.
Proof. by destruct t. Qed.

Lemma ct_from_raw_cases raw :
  (exists t, ct_from_raw raw = Ok t /\ ct_to_raw t = raw) \/
  ct_from_raw raw = Err (UnknownType raw).
Proof. unfold ct_from_raw. repeat case_match; eauto. Qed.

Section Proofs.
Context {B : BytesApi} {HB : BytesSpec B}.

Lemma encode_cif_bytes b out : cb_ok b -> encode_cif b out = Ret (out ++ cif_bytes b).
Proof.
  intros H.
  destruct b as [| | |n|n f l|n|[n s c]|loss|hs|t st ts cif]; cbn [encode_cif cif_bytes];
    try by rewrite app_nil_r.
  - buf_spec. cbn. by rewrite app_nil_r, <- app_assoc.
  - cbn in H. destruct c; cbn; buf_spec; rewrite ?app_nil_r, <- ?app_assoc; done.
  - by rewrite loss_encode_words.
  - by apply hs_encode_bytes.
  - by rewrite put_slice_spec.
Qed.

Lemma seq_word s : seq_ok s -> 0 <= seq_value s < 256 ^ Z.of_nat 4.
Proof.
  intros H. unfold seq_ok, seq_COUNT, seq_value in *.
  change (256 ^ Z.of_nat 4) with 4294967296. lia.
Qed.

Lemma decode_ack_bytes a :
  cb_ok (CbAck a) -> decode_ack (ack_ack_number a) (cif_bytes (CbAck a)) = Ok (CbAck a).
Proof.
  destruct a as [n s c]. intros (Hn & Hs & Hc). cbn in Hs.
  apply seq_word in Hs as Hs'.
  unfold decode_ack. cbn [cif_bytes ack_ack_number ack_last_ack_seq ack_cif].
  rewrite length_words_bytes.
  unfold words_bytes. destruct c; cbn [ack_cif_words ack_cif] in *; rewrite ?Forall_cons in Hc;
    cbn [mbind list_bind length]; cbn [Nat.mul Nat.add Nat.eqb].
  - by buf_read; rewrite seq_new_value.
  - destruct Hc as (H1 & H2 & H3 & _). do 4 buf_read. by rewrite seq_new_value.
  - destruct Hc as (H1 & H2 & H3 & H4 & H5 & H6 & _). do 7 buf_read.
    by rewrite seq_new_value.
Qed.

Lemma cb_decode_bytes b :
  cb_ok b ->
  let '(t, st, ts) := to_wire b in cb_decode t st ts (cif_bytes b) = Ok b.
Proof.
  intros H. destruct b as [| | |n|n f l|n|a|loss|hs|t st ts cif]; try reflexivity.
  - destruct H as (Hn & Hf & Hl). unfold to_wire, cb_decode.
    rewrite ct_from_to_raw. cbn [mbind res_bind].
    rewrite remaining_spec. cbn [cif_bytes]. rewrite length_words_bytes. cbn [length].
    cbn [Nat.mul Nat.add Nat.eqb negb]. unfold words_bytes. cbn [mbind list_bind].
    apply seq_word in Hf as Hf'. apply seq_word in Hl as Hl'.
    do 2 buf_read. by rewrite !seq_new_value.
  - unfold to_wire, cb_decode. rewrite ct_from_to_raw. cbn [mbind res_bind].
    by apply decode_ack_bytes.
  - unfold to_wire, cb_decode. rewrite ct_from_to_raw. cbn [mbind res_bind cif_bytes].
    unfold loss_decode. rewrite length_words_bytes, Nat.mul_comm, Nat.Div0.mod_mul.
    cbn [Nat.eqb negb]. rewrite loss_decode_loop_words.
    + by rewrite parse_range_words.
    + apply Forall_bind. eapply Forall_impl; [exact H|]. intros [s e] [Hs He].
      unfold seq_ok, seq_COUNT in Hs, He. simpl in Hs, He.
      unfold range_words, RANGE_FLAG, u32_ok, seq_value. simpl.
      case_match; repeat constructor; lia.
    + lia.
  - unfold to_wire, cb_decode. rewrite ct_from_to_raw. cbn [mbind res_bind cif_bytes].
    by rewrite hs_decode_bytes.
  - destruct H as (-> & _). reflexivity.
Qed.

Lemma decode_ack_total n cif :
  u32_ok n ->
  (exists b, decode_ack n cif = Ok b /\ cb_ok b) \/ (exists x, decode_ack n cif = Err x).
Proof.
  intros Hn. unfold decode_ack.
  destruct (Nat.eqb_spec (length cif) 4) as [E4|_].
  { left. buf_take 4%nat cif s r Hs. eexists; split; [done|]. cbn.
    split_and!; [done|apply seq_new_ok|constructor]. }
  destruct (Nat.eqb_spec (length cif) 16) as [E16|_].
  { left. buf_take 4%nat cif s r Hs. buf_take 4%nat r a r1 Ha.
    buf_take 4%nat r1 b r2 Hb. buf_take 4%nat r2 c r3 Hc.
    eexists; split; [done|]. cbn. split_and!; [done|apply seq_new_ok|].
    by repeat constructor; try apply Ha; try apply Hb; try apply Hc. }
  destruct (Nat.eqb_spec (length cif) 28) as [E28|_]; [|right; by eexists].
  left. buf_take 4%nat cif s r Hs. buf_take 4%nat r a r1 Ha.
  buf_take 4%nat r1 b r2 Hb. buf_take 4%nat r2 c r3 Hc. buf_take 4%nat r3 d r4 Hd.
  buf_take 4%nat r4 e r5 He. buf_take 4%nat r5 f r6 Hf.
  eexists; split; [done|]. cbn. split_and!; [done|apply seq_new_ok|].
  apply Forall_forall. intros x Hx%list_elem_of_In. simpl in Hx. unfold u32_ok.
  by repeat (destruct Hx as [<-|Hx]); [..|destruct Hx].
Qed.

Lemma loss_decode_total cif :
  (exists rs, loss_decode cif = Ok rs /\ Forall range_ok rs) \/
  (exists x, loss_decode cif = Err x).
Proof.
  unfold loss_decode.
  destruct (Nat.eqb_spec (length cif mod 4) 0) as [E|_]; [|right; by eexists].
  destruct (aligned_words cif E) as (ws & -> & Hws). cbn [negb].
  rewrite loss_decode_loop_words by (rewrite ?length_words_bytes; done || lia).
  destruct (parse_words ws) as [rs|] eqn:Ep; [left|right; by eexists].
  exists rs. split; [done|]. by eapply parse_words_ok.
Qed.

Lemma cb_decode_total t st ts cif :
  u16_ok st -> u32_ok ts ->
  (exists b, cb_decode t st ts cif = Ok b /\ cb_ok b) \/
  (exists x, cb_decode t st ts cif = Err x).
Proof.
  intros Hst Hts. unfold cb_decode.
  destruct (ct_from_raw_cases t) as [(ct & -> & _)| ->]; [|right; by eexists].
  cbn [mbind res_bind].
  destruct ct; try (left; eexists; split; [done|]; cbn; by intuition).
  - destruct (hs_decode_total cif) as [(h & -> & Hh)|[x ->]]; [left|right]; by eexists.
  - by apply decode_ack_total.
  - destruct (loss_decode_total cif) as [(h & -> & Hh)|[x ->]]; [left|right]; by eexists.
  - rewrite remaining_spec.
    destruct (Nat.eqb_spec (length cif) 8) as [E|E]; [left|right; by eexists]. cbn [negb].
    buf_take 4%nat cif a r Ha. buf_take 4%nat r b r1 Hb.
    eexists; split; [done|]. cbn. split_and!; [done|apply seq_new_ok..].
Qed.
End Proofs.
