(* ===== verification/Packet.v ===== *)
(** * Packet: the packet codec ([packet.rs]) *)

From S2P Require Import Prelude Buf Errors Seq LossList Timestamp Reject PacketTypes Handshake Control.

Definition HEADER_LEN : nat := 16.
Definition FLAG_CONTROL : Z := 0x80000000.

Record ControlPacket : Type := MkControl {
  cp_timestamp : Timestamp;
  cp_dest_socket_id : SocketId;
  cp_body : ControlBody;
}.

Inductive Packet : Type :=
  | PData (d : DataPacket)
  | PControl (c : ControlPacket).

#[export] Instance control_packet_eq_dec : EqDecision ControlPacket.
Proof. solve_decision. Defined.
#[export] Instance packet_eq_dec : EqDecision Packet.
Proof. solve_decision. Defined.

Section Codec.
Context {B : BytesApi}.

Definition packet_encode (p : Packet) (out : list byte) : panicky (list byte) :=
  match p with
  | PData d =>
      let out := put_u32 out (seq_value (dp_seq d)) in
      let w1 :=
        Z.lor (Z.lor (Z.lor (Z.lor
          (Z.shiftl (position_to_bits (dp_position d)) 30)
          (Z.shiftl (b2z (dp_in_order d)) 29))
          (Z.shiftl (enc_to_bits (dp_encryption d)) 27))
          (Z.shiftl (b2z (dp_retransmitted d)) 26))
          (msg_value (dp_message_number d)) in
      let out := put_u32 out w1 in
      let out := put_u32 out (ts_as_micros (dp_timestamp d)) in
      let out := put_u32 out (socket_id_value (dp_dest_socket_id d)) in
      Ret (put_slice out (dp_payload d))
  | PControl c =>
      let '(control_type, subtype, type_specific) := to_wire (cp_body c) in
      let w0 := Z.lor (Z.lor FLAG_CONTROL (Z.shiftl control_type 16)) subtype in
      let out := put_u32 out w0 in
      let out := put_u32 out type_specific in
      let out := put_u32 out (ts_as_micros (cp_timestamp c)) in
      let out := put_u32 out (socket_id_value (cp_dest_socket_id c)) in
      encode_cif (cp_body c) out
  end.

Definition packet_decode (buf : list byte) : res PacketError Packet :=
  if (length buf <? HEADER_LEN)%nat then Err (PktTooShort HEADER_LEN (length buf)) else
  '(w0, cur) ← lift (get_u32 buf);
  '(w1, cur) ← lift (get_u32 cur);
  '(ts, cur) ← lift (get_u32 cur);
  '(dest, cur) ← lift (get_u32 cur);
  if negb (Z.land w0 FLAG_CONTROL =? 0) then
    body ← map_err PeControl
      (cb_decode (Z.land (Z.land (Z.shiftr w0 16) 0xFFFF) 0x7FFF) (Z.land w0 0xFFFF) w1 cur);
    Ok (PControl (MkControl (from_micros ts) (socket_id_new dest) body))
  else
    encryption ← enc_from_bits (Z.land (Z.shiftr w1 27) 3);
    Ok (PData (MkData
          (seq_new w0)
          (position_from_bits (Z.land (Z.shiftr w1 30) 0xFF))
          (negb (Z.land w1 (Z.shiftl 1 29) =? 0))
          encryption
          (negb (Z.land w1 (Z.shiftl 1 26) =? 0))
          (msg_new w1)
          (from_micros ts)
          (socket_id_new dest)
          cur)).
End Codec.

(** ** Well-formed packets and their bytes *)

Definition control_packet_ok (c : ControlPacket) : Prop :=
  ts_ok (cp_timestamp c) /\ socket_id_ok (cp_dest_socket_id c) /\ cb_ok (cp_body c).

Definition packet_ok (p : Packet) : Prop :=
  match p with PData d => data_packet_ok d | PControl c => control_packet_ok c end.

Definition data_word1 (d : DataPacket) : Z :=
  flag_sum (position_to_bits (dp_position d)) (b2z (dp_in_order d))
    (enc_to_bits (dp_encryption d)) (b2z (dp_retransmitted d))
    (msg_value (dp_message_number d)).

Definition packet_bytes (p : Packet) : list byte :=
  match p with
  | PData d =>
      be_bytes 4 (seq_value (dp_seq d)) ++ be_bytes 4 (data_word1 d) ++
      be_bytes 4 (ts_as_micros (dp_timestamp d)) ++
      be_bytes 4 (socket_id_value (dp_dest_socket_id d)) ++ dp_payload d
  | PControl c =>
      let '(t, st, ts) := to_wire (cp_body c) in
      be_bytes 4 (0x80000000 + t * 65536 + st) ++ be_bytes 4 ts ++
      be_bytes 4 (ts_as_micros (cp_timestamp c)) ++
      be_bytes 4 (socket_id_value (cp_dest_socket_id c)) ++ cif_bytes (cp_body c)
  end.

(** ** The flag words as arithmetic *)

Lemma to_wire_range b :
  cb_ok b -> let '(t, st, ts) := to_wire b in
  0 <= t < 2 ^ 15 /\ 0 <= st < 2 ^ 16 /\ u32_ok ts.
Proof.
  destruct b as [| | |n|n f l|n|[n s c]|loss|hs|t st ts cif]; cbn; unfold u32_ok;
    try (intuition lia).
  intros (-> & Hst & Hts). unfold u16_ok in Hst. cbn. lia.
Qed.

Lemma control_word0 t st :
  0 <= t < 2 ^ 15 -> 0 <= st < 2 ^ 16 ->
  Z.lor (Z.lor FLAG_CONTROL (Z.shiftl t 16)) st = 0x80000000 + t * 65536 + st.
Proof.
  intros Ht Hst. rewrite Z.shiftl_mul_pow2 by lia. change FLAG_CONTROL with (1 * 2 ^ 31).
  rewrite (lor_add 1 (t * 2 ^ 16) 31) by lia.
  replace (1 * 2 ^ 31 + t * 2 ^ 16) with ((2 ^ 15 + t) * 2 ^ 16) by lia.
  rewrite lor_add by lia. lia.
Qed.

Lemma control_word0_fields t st :
  0 <= t < 2 ^ 15 -> 0 <= st < 2 ^ 16 ->
  let w0 := 0x80000000 + t * 65536 + st in
  (Z.land w0 FLAG_CONTROL =? 0) = false /\
  Z.land (Z.land (Z.shiftr w0 16) 0xFFFF) 0x7FFF = t /\ Z.land w0 0xFFFF = st.
Proof.
  intros Ht Hst. cbv zeta. change 0xFFFF with (2 ^ 16 - 1). change 0x7FFF with (2 ^ 15 - 1).
  rewrite !land_mask, Z.shiftr_div_pow2 by lia. split_and!.
  - change FLAG_CONTROL with (2 ^ 31). rewrite land_bit, testbit_div by lia.
    replace ((2147483648 + t * 65536 + st) / 2 ^ 31) with 1 by zmod. done.
  - zmod.
  - zmod.
Qed.

(** The data flag is the top bit of the first word. *)
Lemma flag_control_test w :
  u32_ok w -> (Z.land w FLAG_CONTROL =? 0) = (w <? 0x80000000).
Proof.
  intros Hw. pose proof (range_flag_test w Hw) as H.
  change RANGE_FLAG with FLAG_CONTROL in H. apply (f_equal negb) in H.
  rewrite negb_involutive in H. rewrite H. unfold FLAG_CONTROL. lia.
Qed.

Lemma word1_fields pp o kk r m :
  0 <= pp < 4 -> 0 <= o < 2 -> 0 <= kk < 4 -> 0 <= r < 2 -> 0 <= m < 2 ^ 26 ->
  let w := flag_sum pp o kk r m in
  Z.land (Z.shiftr w 27) 3 = kk /\ Z.land (Z.shiftr w 30) 0xFF = pp /\
  negb (Z.land w (Z.shiftl 1 29) =? 0) = (o =? 1) /\
  negb (Z.land w (Z.shiftl 1 26) =? 0) = (r =? 1) /\ w mod 2 ^ 26 = m /\ u32_ok w.
Proof.
  intros Hp Ho Hk Hr Hm. cbv zeta.
  change 3 with (2 ^ 2 - 1). change 0xFF with (2 ^ 8 - 1).
  rewrite !land_mask, !Z.shiftr_div_pow2, !Z.shiftl_1_l, !land_bit, !testbit_div by lia.
  unfold flag_sum, u32_ok.
  assert ((pp * 2 ^ 30 + o * 2 ^ 29 + kk * 2 ^ 27 + r * 2 ^ 26 + m) / 2 ^ 29 = pp * 2 + o) as -> by zmod.
  assert ((pp * 2 ^ 30 + o * 2 ^ 29 + kk * 2 ^ 27 + r * 2 ^ 26 + m) / 2 ^ 26
          = pp * 16 + o * 8 + kk * 2 + r) as -> by zmod.
  replace ((pp * 2 + o) mod 2) with o by zmod.
  replace ((pp * 16 + o * 8 + kk * 2 + r) mod 2) with r by zmod.
  split_and!; [zmod|zmod| | |zmod|lia|lia].
  - by destruct (Z.eqb_spec o 1).
  - by destruct (Z.eqb_spec r 1).
Qed.

(** Every 32-bit word is such a sum. *)
Lemma word1_split w :
  u32_ok w -> exists pp o kk r m,
    0 <= pp < 4 /\ 0 <= o < 2 /\ 0 <= kk < 4 /\ 0 <= r < 2 /\ 0 <= m < 2 ^ 26 /\
    w = flag_sum pp o kk r m.
Proof.
  unfold u32_ok, flag_sum. intros Hw.
  exists (w / 2 ^ 30), (w / 2 ^ 29 mod 2), (w / 2 ^ 27 mod 4), (w / 2 ^ 26 mod 2), (w mod 2 ^ 26).
  split_and!; zmod.
Qed.

Lemma b2z_eqb o : 0 <= o < 2 -> b2z (o =? 1) = o.
Proof. intros. unfold b2z. destruct (Z.eqb_spec o 1); lia. Qed.
Lemma eqb_b2z b : (b2z b =? 1) = b.
Proof. by destruct b. Qed.

Lemma data_word1_fields d :
  msg_ok (dp_message_number d) ->
  let w := data_word1 d in
  Z.land (Z.shiftr w 27) 3 = enc_to_bits (dp_encryption d) /\
  Z.land (Z.shiftr w 30) 0xFF = position_to_bits (dp_position d) /\
  negb (Z.land w (Z.shiftl 1 29) =? 0) = dp_in_order d /\
  negb (Z.land w (Z.shiftl 1 26) =? 0) = dp_retransmitted d /\
  msg_new w = dp_message_number d /\ u32_ok w.
Proof.
  intros Hm. cbv zeta. unfold data_word1.
  destruct (word1_fields (position_to_bits (dp_position d)) (b2z (dp_in_order d))
    (enc_to_bits (dp_encryption d)) (b2z (dp_retransmitted d))
    (msg_value (dp_message_number d))) as (H1 & H2 & H3 & H4 & H5 & H6); auto with srt.
  rewrite H1, H2, H3, H4, !eqb_b2z. split_and!; try done.
  destruct (dp_message_number d) as [m] eqn:E. unfold msg_new. f_equal.
  change MSG_MASK with (2 ^ 26 - 1). rewrite land_mask by lia. exact H5.
Qed.

Section Proofs.
Context {B : BytesApi} {HB : BytesSpec B}.

Lemma packet_encode_bytes p out :
  packet_ok p -> packet_encode p out = Ret (out ++ packet_bytes p).
Proof.
  destruct p as [d|c]; intros H; cbn [packet_encode packet_bytes].
  - destruct H as (_ & Hm & _). rewrite word1_or_sum by auto with srt.
    buf_spec. by rewrite <- !app_assoc.
  - destruct H as (_ & _ & Hb). pose proof (to_wire_range _ Hb) as Hr.
    destruct (to_wire (cp_body c)) as [[t st] ts]. destruct Hr as (Ht & Hst & Hts).
    rewrite encode_cif_bytes, control_word0 by done. buf_spec. by rewrite <- !app_assoc.
Qed.

Lemma packet_decode_bytes p : packet_ok p -> packet_decode (packet_bytes p) = Ok p.
Proof.
  destruct p as [d|c]; intros H; cbn [packet_bytes].
  - destruct H as (Hs & Hm & Ht & Hd). apply seq_word in Hs as Hs'.
    destruct (data_word1_fields d Hm) as (F1 & F2 & F3 & F4 & F5 & Hw).
    unfold packet_decode, HEADER_LEN. rewrite (proj2 (Nat.ltb_ge _ _)) by buf_len.
    do 4 buf_read. rewrite flag_control_test by exact Hs'.
    rewrite (proj2 (Z.ltb_lt _ _)) by apply Hs. cbn [negb].
    rewrite F1, F2, F3, F4, F5, enc_from_to_bits, seq_new_value by done.
    cbn [mbind res_bind].
    destruct d as [? [] ? ? ? ? [] [] ?]; reflexivity.
  - destruct H as (Ht & Hd & Hb). pose proof (to_wire_range _ Hb) as Hr.
    pose proof (cb_decode_bytes _ Hb) as Hdec.
    destruct (to_wire (cp_body c)) as [[t st] ts]. destruct Hr as (Hty & Hst & Hts).
    destruct (control_word0_fields t st Hty Hst) as (F1 & F2 & F3).
    unfold packet_decode, HEADER_LEN. rewrite (proj2 (Nat.ltb_ge _ _)) by buf_len.
    do 4 buf_read. rewrite F1. cbn [negb]. rewrite F2, F3, Hdec.
    by destruct c as [[] [] ?].
Qed.

(** Decoding any input returns: a well-formed packet or an error. *)
Lemma packet_decode_total buf :
  (exists p, packet_decode buf = Ok p /\ packet_ok p) \/
  (exists x, packet_decode buf = Err x).
Proof.
  unfold packet_decode, HEADER_LEN.
  destruct (Nat.ltb_spec (length buf) 16); [right; by eexists|].
  buf_take 4%nat buf w0 r H0. buf_take 4%nat r w1 r1 H1.
  buf_take 4%nat r1 ts r2 H2. buf_take 4%nat r2 dest r3 H3.
  destruct (negb (Z.land w0 FLAG_CONTROL =? 0)).
  - destruct (cb_decode_total (Z.land (Z.land (Z.shiftr w0 16) 0xFFFF) 0x7FFF)
      (Z.land w0 0xFFFF) w1 r3) as [(b & -> & Hb)|[x ->]]; [|exact H1|left|right].
    + change 0xFFFF with (2 ^ 16 - 1). rewrite land_mask by lia. unfold u16_ok. zmod.
    + by eexists.
    + by eexists.
  - destruct (enc_from_bits (Z.land (Z.shiftr w1 27) 3)) as [e|x|] eqn:E.
    + left. eexists; split; [done|]. split_and!; [apply seq_new_ok|apply msg_new_ok|exact H2|exact H3].
    + right. by eexists.
    + by apply enc_from_bits_no_crash in E.
Qed.

(** The data codec is exact in the other direction as well. *)
Lemma packet_decode_data_exact buf d :
  packet_decode buf = Ok (PData d) -> packet_bytes (PData d) = buf.
Proof.
  unfold packet_decode, HEADER_LEN.
  destruct (Nat.ltb_spec (length buf) 16); [done|].
  buf_take 4%nat buf w0 r H0. buf_take 4%nat r w1 r1 H1.
  buf_take 4%nat r1 ts r2 H2. buf_take 4%nat r2 dest r3 H3.
  rewrite flag_control_test by exact H0.
  destruct (Z.ltb_spec w0 0x80000000); cbn [negb];
    [|by destruct (map_err _ _)].
  destruct (word1_split w1 H1) as (pp & o & kk & rr & m & Hp & Ho & Hk & Hr & Hm & ->).
  destruct (word1_fields pp o kk rr m) as (F1 & F2 & F3 & F4 & F5 & _); try done.
  destruct (enc_from_bits _) as [e|x|] eqn:E; [|done..]. intros [= <-].
  apply enc_from_bits_ok in E. rewrite F1 in E.
  change (256 ^ Z.of_nat 4) with 4294967296 in H0.
  cbn [packet_bytes dp_seq dp_timestamp dp_dest_socket_id dp_payload]. unfold data_word1.
  cbn [dp_position dp_in_order dp_encryption dp_retransmitted dp_message_number].
  rewrite F2, F3, F4, !b2z_eqb by done. unfold seq_value.
  rewrite seq_new_mod, Z.mod_small by lia.
  assert (msg_value (msg_new (flag_sum pp o kk rr m)) = m) as -> by (by rewrite msg_new_mod).
  assert (forall z, 0 <= z < 4 -> Z.land z 3 = z) as H3'.
  { intros z Hz. change 3 with (2 ^ 2 - 1). rewrite land_mask by lia. by apply Z.mod_small. }
  by rewrite E, position_to_from_bits, !H3'.
Qed.

(** The AAD is the header that goes on the wire, the R flag cleared. *)
Lemma header_aad_bytes d :
  msg_ok (dp_message_number d) ->
  header_aad d =
  take 16 (packet_bytes (PData (MkData (dp_seq d) (dp_position d) (dp_in_order d)
    (dp_encryption d) false (dp_message_number d) (dp_timestamp d)
    (dp_dest_socket_id d) (dp_payload d)))).
Proof.
  intros Hm. cbn [packet_bytes]. unfold header_aad.
  rewrite word1_without_r_sum by done. unfold data_word1. cbn -[take be_bytes flag_sum].
  rewrite !app_assoc, take_app_length'; [done|].
  rewrite !length_app, !length_be_bytes. done.
Qed.
End Proofs.

(** ** The properties *)

(** C26 (roundtrip).  Every well-formed packet, data or control with any of its
    bodies (handshake with extensions and stream id, ACK in its three sizes, NAK
    loss lists, drop requests, key-material messages), encodes without panic by
    appending its bytes, and the decoder gives back exactly that packet. *)
Theorem packet_roundtrip {B : BytesApi} {HB : BytesSpec B} (p : Packet) :
  packet_ok p ->
  exists bs, (forall out, packet_encode p out = Ret (out ++ bs)) /\ packet_decode bs = Ok p.
Proof.
  intros Hp. exists (packet_bytes p). split; [intros out; by apply packet_encode_bytes|].
  by apply packet_decode_bytes.
Qed.

Definition ex_handshake : Handshake :=
  MkHandshake 5 EfAes128 5 (MkSeq 7) 1500 8192 hst_CONCLUSION (socket_id_new 3) 99
    (replicate 16 zero_byte)
    [HsReq (MkSrtHs 0x10504 (MkFlags 0xBF) 120 120); StreamId (u8_of_Z <$> [97; 98; 99; 100; 101])].

Lemma ex_handshake_ok : hs_ok ex_handshake.
Proof.
  unfold ex_handshake, hs_ok. cbn [hs_version hs_extension_field hs_initial_seq hs_mtu
    hs_max_flow_window hs_handshake_type hs_srt_socket_id hs_syn_cookie hs_peer_ip hs_extensions].
  do 9 (split; [by vm_compute|]).
  apply Forall_cons; split; [|apply Forall_cons; split; [|by apply Forall_nil]]; cbn [ext_ok].
  - split_and!; by vm_compute.
  - split_and!; by vm_compute.
Qed.

Lemma packet_roundtrip_witness :
  exists bs, @packet_encode vec_bytes
      (PControl (MkControl (from_micros 5) (socket_id_new 0) (CbHandshake ex_handshake))) [] = Ret bs /\
    @packet_decode vec_bytes bs =
      Ok (PControl (MkControl (from_micros 5) (socket_id_new 0) (CbHandshake ex_handshake))).
Proof.
  destruct (@packet_roundtrip vec_bytes vec_bytes_spec
    (PControl (MkControl (from_micros 5) (socket_id_new 0) (CbHandshake ex_handshake)))) as (bs & E & D).
  - split; [by vm_compute|]. split; [by vm_compute|]. exact ex_handshake_ok.
  - exists bs. split; [exact (E [])|exact D].
Defined.

(** C27 (safety).  The decoder is total and sound on arbitrary bytes: it never
    panics, whatever it accepts satisfies the invariants of the types (31-bit
    sequence numbers, 26-bit message numbers, valid UTF-8 stream ids, well-formed
    extensions), and an accepted data packet re-encodes to the very same bytes. *)
Theorem packet_decode_sound {B : BytesApi} {HB : BytesSpec B} (buf : list byte) :
  match packet_decode buf with
  | Ok p => packet_ok p /\ match p with PData _ => packet_encode p [] = Ret buf | _ => True end
  | Err _ => True
  | Crash => False
  end.
Proof.
  destruct (packet_decode_total buf) as [(p & E & Hp)|[x E]]; rewrite E; [|done].
  split; [done|]. destruct p as [d|c]; [|done].
  rewrite packet_encode_bytes by done. f_equal. cbn [app]. by apply packet_decode_data_exact.
Qed.

(** A one-byte data packet: sent alone, in order, in the clear. *)
Definition ex_datagram : list byte :=
  u8_of_Z <$> [0; 0; 0; 5; 0xE0; 0; 0; 1; 0; 0; 0; 9; 0; 0; 0; 3; 71].

Lemma packet_decode_sound_witness :
  exists d, @packet_decode vec_bytes ex_datagram = Ok (PData d) /\ packet_ok (PData d) /\
    @packet_encode vec_bytes (PData d) [] = Ret ex_datagram.
Proof.
  pose proof (@packet_decode_sound vec_bytes vec_bytes_spec ex_datagram) as H.
  destruct (@packet_decode vec_bytes ex_datagram) as [[d|c]|x|] eqn:E.
  - exists d. split; [reflexivity|exact H].
  - vm_compute in E. discriminate E.
  - vm_compute in E. discriminate E.
  - destruct H.
Defined.
