(* ===== verification/SendBuffer.v ===== *)
(** * SendBuffer: the retransmission buffer ([send_buffer.rs])

    The specification is a window of consecutive sequence numbers: [sb_ok sb]
    says that packet [i] carries [first + i], and every operation is described
    by its effect on that window. *)

From S2P Require Import Prelude Seq Timestamp PacketTypes Time.

Record Sent : Type := MkSent { sent_packet : DataPacket; sent_last_retransmit : option Instant }.

Record SendBuffer : Type := MkSendBuffer { sb_packets : list Sent }.

Definition sb_new : SendBuffer := MkSendBuffer [].

Definition sb_is_empty (sb : SendBuffer) : bool :=
  match sb_packets sb with [] => true | _ => false end.

Definition sb_len (sb : SendBuffer) : nat := length (sb_packets sb).

Definition sent_seq (s : Sent) : SeqNumber := dp_seq (sent_packet s).

Definition sb_first_seq (sb : SendBuffer) : option SeqNumber :=
  sent_seq <$> head (sb_packets sb).

Definition sb_front (sb : SendBuffer) : option DataPacket :=
  sent_packet <$> head (sb_packets sb).

Definition sb_drop_front (sb : SendBuffer) : option DataPacket * SendBuffer :=
  match sb_packets sb with
  | [] => (None, sb)
  | s :: rest => (Some (sent_packet s), MkSendBuffer rest)
  end.

Definition sb_last_seq (sb : SendBuffer) : option SeqNumber :=
  sent_seq <$> last (sb_packets sb).

(** The [debug_assert] of the source is the contiguity [sb_ok] states. *)
Definition sb_push (sb : SendBuffer) (packet : DataPacket) : SendBuffer :=
  MkSendBuffer (sb_packets sb ++ [MkSent packet None]).

Definition is_lt (c : comparison) : bool := match c with Lt => true | _ => false end.
Definition is_gt (c : comparison) : bool := match c with Gt => true | _ => false end.

(** The [while let Some(front)] loop, with its count. *)
Fixpoint ack_loop (packets : list Sent) (next_expected : SeqNumber) (dropped : nat)
  : nat * list Sent :=
  match packets with
  | [] => (dropped, packets)
  | front :: rest =>
      if is_lt (circular_cmp (sent_seq front) next_expected)
      then ack_loop rest next_expected (S dropped)
      else (dropped, packets)
  end.

Definition sb_ack (sb : SendBuffer) (next_expected : SeqNumber) : nat * SendBuffer :=
  let '(dropped, packets) := ack_loop (sb_packets sb) next_expected 0 in
  (dropped, MkSendBuffer packets).

Definition sb_index_of (sb : SendBuffer) (seq : SeqNumber) : option nat :=
  front ← sb_first_seq sb;
  let offset := offset_from seq front in
  if (0 <=? offset) && (Z.to_nat offset <? sb_len sb)%nat
  then Some (Z.to_nat offset) else None.

Definition sb_get (sb : SendBuffer) (seq : SeqNumber) : option DataPacket :=
  i ← sb_index_of sb seq; sent_packet <$> sb_packets sb !! i.

Definition sb_last_retransmitted (sb : SendBuffer) (seq : SeqNumber) : option Instant :=
  i ← sb_index_of sb seq; s ← sb_packets sb !! i; sent_last_retransmit s.

Definition sb_mark_retransmitted (sb : SendBuffer) (seq : SeqNumber) (now : Instant)
  : SendBuffer :=
  match sb_index_of sb seq with
  | Some i =>
      MkSendBuffer (alter (fun s => MkSent (sent_packet s) (Some now)) i (sb_packets sb))
  | None => sb
  end.

(** ** The window invariant *)

(** Packet [i] of the list carries [s + i]. *)
Definition contiguous (s : SeqNumber) (l : list Sent) : Prop :=
  forall i x, l !! i = Some x -> sent_seq x = seq_add s (Z.of_nat i).

(** At most half the sequence space, so that circular order is the window's. *)
Definition SB_MAX : Z := 0x40000000.

Definition sb_window (sb : SendBuffer) (s : SeqNumber) : Prop :=
  seq_ok s /\ contiguous s (sb_packets sb) /\ Z.of_nat (sb_len sb) <= SB_MAX.

Definition sb_ok (sb : SendBuffer) : Prop := exists s, sb_window sb s.

Lemma contiguous_tail s x l : contiguous s (x :: l) -> contiguous (seq_next s) l.
Proof.
  intros H i y Hy. rewrite (H (S i) y Hy), seq_next_add. f_equal. lia.
Qed.

Lemma contiguous_head s x l : seq_ok s -> contiguous s (x :: l) -> sent_seq x = s.
Proof. intros Hs H. rewrite (H O x eq_refl). by apply seq_add_0. Qed.

Lemma contiguous_cons s x l :
  seq_ok s -> sent_seq x = s -> contiguous (seq_next s) l -> contiguous s (x :: l).
Proof.
  intros Hs Hx H [|i] y Hy; simplify_eq/=; [by rewrite seq_add_0|].
  rewrite (H i y Hy), seq_next_add. f_equal. lia.
Qed.

Lemma contiguous_drop s l n : contiguous s l -> contiguous (seq_add s (Z.of_nat n)) (drop n l).
Proof.
  intros H i x Hx. rewrite lookup_drop in Hx. rewrite (H _ _ Hx), seq_add_add. f_equal. lia.
Qed.

Lemma contiguous_snoc s l x :
  contiguous s l -> sent_seq x = seq_add s (Z.of_nat (length l)) -> contiguous s (l ++ [x]).
Proof.
  intros H Hx i y Hy. apply lookup_app_Some in Hy as [Hy|[Hi Hy]]; [by apply H|].
  apply list_lookup_singleton_Some in Hy as [Hi' <-]. rewrite Hx. do 2 f_equal. lia.
Qed.

Lemma contiguous_alter s l i f :
  (forall x, sent_seq (f x) = sent_seq x) -> contiguous s l -> contiguous s (alter f i l).
Proof.
  intros Hf H j x Hx. rewrite list_lookup_alter in Hx. case_decide; [|by apply H].
  apply fmap_Some in Hx as (y & Hy & ->). rewrite Hf. subst. by apply H.
Qed.

Lemma sb_window_first sb s :
  sb_window sb s -> sb_packets sb <> [] -> sb_first_seq sb = Some s.
Proof.
  intros (Hs & Hc & _) Hne. unfold sb_first_seq.
  destruct (sb_packets sb) as [|x l]; [done|]. simpl. f_equal. by eapply contiguous_head.
Qed.

Lemma sb_window_last sb s :
  sb_window sb s -> sb_packets sb <> [] ->
  sb_last_seq sb = Some (seq_add s (Z.of_nat (sb_len sb) - 1)).
Proof.
  intros (Hs & Hc & _) Hne. unfold sb_last_seq, sb_len. rewrite last_lookup.
  destruct (lookup_lt_is_Some_2 (sb_packets sb) (Init.Nat.pred (length (sb_packets sb))))
    as [x Hx].
  { destruct (sb_packets sb); [done|]. simpl. lia. }
  rewrite Hx. simpl. f_equal. rewrite (Hc _ _ Hx). f_equal.
  destruct (sb_packets sb); [done|]. simpl. lia.
Qed.

(** ** The ACK loop drops a prefix of known length *)

Lemma ack_loop_drop l s n d k :
  seq_ok s -> contiguous s l -> (k <= length l)%nat ->
  (forall i, (i < k)%nat -> offset_from (seq_add s (Z.of_nat i)) n < 0) ->
  ((k < length l)%nat -> 0 <= offset_from (seq_add s (Z.of_nat k)) n) ->
  ack_loop l n d = ((d + k)%nat, drop k l).
Proof.
  intros Hs Hc Hk Hlt Hge. revert s d k Hs Hc Hk Hlt Hge.
  induction l as [|x l IH]; intros s d k Hs Hc Hk Hlt Hge; simpl in Hk.
  { replace k with O by lia. simpl. by rewrite Nat.add_0_r. }
  cbn [ack_loop]. rewrite (contiguous_head _ _ _ Hs Hc), circular_cmp_eq.
  destruct k as [|k].
  - specialize (Hge ltac:(simpl; lia)). simpl in Hge. rewrite seq_add_0 in Hge by done.
    destruct (Z.compare_spec (offset_from s n) 0); [..|lia|]; simpl; by rewrite Nat.add_0_r.
  - pose proof (Hlt O ltac:(lia)) as H0. simpl in H0. rewrite seq_add_0 in H0 by done.
    apply Z.compare_lt_iff in H0. rewrite H0. cbn [is_lt drop].
    assert (forall i, seq_add (seq_next s) (Z.of_nat i) = seq_add s (Z.of_nat (S i))) as Hn.
    { intros i. rewrite seq_next_add. f_equal. lia. }
    rewrite (IH (seq_next s) (S d) k); [f_equal; lia|apply seq_next_ok| |lia| |].
    + by eapply contiguous_tail.
    + intros i Hi. rewrite Hn. apply Hlt. lia.
    + intros Hi. rewrite Hn. apply Hge. simpl. lia.
Qed.

(** How many packets an ACK up to [n] clears from a window at [s]. *)
Definition ack_count (s n : SeqNumber) (len : nat) : nat :=
  Z.to_nat (Z.min (offset_from n s) (Z.of_nat len)).

Lemma sb_ack_window sb s n :
  sb_window sb s -> -0x40000000 < offset_from n s ->
  let k := ack_count s n (sb_len sb) in
  sb_ack sb n = (k, MkSendBuffer (drop k (sb_packets sb))).
Proof.
  intros (Hs & Hc & Hlen) Hd. cbv zeta. unfold sb_ack, sb_len in *.
  pose proof (offset_from_range n s) as Hr. unfold SB_MAX in Hlen.
  assert (forall i, -0x40000000 <= Z.of_nat i - offset_from n s < 0x40000000 ->
    offset_from (seq_add s (Z.of_nat i)) n = Z.of_nat i - offset_from n s) as Hoff.
  { intros i Hi. rewrite !offset_from_eq, seq_add_mod in *. zmod. }
  rewrite (ack_loop_drop _ s n 0 (ack_count s n (length (sb_packets sb)))); [done|done|done|..];
    unfold ack_count; [lia| |].
  - intros i Hi. rewrite Hoff; lia.
  - intros Hk. rewrite Hoff; lia.
Qed.

(** An ACK keeps the window and moves its start. *)
Lemma sb_ack_keeps_window sb s n :
  sb_window sb s -> -0x40000000 < offset_from n s ->
  sb_window (snd (sb_ack sb n)) (seq_add s (Z.of_nat (ack_count s n (sb_len sb)))).
Proof.
  intros Hw Hd. rewrite (sb_ack_window _ s) by done. destruct Hw as (Hs & Hc & Hl).
  split_and!; simpl; [apply seq_add_ok|by apply contiguous_drop|].
  unfold sb_len in *. simpl. rewrite length_drop. lia.
Qed.

(** Even an ACK outside the half-space leaves a suffix, hence a window. *)
Lemma ack_loop_suffix l n d :
  exists k, (k <= length l)%nat /\ ack_loop l n d = ((d + k)%nat, drop k l).
Proof.
  revert d. induction l as [|x l IH]; intros d; cbn [ack_loop].
  { exists O. by rewrite Nat.add_0_r. }
  destruct (is_lt _).
  - destruct (IH (S d)) as (k & Hk & ->). exists (S k). simpl. split; [lia|f_equal; lia].
  - exists O. split; [lia|]. by rewrite Nat.add_0_r.
Qed.

Lemma sb_window_drop sb s k :
  sb_window sb s -> sb_window (MkSendBuffer (drop k (sb_packets sb))) (seq_add s (Z.of_nat k)).
Proof.
  intros (Hs & Hc & Hl). split_and!; simpl; [apply seq_add_ok|by apply contiguous_drop|].
  unfold sb_len in *. simpl. rewrite length_drop. lia.
Qed.

Lemma sb_ack_ok sb n : sb_ok sb -> sb_ok (snd (sb_ack sb n)).
Proof.
  intros [s Hw]. unfold sb_ack.
  destruct (ack_loop_suffix (sb_packets sb) n 0) as (k & Hk & ->). simpl.
  eexists. by apply sb_window_drop.
Qed.

Lemma sb_new_ok : sb_ok sb_new.
Proof. exists seq_ZERO. split_and!; [unfold seq_ok, seq_COUNT; simpl; lia|done|done]. Qed.

Lemma sb_drop_front_ok sb : sb_ok sb -> sb_ok (snd (sb_drop_front sb)).
Proof.
  intros [s Hw]. unfold sb_drop_front. destruct (sb_packets sb) as [|x l] eqn:E.
  { by exists s. }
  exists (seq_add s 1). pose proof (sb_window_drop sb s 1 Hw) as H. by rewrite E in H.
Qed.

Lemma sb_push_window sb s p :
  sb_window sb s -> Z.of_nat (sb_len sb) < SB_MAX ->
  dp_seq p = seq_add s (Z.of_nat (sb_len sb)) -> sb_window (sb_push sb p) s.
Proof.
  intros (Hs & Hc & Hl) Hm Hp. split_and!; [done|by apply contiguous_snoc|].
  unfold sb_len, sb_push in *. simpl. rewrite length_app. simpl. lia.
Qed.

Lemma sb_mark_window sb s q now :
  sb_window sb s -> sb_window (sb_mark_retransmitted sb q now) s.
Proof.
  intros (Hs & Hc & Hl). unfold sb_mark_retransmitted. destruct (sb_index_of sb q) as [i|]; [|done].
  split_and!; [done|by apply contiguous_alter|].
  unfold sb_len in *. simpl. by rewrite length_alter.
Qed.

(** ** Lookup by sequence number *)

Lemma sb_index_of_window sb s q i :
  sb_window sb s -> seq_ok q ->
  sb_index_of sb q = Some i <-> (i < sb_len sb)%nat /\ q = seq_add s (Z.of_nat i).
Proof.
  intros Hw Hq. pose proof Hw as (Hs & Hc & Hl). unfold sb_index_of, SB_MAX in *.
  destruct (decide (sb_packets sb = [])) as [E|E].
  { unfold sb_first_seq, sb_len. rewrite E. simpl. split; [done|lia]. }
  rewrite (sb_window_first _ s) by done. cbn [mbind option_bind].
  pose proof (offset_from_range q s).
  split.
  - intros H'. case_match eqn:Eb; [|done]. injection H' as <-.
    apply andb_prop in Eb as [E1 E2]. apply Z.leb_le in E1. apply Nat.ltb_lt in E2.
    split; [done|]. rewrite Z2Nat.id by done. symmetry. by apply seq_add_offset.
  - intros [Hi ->]. rewrite offset_from_add by lia.
    rewrite (proj2 (Z.leb_le _ _)) by lia. rewrite Nat2Z.id.
    by rewrite (proj2 (Nat.ltb_lt _ _)).
Qed.

Lemma sb_get_window sb s q p :
  sb_window sb s -> seq_ok q ->
  sb_get sb q = Some p <->
  exists i x, sb_packets sb !! i = Some x /\ sent_packet x = p /\ dp_seq p = q.
Proof.
  intros Hw Hq. unfold sb_get. rewrite bind_Some. split.
  - intros (i & Hi & Hp). apply fmap_Some in Hp as (x & Hx & ->).
    apply (sb_index_of_window _ s) in Hi as [_ ->]; [|done..].
    exists i, x. split_and!; [done..|]. by apply Hw.
  - intros (i & x & Hx & <- & <-). exists i. split; [|by rewrite Hx].
    apply (sb_index_of_window _ s); [done..|]. split; [by eapply lookup_lt_Some|].
    by apply Hw.
Qed.

(** No two stored packets share a sequence number. *)
Lemma contiguous_nodup s l i j x y :
  Z.of_nat (length l) <= SB_MAX -> contiguous s l ->
  l !! i = Some x -> l !! j = Some y -> sent_seq x = sent_seq y -> i = j.
Proof.
  intros Hl Hc Hx Hy E. rewrite (Hc _ _ Hx), (Hc _ _ Hy) in E.
  apply lookup_lt_Some in Hx. apply lookup_lt_Some in Hy. unfold SB_MAX in Hl.
  apply seq_add_inj in E; lia.
Qed.

(** ** The property *)

(** C14 (functional).  An acknowledgement releases exactly the packets before it.
    On a window starting at [s] (also across the wrap), [ack n] counts and drops
    the packets that precede [n] in circular order and no other: a lookup
    afterwards finds nothing for an acknowledged sequence number and the very
    same packet for every other one, and what is left is again a window. *)
Theorem ack_releases_exactly_the_prefix (sb : SendBuffer) (s n q : SeqNumber) :
  sb_window sb s -> seq_ok q -> -0x40000000 < offset_from n s ->
  let '(k, sb') := sb_ack sb n in
  sb_get sb' q =
    (if decide (offset_from q s < offset_from n s) then None else sb_get sb q) /\
  Z.of_nat k = Z.max 0 (Z.min (offset_from n s) (Z.of_nat (sb_len sb))) /\
  sb_len sb' = (sb_len sb - k)%nat /\ sb_window sb' (seq_add s (Z.of_nat k)).
Proof.
  intros Hw Hq Hn. pose proof (sb_ack_window sb s n Hw Hn) as Hack.
  pose proof (sb_ack_keeps_window sb s n Hw Hn) as Hw'. cbv zeta in Hack.
  rewrite Hack in *. cbn [snd] in Hw'. set (k := ack_count s n (sb_len sb)) in *.
  assert (Z.of_nat k = Z.max 0 (Z.min (offset_from n s) (Z.of_nat (sb_len sb)))) as Hk
    by (unfold k, ack_count; lia).
  split_and!; [|done|unfold sb_len; simpl; by rewrite length_drop|done].
  pose proof (offset_from_range q s) as Hr. pose proof (seq_add_offset q s Hq) as Hqs.
  assert (Z.of_nat (sb_len sb) <= SB_MAX) as Hmax by apply Hw. unfold SB_MAX in Hmax.
  apply option_eq. intros p. rewrite (sb_get_window _ _ q p Hw' Hq).
  assert (forall i x, sb_packets sb !! i = Some x -> dp_seq (sent_packet x) = seq_add s (Z.of_nat i))
    as Hc by apply Hw.
  destruct (decide (offset_from q s < offset_from n s)) as [Hlt|Hge].
  - split; [|done]. intros (i & x & Hx & <- & E). exfalso. cbn [sb_packets] in Hx.
    rewrite lookup_drop in Hx. pose proof (lookup_lt_Some _ _ _ Hx) as Hlen.
    rewrite (Hc _ _ Hx) in E. rewrite <- E, offset_from_add in Hlt by (unfold sb_len in *; lia).
    unfold sb_len in *. lia.
  - rewrite (sb_get_window sb s q p Hw Hq). split.
    + intros (i & x & Hx & Hp & E). cbn [sb_packets] in Hx. rewrite lookup_drop in Hx. by eauto.
    + intros (i & x & Hx & <- & E). pose proof (lookup_lt_Some _ _ _ Hx) as Hlen.
      assert (offset_from q s = Z.of_nat i) as Ho.
      { rewrite <- E, (Hc _ _ Hx). apply offset_from_add. unfold sb_len in *. lia. }
      exists (i - k)%nat, x. cbn [sb_packets]. rewrite lookup_drop.
      replace (k + (i - k))%nat with i by lia. done.
Qed.

Definition ex_sent (s : SeqNumber) (i : nat) : Sent :=
  MkSent (MkData (seq_add s (Z.of_nat i)) Single true EncNone false (msg_new (Z.of_nat i + 1))
    (from_micros (Z.of_nat i * 20)) (socket_id_new 9) [u8_of_Z (Z.of_nat i)]) None.

Lemma ex_sent_window s n :
  seq_ok s -> Z.of_nat n <= SB_MAX -> sb_window (MkSendBuffer (ex_sent s <$> List.seq 0 n)) s.
Proof.
  intros Hs Hn. split_and!; [done| |unfold sb_len; simpl; by rewrite length_fmap, length_seq].
  intros i x Hx. cbn [sb_packets] in Hx. apply list_lookup_fmap_Some in Hx as (j & Hx & Hj).
  apply lookup_seq in Hj as [-> _]. by subst x.
Qed.

Lemma ack_releases_exactly_the_prefix_witness :
  let sb := MkSendBuffer (ex_sent (MkSeq 0x7ffffffe) <$> List.seq 0 5) in
  let '(k, sb') := sb_ack sb (MkSeq 1) in
  Z.of_nat k = 3 /\ sb_get sb' (MkSeq 0) = None /\ sb_len sb' = 2%nat.
Proof.
  cbv zeta.
  pose proof (ack_releases_exactly_the_prefix (MkSendBuffer (ex_sent (MkSeq 0x7ffffffe) <$> List.seq 0 5))
    (MkSeq 0x7ffffffe) (MkSeq 1) (MkSeq 0)) as H.
  destruct (sb_ack _ _) as [k sb'] eqn:E. vm_compute in E. injection E as <- <-.
  destruct H as (H1 & H2 & H3 & _).
  - apply ex_sent_window; [by vm_compute|by vm_compute].
  - by vm_compute.
  - by vm_compute.
  - split; [exact H2|]. split; [exact H1|exact H3].
Defined.
