(* ===== verification/RecvBuffer.v ===== *)
(** * RecvBuffer: the reassembly buffer ([recv_buffer.rs])

    The abstract view is a partial map from positions past [base] to packets
    ([rb_at]); [rb_ok] ties the slots, the count and the sequence numbers
    together, and each operation is described through [rb_at]. *)

From S2P Require Import Prelude Seq Timestamp PacketTypes SendBuffer.

Abbreviation slot := (option DataPacket) (only parsing).

Definition is_present (s : slot) : bool := match s with Some _ => true | None => false end.

Record RecvBuffer : Type := MkRecvBuffer {
  rb_base : SeqNumber;
  rb_slots : list slot;
  rb_received : nat;
}.

Definition rb_new (initial_seq : SeqNumber) : RecvBuffer := MkRecvBuffer initial_seq [] 0.

Definition rb_ack_point (rb : RecvBuffer) : SeqNumber := rb_base rb.

Definition rb_occupancy (rb : RecvBuffer) : nat := rb_received rb.

(** [take_while(is_some).count()] *)
Fixpoint count_front (slots : list slot) : nat :=
  match slots with
  | Some _ :: r => S (count_front r)
  | _ => O
  end.

Definition rb_received_ack_point (rb : RecvBuffer) : SeqNumber :=
  seq_add (rb_base rb) (clamp u32_max (Z.of_nat (count_front (rb_slots rb)))).

Definition rb_has_gaps (rb : RecvBuffer) : bool :=
  negb (rb_received rb =? length (rb_slots rb))%nat.

(** [resize_with(n, || None)] for a larger [n]. *)
Definition resize_none (n : nat) (slots : list slot) : list slot :=
  slots ++ replicate (n - length slots) None.

Definition rb_insert (rb : RecvBuffer) (packet : DataPacket) : bool * RecvBuffer :=
  let off := offset_from (dp_seq packet) (rb_base rb) in
  if off <? 0 then (false, rb) else
  let offset := Z.to_nat off in
  let slots :=
    if (length (rb_slots rb) <=? offset)%nat then resize_none (S offset) (rb_slots rb)
    else rb_slots rb in
  match slots !! offset with
  | Some (Some _) => (false, MkRecvBuffer (rb_base rb) slots (rb_received rb))
  | _ => (true, MkRecvBuffer (rb_base rb) (<[offset := Some packet]> slots)
                  (S (rb_received rb)))
  end.

Definition rb_peek (rb : RecvBuffer) : option (SeqNumber * Timestamp) :=
  pos ← position is_present (rb_slots rb);
  packet ← mjoin (rb_slots rb !! pos);
  Some (dp_seq packet, dp_timestamp packet).

Definition rb_pop (rb : RecvBuffer) : option DataPacket * RecvBuffer :=
  match position is_present (rb_slots rb) with
  | None => (None, rb)
  | Some pos =>
      match drop pos (rb_slots rb) with
      | Some delivered :: rest =>
          (Some delivered,
           MkRecvBuffer (seq_next (dp_seq delivered)) rest (rb_received rb - 1))
      | None :: rest => (None, MkRecvBuffer (rb_base rb) rest (rb_received rb))
      | [] => (None, MkRecvBuffer (rb_base rb) [] (rb_received rb))
      end
  end.

Definition rb_pop_in_order (rb : RecvBuffer) : option DataPacket * RecvBuffer :=
  match rb_slots rb with
  | Some _ :: _ => rb_pop rb
  | _ => (None, rb)
  end.

(** [for _ in 0..advance { match pop_front ... }] *)
Fixpoint drop_loop (advance : nat) (slots : list slot) (received : nat)
  : list slot * nat :=
  match advance with
  | O => (slots, received)
  | S advance =>
      match slots with
      | Some _ :: r => drop_loop advance r (received - 1)
      | None :: r => drop_loop advance r received
      | [] => ([], received)
      end
  end.

Definition rb_drop_range (rb : RecvBuffer) (first last : SeqNumber) : RecvBuffer :=
  if is_lt (circular_cmp last (rb_base rb)) then rb else
  if is_gt (circular_cmp first (rb_base rb)) then rb else
  let advance := (Z.to_nat (offset_from last (rb_base rb)) + 1)%nat in
  let '(slots, received) := drop_loop advance (rb_slots rb) (rb_received rb) in
  MkRecvBuffer (seq_next last) slots received.

Fixpoint missing_loop (slots : list slot) (seq : SeqNumber) (run_start : option SeqNumber)
  (ranges : list (SeqNumber * SeqNumber)) : list (SeqNumber * SeqNumber) :=
  match slots with
  | [] => ranges
  | None :: r =>
      let run_start := match run_start with Some s => Some s | None => Some seq end in
      missing_loop r (seq_next seq) run_start ranges
  | Some _ :: r =>
      match run_start with
      | Some start => missing_loop r (seq_next seq) None (ranges ++ [(start, seq_prev seq)])
      | None => missing_loop r (seq_next seq) None ranges
      end
  end.

Definition rb_missing (rb : RecvBuffer) : list (SeqNumber * SeqNumber) :=
  match rposition is_present (rb_slots rb) with
  | None => []
  | Some highest => missing_loop (take (highest + 1) (rb_slots rb)) (rb_base rb) None []
  end.

Definition rb_missing_aged (rb : RecvBuffer) (tolerance : Z)
  : list (SeqNumber * SeqNumber) :=
  if tolerance =? 0 then rb_missing rb else
  match rposition is_present (rb_slots rb) with
  | None => []
  | Some highest_idx =>
      let highest := seq_add (rb_base rb) (clamp u32_max (Z.of_nat highest_idx)) in
      let threshold := seq_new (wrap32 (seq_value highest - tolerance)) in
      omap (fun '(start, stop) =>
        if is_gt (circular_cmp start threshold) then None
        else
          let stop := if is_gt (circular_cmp stop threshold) then threshold else stop in
          Some (start, stop)) (rb_missing rb)
  end.

(** ** The abstract view and the invariant *)

(** The packet held for [base + i]. *)
Definition rb_at (rb : RecvBuffer) (i : nat) : option DataPacket := mjoin (rb_slots rb !! i).

Definition present_count (slots : list slot) : nat := length (omap id slots).

Record rb_ok (rb : RecvBuffer) : Prop := {
  rb_ok_base : seq_ok (rb_base rb);
  rb_ok_seq : forall i p, rb_at rb i = Some p -> dp_seq p = seq_add (rb_base rb) (Z.of_nat i);
  rb_ok_back : forall s, last (rb_slots rb) = Some s -> is_present s = true;
  rb_ok_count : rb_received rb = present_count (rb_slots rb);
  rb_ok_span : Z.of_nat (length (rb_slots rb)) <= 0x40000000;
}.

Lemma present_count_app l1 l2 :
  present_count (l1 ++ l2) = (present_count l1 + present_count l2)%nat.
Proof. unfold present_count. by rewrite omap_app, length_app. Qed.

Lemma present_count_cons s l :
  present_count (s :: l) = ((if is_present s then 1 else 0) + present_count l)%nat.
Proof. by destruct s. Qed.

Lemma present_count_le l : (present_count l <= length l)%nat.
Proof. induction l as [|[] l IH]; rewrite ?present_count_cons; simpl; [done|lia..]. Qed.

Lemma present_count_none n : present_count (replicate n None) = O.
Proof. by induction n. Qed.

Lemma present_count_insert l i p :
  l !! i = Some None -> present_count (<[i := Some p]> l) = S (present_count l).
Proof.
  revert i. induction l as [|s l IH]; intros [|i] H; simplify_eq/=; [done|].
  rewrite !present_count_cons, IH by done. lia.
Qed.

Lemma present_full l : present_count l = length l <-> Forall (fun s => is_present s = true) l.
Proof.
  split.
  - induction l as [|s l IH]; [constructor|]. rewrite present_count_cons. simpl. intros H.
    pose proof (present_count_le l). destruct s; simpl in H; [|lia].
    constructor; [done|]. apply IH. lia.
  - induction 1 as [|s l Hs Hl IH]; [done|]. rewrite present_count_cons, Hs, IH. done.
Qed.

Lemma rb_at_drop b slots n k i :
  rb_at (MkRecvBuffer b (drop n slots) k) i = mjoin (slots !! (n + i)%nat).
Proof. unfold rb_at. simpl. by rewrite lookup_drop. Qed.

Lemma last_drop_Some {A} (l : list A) n x : last (drop n l) = Some x -> last l = Some x.
Proof.
  intros H. rewrite <- (take_drop n l), last_app, H. done.
Qed.

Lemma rb_new_ok s : seq_ok s -> rb_ok (rb_new s).
Proof. intros. by constructor. Qed.

Lemma resize_lookup slots n i :
  mjoin (resize_none n slots !! i) = mjoin (slots !! i).
Proof.
  unfold resize_none. destruct (decide (i < length slots)%nat).
  - by rewrite lookup_app_l.
  - rewrite lookup_app_r, (lookup_ge_None_2 slots) by lia. simpl.
    destruct (replicate _ _ !! _) as [x|] eqn:E; [|done].
    by apply lookup_replicate in E as [-> _].
Qed.

(** ** Insertion *)

Lemma rb_insert_stale rb p :
  offset_from (dp_seq p) (rb_base rb) < 0 -> rb_insert rb p = (false, rb).
Proof. intros H. unfold rb_insert. by rewrite (proj2 (Z.ltb_lt _ _)). Qed.

(** The slots an insertion writes into: always wide enough. *)
Definition widened (rb : RecvBuffer) (offset : nat) : list slot :=
  if (length (rb_slots rb) <=? offset)%nat then resize_none (S offset) (rb_slots rb)
  else rb_slots rb.

Lemma widened_at rb k i : mjoin (widened rb k !! i) = rb_at rb i.
Proof. unfold widened, rb_at. case_match; [apply resize_lookup|done]. Qed.

Lemma widened_length rb k :
  length (widened rb k) = Nat.max (length (rb_slots rb)) (S k).
Proof.
  unfold widened, resize_none. destruct (Nat.leb_spec (length (rb_slots rb)) k);
    rewrite ?length_app, ?length_replicate; lia.
Qed.

Lemma widened_lookup rb k : exists s, widened rb k !! k = Some s.
Proof. apply lookup_lt_is_Some_2. rewrite widened_length. lia. Qed.

Lemma widened_count rb k : present_count (widened rb k) = present_count (rb_slots rb).
Proof.
  unfold widened, resize_none. case_match; [|done].
  by rewrite present_count_app, present_count_none, Nat.add_0_r.
Qed.

Lemma rb_insert_cases rb p k :
  offset_from (dp_seq p) (rb_base rb) = Z.of_nat k ->
  (exists q, rb_at rb k = Some q /\ rb_insert rb p = (false, rb)) \/
  (rb_at rb k = None /\
   rb_insert rb p =
     (true, MkRecvBuffer (rb_base rb) (<[k := Some p]> (widened rb k)) (S (rb_received rb)))).
Proof.
  intros Hk. unfold rb_insert. rewrite Hk, (proj2 (Z.ltb_ge _ _)), Nat2Z.id by lia.
  fold (widened rb k). destruct (widened_lookup rb k) as [s Hs].
  pose proof (widened_at rb k k) as Hat. rewrite Hs in *. simpl in Hat.
  destruct s as [q|]; [left|right; done].
  exists q. split; [done|].
  assert (k < length (rb_slots rb))%nat as Hlt.
  { unfold rb_at in Hat. destruct (rb_slots rb !! k) eqn:E; [|done]. by eapply lookup_lt_Some. }
  unfold widened. rewrite (proj2 (Nat.leb_gt _ _)) by done. by destruct rb.
Qed.

Lemma rb_insert_ok rb p : rb_ok rb -> seq_ok (dp_seq p) -> rb_ok (snd (rb_insert rb p)).
Proof.
  intros Hok Hp. destruct (Z.ltb_spec (offset_from (dp_seq p) (rb_base rb)) 0) as [Hn|Hn].
  { by rewrite rb_insert_stale. }
  assert (offset_from (dp_seq p) (rb_base rb)
          = Z.of_nat (Z.to_nat (offset_from (dp_seq p) (rb_base rb)))) as Hk by lia.
  set (k := Z.to_nat _) in Hk. pose proof (offset_from_range (dp_seq p) (rb_base rb)).
  destruct (rb_insert_cases rb p k Hk) as [(q & _ & ->)|[Hnone ->]]; [done|].
  destruct Hok as [Hb Hs Hl Hc Hsp]. constructor; simpl.
  - done.
  - intros i q. unfold rb_at. simpl. destruct (decide (i = k)) as [->|Hne].
    + rewrite list_lookup_insert_eq by (rewrite widened_length; lia). intros [= <-].
      rewrite <- Hk. symmetry. by apply seq_add_offset.
    + rewrite list_lookup_insert_ne by done. rewrite widened_at. apply Hs.
  - intros s. rewrite last_lookup, length_insert, widened_length.
    destruct (decide (length (rb_slots rb) <= k)%nat).
    + replace (Init.Nat.pred (Nat.max (length (rb_slots rb)) (S k))) with k by lia.
      rewrite list_lookup_insert_eq by (rewrite widened_length; lia). by intros [= <-].
    + replace (Init.Nat.pred (Nat.max (length (rb_slots rb)) (S k)))
        with (Init.Nat.pred (length (rb_slots rb))) by lia.
      rewrite list_lookup_insert. case_decide; [by intros [= <-]|].
      unfold widened. rewrite (proj2 (Nat.leb_gt _ _)) by lia. rewrite <- last_lookup. apply Hl.
  - rewrite Hc. rewrite present_count_insert; [by rewrite widened_count|].
    destruct (widened_lookup rb k) as [s Hsl]. pose proof (widened_at rb k k) as Hat.
    rewrite Hsl in Hat. simpl in Hat. rewrite Hsl. f_equal. congruence.
  - rewrite length_insert, widened_length. lia.
Qed.

Lemma rb_insert_at rb p k i :
  offset_from (dp_seq p) (rb_base rb) = Z.of_nat k -> rb_at rb k = None ->
  rb_at (snd (rb_insert rb p)) i = if decide (i = k) then Some p else rb_at rb i.
Proof.
  intros Hk Hnone. destruct (rb_insert_cases rb p k Hk) as [(q & Hq & _)|[_ ->]]; [congruence|].
  unfold rb_at. simpl. case_decide as Hd.
  - subst. by rewrite list_lookup_insert_eq by (rewrite widened_length; lia).
  - rewrite list_lookup_insert_ne by done. apply widened_at.
Qed.

Lemma rb_insert_base rb p : rb_base (snd (rb_insert rb p)) = rb_base rb.
Proof. unfold rb_insert. repeat case_match; done. Qed.

(** ** Removal *)

Lemma is_present_lookup rb i :
  (exists p, rb_at rb i = Some p) <-> (exists s, rb_slots rb !! i = Some s /\ is_present s = true).
Proof.
  unfold rb_at. split.
  - intros [p Hp]. destruct (rb_slots rb !! i) as [[q|]|]; [by eexists|done|done].
  - intros ([q|] & -> & Hs); [by eexists|done].
Qed.

Lemma rb_at_none_lookup rb i s :
  rb_at rb i = None -> rb_slots rb !! i = Some s -> is_present s = false.
Proof. unfold rb_at. intros H E. rewrite E in H. by destruct s. Qed.

(** [pos] is the earliest buffered packet. *)
Definition rb_earliest (rb : RecvBuffer) (pos : nat) (p : DataPacket) : Prop :=
  rb_at rb pos = Some p /\ forall j, (j < pos)%nat -> rb_at rb j = None.

Lemma position_earliest rb pos :
  position is_present (rb_slots rb) = Some pos -> exists p, rb_earliest rb pos p.
Proof.
  intros [Hex Hall]%position_spec. apply is_present_lookup in Hex as [p Hp].
  exists p. split; [done|]. intros j Hj. unfold rb_at.
  destruct (rb_slots rb !! j) as [[q|]|] eqn:E; [|done..]. by apply Hall in E.
Qed.

Lemma earliest_position rb pos p :
  rb_earliest rb pos p -> position is_present (rb_slots rb) = Some pos.
Proof.
  intros [Hp Hall]. apply position_spec. split; [apply is_present_lookup; by eexists|].
  intros j y Hj Hy. eapply rb_at_none_lookup; [by apply Hall|done].
Qed.

Lemma position_none_empty rb :
  rb_ok rb -> position is_present (rb_slots rb) = None -> rb_slots rb = [].
Proof.
  intros Hok Hn. destruct (rb_slots rb) as [|x l _] eqn:E using rev_ind; [done|].
  assert (is_present x = true) as Hx by (apply (rb_ok_back _ Hok); by rewrite E, last_snoc).
  exfalso. clear -Hn Hx. induction l as [|y l IH]; simpl in Hn; [by rewrite Hx in Hn|].
  destruct (is_present y); [done|]. apply IH. by destruct (position _ _).
Qed.

Lemma rb_skip_ok rb n :
  rb_ok rb ->
  rb_ok (MkRecvBuffer (seq_add (rb_base rb) (Z.of_nat n)) (drop n (rb_slots rb))
           (present_count (drop n (rb_slots rb)))).
Proof.
  intros [Hb Hs Hl Hc Hsp]. constructor; simpl.
  - apply seq_add_ok.
  - intros i p. rewrite rb_at_drop. intros H. rewrite (Hs (n + i)%nat p H), seq_add_add.
    f_equal. lia.
  - intros s H. apply Hl. by eapply last_drop_Some.
  - done.
  - rewrite length_drop. lia.
Qed.

Lemma rb_pop_earliest rb pos p :
  rb_ok rb -> rb_earliest rb pos p ->
  rb_pop rb =
    (Some p, MkRecvBuffer (seq_add (rb_base rb) (Z.of_nat (S pos)))
               (drop (S pos) (rb_slots rb)) (present_count (drop (S pos) (rb_slots rb)))).
Proof.
  intros Hok He. unfold rb_pop. rewrite (earliest_position _ _ _ He).
  destruct He as [Hp Hall].
  assert (rb_slots rb !! pos = Some (Some p)) as Hsl.
  { unfold rb_at in Hp. destruct (rb_slots rb !! pos) as [[q|]|]; simpl in Hp; congruence. }
  rewrite (drop_S _ _ _ Hsl). f_equal. f_equal.
  - rewrite (rb_ok_seq _ Hok _ _ Hp), seq_add_next. f_equal. lia.
  - rewrite (rb_ok_count _ Hok), <- (take_drop_middle _ _ _ Hsl) at 1.
    rewrite present_count_app, present_count_cons. simpl.
    assert (present_count (take pos (rb_slots rb)) = 0%nat) as ->; [|lia].
    assert (forall n, (n <= pos)%nat -> present_count (take n (rb_slots rb)) = 0%nat) as H;
      [|by apply H].
    induction n as [|n IH]; intros Hn; [done|].
    destruct (rb_slots rb !! n) as [s|] eqn:E.
    + rewrite (take_S_r _ _ _ E), present_count_app, IH, present_count_cons by lia.
      rewrite (rb_at_none_lookup rb n s (Hall n ltac:(lia)) E). done.
    + apply lookup_ge_None in E. rewrite take_ge by lia.
      rewrite <- (take_ge (rb_slots rb) n) by lia. apply IH. lia.
Qed.

Lemma rb_pop_empty rb :
  rb_ok rb -> (forall i, rb_at rb i = None) -> rb_pop rb = (None, rb).
Proof.
  intros Hok H. unfold rb_pop. destruct (position _ _) eqn:E; [|done].
  apply position_earliest in E as (p & Hp & _). by rewrite H in Hp.
Qed.

Lemma rb_pop_cases rb :
  rb_ok rb ->
  (exists pos p, rb_earliest rb pos p) \/ ((forall i, rb_at rb i = None) /\ rb_slots rb = []).
Proof.
  intros Hok. destruct (position is_present (rb_slots rb)) as [pos|] eqn:E.
  - left. exists pos. by apply position_earliest.
  - right. apply position_none_empty in E; [|done]. split; [|done].
    intros i. unfold rb_at. by rewrite E.
Qed.

Lemma rb_pop_ok rb : rb_ok rb -> rb_ok (snd (rb_pop rb)).
Proof.
  intros Hok. destruct (rb_pop_cases rb Hok) as [(pos & p & He)|[Hn _]].
  - rewrite (rb_pop_earliest _ _ _ Hok He). by apply rb_skip_ok.
  - by rewrite rb_pop_empty.
Qed.

Lemma rb_pop_in_order_ok rb : rb_ok rb -> rb_ok (snd (rb_pop_in_order rb)).
Proof.
  intros Hok. unfold rb_pop_in_order. destruct (rb_slots rb) as [|[]]; [done| |done].
  by apply rb_pop_ok.
Qed.

Lemma drop_loop_eq n slots received :
  received = present_count slots ->
  drop_loop n slots received = (drop n slots, present_count (drop n slots)).
Proof.
  revert slots received. induction n as [|n IH]; intros slots received Hr; [by subst|].
  destruct slots as [|[p|] r]; cbn [drop_loop drop]; [by subst|..].
  - apply IH. subst. rewrite present_count_cons. simpl. lia.
  - apply IH. subst. by rewrite present_count_cons.
Qed.

Lemma rb_drop_range_cases rb first last :
  rb_ok rb -> seq_ok last ->
  rb_drop_range rb first last = rb \/
  (0 <= offset_from last (rb_base rb) /\ offset_from first (rb_base rb) <= 0 /\
   let n := S (Z.to_nat (offset_from last (rb_base rb))) in
   rb_drop_range rb first last =
     MkRecvBuffer (seq_add (rb_base rb) (Z.of_nat n)) (drop n (rb_slots rb))
       (present_count (drop n (rb_slots rb)))).
Proof.
  intros Hok Hl. unfold rb_drop_range. rewrite !circular_cmp_eq.
  destruct (Z.compare_spec (offset_from last (rb_base rb)) 0) as [E|E|E]; [|by left|];
    cbn [is_lt];
    (destruct (Z.compare_spec (offset_from first (rb_base rb)) 0) as [F|F|F];
       cbn [is_gt]; [right|right|by left]); (split; [lia|split; [lia|]]); cbv zeta;
    rewrite Nat.add_1_r, drop_loop_eq by apply Hok;
    (f_equal; rewrite <- (seq_add_offset last (rb_base rb)) at 1 by done;
     rewrite seq_add_next; f_equal; lia).
Qed.

Lemma rb_drop_range_ok rb first last :
  rb_ok rb -> seq_ok last -> rb_ok (rb_drop_range rb first last).
Proof.
  intros Hok Hl. destruct (rb_drop_range_cases rb first last Hok Hl) as [-> | (_ & _ & ->)];
    [done|]. by apply rb_skip_ok.
Qed.

(** ** Gaps *)

Lemma rb_has_gaps_spec rb :
  rb_ok rb ->
  rb_has_gaps rb = true <-> exists i, (i < length (rb_slots rb))%nat /\ rb_at rb i = None.
Proof.
  intros Hok. unfold rb_has_gaps. rewrite negb_true_iff, Nat.eqb_neq, (rb_ok_count _ Hok).
  rewrite present_full. split.
  - intros H. apply not_Forall_Exists in H; [|intros x; apply _].
    apply Exists_exists in H as (s & Hin & Hs). apply list_elem_of_lookup in Hin as [i Hi].
    exists i. split; [by eapply lookup_lt_Some|]. unfold rb_at. rewrite Hi.
    destruct s; [by destruct Hs|done].
  - intros (i & Hi & Hn) Hall. apply lookup_lt_is_Some_2 in Hi as [s Hs].
    rewrite Forall_lookup in Hall. apply Hall in Hs as Hp.
    by rewrite (rb_at_none_lookup _ _ _ Hn Hs) in Hp.
Qed.

Lemma rposition_back rb :
  rb_ok rb -> rb_slots rb <> [] ->
  rposition is_present (rb_slots rb) = Some (Init.Nat.pred (length (rb_slots rb))).
Proof.
  intros Hok Hne. pose proof (rb_ok_back _ Hok) as Hb.
  destruct (rb_slots rb) as [|x l _] using rev_ind; [done|].
  rewrite last_snoc in Hb. rewrite rposition_snoc, (Hb x eq_refl), length_app. simpl.
  f_equal. lia.
Qed.

Lemma count_front_spec slots i :
  (i < count_front slots)%nat -> exists p, slots !! i = Some (Some p).
Proof.
  revert i. induction slots as [|[p|] r IH]; intros i Hi; simpl in Hi; [lia| |lia].
  destruct i; [by exists p|]. apply IH. lia.
Qed.

Lemma count_front_le slots : (count_front slots <= length slots)%nat.
Proof. induction slots as [|[p|] r IH]; simpl; lia. Qed.

Lemma count_front_stop slots : mjoin (slots !! count_front slots) = None.
Proof. by induction slots as [|[p|] r IH]. Qed.

(** The loss list at the level of positions: maximal runs of empty slots that a
    later packet closes. *)
Fixpoint gaps (slots : list slot) (i : nat) (run : option nat) : list (nat * nat) :=
  match slots with
  | [] => []
  | None :: r => gaps r (S i) (match run with Some s => Some s | None => Some i end)
  | Some _ :: r =>
      match run with
      | Some s => (s, (i - 1)%nat) :: gaps r (S i) None
      | None => gaps r (S i) None
      end
  end.

Definition gap_seqs (b : SeqNumber) (g : nat * nat) : SeqNumber * SeqNumber :=
  (seq_add b (Z.of_nat g.1), seq_add b (Z.of_nat g.2)).

Lemma missing_loop_gaps b slots i run ranges :
  seq_ok b -> match run with Some s => (s < i)%nat | None => True end ->
  missing_loop slots (seq_add b (Z.of_nat i)) ((fun s => seq_add b (Z.of_nat s)) <$> run) ranges
  = ranges ++ (gap_seqs b <$> gaps slots i run).
Proof.
  intros Hb. revert i run ranges. induction slots as [|[p|] r IH]; intros i run ranges Hr.
  - simpl. by rewrite app_nil_r.
  - cbn [missing_loop gaps]. rewrite seq_add_next.
    replace (Z.of_nat i + 1) with (Z.of_nat (S i)) by lia.
    destruct run as [s|]; cbn [fmap option_fmap option_map].
    + rewrite (IH (S i) None) by done. cbn [fmap list_fmap]. rewrite <- app_assoc.
      do 2 f_equal. cbn [app]. f_equal. unfold gap_seqs. cbn [fst snd]. f_equal.
      apply seq_next_inj; [apply seq_prev_ok|apply seq_add_ok|].
      rewrite seq_next_prev, seq_add_next by apply seq_add_ok. f_equal. lia.
    + by rewrite (IH (S i) None).
  - cbn [missing_loop gaps]. rewrite seq_add_next.
    replace (Z.of_nat i + 1) with (Z.of_nat (S i)) by lia.
    destruct run as [s|]; cbn [fmap option_fmap option_map].
    + rewrite <- (IH (S i) (Some s)) by lia. done.
    + rewrite <- (IH (S i) (Some i)) by lia. done.
Qed.

(** A position is in some reported run exactly when its slot is empty and a
    later slot is not. *)
Lemma gaps_sound slots i run s e :
  (s, e) ∈ gaps slots i run -> match run with Some s => (s < i)%nat | None => True end ->
  (s <= e < i + length slots - 1)%nat /\
  (forall k, (i <= k)%nat -> (s <= k <= e)%nat -> slots !! (k - i)%nat = Some None) /\
  (run = Some s \/ (i <= s)%nat).
Proof.
  revert i run. induction slots as [|[p|] r IH]; intros i run Hin Hr; cbn [gaps] in Hin.
  - by apply elem_of_nil in Hin.
  - assert ((s, e) ∈ gaps r (S i) None ->
      (s <= e < i + length (Some p :: r) - 1)%nat /\
      (forall k, (i <= k)%nat -> (s <= k <= e)%nat -> (Some p :: r) !! (k - i)%nat = Some None) /\
      (run = Some s \/ (i <= s)%nat)) as Hrest.
    { intros Hin'. destruct (IH (S i) None Hin' I) as (H1 & H2 & [H3|H3]); [done|].
      simpl. split_and!; [lia|lia| |right; lia].
      intros k Hk1 Hk2. destruct (k - i)%nat as [|m] eqn:E; [lia|].
      simpl. replace m with (k - S i)%nat by lia. apply H2; lia. }
    destruct run as [s0|]; [|by apply Hrest].
    apply elem_of_cons in Hin as [[= -> ->]|Hin]; [|by apply Hrest].
    simpl. split_and!; [lia|lia| |by left]. intros k Hk1 Hk2. lia.
  - specialize (IH (S i) (match run with Some s => Some s | None => Some i end) Hin
      ltac:(destruct run; lia)) as (H1 & H2 & H3).
    simpl. split_and!; [lia|lia| |].
    + intros k Hk1 Hk2. destruct (k - i)%nat as [|m] eqn:E; [done|].
      simpl. replace m with (k - S i)%nat by lia. apply H2; lia.
    + destruct run; [destruct H3 as [H3|H3]; [by left|right; lia]|].
      destruct H3 as [[= ->]|H3]; right; lia.
Qed.

Lemma gaps_complete slots i run k m p :
  (k < m)%nat -> slots !! m = Some (Some p) -> slots !! k = Some None ->
  match run with Some s => (s < i)%nat | None => True end ->
  exists s e, (s, e) ∈ gaps slots i run /\ (s <= i + k <= e)%nat.
Proof.
  revert i run k m. induction slots as [|[q|] r IH]; intros i run k m Hkm Hm Hk Hr; [done|..].
  - destruct k as [|k]; [done|]. destruct m as [|m]; [lia|]. simpl in Hm, Hk.
    destruct (IH (S i) None k m ltac:(lia) Hm Hk I) as (s & e & Hin & Hse).
    exists s, e. split; [|lia]. cbn [gaps]. destruct run; [by apply elem_of_cons; right|done].
  - destruct m as [|m]; [lia|]. simpl in Hm. cbn [gaps].
    set (run' := match run with Some s => Some s | None => Some i end).
    destruct k as [|k].
    + assert (exists s, run' = Some s /\ (s <= i)%nat) as (s & Hs & Hle).
      { unfold run'. destruct run as [s|]; [exists s|exists i]; split; done || lia. }
      rewrite Hs. clear -Hm Hle. revert i m Hm s Hle.
      induction r as [|[q|] r IH]; intros i m Hm s Hle; [done|..]; cbn [gaps].
      * exists s, i. split; [|lia]. replace (S i - 1)%nat with i by lia.
        apply elem_of_cons. by left.
      * destruct m as [|m]; [done|].
        destruct (IH (S i) m Hm s ltac:(lia)) as (a & b & Hin & Hab).
        exists a, b. split; [done|].
        destruct (gaps_sound _ _ _ _ _ Hin) as (_ & _ & [[= ->]|H]); lia.
    + simpl in Hk. destruct (IH (S i) run' k m ltac:(lia) Hm Hk) as (s & e & Hin & Hse).
      { unfold run'. destruct run; lia. }
      exists s, e. split; [done|lia].
Qed.

Lemma rb_missing_gaps rb :
  rb_ok rb -> rb_missing rb = gap_seqs (rb_base rb) <$> gaps (rb_slots rb) 0 None.
Proof.
  intros Hok. unfold rb_missing. destruct (decide (rb_slots rb = [])) as [E|E].
  { by rewrite E. }
  rewrite rposition_back by done. rewrite take_ge by lia.
  pose proof (missing_loop_gaps (rb_base rb) (rb_slots rb) 0 None [] (rb_ok_base _ Hok) I) as H.
  rewrite seq_add_0 in H by apply Hok. exact H.
Qed.

(** ** Whole streams: every arrival order reassembles to the same delivery *)

Definition rb_insert_all (rb : RecvBuffer) (ps : list DataPacket) : RecvBuffer :=
  foldl (fun rb p => snd (rb_insert rb p)) rb ps.

Fixpoint rb_pop_n (n : nat) (rb : RecvBuffer) : list DataPacket * RecvBuffer :=
  match n with
  | O => ([], rb)
  | S n =>
      match rb_pop rb with
      | (Some p, rb) => let '(ps, rb) := rb_pop_n n rb in (p :: ps, rb)
      | (None, rb) => ([], rb)
      end
  end.

(** The state after some of a numbered stream's packets have arrived. *)
Definition holds_exactly (rb : RecvBuffer) (isn : SeqNumber) (data : nat -> DataPacket)
  (arrived : list nat) : Prop :=
  rb_ok rb /\ rb_base rb = isn /\
  forall i, rb_at rb i = if decide (i ∈ arrived) then Some (data i) else None.

Lemma holds_exactly_insert rb isn data arrived k :
  (forall i, dp_seq (data i) = seq_add isn (Z.of_nat i)) -> Z.of_nat k < 0x40000000 ->
  holds_exactly rb isn data arrived ->
  holds_exactly (snd (rb_insert rb (data k))) isn data (k :: arrived).
Proof.
  intros Hd Hk (Hok & Hb & Hat). split_and!.
  - apply rb_insert_ok; [done|]. rewrite Hd. apply seq_add_ok.
  - by rewrite rb_insert_base.
  - assert (offset_from (dp_seq (data k)) (rb_base rb) = Z.of_nat k) as Hoff.
    { rewrite Hd, Hb. apply offset_from_add. lia. }
    intros i. destruct (decide (k ∈ arrived)) as [Hin|Hin].
    + destruct (rb_insert_cases rb (data k) k Hoff) as [(q & _ & ->)|[Hn _]].
      * simpl. rewrite Hat. apply decide_ext. rewrite elem_of_cons. split; [by right|by intros [-> |]].
      * rewrite Hat, decide_True in Hn by done. done.
    + assert (rb_at rb k = None) as Hn by (by rewrite Hat, decide_False).
      rewrite (rb_insert_at _ _ _ _ Hoff Hn), Hat. case_decide as Hi; [subst|].
      * by rewrite decide_True by apply list_elem_of_here.
      * apply decide_ext. rewrite elem_of_cons. split; [by right|by intros [|]].
Qed.

Lemma holds_exactly_insert_all rb isn data before arrivals :
  (forall i, dp_seq (data i) = seq_add isn (Z.of_nat i)) ->
  Forall (fun k => Z.of_nat k < 0x40000000) arrivals ->
  holds_exactly rb isn data before ->
  holds_exactly (rb_insert_all rb (data <$> arrivals)) isn data (reverse arrivals ++ before).
Proof.
  intros Hd Hall. revert rb before.
  induction Hall as [|k l Hk Hl IH]; intros rb before H; [done|].
  cbn [fmap list_fmap rb_insert_all foldl]. rewrite reverse_cons, <- app_assoc.
  apply IH. by apply holds_exactly_insert.
Qed.

Lemma rb_new_holds isn data : seq_ok isn -> holds_exactly (rb_new isn) isn data [].
Proof. intros H. split_and!; [by apply rb_new_ok|done|]. intros i. done. Qed.

Lemma rb_pop_n_full n rb (d : nat -> DataPacket) :
  rb_ok rb -> length (rb_slots rb) = n ->
  (forall i, (i < n)%nat -> rb_at rb i = Some (d i)) ->
  rb_pop_n n rb = (d <$> List.seq 0 n, rb_new (seq_add (rb_base rb) (Z.of_nat n))).
Proof.
  revert rb d. induction n as [|n IH]; intros rb d Hok Hl Hat; cbn [rb_pop_n].
  - rewrite seq_add_0 by apply Hok. destruct rb as [b sl k]. simpl in *.
    destruct sl; [|done]. pose proof (rb_ok_count _ Hok) as H. simpl in H. by subst.
  - assert (rb_earliest rb 0 (d O)) as He by (split; [apply Hat; lia|lia]).
    rewrite (rb_pop_earliest _ _ _ Hok He).
    erewrite (IH _ (fun i => d (S i))); [| by apply rb_skip_ok | | ].
    + cbn [rb_base List.seq fmap list_fmap]. f_equal.
      * f_equal. rewrite <- (fmap_S_seq 0 n), <- list_fmap_compose. done.
      * unfold rb_new. rewrite seq_add_add. do 2 f_equal. lia.
    + simpl. rewrite length_drop. lia.
    + intros i Hi. rewrite rb_at_drop. apply (Hat (1 + i)%nat). lia.
Qed.

Lemma holds_exactly_length rb isn data arrived n :
  holds_exactly rb isn data arrived -> (forall i, i ∈ arrived <-> (i < n)%nat) ->
  length (rb_slots rb) = n.
Proof.
  intros (Hok & _ & Hat) Hin.
  assert (forall i, (i < n)%nat -> (i < length (rb_slots rb))%nat) as H1.
  { intros i Hi. specialize (Hat i). rewrite decide_True in Hat by by apply Hin.
    unfold rb_at in Hat. destruct (rb_slots rb !! i) eqn:E; [|done]. by eapply lookup_lt_Some. }
  assert (length (rb_slots rb) <= n)%nat as H2.
  { destruct (rb_slots rb) as [|x l _] eqn:E using rev_ind; [simpl; lia|].
    pose proof (rb_ok_back _ Hok x ltac:(by rewrite E, last_snoc)) as Hx.
    specialize (Hat (length l)). unfold rb_at in Hat. rewrite E in Hat.
    rewrite lookup_app_r, Nat.sub_diag in Hat by lia. simpl in Hat.
    case_decide as Hd; [|by subst x]. apply Hin in Hd. rewrite length_app. simpl. lia. }
  destruct n as [|n]; [lia|]. specialize (H1 n ltac:(lia)). lia.
Qed.

(** ** The reorder tolerance *)

Definition trim_gap (limit : Z) (g : nat * nat) : option (nat * nat) :=
  if limit <? Z.of_nat g.1 then None
  else Some (g.1, Z.to_nat (Z.min (Z.of_nat g.2) limit)).

Lemma rb_missing_aged_gaps rb tolerance :
  rb_ok rb -> 0 <= tolerance < 0x40000000 ->
  rb_missing_aged rb tolerance =
  gap_seqs (rb_base rb) <$>
    omap (trim_gap (Z.of_nat (length (rb_slots rb)) - 1 - tolerance)) (gaps (rb_slots rb) 0 None).
Proof.
  intros Hok Ht. pose proof (rb_ok_span _ Hok) as Hsp. unfold rb_missing_aged.
  assert (forall s e, (s, e) ∈ gaps (rb_slots rb) 0 None ->
    (s <= e < length (rb_slots rb) - 1)%nat) as Hrange.
  { intros s e Hin. by destruct (gaps_sound _ _ _ _ _ Hin I) as ([? ?] & _ & _); split. }
  destruct (Z.eqb_spec tolerance 0) as [->|Hne].
  { rewrite rb_missing_gaps by done. f_equal.
    induction (gaps (rb_slots rb) 0 None) as [|[s e] l IH]; [done|]. cbn [omap list_omap].
    specialize (Hrange s e ltac:(apply list_elem_of_here)) as Hr.
    unfold trim_gap at 1. cbn [fst snd].
    rewrite (proj2 (Z.ltb_ge _ _)), Z.min_l, Nat2Z.id by lia.
    f_equal. apply IH. intros s' e' Hin. apply Hrange. by apply elem_of_cons; right. }
  destruct (decide (rb_slots rb = [])) as [E|E]; [by rewrite E|].
  rewrite rposition_back by done.
  assert (0 < length (rb_slots rb))%nat as Hpos by (destruct (rb_slots rb); [done|simpl; lia]).
  set (L := Z.of_nat (length (rb_slots rb)) - 1 - tolerance).
  replace (clamp u32_max _) with (Z.of_nat (length (rb_slots rb)) - 1)
    by (unfold clamp, u32_max; rewrite (proj2 (Z.leb_le _ _)) by lia; lia).
  assert (seq_new (wrap32 (seq_value (seq_add (rb_base rb) (Z.of_nat (length (rb_slots rb)) - 1))
    - tolerance)) = seq_add (rb_base rb) L) as ->.
  { apply seq_eq. rewrite seq_new_mod, wrap32_mod31, seq_add_mod. unfold seq_value.
    rewrite seq_add_mod. unfold L. zmod. }
  rewrite rb_missing_gaps by done.
  assert (forall k, (k < length (rb_slots rb))%nat ->
    is_gt (circular_cmp (seq_add (rb_base rb) (Z.of_nat k)) (seq_add (rb_base rb) L))
    = (L <? Z.of_nat k)) as Hcmp.
  { intros k Hk. rewrite circular_cmp_eq.
    replace (Z.of_nat k) with (L + (Z.of_nat k - L)) at 1 by lia.
    rewrite <- seq_add_add, offset_from_add by lia.
    destruct (Z.compare_spec (Z.of_nat k - L) 0); simpl; lia. }
  induction (gaps (rb_slots rb) 0 None) as [|[s e] l IH]; [done|]. cbn [fmap list_fmap omap list_omap].
  specialize (Hrange s e ltac:(apply list_elem_of_here)) as Hr.
  unfold gap_seqs at 1, trim_gap at 1. cbn [fst snd]. rewrite !Hcmp by lia.
  rewrite IH by (intros s' e' Hin; apply Hrange; by apply elem_of_cons; right).
  destruct (Z.ltb_spec L (Z.of_nat s)); [done|].
  cbn [fmap list_fmap]. f_equal. unfold gap_seqs. cbn [fst snd]. f_equal.
  destruct (Z.ltb_spec L (Z.of_nat e)).
  - by rewrite Z.min_r, Z2Nat.id by lia.
  - by rewrite Z.min_l, Nat2Z.id by lia.
Qed.

(** ** The properties *)

(** C12 (functional).  Reassembly does not depend on the network.  However the
    packets of a stream arrive (any order, any repetition), once the first [n]
    are there nothing is reported missing, the acknowledgement point is the
    [n]-th sequence number (across the 31-bit wrap too), and popping yields
    exactly those packets in sequence order and leaves an empty buffer based
    after them. *)
Theorem any_arrival_order_reassembles (n : nat) (isn : SeqNumber) (data : nat -> DataPacket)
  (arrivals : list nat) :
  seq_ok isn -> Z.of_nat n <= 0x40000000 ->
  (forall i, dp_seq (data i) = seq_add isn (Z.of_nat i)) ->
  (forall i, i ∈ arrivals <-> (i < n)%nat) ->
  let rb := rb_insert_all (rb_new isn) (data <$> arrivals) in
  rb_missing rb = [] /\ rb_received_ack_point rb = seq_add isn (Z.of_nat n) /\
  rb_pop_n n rb = (data <$> List.seq 0 n, rb_new (seq_add isn (Z.of_nat n))).
Proof.
  intros Hq Hn Hd Hin rb.
  assert (holds_exactly rb isn data (reverse arrivals ++ [])) as Hh.
  { apply holds_exactly_insert_all; [done| |by apply rb_new_holds].
    apply Forall_forall. intros i Hi%Hin. lia. }
  assert (forall i, i ∈ reverse arrivals ++ [] <-> (i < n)%nat) as Hin'
    by (intros i; rewrite app_nil_r, elem_of_reverse; apply Hin).
  pose proof (holds_exactly_length rb isn data _ n Hh Hin') as Hl.
  destruct Hh as (Hok & Hb & Hat).
  assert (forall i, (i < n)%nat -> rb_at rb i = Some (data i)) as Hfull.
  { intros i Hi. rewrite Hat, decide_True by by apply Hin'. done. }
  assert (count_front (rb_slots rb) = n) as Hc.
  { pose proof (count_front_le (rb_slots rb)) as Hle.
    destruct (decide (count_front (rb_slots rb) = n)) as [|Hne]; [done|].
    pose proof (count_front_stop (rb_slots rb)) as Hs. fold (rb_at rb (count_front (rb_slots rb))) in Hs.
    rewrite Hfull in Hs by lia. done. }
  split_and!.
  - rewrite rb_missing_gaps by done.
    destruct (gaps (rb_slots rb) 0 None) as [|[s e] l] eqn:E; [done|].
    destruct (gaps_sound (rb_slots rb) 0 None s e) as (Hr & Hnone & _);
      [rewrite E; apply list_elem_of_here|done|].
    specialize (Hnone s ltac:(lia) ltac:(lia)). rewrite Nat.sub_0_r in Hnone.
    specialize (Hfull s ltac:(lia)). unfold rb_at in Hfull. by rewrite Hnone in Hfull.
  - unfold rb_received_ack_point. rewrite Hc, Hb. unfold clamp, u32_max.
    by rewrite (proj2 (Z.leb_le _ _)) by lia.
  - rewrite (rb_pop_n_full n rb data Hok Hl Hfull). by rewrite Hb.
Qed.

Definition ex_packet (isn : SeqNumber) (i : nat) : DataPacket :=
  MkData (seq_add isn (Z.of_nat i)) Single true EncNone false (msg_new (Z.of_nat i + 1))
    (from_micros (Z.of_nat i * 20)) (socket_id_new 9) [u8_of_Z (Z.of_nat i)].

Lemma any_arrival_order_reassembles_witness :
  let isn := MkSeq 0x7fffffff in
  rb_pop_n 4 (rb_insert_all (rb_new isn) (ex_packet isn <$> [2; 0; 2; 3; 1]%nat)) =
    (ex_packet isn <$> [0; 1; 2; 3]%nat, rb_new (MkSeq 3)).
Proof.
  cbv zeta.
  destruct (any_arrival_order_reassembles 4 (MkSeq 0x7fffffff) (ex_packet (MkSeq 0x7fffffff))
    [2; 0; 2; 3; 1]%nat) as (_ & _ & H).
  - by vm_compute.
  - by vm_compute.
  - done.
  - intros i. rewrite !elem_of_cons, elem_of_nil. lia.
  - exact H.
Defined.

Lemma rb_back_present rb :
  rb_ok rb -> (0 < length (rb_slots rb))%nat ->
  exists p, rb_at rb (length (rb_slots rb) - 1) = Some p.
Proof.
  intros Hok Hpos. unfold rb_at. destruct (rb_slots rb) as [|x l _] eqn:E using rev_ind; [simpl in *; lia|].
  pose proof (rb_ok_back _ Hok x ltac:(by rewrite E, last_snoc)) as Hx.
  rewrite length_app. simpl. rewrite lookup_app_r by lia.
  replace (length l + 1 - 1 - length l)%nat with 0%nat by lia. simpl.
  destruct x as [p|]; [by exists p|done].
Qed.

(** An absent packet far enough before a held one lies in some reported range. *)
Lemma rb_missing_aged_covers rb t k m p :
  rb_ok rb -> 0 <= t < 0x40000000 -> rb_at rb k = None -> rb_at rb m = Some p ->
  (k < m)%nat -> Z.of_nat k + t <= Z.of_nat m ->
  exists s e, (s <= k <= e)%nat /\ (e < length (rb_slots rb))%nat /\
    (seq_add (rb_base rb) (Z.of_nat s), seq_add (rb_base rb) (Z.of_nat e)) ∈ rb_missing_aged rb t.
Proof.
  intros Hok Ht Hk Hm Hkm Hkt. pose proof (rb_ok_span _ Hok) as Hsp. rewrite rb_missing_aged_gaps by done.
  set (L := Z.of_nat (length (rb_slots rb)) - 1 - t).
  assert (rb_slots rb !! m = Some (Some p)) as Hm'.
  { unfold rb_at in Hm. destruct (rb_slots rb !! m) as [[q|]|]; by simplify_eq/=. }
  pose proof (lookup_lt_Some _ _ _ Hm') as Hlen.
  destruct (lookup_lt_is_Some_2 (rb_slots rb) k ltac:(lia)) as [sk Hsk].
  assert (rb_slots rb !! k = Some None) as Hk'.
  { unfold rb_at in Hk. rewrite Hsk in *. by destruct sk. }
  destruct (gaps_complete (rb_slots rb) 0 None k m p Hkm Hm' Hk' I) as (s & e & Hg & Hse).
  destruct (gaps_sound _ _ _ _ _ Hg I) as (Hr & _ & _).
  exists s, (Z.to_nat (Z.min (Z.of_nat e) L)). split; [unfold L; lia|]. split; [lia|].
  apply list_elem_of_fmap. exists (s, Z.to_nat (Z.min (Z.of_nat e) L)). split; [done|].
  apply list_elem_of_omap. exists (s, e). split; [done|].
  unfold trim_gap. cbn [fst snd]. by rewrite (proj2 (Z.ltb_ge _ _)) by (unfold L; lia).
Qed.

(** C13 (functional).  The loss report is exact.  With reorder tolerance [t]
    (0 is [missing]) the receiver reports a sequence number, the [k]-th past its
    base, if and only if that packet is absent and a packet at least [t] further
    on has arrived; what is reported is never held and what is withheld is only
    the reordering margin. *)
Theorem loss_report_exact (rb : RecvBuffer) (t : Z) (k : nat) :
  rb_ok rb -> 0 <= t < 0x40000000 ->
  (exists s e, (s <= k <= e)%nat /\ (e < length (rb_slots rb))%nat /\
     (seq_add (rb_base rb) (Z.of_nat s), seq_add (rb_base rb) (Z.of_nat e)) ∈ rb_missing_aged rb t)
  <-> (rb_at rb k = None /\ exists m p, rb_at rb m = Some p /\ (k < m)%nat /\ Z.of_nat k + t <= Z.of_nat m).
Proof.
  intros Hok Ht. pose proof (rb_ok_span _ Hok) as Hsp. split.
  - rewrite rb_missing_aged_gaps by done. set (L := Z.of_nat (length (rb_slots rb)) - 1 - t).
    intros (s & e & Hk & He & ([s' e'] & Heq & Hin)%list_elem_of_fmap).
    apply list_elem_of_omap in Hin as ([s0 e0] & Hg & Htr).
    destruct (gaps_sound _ _ _ _ _ Hg I) as (Hr & Hnone & _).
    unfold trim_gap in Htr. cbn [fst snd] in Htr.
    destruct (Z.ltb_spec L (Z.of_nat s0)); [done|]. injection Htr as <- <-.
    unfold gap_seqs in Heq. cbn [fst snd] in Heq. apply pair_equal_spec in Heq as [E1 E2].
    apply seq_add_inj in E1; [|lia..]. apply seq_add_inj in E2; [|lia..].
    specialize (Hnone k ltac:(lia) ltac:(lia)). rewrite Nat.sub_0_r in Hnone.
    split; [unfold rb_at; by rewrite Hnone|].
    destruct (rb_back_present rb Hok ltac:(lia)) as [p Hp].
    exists (length (rb_slots rb) - 1)%nat, p. split; [done|]. lia.
  - intros (Hk & m & p & Hm & Hkm & Hkt). by eapply rb_missing_aged_covers.
Qed.

Lemma loss_report_exact_witness :
  let rb := rb_insert_all (rb_new (MkSeq 10)) (ex_packet (MkSeq 10) <$> [0; 3; 6]%nat) in
  rb_at rb 2 = None /\
  exists s e, (s <= 2 <= e)%nat /\ (e < length (rb_slots rb))%nat /\
    (seq_add (rb_base rb) (Z.of_nat s), seq_add (rb_base rb) (Z.of_nat e)) ∈ rb_missing_aged rb 3.
Proof.
  cbv zeta. split; [reflexivity|].
  apply (loss_report_exact (rb_insert_all (rb_new (MkSeq 10)) (ex_packet (MkSeq 10) <$> [0; 3; 6]%nat)) 3 2).
  - assert (holds_exactly (rb_insert_all (rb_new (MkSeq 10)) (ex_packet (MkSeq 10) <$> [0; 3; 6]%nat))
      (MkSeq 10) (ex_packet (MkSeq 10)) (reverse [0; 3; 6]%nat ++ [])) as (H & _); [|exact H].
    apply holds_exactly_insert_all; [done| |by apply rb_new_holds]. repeat constructor; lia.
  - lia.
  - split; [reflexivity|]. exists 6%nat, (ex_packet (MkSeq 10) 6). split; [reflexivity|lia].
Defined.
