(* ===== verification/Fec.v ===== *)
(** * Fec: the XOR packet filter ([fec.rs])

    The clip accumulator, the row encoder, row recovery, the parity wire format
    and the receiver's engine.  The algebra is that adding a packet to a clip
    commutes with itself and is its own inverse ([clip_add_comm],
    [clip_add_cancel]); everything about recovery follows from those two. *)

From S2P Require Import Prelude Seq.

Definition ROW_INDEX : Z := -1.
Definition FEC_HEADER : nat := 4.
Definition RCV_HISTORY_GROUPS : nat := 8.

Record FecData : Type := MkFecData {
  fd_length : Z; fd_flags : Z; fd_timestamp : Z; fd_payload : list byte }.

Record FecParity : Type := MkParity {
  length_clip : Z; flag_clip : Z; timestamp_clip : Z; payload_clip : list byte }.

Record Recovered : Type := MkRecovered {
  rec_length : Z; rec_flags : Z; rec_timestamp : Z; rec_payload : list byte }.

Record Clip : Type := MkClip {
  clip_length : Z; clip_flags : Z; clip_timestamp : Z; clip_payload : list byte }.

Definition clip_new (payload_size : nat) : Clip := MkClip 0 0 0 (replicate payload_size zero_byte).

Definition clip_add (c : Clip) (d : FecData) : Clip :=
  MkClip (Z.lxor (clip_length c) (fd_length d)) (Z.lxor (clip_flags c) (fd_flags d))
    (Z.lxor (clip_timestamp c) (fd_timestamp d)) (xor_zip (clip_payload c) (fd_payload d)).

Definition clip_parity (c : Clip) : FecParity :=
  MkParity (clip_length c) (clip_flags c) (clip_timestamp c) (clip_payload c).

Definition clip_reset (c : Clip) : Clip := MkClip 0 0 0 ((fun _ => zero_byte) <$> clip_payload c).

(** ** The row encoder *)

Record FecEncoder : Type := MkEncoder {
  fe_group_size : nat; fe_clip : Clip; fe_collected : nat }.

Definition fe_new (group_size payload_size : nat) : FecEncoder :=
  MkEncoder (Nat.max group_size 2) (clip_new payload_size) 0.

Definition fe_feed (e : FecEncoder) (d : FecData) : option FecParity * FecEncoder :=
  let clip := clip_add (fe_clip e) d in
  let collected := S (fe_collected e) in
  if (collected =? fe_group_size e)%nat
  then (Some (clip_parity clip), MkEncoder (fe_group_size e) (clip_reset clip) 0)
  else (None, MkEncoder (fe_group_size e) clip collected).

(** ** Row recovery *)

(** [Vec::resize(n, 0)] *)
Definition resize_zero (n : nat) (p : list byte) : list byte :=
  take n p ++ replicate (n - length p) zero_byte.

Definition recover_row (group_size payload_size : nat) (parity : FecParity)
  (present : list FecData) : option Recovered :=
  if negb (length present =? group_size - 1)%nat then None else
  let clip0 := MkClip (length_clip parity) (flag_clip parity) (timestamp_clip parity)
    (resize_zero payload_size (payload_clip parity)) in
  let clip := foldl clip_add clip0 present in
  let len := Nat.min (Z.to_nat (clip_length clip)) payload_size in
  Some (MkRecovered (clip_length clip) (clip_flags clip) (clip_timestamp clip)
    (take len (clip_payload clip))).

(** ** The parity on the wire *)

Definition parity_encode (p : FecParity) (group_index : Z) : list byte :=
  [u8_of_Z group_index; u8_of_Z (flag_clip p)] ++ be_bytes 2 (length_clip p) ++ payload_clip p.

Definition decode_parity (payload : list byte) (ts : Z) : option (Z * FecParity) :=
  match payload with
  | b0 :: b1 :: b2 :: b3 :: rest =>
      Some (as_i8 (u8_to_Z b0), MkParity (be_val [b2; b3]) (u8_to_Z b1) ts rest)
  | _ => None
  end.

(** ** The receiver's engine *)

Record RecoveredPacket : Type := MkRecPkt {
  rp_seq : SeqNumber; rp_timestamp : Z; rp_flags : Z; rp_payload : list byte }.

Record StoredData : Type := MkStored {
  sd_length : Z; sd_flags : Z; sd_timestamp : Z; sd_payload : list byte }.

Record FecReceiver : Type := MkFecReceiver {
  fr_group_size : nat;
  fr_payload_size : nat;
  fr_data : gmap Z StoredData;
  fr_parities : gmap Z FecParity;
}.

Definition fr_new (group_size payload_size : nat) : FecReceiver :=
  MkFecReceiver (Nat.max group_size 2) payload_size ∅ ∅.

Definition sd_view (d : StoredData) : FecData :=
  MkFecData (sd_length d) (sd_flags d) (sd_timestamp d) (sd_payload d).

(** The scan of [try_group]; [None] is its early return on a second loss. *)
Fixpoint scan_group (n : nat) (data : gmap Z StoredData) (seq : SeqNumber)
  (present : list FecData) (missing : option SeqNumber)
  : option (list FecData * option SeqNumber) :=
  match n with
  | O => Some (present, missing)
  | S n =>
      match data !! seq_value seq with
      | Some d => scan_group n data (seq_next seq) (present ++ [sd_view d]) missing
      | None =>
          match missing with
          | Some _ => None
          | None => scan_group n data (seq_next seq) present (Some seq)
          end
      end
  end.

Definition try_group (fr : FecReceiver) (base : SeqNumber) (out : list RecoveredPacket)
  : FecReceiver * list RecoveredPacket :=
  match fr_parities fr !! seq_value base with
  | None => (fr, out)
  | Some parity =>
      match scan_group (fr_group_size fr) (fr_data fr) base [] None with
      | None | Some (_, None) => (fr, out)
      | Some (present, Some missing) =>
          match recover_row (fr_group_size fr) (fr_payload_size fr) parity present with
          | None => (fr, out)
          | Some r =>
              (MkFecReceiver (fr_group_size fr) (fr_payload_size fr)
                 (<[seq_value missing := MkStored (rec_length r) (rec_flags r)
                     (rec_timestamp r) (rec_payload r)]> (fr_data fr))
                 (delete (seq_value base) (fr_parities fr)),
               out ++ [MkRecPkt missing (rec_timestamp r) (rec_flags r) (rec_payload r)])
          end
      end
  end.

Definition i32_max : Z := 2147483647.

Definition within_history (newest : SeqNumber) (window : Z) (seq : Z) : bool :=
  offset_from newest (seq_new seq) <? window.

Definition fr_evict (fr : FecReceiver) (newest : SeqNumber) : FecReceiver :=
  let window := clamp i32_max (Z.of_nat (fr_group_size fr * RCV_HISTORY_GROUPS)) in
  MkFecReceiver (fr_group_size fr) (fr_payload_size fr)
    (filter (fun kv => within_history newest window kv.1 = true) (fr_data fr))
    (filter (fun kv => within_history newest window kv.1 = true) (fr_parities fr)).

(** [for _ in 0..group_size { try_group(base); base = base.prev() }] *)
Fixpoint try_groups (n : nat) (fr : FecReceiver) (base : SeqNumber)
  (out : list RecoveredPacket) : FecReceiver * list RecoveredPacket :=
  match n with
  | O => (fr, out)
  | S n => let '(fr, out) := try_group fr base out in try_groups n fr (seq_prev base) out
  end.

Definition observe_data (fr : FecReceiver) (seq : SeqNumber) (length flags timestamp : Z)
  (payload : list byte) : FecReceiver * list RecoveredPacket :=
  let fr := MkFecReceiver (fr_group_size fr) (fr_payload_size fr)
    (<[seq_value seq := MkStored length flags timestamp payload]> (fr_data fr))
    (fr_parities fr) in
  let '(fr, recovered) := try_groups (fr_group_size fr) fr seq [] in
  (fr_evict fr seq, recovered).

Definition observe_parity (fr : FecReceiver) (fec_seq : SeqNumber) (payload : list byte)
  (ts : Z) : FecReceiver * list RecoveredPacket :=
  match decode_parity payload ts with
  | None => (fr, [])
  | Some (index, parity) =>
      if negb (index =? ROW_INDEX) then (fr, []) else
      let base := Nat.iter (fr_group_size fr - 1) seq_prev fec_seq in
      let fr := MkFecReceiver (fr_group_size fr) (fr_payload_size fr) (fr_data fr)
        (<[seq_value base := parity]> (fr_parities fr)) in
      let '(fr, recovered) := try_group fr base [] in
      (fr_evict fr fec_seq, recovered)
  end.

(** ** The algebra of clips *)

Lemma clip_add_comm c a b : clip_add (clip_add c a) b = clip_add (clip_add c b) a.
Proof.
  unfold clip_add. simpl.
  f_equal; [rewrite !Z.lxor_assoc; f_equal; apply Z.lxor_comm..|apply xor_zip_comm].
Qed.

Lemma clip_add_cancel c a : clip_add (clip_add c a) a = c.
Proof.
  destruct c as [l f t p]. unfold clip_add. simpl.
  by rewrite !Z.lxor_assoc, !Z.lxor_nilpotent, !Z.lxor_0_r, xor_zip_cancel.
Qed.

Lemma clip_fold_add c a l : foldl clip_add (clip_add c a) l = clip_add (foldl clip_add c l) a.
Proof.
  revert c. induction l as [|b l IH]; intros c; [done|]. cbn [foldl].
  by rewrite clip_add_comm, IH.
Qed.

Lemma clip_fold_cancel c l : foldl clip_add (foldl clip_add c l) l = c.
Proof.
  revert c. induction l as [|a l IH]; intros c; [done|]. cbn [foldl].
  by rewrite (clip_fold_add c a l), clip_add_cancel, IH.
Qed.

(** Xoring out the survivors leaves the missing member. *)
Lemma clip_fold_missing c pre d post :
  foldl clip_add (foldl clip_add c (pre ++ d :: post)) (pre ++ post) = clip_add c d.
Proof.
  assert (foldl clip_add c (pre ++ d :: post) = clip_add (foldl clip_add c (pre ++ post)) d) as ->.
  { rewrite !foldl_app. cbn [foldl]. by rewrite clip_fold_add. }
  by rewrite clip_fold_add, clip_fold_cancel.
Qed.

Lemma clip_fold_payload_length c l :
  length (clip_payload (foldl clip_add c l)) = length (clip_payload c).
Proof.
  revert c. induction l as [|a l IH]; intros c; [done|]. cbn [foldl].
  rewrite IH. apply length_xor_zip.
Qed.

(** ** The encoder: the parity of a group is its clip *)

(** A packet the filter can carry: its fields fit their clips. *)
Definition fd_ok (size : nat) (d : FecData) : Prop :=
  u16_ok (fd_length d) /\ u8_ok (fd_flags d) /\ u32_ok (fd_timestamp d) /\
  (length (fd_payload d) <= size)%nat /\ fd_length d = Z.of_nat (length (fd_payload d)).

Definition group_parity (size : nat) (ds : list FecData) : FecParity :=
  clip_parity (foldl clip_add (clip_new size) ds).

Definition fe_feed_all (e : FecEncoder) (ds : list FecData) : list (option FecParity) * FecEncoder :=
  foldl (fun '(outs, e) d => let '(o, e) := fe_feed e d in (outs ++ [o], e)) ([], e) ds.

(** What the encoder holds part-way through a group. *)
Definition fe_holds (e : FecEncoder) (g size : nat) (ds : list FecData) : Prop :=
  fe_group_size e = g /\ fe_collected e = length ds /\
  fe_clip e = foldl clip_add (clip_new size) ds /\ (length ds < g)%nat.

Lemma clip_reset_new c : clip_reset c = clip_new (length (clip_payload c)).
Proof.
  unfold clip_reset, clip_new. f_equal. induction (clip_payload c); [done|]. simpl. by f_equal.
Qed.

Lemma fe_feed_holds e g size ds d :
  fe_holds e g size ds ->
  (S (length ds) < g /\ fst (fe_feed e d) = None /\ fe_holds (snd (fe_feed e d)) g size (ds ++ [d]))%nat \/
  (S (length ds) = g /\ fst (fe_feed e d) = Some (group_parity size (ds ++ [d])) /\
   fe_holds (snd (fe_feed e d)) g size []).
Proof.
  intros (Hg & Hc & Hcl & Hlt). unfold fe_feed. rewrite Hc, Hg, Hcl.
  assert (clip_add (foldl clip_add (clip_new size) ds) d
          = foldl clip_add (clip_new size) (ds ++ [d])) as -> by (by rewrite foldl_app).
  destruct (Nat.eqb_spec (S (length ds)) g) as [E|E]; [right|left]; simpl.
  - split_and!; [done|done|]. unfold fe_holds. simpl. split_and!; [done|done| |lia].
    rewrite clip_reset_new, clip_fold_payload_length. unfold clip_new. simpl.
    by rewrite length_replicate.
  - split_and!; [lia|done|]. unfold fe_holds. simpl. rewrite length_app. simpl.
    split_and!; [done|lia|done|lia].
Qed.

Lemma fe_new_holds g size : fe_holds (fe_new g size) (Nat.max g 2) size [].
Proof. unfold fe_holds. simpl. split_and!; [done..|lia]. Qed.

(** Feeding the rest of a group yields nothing until its last packet. *)
Lemma fe_feed_group e g size ds0 ds d outs :
  fe_holds e g size ds0 -> (length ds0 + S (length ds) = g)%nat ->
  foldl (fun '(outs, e) d => let '(o, e) := fe_feed e d in (outs ++ [o], e)) (outs, e) (ds ++ [d])
  = (outs ++ replicate (length ds) None ++ [Some (group_parity size (ds0 ++ ds ++ [d]))],
     MkEncoder g (clip_new size) 0).
Proof.
  revert e ds0 outs. induction ds as [|x ds IH]; intros e ds0 outs He Hg; cbn [app foldl].
  - simpl in Hg. destruct (fe_feed_holds e g size ds0 d He) as [(H & _)|(_ & H1 & H2)]; [lia|].
    destruct (fe_feed e d) as [o [g' c' n']]. simpl in *. subst o.
    destruct H2 as (E1 & E2 & E3 & _). simpl in *. by subst.
  - simpl in Hg. destruct (fe_feed_holds e g size ds0 x He) as [(H & H1 & H2)|(H & _)]; [|lia].
    destruct (fe_feed e x) as [o e']. simpl in *. subst o.
    rewrite (IH e' (ds0 ++ [x])) by (done || (rewrite length_app; simpl; lia)).
    by rewrite <- !app_assoc.
Qed.

(** ** Recovery *)

Lemma resize_zero_id n p : length p = n -> resize_zero n p = p.
Proof. intros <-. unfold resize_zero. by rewrite take_ge, Nat.sub_diag, app_nil_r. Qed.

Lemma recover_row_group g size pre d post :
  fd_ok size d -> length (pre ++ d :: post) = g ->
  recover_row g size (group_parity size (pre ++ d :: post)) (pre ++ post) =
  Some (MkRecovered (fd_length d) (fd_flags d) (fd_timestamp d) (fd_payload d)).
Proof.
  intros (H1 & H2 & H3 & Hl & Hlen) Hg. unfold recover_row.
  rewrite length_app in *. simpl in Hg.
  rewrite (proj2 (Nat.eqb_eq _ _)) by lia. cbn [negb].
  set (c := foldl clip_add (clip_new size) (pre ++ d :: post)).
  assert (length (clip_payload c) = size) as Hc.
  { unfold c. rewrite clip_fold_payload_length. apply length_replicate. }
  assert (MkClip (length_clip (clip_parity c)) (flag_clip (clip_parity c))
    (timestamp_clip (clip_parity c)) (resize_zero size (payload_clip (clip_parity c))) = c) as E.
  { destruct c as [? ? ? p]. cbn in *. by rewrite resize_zero_id. }
  unfold group_parity. fold c. rewrite E. unfold c. rewrite clip_fold_missing.
  cbn [clip_add clip_new clip_length clip_flags clip_timestamp clip_payload].
  rewrite !Z.lxor_0_l, xor_zip_zeros, Hlen, Nat2Z.id, Nat.min_l by done.
  by rewrite take_app_length.
Qed.

Lemma recover_row_wrong_count g size parity present :
  length present <> (g - 1)%nat -> recover_row g size parity present = None.
Proof. intros H. unfold recover_row. by rewrite (proj2 (Nat.eqb_neq _ _)). Qed.

Lemma decode_encode_parity p index :
  -128 <= index < 128 -> u16_ok (length_clip p) -> u8_ok (flag_clip p) ->
  decode_parity (parity_encode p index) (timestamp_clip p) = Some (index, p).
Proof.
  intros Hi Hl Hf. unfold parity_encode, decode_parity.
  unfold be_bytes. cbn [app]. unfold u16_ok, u8_ok in *.
  change (Z.of_nat 1) with 1. change (Z.of_nat 0) with 0.
  rewrite !u8_to_of. f_equal. f_equal.
  - unfold as_i8. destruct (Z.ltb_spec (index mod 256) 128); zmod.
  - assert (be_val [u8_of_Z (length_clip p / 256 ^ 1); u8_of_Z (length_clip p / 256 ^ 0)]
            = length_clip p) as ->.
    { pose proof (be_val_bytes 2 (length_clip p)) as H.
      unfold be_bytes in H. etransitivity; [exact H|]. apply Z.mod_small.
      change (256 ^ Z.of_nat 2) with 65536. lia. }
    destruct p as [l f t c]. cbn in *. by rewrite Z.mod_small by lia.
Qed.

Lemma clip_fold_range size c ds :
  u16_ok (clip_length c) -> u8_ok (clip_flags c) -> Forall (fd_ok size) ds ->
  u16_ok (clip_length (foldl clip_add c ds)) /\ u8_ok (clip_flags (foldl clip_add c ds)).
Proof.
  intros Hl Hf Hds. revert c Hl Hf. induction Hds as [|d ds (H1 & H2 & _) Hds IH];
    intros c Hl Hf; [done|]. cbn [foldl]. apply IH; cbn.
  - by apply (lxor_range 16).
  - by apply (lxor_range 8).
Qed.

Lemma group_parity_ok size ds :
  Forall (fd_ok size) ds ->
  u16_ok (length_clip (group_parity size ds)) /\ u8_ok (flag_clip (group_parity size ds)).
Proof. intros H. apply (clip_fold_range size); [by split; cbn|by split; cbn|done]. Qed.

(** ** The engine on one group

    Member [i] of the group based at [b] is [d i], carried at [b + i]. *)

Section Group.
Context (b : SeqNumber) (g size : nat) (d : nat -> StoredData).
Context (Hb : seq_ok b) (Hg : (2 <= g)%nat) (Hg' : Z.of_nat g < 0x40000000).
Context (Hd : forall i, fd_ok size (sd_view (d i))).

Definition member (i : nat) : SeqNumber := seq_add b (Z.of_nat i).
Definition members (i n : nat) : list FecData := (fun i => sd_view (d i)) <$> List.seq i n.

Lemma member_next i : seq_next (member i) = member (S i).
Proof. unfold member. rewrite seq_add_next. f_equal. lia. Qed.

Lemma member_0 : member 0 = b.
Proof. by apply seq_add_0. Qed.

Lemma member_value_inj i j :
  (i < g)%nat -> (j < g)%nat -> seq_value (member i) = seq_value (member j) -> i = j.
Proof.
  intros Hi Hj H. apply seq_eq, seq_add_inj in H; lia.
Qed.

Lemma scan_present n i data present missing :
  (forall j, (i <= j < i + n)%nat -> data !! seq_value (member j) = Some (d j)) ->
  scan_group n data (member i) present missing = Some (present ++ members i n, missing).
Proof.
  revert i present. induction n as [|n IH]; intros i present H.
  { unfold members. simpl. by rewrite app_nil_r. }
  cbn [scan_group]. rewrite H by lia. rewrite member_next, IH by (intros; apply H; lia).
  unfold members. cbn [List.seq fmap list_fmap]. by rewrite <- app_assoc.
Qed.

Lemma scan_group_app n m data i present missing :
  (forall j, (i <= j < i + n)%nat -> data !! seq_value (member j) = Some (d j)) ->
  scan_group (n + m) data (member i) present missing =
  scan_group m data (member (i + n)) (present ++ members i n) missing.
Proof.
  revert i present. induction n as [|n IH]; intros i present H.
  { unfold members. simpl. by rewrite app_nil_r, Nat.add_0_r. }
  cbn [Nat.add scan_group]. rewrite H by lia. rewrite member_next, IH by (intros; apply H; lia).
  unfold members. cbn [List.seq fmap list_fmap]. rewrite <- app_assoc.
  by replace (S i + n)%nat with (i + S n)%nat by lia.
Qed.

(** The map holds every member but [k]. *)
Definition all_but (k : nat) (data : gmap Z StoredData) : Prop :=
  (k < g)%nat /\ data !! seq_value (member k) = None /\
  forall j, (j < g)%nat -> j <> k -> data !! seq_value (member j) = Some (d j).

Lemma scan_all_but k data :
  all_but k data ->
  scan_group g data b [] None =
    Some (members 0 k ++ members (S k) (g - S k), Some (member k)).
Proof.
  intros (Hk & Hn & H). rewrite <- member_0.
  replace g with (k + S (g - S k))%nat at 1 by lia.
  rewrite scan_group_app by (intros; apply H; lia). cbn [Nat.add scan_group].
  rewrite Hn, member_next, scan_present by (intros; apply H; lia). done.
Qed.

Lemma members_split k :
  (k < g)%nat -> members 0 g = members 0 k ++ sd_view (d k) :: members (S k) (g - S k).
Proof.
  intros Hk. unfold members. replace g with (k + S (g - S k))%nat at 1 by lia.
  by rewrite List.seq_app, fmap_app.
Qed.

Lemma try_group_recovers k fr out :
  all_but k (fr_data fr) -> fr_group_size fr = g -> fr_payload_size fr = size ->
  fr_parities fr !! seq_value b = Some (group_parity size (members 0 g)) ->
  snd (try_group fr b out) =
    out ++ [MkRecPkt (member k) (sd_timestamp (d k)) (sd_flags (d k)) (sd_payload (d k))].
Proof.
  intros Hab Hgs Hps Hp. unfold try_group. rewrite Hp, Hgs, Hps, (scan_all_but k) by done.
  destruct Hab as (Hk & _ & _). rewrite (members_split k Hk).
  rewrite recover_row_group; [done|apply Hd|]. rewrite <- members_split by done.
  unfold members. by rewrite length_fmap, length_seq.
Qed.

(** ** Arrivals into a fresh engine *)

Definition observe_members (fr : FecReceiver) (l : list nat) : FecReceiver :=
  foldl (fun fr i => fst (observe_data fr (member i) (sd_length (d i)) (sd_flags (d i))
                            (sd_timestamp (d i)) (sd_payload (d i)))) fr l.

Definition engine_holds (fr : FecReceiver) (l : list nat) : Prop :=
  fr_group_size fr = g /\ fr_payload_size fr = size /\ fr_parities fr = ∅ /\
  forall j, (j < g)%nat ->
    fr_data fr !! seq_value (member j) = if decide (j ∈ l) then Some (d j) else None.

Lemma try_groups_no_parity n fr base out :
  fr_parities fr = ∅ -> try_groups n fr base out = (fr, out).
Proof.
  intros H. revert base. induction n as [|n IH]; intros base; [done|]. cbn [try_groups].
  unfold try_group. by rewrite H, lookup_empty.
Qed.

Lemma within_history_member i j :
  (i < g)%nat -> (j < g)%nat ->
  within_history (member i) (clamp i32_max (Z.of_nat (g * RCV_HISTORY_GROUPS)))
    (seq_value (member j)) = true.
Proof.
  intros Hi Hj. unfold within_history. rewrite seq_new_value by apply seq_add_ok.
  assert (offset_from (member i) (member j) = Z.of_nat i - Z.of_nat j) as ->.
  { unfold member. replace (Z.of_nat i) with (Z.of_nat j + (Z.of_nat i - Z.of_nat j)) at 1 by lia.
    rewrite <- seq_add_add. apply offset_from_add. lia. }
  apply Z.ltb_lt. unfold clamp, i32_max, RCV_HISTORY_GROUPS. case_match; lia.
Qed.

Lemma evict_member {V} (m : gmap Z V) i j :
  (i < g)%nat -> (j < g)%nat ->
  (filter (fun kv => within_history (member i) (clamp i32_max (Z.of_nat (g * RCV_HISTORY_GROUPS)))
     kv.1 = true) m) !! seq_value (member j) = m !! seq_value (member j).
Proof.
  intros Hi Hj. rewrite map_lookup_filter.
  destruct (m !! seq_value (member j)) as [v|] eqn:E; [|done]. simpl.
  case_guard as Hw; [done|]. destruct Hw. by apply within_history_member.
Qed.

Lemma observe_data_holds fr l i :
  (i < g)%nat -> engine_holds fr l ->
  engine_holds (fst (observe_data fr (member i) (sd_length (d i)) (sd_flags (d i))
    (sd_timestamp (d i)) (sd_payload (d i)))) (i :: l).
Proof.
  intros Hi (Hgs & Hps & Hpar & H). unfold observe_data. cbn [fr_group_size].
  rewrite try_groups_no_parity by done. unfold fr_evict, engine_holds.
  cbn [fst fr_group_size fr_payload_size fr_data fr_parities]. split_and!; [done|done|by rewrite Hpar, map_filter_empty|].
  intros j Hj. rewrite Hgs, evict_member by done.
  destruct (decide (j = i)) as [->|Hne].
  - rewrite lookup_insert_eq, decide_True by apply list_elem_of_here. by destruct (d i).
  - rewrite lookup_insert_ne by (intros E; apply Hne; symmetry; by apply member_value_inj in E).
    rewrite H by done. apply decide_ext. rewrite elem_of_cons. split; [by right|by intros [|]].
Qed.

Lemma observe_members_holds fr before l :
  Forall (fun i => (i < g)%nat) l -> engine_holds fr before ->
  engine_holds (observe_members fr l) (reverse l ++ before).
Proof.
  intros Hl. revert fr before. induction Hl as [|i l Hi Hl IH]; intros fr before H; [done|].
  rewrite reverse_cons, <- app_assoc. by apply IH, observe_data_holds.
Qed.

Lemma fr_new_holds : engine_holds (fr_new g size) [].
Proof. split_and!; [cbn; lia|done|done|]. intros j Hj. cbn [fr_new fr_data].
  rewrite lookup_empty, decide_False; [done|apply not_elem_of_nil]. Qed.

Lemma iter_prev_member n i : Nat.iter n seq_prev (member (i + n)) = member i.
Proof.
  revert i. induction n as [|n IH]; intros i; [by rewrite Nat.add_0_r|]. cbn [Nat.iter nat_rect].
  replace (i + S n)%nat with (S i + n)%nat by lia. change (nat_rect _ _ _ n) with (Nat.iter n seq_prev (member (S i + n))).
  rewrite IH, <- member_next. apply seq_prev_next, seq_add_ok.
Qed.

Lemma observe_parity_recovers fr l k :
  engine_holds fr l -> (k < g)%nat -> (forall j, (j < g)%nat -> j ∈ l <-> j <> k) ->
  snd (observe_parity fr (member (g - 1))
         (parity_encode (group_parity size (members 0 g)) ROW_INDEX)
         (timestamp_clip (group_parity size (members 0 g)))) =
  [MkRecPkt (member k) (sd_timestamp (d k)) (sd_flags (d k)) (sd_payload (d k))].
Proof.
  intros (Hgs & Hps & Hpar & H) Hk Hl. unfold observe_parity.
  destruct (group_parity_ok size (members 0 g)) as [H1 H2].
  { apply Forall_forall. intros x Hx. unfold members in Hx.
    apply list_elem_of_fmap in Hx as (i & -> & _). apply Hd. }
  rewrite decode_encode_parity by (done || (unfold ROW_INDEX; lia)).
  cbn [Z.eqb negb ROW_INDEX]. rewrite Hgs.
  assert (Nat.iter (g - 1) seq_prev (member (g - 1)) = b) as ->.
  { rewrite <- member_0. exact (iter_prev_member (g - 1) 0). }
  match goal with |- context [try_group ?fr b []] => set (fr' := fr) end.
  pose proof (try_group_recovers k fr' []) as Ht.
  destruct (try_group fr' b []) as [fr'' recovered]. cbn [snd] in *. apply Ht; cbn; [|done..|].
  - split_and!; [done| |].
    + rewrite H by done. apply decide_False. intros Hin. by apply Hl in Hin.
    + intros j Hj Hne. rewrite H by done. apply decide_True. by apply Hl.
  - by rewrite lookup_insert_eq.
Qed.
End Group.

Lemma fe_feed_whole_group g size (d : nat -> StoredData) :
  (2 <= g)%nat ->
  fe_feed_all (fe_new g size) (members d 0 g) =
  (replicate (g - 1) None ++ [Some (group_parity size (members d 0 g))], fe_new g size).
Proof.
  intros Hg. unfold fe_feed_all.
  assert (members d 0 g = members d 0 (g - 1) ++ [sd_view (d (g - 1)%nat)]) as E.
  { unfold members. replace g with (S (g - 1)) at 1 by lia. by rewrite seq_S, fmap_app. }
  assert (length (members d 0 (g - 1)) = (g - 1)%nat) as El
    by (unfold members; by rewrite length_fmap, length_seq).
  rewrite E. rewrite (fe_feed_group (fe_new g size) (Nat.max g 2) size []); [|apply fe_new_holds|].
  - rewrite El. unfold fe_new. by rewrite Nat.max_l by lia.
  - rewrite El. simpl. lia.
Qed.

(** C15 (roundtrip).  Forward error correction, sender to receiver.  Feeding a
    group of [g >= 2] packets to the row encoder emits nothing until the [g]-th
    packet and then one parity; the encoder is then as new.  A receiver that saw
    any [g - 1] members of the group, in any order and with any repetition, and
    then the parity packet as encoded on the wire, recovers exactly the missing
    packet: its sequence number, timestamp, key flags and payload. *)
Theorem fec_recovers_any_single_loss (b : SeqNumber) (g size k : nat) (d : nat -> StoredData)
  (arrivals : list nat) :
  seq_ok b -> (2 <= g)%nat -> Z.of_nat g < 0x40000000 ->
  (forall i, fd_ok size (sd_view (d i))) -> (k < g)%nat ->
  Forall (fun i => (i < g)%nat) arrivals -> (forall j, (j < g)%nat -> j ∈ arrivals <-> j <> k) ->
  exists parity,
    fe_feed_all (fe_new g size) ((fun i => sd_view (d i)) <$> List.seq 0 g) =
      (replicate (g - 1) None ++ [Some parity], fe_new g size) /\
    snd (observe_parity (observe_members b d (fr_new g size) arrivals)
           (seq_add b (Z.of_nat (g - 1))) (parity_encode parity ROW_INDEX) (timestamp_clip parity)) =
      [MkRecPkt (seq_add b (Z.of_nat k)) (sd_timestamp (d k)) (sd_flags (d k)) (sd_payload (d k))].
Proof.
  intros Hb Hg Hg' Hd Hk Hin Har. exists (group_parity size (members d 0 g)).
  split; [by apply fe_feed_whole_group|].
  assert (engine_holds b g size d (observe_members b d (fr_new g size) arrivals)
            (reverse arrivals ++ [])) as He
    by (apply observe_members_holds; try done; by apply fr_new_holds).
  eapply (observe_parity_recovers b g size d); try done.
  - intros j Hj. rewrite app_nil_r, elem_of_reverse. by apply Har.
Qed.

Lemma fec_recovers_any_single_loss_witness :
  let d := fun i => MkStored 3 (Z.of_nat i mod 4) 1000 [u8_of_Z (Z.of_nat i); zero_byte; u8_of_Z 9] in
  exists parity,
    fst (fe_feed_all (fe_new 4 1456) ((fun i => sd_view (d i)) <$> List.seq 0 4)) =
      [None; None; None; Some parity] /\
    snd (observe_parity (observe_members (MkSeq 0x7ffffffe) d (fr_new 4 1456) [3; 0; 1]%nat)
           (seq_add (MkSeq 0x7ffffffe) 3) (parity_encode parity ROW_INDEX) (timestamp_clip parity)) =
      [MkRecPkt (MkSeq 0) 1000 2 [u8_of_Z 2; zero_byte; u8_of_Z 9]].
Proof.
  cbv zeta.
  destruct (fec_recovers_any_single_loss (MkSeq 0x7ffffffe) 4 1456 2
    (fun i => MkStored 3 (Z.of_nat i mod 4) 1000 [u8_of_Z (Z.of_nat i); zero_byte; u8_of_Z 9])
    [3; 0; 1]%nat) as (parity & E & H).
  - by vm_compute.
  - lia.
  - by vm_compute.
  - intros i. unfold fd_ok, sd_view, u16_ok, u8_ok, u32_ok. cbn -[Z.modulo Z.of_nat].
    split_and!; try lia. 1, 2: zmod.
  - lia.
  - repeat constructor; lia.
  - intros j Hj. rewrite !elem_of_cons, elem_of_nil. lia.
  - exists parity. rewrite E. split; [done|exact H].
Defined.
