(* ===== verification/KeyMaterial.v ===== *)
(** * KeyMaterial: the Key Material message codec ([crypto/key_material.rs]) *)

From S2P Require Import Prelude Buf Errors.

Definition KM_HEADER_LEN : nat := 16.
Definition SALT_WORDS : Z := 4.
Definition SALT_LEN : nat := 16.
Definition ICV_LEN : nat := 8.
Definition KM_VERSION : Z := 1.
Definition PT_KEYING_MATERIAL : Z := 2.
Definition KM_SIGN : Z := 0x2029.
Definition CIPHER_AES_CTR : Z := 2.
Definition CIPHER_AES_GCM : Z := 4.
Definition SE_MPEGTS_SRT : Z := 2.

Inductive CipherMode : Type := Ctr | Gcm.

#[export] Instance cipher_mode_eq_dec : EqDecision CipherMode.
Proof. solve_decision. Defined.

Definition cipher_to_wire (c : CipherMode) : Z :=
  match c with Ctr => CIPHER_AES_CTR | Gcm => CIPHER_AES_GCM end.

Definition cipher_from_wire (cipher : Z) : res CryptoError CipherMode :=
  if cipher =? CIPHER_AES_CTR then Ok Ctr
  else if cipher =? CIPHER_AES_GCM then Ok Gcm
  else Err (UnsupportedCipher cipher).

Inductive KeyFlags : Type := KfEven | KfOdd | KfBoth.

#[export] Instance key_flags_eq_dec : EqDecision KeyFlags.
Proof. solve_decision. Defined.

Definition to_kk (f : KeyFlags) : Z := match f with KfEven => 1 | KfOdd => 2 | KfBoth => 3 end.

Definition from_kk (kk : Z) : res CryptoError KeyFlags :=
  match kk with
  | 1 => Ok KfEven
  | 2 => Ok KfOdd
  | 3 => Ok KfBoth
  | other => Err (InvalidKeyFlags other)
  end.

Definition key_count (f : KeyFlags) : nat := match f with KfBoth => 2 | _ => 1 end.

Record KeyMaterial : Type := MkKm {
  km_key_flags : KeyFlags;
  km_cipher : CipherMode;
  km_key_length : Z;
  km_salt : list byte;
  km_wrapped : list byte;
}.

#[export] Instance key_material_eq_dec : EqDecision KeyMaterial.
Proof. solve_decision. Defined.

(** [matches!(key_length, 16 | 24 | 32)] *)
Definition valid_key_length (n : nat) : bool := (n =? 16)%nat || (n =? 24)%nat || (n =? 32)%nat.

Section Codec.
Context {B : BytesApi}.

Definition km_encode (km : KeyMaterial) (out : list byte) : list byte :=
  let out := put_u8 out (Z.lor (Z.shiftl KM_VERSION 4) PT_KEYING_MATERIAL) in
  let out := put_u16 out KM_SIGN in
  let out := put_u8 out (to_kk (km_key_flags km)) in
  let out := put_u32 out 0 in
  let out := put_u8 out (cipher_to_wire (km_cipher km)) in
  let out := put_u8 out (match km_cipher km with Gcm => 1 | Ctr => 0 end) in
  let out := put_u8 out SE_MPEGTS_SRT in
  let out := put_u8 out 0 in
  let out := put_u16 out 0 in
  let out := put_u8 out SALT_WORDS in
  let out := put_u8 out (km_key_length km / 4) in
  let out := put_slice out (km_salt km) in
  put_slice out (km_wrapped km).

Definition km_decode (buf : list byte) : res CryptoError KeyMaterial :=
  if (length buf <? KM_HEADER_LEN)%nat then Err (KmTooShort KM_HEADER_LEN (length buf)) else
  '(b0, cur) ← lift (get_u8 buf);
  let version := Z.land (Z.shiftr b0 4) 0x07 in
  let packet_type := Z.land b0 0x0F in
  if negb (version =? KM_VERSION) then Err (UnsupportedVersion version) else
  if negb (packet_type =? PT_KEYING_MATERIAL) then Err (InvalidPacketType packet_type) else
  '(sign, cur) ← lift (get_u16 cur);
  if negb (sign =? KM_SIGN) then Err (InvalidSignature sign) else
  '(kk, cur) ← lift (get_u8 cur);
  key_flags ← from_kk (Z.land kk 3);
  '(_, cur) ← lift (get_u32 cur);
  '(c, cur) ← lift (get_u8 cur);
  cipher ← cipher_from_wire c;
  '(_, cur) ← lift (get_u8 cur);
  '(_, cur) ← lift (get_u8 cur);
  '(_, cur) ← lift (get_u8 cur);
  '(_, cur) ← lift (get_u16 cur);
  '(sl, cur) ← lift (get_u8 cur);
  let salt_len := (Z.to_nat sl * 4)%nat in
  '(kl, cur) ← lift (get_u8 cur);
  let key_length := (Z.to_nat kl * 4)%nat in
  if negb (salt_len =? SALT_LEN)%nat then Err (InvalidSaltLength salt_len) else
  if negb (valid_key_length key_length) then Err (InvalidKeyLength key_length) else
  let wrapped_len := (key_count key_flags * key_length + ICV_LEN)%nat in
  if (remaining cur <? SALT_LEN + wrapped_len)%nat
  then Err (KmTooShort (KM_HEADER_LEN + SALT_LEN + wrapped_len) (length buf)) else
  '(salt, cur) ← lift (copy_to_slice SALT_LEN cur);
  '(wrapped, cur) ← lift (copy_to_bytes wrapped_len cur);
  key_length_u8 ← lift (expect
    (if Z.of_nat key_length <=? 255 then Some (Z.of_nat key_length) else None));
  Ok (MkKm key_flags cipher key_length_u8 salt wrapped).
End Codec.

(** ** Well-formed messages *)

Definition km_ok (km : KeyMaterial) : Prop :=
  (km_key_length km = 16 \/ km_key_length km = 24 \/ km_key_length km = 32) /\
  length (km_salt km) = SALT_LEN /\
  length (km_wrapped km) =
    (key_count (km_key_flags km) * Z.to_nat (km_key_length km) + ICV_LEN)%nat.

Definition km_bytes (km : KeyMaterial) : list byte :=
  be_bytes 1 0x12 ++ be_bytes 2 KM_SIGN ++ be_bytes 1 (to_kk (km_key_flags km)) ++
  be_bytes 4 0 ++ be_bytes 1 (cipher_to_wire (km_cipher km)) ++
  be_bytes 1 (match km_cipher km with Gcm => 1 | Ctr => 0 end) ++
  be_bytes 1 SE_MPEGTS_SRT ++ be_bytes 1 0 ++ be_bytes 2 0 ++ be_bytes 1 SALT_WORDS ++
  be_bytes 1 (km_key_length km / 4) ++ km_salt km ++ km_wrapped km.

Lemma from_to_kk f : from_kk (to_kk f) = Ok f.
Proof. by destruct f. Qed.
Lemma cipher_from_to_wire c : cipher_from_wire (cipher_to_wire c) = Ok c.
Proof. by destruct c. Qed.

Lemma valid_key_length_spec n :
  valid_key_length n = true <-> (n = 16 \/ n = 24 \/ n = 32)%nat.
Proof.
  unfold valid_key_length. rewrite !orb_true_iff, !Nat.eqb_eq. tauto.
Qed.

Section Proofs.
Context {B : BytesApi} {HB : BytesSpec B}.

Lemma km_encode_bytes km out : km_encode km out = out ++ km_bytes km.
Proof. unfold km_encode, km_bytes. buf_spec. by rewrite <- !app_assoc. Qed.

(** The rest of the decoder once the key flags are known. *)
Lemma km_decode_bytes km : km_ok km -> km_decode (km_bytes km) = Ok km.
Proof.
  intros (Hk & Hs & Hw). unfold km_decode, km_bytes, KM_HEADER_LEN, KM_SIGN, SE_MPEGTS_SRT,
    SALT_WORDS, SALT_LEN in *.
  rewrite (proj2 (Nat.ltb_ge _ _)) by buf_len.
  buf_read.
  change (negb (Z.land (Z.shiftr 18 4) 7 =? KM_VERSION)) with false.
  change (negb (Z.land 18 15 =? PT_KEYING_MATERIAL)) with false. cbv iota.
  buf_read. change (negb (8233 =? 8233)) with false. cbv iota.
  assert (0 <= to_kk (km_key_flags km) < 256 ^ Z.of_nat 1) as Hkk by (by destruct (km_key_flags km)).
  assert (0 <= cipher_to_wire (km_cipher km) < 256 ^ Z.of_nat 1) as Hc by (by destruct (km_cipher km)).
  assert (0 <= match km_cipher km with Gcm => 1 | Ctr => 0 end < 256 ^ Z.of_nat 1) as Ha
    by (by destruct (km_cipher km)).
  assert (0 <= km_key_length km / 4 < 256 ^ Z.of_nat 1) as Hl
    by (destruct Hk as [-> |[-> | ->]]; done).
  buf_read. replace (from_kk (Z.land (to_kk (km_key_flags km)) 3))
    with (Ok (E:=CryptoError) (km_key_flags km)) by (by destruct (km_key_flags km)).
  cbn [mbind res_bind]. do 2 buf_read. rewrite cipher_from_to_wire. cbn [mbind res_bind].
  do 6 buf_read.
  assert (Z.to_nat (km_key_length km / 4) * 4 = Z.to_nat (km_key_length km))%nat as E
    by (destruct Hk as [-> |[-> | ->]]; done).
  rewrite E. change (negb (Z.to_nat 4 * 4 =? 16)%nat) with false. cbv iota.
  assert (valid_key_length (Z.to_nat (km_key_length km)) = true) as ->
    by (destruct Hk as [-> |[-> | ->]]; done). cbn [negb].
  rewrite remaining_spec, length_app, Hs, Hw, Nat.ltb_irrefl.
  buf_read. rewrite <- (app_nil_r (km_wrapped km)). buf_read.
  assert (Z.of_nat (Z.to_nat (km_key_length km)) = km_key_length km) as ->
    by (destruct Hk as [-> |[-> | ->]]; done).
  assert ((km_key_length km <=? 255) = true) as -> by (destruct Hk as [-> |[-> | ->]]; done).
  cbn. by destruct km.
Qed.

Lemma km_decode_total buf :
  (exists km, km_decode buf = Ok km /\ km_ok km) \/ (exists x, km_decode buf = Err x).
Proof.
  unfold km_decode, KM_HEADER_LEN.
  destruct (Nat.ltb_spec (length buf) 16); [right; by eexists|].
  buf_take 1%nat buf b0 r Hb0. case_match; [right; by eexists|].
  case_match; [right; by eexists|].
  buf_take 2%nat r sg r1 Hsg. case_match; [right; by eexists|].
  buf_take 1%nat r1 kk r2 Hkk.
  destruct (from_kk (Z.land kk 3)) as [f|x|] eqn:Ef; [|right; by eexists|].
  2: { unfold from_kk in Ef. by repeat case_match. }
  cbn [mbind res_bind]. buf_take 4%nat r2 keki r3 Hkeki.
  buf_take 1%nat r3 c r4 Hc.
  destruct (cipher_from_wire c) as [ci|x|] eqn:Ec; [|right; by eexists|].
  2: { unfold cipher_from_wire in Ec. by repeat case_match. }
  cbn [mbind res_bind]. buf_take 1%nat r4 au r5 Hau. buf_take 1%nat r5 se r6 Hse.
  buf_take 1%nat r6 v2 r7 Hv2. buf_take 2%nat r7 v3 r8 Hv3.
  buf_take 1%nat r8 sl r9 Hsl. buf_take 1%nat r9 kl r10 Hkl.
  case_match; [right; by eexists|].
  destruct (valid_key_length (Z.to_nat kl * 4)) eqn:Ekl; [|right; by eexists].
  cbn [negb]. apply valid_key_length_spec in Ekl.
  rewrite remaining_spec.
  destruct (Nat.ltb_spec (length r10) (SALT_LEN + (key_count f * (Z.to_nat kl * 4) + ICV_LEN)));
    [right; by eexists|left].
  rewrite copy_to_slice_spec.
  destruct (take_front_ok SALT_LEN r10 ltac:(lia)) as (salt & r11 & -> & -> & Hs).
  cbn [mbind res_bind lift panicky_bind]. rewrite copy_to_bytes_spec.
  rewrite length_app in *.
  destruct (take_front_ok (key_count f * (Z.to_nat kl * 4) + ICV_LEN) r11 ltac:(lia))
    as (w & r12 & -> & -> & Hw).
  cbn [mbind res_bind lift panicky_bind].
  rewrite (proj2 (Z.leb_le _ _)) by lia. cbn [expect lift mbind res_bind].
  eexists; split; [done|]. unfold km_ok; cbn. split_and!; [lia|done|]. by rewrite Nat2Z.id.
Qed.
End Proofs.

(** C28 (roundtrip).  The key-material message: every message the sender builds
    survives the wire unchanged, and on arbitrary bytes the decoder either
    reports an error or yields a message whose key length is an AES key length,
    whose salt has 16 bytes and whose wrapped field has exactly the size its key
    flags and key length demand; it never panics. *)
Theorem key_material_codec {B : BytesApi} {HB : BytesSpec B} :
  (forall km, km_ok km -> exists bs, (forall out, km_encode km out = out ++ bs) /\ km_decode bs = Ok km) /\
  (forall buf, match km_decode buf with Ok km => km_ok km | Err _ => True | Crash => False end).
Proof.
  split.
  - intros km Hkm. exists (km_bytes km). split; [intros out; apply km_encode_bytes|by apply km_decode_bytes].
  - intros buf. by destruct (km_decode_total buf) as [(km & -> & Hkm)|[x ->]].
Qed.

Lemma key_material_codec_witness :
  let km := MkKm KfOdd Gcm 16 (replicate 16 (u8_of_Z 1)) (replicate 24 (u8_of_Z 2)) in
  exists bs, @km_encode vec_bytes km [] = bs /\ @km_decode vec_bytes bs = Ok km.
Proof.
  cbv zeta.
  destruct (proj1 (@key_material_codec vec_bytes vec_bytes_spec)
    (MkKm KfOdd Gcm 16 (replicate 16 (u8_of_Z 1)) (replicate 24 (u8_of_Z 2)))) as (bs & E & D).
  - split_and!; [by left|done|done].
  - exists bs. split; [exact (E [])|exact D].
Defined.
