(* ===== verification/Crypto.v ===== *)
(** * Crypto: key derivation, wrapping, the payload ciphers and the session keys
    ([crypto/kek.rs], [crypto/wrap.rs], [crypto/cipher.rs], [crypto/mod.rs])

    The RustCrypto crates are not part of this repository: [CryptoPrims] holds
    the primitives the sources call, [CryptoSpec] what their documentation
    promises (lengths, and that opening undoes sealing under the same inputs).
    Nothing here says a cipher is secure; the theorems say that SRT drives it
    with matching keys, counters and headers on both sides. *)

From S2P Require Import Prelude Errors Seq PacketTypes KeyMaterial.

Class CryptoPrims : Type := {
  (** [pbkdf2_hmac::<Sha1>(passphrase, salt, rounds, &mut out)], [out] of [n] bytes *)
  pbkdf2_hmac_sha1 : list byte -> list byte -> Z -> nat -> list byte;
  (** [Kek::<AesN>::wrap] / [unwrap]; the key's length selects [AesN] *)
  aes_kw_wrap : list byte -> list byte -> option (list byte);
  aes_kw_unwrap : list byte -> list byte -> option (list byte);
  (** the first [n] bytes of [Ctr128BE::<AesN>]'s keystream *)
  ctr_keystream : list byte -> list byte -> nat -> list byte;
  (** [AesGcm::encrypt] / [decrypt]: key, nonce, aad, message *)
  gcm_seal : list byte -> list byte -> list byte -> list byte -> option (list byte);
  gcm_open : list byte -> list byte -> list byte -> list byte -> option (list byte);
}.

Definition WRAP_OVERHEAD : nat := 8.
Definition ITERATIONS : Z := 2048.

Class CryptoSpec (P : CryptoPrims) : Prop := {
  pbkdf2_length p s r n : length (pbkdf2_hmac_sha1 p s r n) = n;
  (** RFC 3394: whole 64-bit blocks, at least two of them *)
  kw_wrap_some kek sek :
    valid_key_length (length kek) = true -> (length sek mod 8 = 0)%nat ->
    (16 <= length sek)%nat -> exists w, aes_kw_wrap kek sek = Some w;
  kw_wrap_length kek sek w :
    aes_kw_wrap kek sek = Some w -> length w = (length sek + WRAP_OVERHEAD)%nat;
  kw_unwrap_wrap kek sek w : aes_kw_wrap kek sek = Some w -> aes_kw_unwrap kek w = Some sek;
  kw_unwrap_length kek w sek :
    aes_kw_unwrap kek w = Some sek -> length w = (length sek + WRAP_OVERHEAD)%nat;
  ctr_keystream_length k iv n : length (ctr_keystream k iv n) = n;
  gcm_seal_some k n a m :
    valid_key_length (length k) = true -> length n = 12%nat -> exists c, gcm_seal k n a m = Some c;
  gcm_seal_length k n a m c : gcm_seal k n a m = Some c -> length c = (length m + 16)%nat;
  gcm_open_seal k n a m c : gcm_seal k n a m = Some c -> gcm_open k n a c = Some m;
}.

(** ** The packet counters *)

(** [nonce[8..12] = seq; nonce ^= salt[..12]] *)
Definition gcm_nonce (salt : list byte) (seq : Z) : list byte :=
  xor_zip (replicate 8 zero_byte ++ be_bytes 4 seq) (take 12 salt).

(** [ctr[..14] = salt[..14]; ctr[10..14] ^= seq] *)
Definition counter_block (salt : list byte) (seq : Z) : list byte :=
  take 10 salt ++ xor_zip (take 4 (drop 10 salt)) (be_bytes 4 seq) ++ replicate 2 zero_byte.

Record SessionKeys : Type := MkKeys { sk_salt : list byte; sk_sek : list byte; sk_mode : CipherMode }.

Record UnwrappedKm : Type := MkUnwrapped { ukm_even : option SessionKeys; ukm_odd : option SessionKeys }.

Record SessionCrypto : Type := MkSession {
  sc_even : option SessionKeys;
  sc_odd : option SessionKeys;
  sc_active : Encryption;
}.

Definition sk_is_aead (k : SessionKeys) : bool := match sk_mode k with Gcm => true | Ctr => false end.

(** ** [SessionCrypto]: the two key slots *)

Definition sc_new_even (keys : SessionKeys) : SessionCrypto := MkSession (Some keys) None EncEven.

Definition sc_from_initial (km : UnwrappedKm) : SessionCrypto :=
  let active := match ukm_even km with Some _ => EncEven | None => EncOdd end in
  MkSession (ukm_even km) (ukm_odd km) active.

Definition sc_install_unwrapped (sc : SessionCrypto) (km : UnwrappedKm) : SessionCrypto :=
  let sc := match ukm_even km with
    | Some keys => MkSession (Some keys) (sc_odd sc) (sc_active sc) | None => sc end in
  match ukm_odd km with
  | Some keys => MkSession (sc_even sc) (Some keys) (sc_active sc) | None => sc end.

Definition sc_install (sc : SessionCrypto) (flags : KeyFlags) (keys : SessionKeys) : SessionCrypto :=
  match flags with
  | KfOdd => MkSession (sc_even sc) (Some keys) (sc_active sc)
  | KfEven | KfBoth => MkSession (Some keys) (sc_odd sc) (sc_active sc)
  end.

Definition sc_next_flags (sc : SessionCrypto) : KeyFlags :=
  match sc_active sc with EncOdd => KfEven | _ => KfOdd end.

Definition sc_salt (sc : SessionCrypto) : option (list byte) :=
  sk_salt <$> match sc_even sc with Some k => Some k | None => sc_odd sc end.

Definition sc_activate (sc : SessionCrypto) (flags : KeyFlags) : SessionCrypto :=
  MkSession (sc_even sc) (sc_odd sc)
    (match flags with KfOdd => EncOdd | KfEven | KfBoth => EncEven end).

(** The slot [active] selects. *)
Definition sc_active_keys (sc : SessionCrypto) : option SessionKeys :=
  match sc_active sc with EncOdd => sc_odd sc | _ => sc_even sc end.

Definition sc_is_aead (sc : SessionCrypto) : bool :=
  match sc_active_keys sc with Some k => sk_is_aead k | None => false end.

Section Prims.
Context {P : CryptoPrims}.

Definition derive_kek (passphrase salt : list byte) (key_length : nat) : list byte :=
  pbkdf2_hmac_sha1 passphrase (drop 8 salt) ITERATIONS key_length.

Definition wrap_key (kek sek : list byte) : res CryptoError (list byte) :=
  match (if valid_key_length (length kek) then aes_kw_wrap kek sek else None) with
  | Some out => Ok out
  | None => Err (InvalidKeyLength (length kek))
  end.

Definition unwrap_key (kek wrapped : list byte) : res CryptoError (list byte) :=
  if (length wrapped <? WRAP_OVERHEAD)%nat then Err IntegrityCheckFailed else
  match (if valid_key_length (length kek) then aes_kw_unwrap kek wrapped else None) with
  | Some out => Ok out
  | None => Err IntegrityCheckFailed
  end.

Definition apply_ctr (sek salt : list byte) (seq : Z) (data : list byte)
  : res CryptoError (list byte) :=
  let iv := counter_block salt seq in
  if valid_key_length (length sek)
  then Ok (xor_zip data (ctr_keystream sek iv (length data)))
  else Err (InvalidKeyLength (length sek)).

Definition gcm_encrypt (sek salt : list byte) (seq : Z) (aad plaintext : list byte)
  : res CryptoError (list byte) :=
  let nonce := gcm_nonce salt seq in
  if valid_key_length (length sek) then
    match gcm_seal sek nonce aad plaintext with Some c => Ok c | None => Err AuthFailed end
  else Err (InvalidKeyLength (length sek)).

Definition gcm_decrypt (sek salt : list byte) (seq : Z) (aad data : list byte)
  : res CryptoError (list byte) :=
  let nonce := gcm_nonce salt seq in
  if valid_key_length (length sek) then
    match gcm_open sek nonce aad data with Some p => Ok p | None => Err AuthFailed end
  else Err (InvalidKeyLength (length sek)).

(** [.expect(..)] on a [Result]. *)
Definition expect_ok {E A} (r : res E A) : panicky A :=
  match r with Ok a => Ret a | _ => Panic end.

Definition build_key_material_for (passphrase : list byte) (flags : KeyFlags)
  (cipher : CipherMode) (salt sek : list byte) : panicky KeyMaterial :=
  let kek := derive_kek passphrase salt (length sek) in
  wrapped ← expect_ok (wrap_key kek sek);
  key_length ← expect
    (if Z.of_nat (length sek) <=? 255 then Some (Z.of_nat (length sek)) else None);
  Ret (MkKm flags cipher key_length salt wrapped).

Definition build_key_material (passphrase : list byte) (cipher : CipherMode)
  (salt sek : list byte) : panicky KeyMaterial :=
  build_key_material_for passphrase KfEven cipher salt sek.

(** [rng i n] is what the embedder's [i]-th call fills an [n]-byte buffer with. *)
Definition sk_generate (passphrase : list byte) (key_size : nat) (mode : CipherMode)
  (rng : nat -> nat -> list byte) : panicky (SessionKeys * KeyMaterial) :=
  let salt := rng 0%nat SALT_LEN in
  let sek := rng 1%nat key_size in
  km ← build_key_material passphrase mode salt sek;
  Ret (MkKeys salt sek mode, km).

Definition sk_from_key_material (km : KeyMaterial) (passphrase : list byte)
  : res CryptoError UnwrappedKm :=
  let klen := Z.to_nat (km_key_length km) in
  let kek := derive_kek passphrase (km_salt km) klen in
  sek ← unwrap_key kek (km_wrapped km);
  if negb (length sek =? klen * key_count (km_key_flags km))%nat
  then Err (InvalidKeyLength (length sek)) else
  let make bytes := MkKeys (km_salt km) bytes (km_cipher km) in
  Ok (match km_key_flags km with
      | KfEven => MkUnwrapped (Some (make sek)) None
      | KfOdd => MkUnwrapped None (Some (make sek))
      | KfBoth => MkUnwrapped (Some (make (take klen sek))) (Some (make (drop klen sek)))
      end).

Definition sk_from_raw (passphrase : list byte) (flags : KeyFlags) (mode : CipherMode)
  (salt sek : list byte) : panicky (SessionKeys * KeyMaterial) :=
  km ← build_key_material_for passphrase flags mode salt sek;
  Ret (MkKeys salt sek mode, km).

Definition sk_encrypt (k : SessionKeys) (seq : Z) (aad plaintext : list byte)
  : panicky (list byte) :=
  match sk_mode k with
  | Ctr => expect_ok (apply_ctr (sk_sek k) (sk_salt k) seq plaintext)
  | Gcm => expect_ok (gcm_encrypt (sk_sek k) (sk_salt k) seq aad plaintext)
  end.

Definition sk_decrypt (k : SessionKeys) (seq : Z) (aad data : list byte)
  : panicky (option (list byte)) :=
  match sk_mode k with
  | Ctr => Some <$> expect_ok (apply_ctr (sk_sek k) (sk_salt k) seq data)
  | Gcm => Ret (match gcm_decrypt (sk_sek k) (sk_salt k) seq aad data with
                | Ok p => Some p | _ => None end)
  end.

Definition sc_encrypt (sc : SessionCrypto) (seq : Z) (aad payload : list byte)
  : panicky (list byte * Encryption) :=
  keys ← expect (sc_active_keys sc);
  ct ← sk_encrypt keys seq aad payload;
  Ret (ct, sc_active sc).

Definition sc_decrypt (sc : SessionCrypto) (seq : Z) (flag : Encryption)
  (aad payload : list byte) : panicky (option (list byte)) :=
  match (match flag with
         | EncEven => sc_even sc | EncOdd => sc_odd sc | EncNone => None end) with
  | Some keys => sk_decrypt keys seq aad payload
  | None => Ret None
  end.
End Prims.

(** ** One implementation of the primitives, for the witnesses: keys and headers
    are carried in the clear, but mismatches are detected as documented. *)

Definition pad_to (n : nat) (l : list byte) : list byte := take n (l ++ replicate n zero_byte).

Definition toy_wrap (kek sek : list byte) : option (list byte) :=
  if valid_key_length (length kek) && (length sek mod 8 =? 0)%nat && (16 <=? length sek)%nat
  then Some (sek ++ pad_to 8 kek) else None.

Definition toy_unwrap (kek w : list byte) : option (list byte) :=
  let n := (length w - 8)%nat in
  if (8 <=? length w)%nat && bool_decide (drop n w = pad_to 8 kek) then Some (take n w) else None.

Definition toy_seal (k n a m : list byte) : option (list byte) :=
  Some (m ++ pad_to 16 (n ++ a ++ k)).

Definition toy_open (k n a c : list byte) : option (list byte) :=
  let len := (length c - 16)%nat in
  if (16 <=? length c)%nat && bool_decide (drop len c = pad_to 16 (n ++ a ++ k))
  then Some (take len c) else None.

Definition toy_prims : CryptoPrims := {|
  pbkdf2_hmac_sha1 p s _ n := pad_to n (p ++ s);
  aes_kw_wrap := toy_wrap;
  aes_kw_unwrap := toy_unwrap;
  ctr_keystream k iv n := pad_to n (iv ++ k);
  gcm_seal := toy_seal;
  gcm_open := toy_open;
|}.

Lemma length_pad_to n l : length (pad_to n l) = n.
Proof. unfold pad_to. rewrite length_take, length_app, length_replicate. lia. Qed.

Lemma toy_spec : CryptoSpec toy_prims.
Proof.
  constructor; cbn [pbkdf2_hmac_sha1 aes_kw_wrap aes_kw_unwrap ctr_keystream gcm_seal gcm_open toy_prims].
  - intros. apply length_pad_to.
  - intros kek sek Hk Hm Hl. unfold toy_wrap. rewrite Hk, Hm.
    rewrite (proj2 (Nat.leb_le _ _)) by done. by eexists.
  - intros kek sek w. unfold toy_wrap. case_match; [|done]. intros [= <-].
    by rewrite length_app, length_pad_to.
  - intros kek sek w. unfold toy_wrap, toy_unwrap. case_match; [|done]. intros [= <-].
    rewrite length_app, length_pad_to. replace (length sek + 8 - 8)%nat with (length sek) by lia.
    rewrite drop_app_length, take_app_length, bool_decide_true by done.
    by rewrite (proj2 (Nat.leb_le _ _)) by lia.
  - intros kek w sek. unfold toy_unwrap. case_match eqn:E; [|done]. intros [= <-].
    apply andb_prop in E as [E _]. apply Nat.leb_le in E. rewrite length_take.
    unfold WRAP_OVERHEAD. lia.
  - intros. apply length_pad_to.
  - intros. by eexists.
  - intros k n a m c [= <-]. by rewrite length_app, length_pad_to.
  - intros k n a m c [= <-]. unfold toy_open. rewrite length_app, length_pad_to.
    replace (length m + 16 - 16)%nat with (length m) by lia.
    rewrite drop_app_length, take_app_length, bool_decide_true by done.
    by rewrite (proj2 (Nat.leb_le _ _)) by lia.
Qed.

(** ** Invariants *)

Definition sk_ok (k : SessionKeys) : Prop :=
  valid_key_length (length (sk_sek k)) = true /\ length (sk_salt k) = SALT_LEN.

Definition slot_ok (o : option SessionKeys) : Prop := forall k, o = Some k -> sk_ok k.

Definition ukm_ok (u : UnwrappedKm) : Prop :=
  slot_ok (ukm_even u) /\ slot_ok (ukm_odd u) /\
  (is_Some (ukm_even u) \/ is_Some (ukm_odd u)).

(** "Active key slot is always populated", and with a usable key. *)
Definition sc_ok (sc : SessionCrypto) : Prop :=
  slot_ok (sc_even sc) /\ slot_ok (sc_odd sc) /\ is_Some (sc_active_keys sc) /\
  sc_active sc <> EncNone.

Lemma slot_ok_some k : sk_ok k -> slot_ok (Some k).
Proof. by intros H k' [= <-]. Qed.
Lemma slot_ok_none : slot_ok None.
Proof. done. Qed.
#[export] Hint Resolve slot_ok_some slot_ok_none : srt.

Lemma sc_new_even_ok k : sk_ok k -> sc_ok (sc_new_even k).
Proof.
  intros H. split_and!; [by apply slot_ok_some|apply slot_ok_none|by eexists|done].
Qed.

Lemma sc_from_initial_ok u : ukm_ok u -> sc_ok (sc_from_initial u).
Proof.
  intros (He & Ho & Hs). unfold sc_from_initial. split_and!; simpl; [done|done| |by destruct (ukm_even u)].
  unfold sc_active_keys. simpl. destruct (ukm_even u) eqn:E; simpl; [by eexists|].
  by destruct Hs as [[? ?]|].
Qed.

Lemma sc_install_unwrapped_ok sc u : sc_ok sc -> ukm_ok u -> sc_ok (sc_install_unwrapped sc u).
Proof.
  intros (H1 & H2 & H3 & H4) (He & Ho & _). unfold sc_install_unwrapped.
  destruct (ukm_even u) as [e|] eqn:Ee, (ukm_odd u) as [o|] eqn:Eo;
    (split_and!; simpl; [try done..|]); unfold sc_active_keys in *; simpl in *; try done;
    destruct (sc_active sc); done || by eexists.
Qed.

Lemma sc_install_ok sc f k : sc_ok sc -> sk_ok k -> sc_ok (sc_install sc f k).
Proof.
  intros (H1 & H2 & H3 & H4) Hk. unfold sc_install, sc_active_keys in *.
  destruct f; (split_and!; simpl; auto with srt); unfold sc_active_keys; simpl;
    destruct (sc_active sc); done || by eexists.
Qed.

(** Staging the next slot and flipping to it keeps the active slot populated. *)
Lemma sc_rotate_ok sc k :
  sc_ok sc -> sk_ok k -> sc_ok (sc_activate (sc_install sc (sc_next_flags sc) k) (sc_next_flags sc)).
Proof.
  intros (H1 & H2 & H3 & H4) Hk. unfold sc_install, sc_activate, sc_next_flags, sc_active_keys in *.
  destruct (sc_active sc); (split_and!; simpl; auto with srt); try done; by eexists.
Qed.

(** ** Distinct packets never share a counter *)

Lemma xor_zip_inj_r xs ys zs :
  length ys = length xs -> length zs = length xs -> xor_zip xs ys = xor_zip xs zs -> ys = zs.
Proof.
  revert ys zs. induction xs as [|x xs IH]; intros [|y ys] [|z zs] Hy Hz H; try done.
  simpl in *. injection H as Hx Hr. f_equal; [|apply IH; [lia..|done]].
  apply (f_equal (fun a => byte_xor a x)) in Hx.
  by rewrite (byte_xor_comm x y), (byte_xor_comm x z), !byte_xor_cancel in Hx.
Qed.

Lemma xor_zip_inj_l xs ys zs :
  length xs = length zs -> xor_zip xs ys = xor_zip zs ys -> xs = zs.
Proof.
  intros _ H. apply (f_equal (fun l => xor_zip l ys)) in H. by rewrite !xor_zip_cancel in H.
Qed.

Lemma counter_block_inj salt s1 s2 :
  length salt = SALT_LEN -> u32_ok s1 -> u32_ok s2 ->
  counter_block salt s1 = counter_block salt s2 -> s1 = s2.
Proof.
  unfold SALT_LEN. intros Hs H1 H2 H. unfold counter_block in H.
  apply app_inv_head in H. apply app_inv_tail in H.
  apply (be_bytes_inj 4); [exact H1|exact H2|].
  apply xor_zip_inj_r in H; [done|..]; rewrite length_be_bytes, length_take, length_drop; lia.
Qed.

Lemma gcm_nonce_inj salt s1 s2 :
  u32_ok s1 -> u32_ok s2 -> gcm_nonce salt s1 = gcm_nonce salt s2 -> s1 = s2.
Proof.
  intros H1 H2 H. unfold gcm_nonce in H. apply xor_zip_inj_l in H.
  - apply app_inv_head in H. by apply (be_bytes_inj 4).
  - by rewrite !length_app, !length_be_bytes.
Qed.

Lemma gcm_nonce_length salt s : length (gcm_nonce salt s) = 12%nat.
Proof. unfold gcm_nonce. by rewrite length_xor_zip. Qed.

(** The counter as the cipher reads it: 16 bytes, the packet's part above a zero
    16-bit block count. *)
Definition counter_value (salt : list byte) (seq : Z) : Z := be_val (counter_block salt seq).

Lemma counter_value_shape salt seq :
  length salt = SALT_LEN ->
  counter_value salt seq =
  (be_val (take 10 salt ++ xor_zip (take 4 (drop 10 salt)) (be_bytes 4 seq))) * 65536 /\
  length (counter_block salt seq) = 16%nat.
Proof.
  unfold SALT_LEN. intros Hs. unfold counter_value, counter_block. rewrite app_assoc. split.
  - rewrite be_val_app. change (be_val (replicate 2 zero_byte)) with 0.
    change (256 ^ Z.of_nat (length (replicate 2 zero_byte))) with 65536. lia.
  - rewrite !length_app, length_xor_zip, !length_take, length_drop, length_replicate. lia.
Qed.

(** C29 (safety).  Packets with different sequence numbers never share a counter.
    Under one salt, the counters the cipher runs through for two sequence numbers
    (one per 16-byte block, 65,536 blocks or a mebibyte of payload) are disjoint,
    none of them carries out of the packet's part, and the GCM nonces differ too.
    So one direction of a session does not reuse keystream under a key until its
    sequence numbers wrap.  It says nothing across directions: there the numbers do
    coincide, since an acceptor starts from the caller's number and shares its key
    and salt ([Session.directions_share_numbers]). *)
Theorem counters_never_collide (salt : list byte) (s1 s2 i j : Z) :
  length salt = SALT_LEN -> u32_ok s1 -> u32_ok s2 -> s1 <> s2 ->
  0 <= i < 65536 -> 0 <= j < 65536 ->
  counter_value salt s1 + i <> counter_value salt s2 + j /\
  (counter_value salt s1 + i) / 65536 = counter_value salt s1 / 65536 /\
  counter_value salt s1 + i < 2 ^ 128 /\
  gcm_nonce salt s1 <> gcm_nonce salt s2.
Proof.
  intros Hs H1 H2 Hne Hi Hj.
  destruct (counter_value_shape salt s1 Hs) as [E1 L1].
  destruct (counter_value_shape salt s2 Hs) as [E2 L2].
  pose proof (be_val_range (counter_block salt s1)) as Hr1. fold (counter_value salt s1) in Hr1.
  rewrite L1 in Hr1. change (256 ^ Z.of_nat 16) with (2 ^ 128) in Hr1.
  split_and!.
  - intros E. apply Hne. apply (counter_block_inj salt); [done..|].
    rewrite <- (be_bytes_val (counter_block salt s1) 16 L1), <- (be_bytes_val (counter_block salt s2) 16 L2).
    f_equal. fold (counter_value salt s1) (counter_value salt s2). lia.
  - rewrite E1. rewrite Z.div_add_l, Z.div_mul, Z.div_small; lia.
  - lia.
  - intros E. apply Hne. by apply (gcm_nonce_inj salt).
Qed.

Lemma counters_never_collide_witness :
  gcm_nonce (replicate 16 zero_byte) 7 <> gcm_nonce (replicate 16 zero_byte) 8.
Proof.
  apply (counters_never_collide (replicate 16 zero_byte) 7 8 65535 0);
    first [reflexivity | unfold u32_ok; lia | lia].
Defined.

Section Proofs.
Context {P : CryptoPrims} {HP : CryptoSpec P}.

(** Bytes the cipher adds to a payload. *)
Definition tag_len (m : CipherMode) : nat := match m with Ctr => 0 | Gcm => 16 end.

Lemma sk_encrypt_total k seq aad pt :
  sk_ok k -> exists c, sk_encrypt k seq aad pt = Ret c /\
                       length c = (length pt + tag_len (sk_mode k))%nat.
Proof.
  intros [Hk Hs]. unfold sk_encrypt, apply_ctr, gcm_encrypt.
  destruct (sk_mode k); rewrite Hk; simpl.
  - eexists; split; [done|]. rewrite length_xor_zip. lia.
  - destruct (gcm_seal_some (sk_sek k) (gcm_nonce (sk_salt k) seq) aad pt Hk) as [c Hc].
    { apply gcm_nonce_length. }
    rewrite Hc. simpl. eexists; split; [done|]. by apply gcm_seal_length in Hc.
Qed.

Lemma sk_decrypt_encrypt k seq aad pt c :
  sk_ok k -> sk_encrypt k seq aad pt = Ret c -> sk_decrypt k seq aad c = Ret (Some pt).
Proof.
  intros [Hk Hs]. unfold sk_encrypt, sk_decrypt, apply_ctr, gcm_encrypt, gcm_decrypt.
  destruct (sk_mode k); rewrite Hk; simpl.
  - intros [= <-]. by rewrite length_xor_zip, xor_zip_cancel.
  - destruct (gcm_seal _ _ _ _) as [c'|] eqn:E; [|done]. simpl. intros [= <-].
    by rewrite (gcm_open_seal _ _ _ _ _ E).
Qed.

Lemma sk_decrypt_total k seq aad data : sk_ok k -> exists o, sk_decrypt k seq aad data = Ret o.
Proof.
  intros [Hk Hs]. unfold sk_decrypt, apply_ctr. destruct (sk_mode k); [rewrite Hk|];
    by eexists.
Qed.

Lemma sc_encrypt_total sc seq aad pt :
  sc_ok sc -> exists c k, sc_active_keys sc = Some k /\ sk_ok k /\
    sc_encrypt sc seq aad pt = Ret (c, sc_active sc) /\
    length c = (length pt + tag_len (sk_mode k))%nat.
Proof.
  intros (H1 & H2 & [k Hk] & H4). unfold sc_encrypt. rewrite Hk. simpl.
  assert (sk_ok k) as Hok by (unfold sc_active_keys in Hk; destruct (sc_active sc); auto).
  destruct (sk_encrypt_total k seq aad pt Hok) as (c & Hc & Hl). rewrite Hc. simpl.
  by exists c, k.
Qed.

Lemma sc_decrypt_total sc seq flag aad data :
  sc_ok sc -> exists o, sc_decrypt sc seq flag aad data = Ret o.
Proof.
  intros (H1 & H2 & _). unfold sc_decrypt.
  assert (forall o, slot_ok o ->
    exists r, match o with Some keys => sk_decrypt keys seq aad data | None => Ret None end = Ret r)
    as Hslot.
  { intros [k|] Ho; [apply sk_decrypt_total; by apply Ho|by eexists]. }
  by destruct flag; [apply (Hslot None)|apply Hslot..].
Qed.

Lemma build_km_some passphrase flags cipher salt sek :
  valid_key_length (length sek) = true -> length salt = SALT_LEN -> flags <> KfBoth ->
  exists km, build_key_material_for passphrase flags cipher salt sek = Ret km /\ km_ok km /\
    km_key_flags km = flags /\ km_cipher km = cipher /\ km_salt km = salt /\
    km_key_length km = Z.of_nat (length sek) /\
    unwrap_key (derive_kek passphrase salt (length sek)) (km_wrapped km) = Ok sek.
Proof.
  intros Hk Hs Hf. unfold build_key_material_for, wrap_key.
  assert (length (derive_kek passphrase salt (length sek)) = length sek) as Hd
    by apply pbkdf2_length.
  pose proof (proj1 (valid_key_length_spec _) Hk) as Hk'.
  destruct (kw_wrap_some (derive_kek passphrase salt (length sek)) sek) as [w Hw].
  { by rewrite Hd. } { by destruct Hk' as [-> |[-> | ->]]. } { lia. }
  rewrite Hd, Hk, Hw. cbn [expect_ok mbind panicky_bind].
  rewrite (proj2 (Z.leb_le _ _)) by lia. cbn [expect mbind panicky_bind].
  eexists; split; [done|]. pose proof (kw_wrap_length _ _ _ Hw) as Hl.
  unfold WRAP_OVERHEAD in Hl. split_and!; try done; cbn.
  - split_and!; cbn; [lia|done|]. rewrite Nat2Z.id, Hl. unfold ICV_LEN.
    destruct flags; simpl; try done; lia.
  - unfold unwrap_key, WRAP_OVERHEAD. rewrite (proj2 (Nat.ltb_ge _ _)) by lia.
    by rewrite Hd, Hk, (kw_unwrap_wrap _ _ _ Hw).
Qed.

Lemma sk_from_key_material_total km passphrase :
  km_ok km ->
  (exists u, sk_from_key_material km passphrase = Ok u /\ ukm_ok u) \/
  (exists x, sk_from_key_material km passphrase = Err x).
Proof.
  intros (Hk & Hs & Hw). unfold sk_from_key_material.
  destruct (unwrap_key _ _) as [sek|x|] eqn:E; [|right; by eexists|].
  2: { unfold unwrap_key in E. by repeat case_match. }
  cbn [mbind res_bind].
  destruct (Nat.eqb_spec (length sek) (Z.to_nat (km_key_length km) * key_count (km_key_flags km)))
    as [El|El]; cbn [negb]; [left|right; by eexists].
  assert (valid_key_length (Z.to_nat (km_key_length km)) = true) as Hv
    by (destruct Hk as [-> |[-> | ->]]; done).
  eexists; split; [done|].
  destruct (km_key_flags km); cbn [key_count] in El; split_and!; cbn; auto with srt;
    try (apply slot_ok_some); try (split; cbn; [|done]); try (by left; eexists);
    try (by right; eexists).
  - by rewrite El, Nat.mul_1_r.
  - by rewrite El, Nat.mul_1_r.
  - by rewrite length_take, El, Nat.min_l by lia.
  - rewrite length_drop, El.
    by replace (Z.to_nat (km_key_length km) * 2 - Z.to_nat (km_key_length km))%nat
      with (Z.to_nat (km_key_length km)) by lia.
Qed.

(** The peer that shares the passphrase recovers exactly the announced key. *)
Lemma sk_from_key_material_single passphrase flags cipher salt sek km :
  valid_key_length (length sek) = true -> length salt = SALT_LEN -> flags <> KfBoth ->
  build_key_material_for passphrase flags cipher salt sek = Ret km ->
  sk_from_key_material km passphrase =
  Ok (match flags with
      | KfOdd => MkUnwrapped None (Some (MkKeys salt sek cipher))
      | _ => MkUnwrapped (Some (MkKeys salt sek cipher)) None
      end).
Proof.
  intros Hk Hs Hf Hb.
  destruct (build_km_some passphrase flags cipher salt sek Hk Hs Hf)
    as (km' & Hb' & _ & Hfl & Hc & Hsa & Hl & Hu).
  rewrite Hb in Hb'. injection Hb' as <-. unfold sk_from_key_material.
  rewrite Hl, Nat2Z.id, Hsa, Hu. cbn [mbind res_bind]. rewrite Hfl, Hc.
  destruct flags; cbn [key_count]; try done; by rewrite Nat.mul_1_r, Nat.eqb_refl.
Qed.
End Proofs.
