(* ===== verification/Config.v ===== *)
(** * Config: configuration and negotiated parameters ([connection/config.rs]) *)

From coqutil Require Import Datatypes.RecordSetters.
From S2P Require Import Prelude Errors Seq PacketTypes Handshake KeyMaterial Time.
Import TriangleBracketNotations.

Inductive KeySize : Type := Aes128 | Aes192 | Aes256.

Definition key_size_bytes (k : KeySize) : nat :=
  match k with Aes128 => 16 | Aes192 => 24 | Aes256 => 32 end.

Definition to_field (k : KeySize) : EncryptionField :=
  match k with Aes128 => EfAes128 | Aes192 => EfAes192 | Aes256 => EfAes256 end.

Record EncryptionSettings : Type := MkEncSettings {
  es_passphrase : list byte; es_key_size : KeySize; es_cipher : CipherMode }.

Record FecConfig : Type := MkFecConfig { fc_group_size : nat }.

Record Config : Type := MkConfig {
  cfg_latency : Duration;
  cfg_mtu : Z;
  cfg_flow_window : Z;
  cfg_stream_id : option (list byte);
  cfg_encryption : option EncryptionSettings;
  cfg_max_bw : Z;
  cfg_km_refresh_rate : Z;
  cfg_fec : option FecConfig;
  cfg_connect_timeout : Duration;
  cfg_peer_idle_timeout : Duration;
  cfg_linger : Duration;
}.

Definition config_default : Config := {|
  cfg_latency := dur_from_millis 120;
  cfg_mtu := 1500;
  cfg_flow_window := 25600;
  cfg_stream_id := None;
  cfg_encryption := None;
  cfg_max_bw := 0;
  cfg_km_refresh_rate := 0;
  cfg_fec := None;
  cfg_connect_timeout := dur_from_secs 3;
  cfg_peer_idle_timeout := dur_from_secs 5;
  cfg_linger := dur_from_secs 3;
|}.

Definition MIN_LATENCY : Duration := dur_from_millis 20.
Definition MIN_MTU : Z := 76.
Definition MAX_MTU : Z := 1500.
Definition MIN_FLOW_WINDOW : Z := 32.
Definition MIN_PASSPHRASE : nat := 10.
Definition MAX_PASSPHRASE : nat := 79.
Definition MIN_CONNECT_TIMEOUT : Duration := dur_from_millis 100.
Definition MIN_PEER_IDLE_TIMEOUT : Duration := dur_from_secs 1.

#[export] Instance set_cfg_latency : Setter cfg_latency.
Proof. mk_setter cfg_latency. Defined.
#[export] Instance set_cfg_mtu : Setter cfg_mtu.
Proof. mk_setter cfg_mtu. Defined.
#[export] Instance set_cfg_flow_window : Setter cfg_flow_window.
Proof. mk_setter cfg_flow_window. Defined.
#[export] Instance set_cfg_stream_id : Setter cfg_stream_id.
Proof. mk_setter cfg_stream_id. Defined.
#[export] Instance set_cfg_encryption : Setter cfg_encryption.
Proof. mk_setter cfg_encryption. Defined.
#[export] Instance set_cfg_max_bw : Setter cfg_max_bw.
Proof. mk_setter cfg_max_bw. Defined.
#[export] Instance set_cfg_km_refresh_rate : Setter cfg_km_refresh_rate.
Proof. mk_setter cfg_km_refresh_rate. Defined.
#[export] Instance set_cfg_fec : Setter cfg_fec.
Proof. mk_setter cfg_fec. Defined.
#[export] Instance set_cfg_connect_timeout : Setter cfg_connect_timeout.
Proof. mk_setter cfg_connect_timeout. Defined.
#[export] Instance set_cfg_peer_idle_timeout : Setter cfg_peer_idle_timeout.
Proof. mk_setter cfg_peer_idle_timeout. Defined.
#[export] Instance set_cfg_linger : Setter cfg_linger.
Proof. mk_setter cfg_linger. Defined.

(** The builders.  A [u32] or [u64] argument is in range by its type. *)
Definition with_latency (latency : Duration) (c : Config) : Config := c <| cfg_latency := latency |>.
Definition with_mtu (mtu : Z) (c : Config) : Config := c <| cfg_mtu := mtu |>.
Definition with_flow_window (packets : Z) (c : Config) : Config := c <| cfg_flow_window := packets |>.
Definition with_stream_id (stream_id : list byte) (c : Config) : Config :=
  c <| cfg_stream_id := Some stream_id |>.
Definition with_passphrase (passphrase : list byte) (c : Config) : Config :=
  c <| cfg_encryption := Some (MkEncSettings passphrase Aes128 Ctr) |>.
Definition with_encryption (encryption : EncryptionSettings) (c : Config) : Config :=
  c <| cfg_encryption := Some encryption |>.
Definition with_max_bw (bytes_per_second : Z) (c : Config) : Config := c <| cfg_max_bw := bytes_per_second |>.
Definition with_km_refresh_rate (packets : Z) (c : Config) : Config := c <| cfg_km_refresh_rate := packets |>.
Definition with_fec (fec : FecConfig) (c : Config) : Config := c <| cfg_fec := Some fec |>.
Definition with_connect_timeout (timeout : Duration) (c : Config) : Config := c <| cfg_connect_timeout := timeout |>.
Definition with_peer_idle_timeout (timeout : Duration) (c : Config) : Config := c <| cfg_peer_idle_timeout := timeout |>.
Definition with_linger (linger : Duration) (c : Config) : Config := c <| cfg_linger := linger |>.

Definition config_validate (c : Config) : res ConfigError unit :=
  if cfg_latency c <? MIN_LATENCY
  then Err (LatencyTooLow (clamp u64_max (as_millis MIN_LATENCY))) else
  if negb ((MIN_MTU <=? cfg_mtu c) && (cfg_mtu c <=? MAX_MTU))
  then Err (MtuOutOfRange (cfg_mtu c)) else
  if cfg_flow_window c <? MIN_FLOW_WINDOW
  then Err (FlowWindowTooSmall MIN_FLOW_WINDOW) else
  _ ← match cfg_encryption c with
      | Some enc =>
          let len := length (es_passphrase enc) in
          if negb ((MIN_PASSPHRASE <=? len)%nat && (len <=? MAX_PASSPHRASE)%nat)
          then Err (PassphraseLength len) else Ok tt
      | None => Ok tt
      end;
  if cfg_connect_timeout c <? MIN_CONNECT_TIMEOUT then Err ConnectTimeoutTooLow else
  if cfg_peer_idle_timeout c <? MIN_PEER_IDLE_TIMEOUT then Err PeerIdleTimeoutTooLow else
  Ok tt.

Record Negotiated : Type := MkNegotiated {
  ng_peer_socket_id : SocketId;
  ng_peer_initial_seq : SeqNumber;
  ng_latency : Duration;
  ng_encryption : EncryptionField;
}.

#[export] Instance negotiated_eq_dec : EqDecision Negotiated.
Proof. solve_decision. Defined.

(** ** What validation guarantees *)

Record config_valid (c : Config) : Prop := {
  cv_latency : MIN_LATENCY <= cfg_latency c;
  cv_mtu : MIN_MTU <= cfg_mtu c <= MAX_MTU;
  cv_window : MIN_FLOW_WINDOW <= cfg_flow_window c;
  cv_passphrase : forall e, cfg_encryption c = Some e ->
    (MIN_PASSPHRASE <= length (es_passphrase e) <= MAX_PASSPHRASE)%nat;
  cv_connect : MIN_CONNECT_TIMEOUT <= cfg_connect_timeout c;
  cv_idle : MIN_PEER_IDLE_TIMEOUT <= cfg_peer_idle_timeout c;
}.

Lemma config_validate_ok c : config_validate c = Ok tt <-> config_valid c.
Proof.
  unfold config_validate. split.
  - destruct (Z.ltb_spec (cfg_latency c) MIN_LATENCY); [done|].
    destruct (Z.leb_spec MIN_MTU (cfg_mtu c)); [|done].
    destruct (Z.leb_spec (cfg_mtu c) MAX_MTU); [|done]. cbn [negb andb].
    destruct (Z.ltb_spec (cfg_flow_window c) MIN_FLOW_WINDOW); [done|].
    destruct (cfg_encryption c) as [e|] eqn:Ee.
    + destruct (Nat.leb_spec MIN_PASSPHRASE (length (es_passphrase e))); [|done].
      destruct (Nat.leb_spec (length (es_passphrase e)) MAX_PASSPHRASE); [|done].
      cbn [negb andb mbind res_bind].
      destruct (Z.ltb_spec (cfg_connect_timeout c) MIN_CONNECT_TIMEOUT); [done|].
      destruct (Z.ltb_spec (cfg_peer_idle_timeout c) MIN_PEER_IDLE_TIMEOUT); [done|].
      intros _. constructor; try done. intros e' ?. simplify_eq. done.
    + cbn [mbind res_bind].
      destruct (Z.ltb_spec (cfg_connect_timeout c) MIN_CONNECT_TIMEOUT); [done|].
      destruct (Z.ltb_spec (cfg_peer_idle_timeout c) MIN_PEER_IDLE_TIMEOUT); [done|].
      intros _. constructor; try done. intros e' ?. simplify_eq.
  - intros [H1 [H2 H2'] H3 H4 H5 H6].
    rewrite (proj2 (Z.ltb_ge _ _)), (proj2 (Z.leb_le _ _)), (proj2 (Z.leb_le _ _)),
      (proj2 (Z.ltb_ge _ MIN_FLOW_WINDOW)) by done. cbn [negb andb].
    destruct (cfg_encryption c) as [e|] eqn:Ee.
    + destruct (H4 e eq_refl) as [Ha Hb].
      rewrite (proj2 (Nat.leb_le _ _) Ha), (proj2 (Nat.leb_le _ _) Hb). cbn [negb andb mbind res_bind].
      by rewrite !(proj2 (Z.ltb_ge _ _)).
    + cbn [mbind res_bind]. by rewrite !(proj2 (Z.ltb_ge _ _)).
Qed.

(** What each error says about the configuration. *)
Definition violates (c : Config) (e : ConfigError) : Prop :=
  match e with
  | LatencyTooLow ms => ms = 20 /\ cfg_latency c < MIN_LATENCY
  | MtuOutOfRange mtu => mtu = cfg_mtu c /\ ~ (MIN_MTU <= mtu <= MAX_MTU)
  | FlowWindowTooSmall min => min = MIN_FLOW_WINDOW /\ cfg_flow_window c < min
  | PassphraseLength len => exists enc, cfg_encryption c = Some enc /\
      len = length (es_passphrase enc) /\ ~ (MIN_PASSPHRASE <= len <= MAX_PASSPHRASE)%nat
  | ConnectTimeoutTooLow => cfg_connect_timeout c < MIN_CONNECT_TIMEOUT
  | PeerIdleTimeoutTooLow => cfg_peer_idle_timeout c < MIN_PEER_IDLE_TIMEOUT
  end.

Lemma config_validate_violates c e : config_validate c = Err e -> violates c e.
Proof.
  unfold config_validate.
  destruct (Z.ltb_spec (cfg_latency c) MIN_LATENCY); [by intros [= <-]|].
  destruct (Z.leb_spec MIN_MTU (cfg_mtu c)), (Z.leb_spec (cfg_mtu c) MAX_MTU); cbn [negb andb];
    try (intros [= <-]; split; [done|lia]).
  destruct (Z.ltb_spec (cfg_flow_window c) MIN_FLOW_WINDOW); [by intros [= <-]|].
  assert (forall r : res ConfigError unit, r = (if cfg_connect_timeout c <? MIN_CONNECT_TIMEOUT
      then Err ConnectTimeoutTooLow else
      if cfg_peer_idle_timeout c <? MIN_PEER_IDLE_TIMEOUT then Err PeerIdleTimeoutTooLow else Ok tt) ->
    r = Err e -> violates c e) as Htail.
  { intros r ->. destruct (Z.ltb_spec (cfg_connect_timeout c) MIN_CONNECT_TIMEOUT); [by intros [= <-]|].
    by destruct (Z.ltb_spec (cfg_peer_idle_timeout c) MIN_PEER_IDLE_TIMEOUT); [intros [= <-]|]. }
  destruct (cfg_encryption c) as [enc|] eqn:Ee; [|by apply Htail].
  destruct (Nat.leb_spec MIN_PASSPHRASE (length (es_passphrase enc))),
    (Nat.leb_spec (length (es_passphrase enc)) MAX_PASSPHRASE); cbn [negb andb];
    try (intros [= <-]; exists enc; split; [done|split; [done|lia]]).
  by apply Htail.
Qed.

Lemma config_validate_no_crash c : config_validate c <> Crash.
Proof. unfold config_validate. by repeat case_match. Qed.

(** The three outcomes of validation, as the entry points meet them. *)
Lemma config_validate_cases c :
  (exists e, config_validate c = Err e /\ violates c e) \/ (config_validate c = Ok tt /\ config_valid c).
Proof.
  destruct (config_validate c) as [[]|e|] eqn:E.
  - right. split; [done|]. by apply config_validate_ok.
  - left. exists e. split; [done|]. by apply config_validate_violates.
  - by apply config_validate_no_crash in E.
Qed.

(** A valid configuration breaks none of the rules. *)
Lemma config_valid_violates c e : config_valid c -> ~ violates c e.
Proof.
  intros [] H. destruct e; cbn in H; try lia. destruct H as (enc & He & -> & Hn). by apply Hn, cv_passphrase0.
Qed.
