(* ===== verification/Event.v ===== *)
(** * Event: the output vocabularies and the counters
    ([connection/event.rs], [stats.rs]) *)

From S2P Require Import Prelude Errors Reject Seq PacketTypes Handshake KeyMaterial Time Config.

Inductive Event : Type :=
  | EvConnected (n : Negotiated)
  | EvDataReceived (message : list byte)
  | EvFailed (e : ConnectionError)
  | EvClosed
  | EvKeyRefreshNeeded (key_size : nat).

Inductive TimerId : Type :=
  | TiHandshake | TiAck | TiNak | TiExp | TiTsbpd | TiSndPacing | TiLinger
  | TiKeepalive | TiPeerIdle.

Inductive Output : Type :=
  | SendDatagram (bytes : list byte)
  | SetTimer (id : TimerId) (after : Duration)
  | ClearTimer (id : TimerId).

#[export] Instance event_eq_dec : EqDecision Event.
Proof. solve_decision. Defined.
#[export] Instance timer_id_eq_dec : EqDecision TimerId.
Proof. solve_decision. Defined.
#[export] Instance output_eq_dec : EqDecision Output.
Proof. solve_decision. Defined.

Record Stats : Type := MkStats {
  st_packets_sent : Z; st_bytes_sent : Z;
  st_packets_retransmitted : Z; st_bytes_retransmitted : Z;
  st_packets_received : Z; st_bytes_received : Z;
  st_packets_dropped : Z; st_packets_dropped_sent : Z;
  st_packets_duplicate : Z; st_packets_undecryptable : Z; st_packets_recovered : Z;
  st_rtt_us : Z; st_rtt_var_us : Z; st_flight_size : Z; st_recv_buffer_packets : Z;
  st_recv_rate_pps : Z; st_recv_rate_bps : Z; st_link_capacity_pps : Z;
  st_acks_sent : Z; st_acks_received : Z; st_naks_sent : Z; st_naks_received : Z;
  st_send_buffer_packets : Z; st_latency_ms : Z; st_packets_dropped_full : Z;
}.

Definition stats_default : Stats :=
  MkStats 0 0 0 0 0 0 0 0 0 0 0 0 0 0 0 0 0 0 0 0 0 0 0 0 0.
