(* ===== verification/Fragment.v ===== *)
(** * Fragment: splitting and reassembling application messages
    ([connection.rs]: [Fragment], [fragment_message], [Reassembler]) *)

From S2P Require Import Prelude Seq Timestamp PacketTypes.

Record Fragment : Type := MkFragment {
  fg_payload : list byte; fg_position : PacketPosition; fg_message : Z }.

(** [payload.slice(offset..end)] *)
Definition slice (offset stop : nat) (payload : list byte) : list byte :=
  take (stop - offset) (drop offset payload).

(** The [while offset < payload.len()] loop. *)
Fixpoint fragment_loop (fuel max offset : nat) (payload : list byte) (message : Z)
  : list Fragment :=
  match fuel with
  | O => []
  | S fuel =>
      if (offset <? length payload)%nat then
        let stop := Nat.min (offset + max) (length payload) in
        let pos :=
          if (offset =? 0)%nat then First
          else if (stop =? length payload)%nat then Last else Middle in
        MkFragment (slice offset stop payload) pos message
          :: fragment_loop fuel max stop payload message
      else []
  end.

Definition fragment_message (max : nat) (payload : list byte) (message : Z) : list Fragment :=
  if (length payload <=? max)%nat then [MkFragment payload Single message]
  else fragment_loop (S (length payload)) max 0 payload message.

Record Reassembler : Type := MkReassembler {
  ra_fragments : list (list byte); ra_next_seq : option SeqNumber }.

Definition ra_new : Reassembler := MkReassembler [] None.

Definition ra_push (r : Reassembler) (p : DataPacket) : option (list byte) * Reassembler :=
  match dp_position p with
  | Single => (Some (dp_payload p), ra_new)
  | First => (None, MkReassembler [dp_payload p] (Some (seq_next (dp_seq p))))
  | Middle | Last =>
      if decide (ra_next_seq r = Some (dp_seq p)) then
        let fragments := ra_fragments r ++ [dp_payload p] in
        match dp_position p with
        | Last => (Some (concat fragments), ra_new)
        | _ => (None, MkReassembler fragments (Some (seq_next (dp_seq p))))
        end
      else (None, ra_new)
  end.

(** ** Splitting and splicing are inverse *)

(** The packets the sender emits for fragments starting at [s]. *)
Inductive carries : SeqNumber -> list Fragment -> list DataPacket -> Prop :=
  | carries_nil s : carries s [] []
  | carries_cons s f fs p ps :
      dp_seq p = s -> dp_position p = fg_position f -> dp_payload p = fg_payload f ->
      carries (seq_next s) fs ps -> carries s (f :: fs) (p :: ps).

Definition ra_step (acc : list (list byte) * Reassembler) (p : DataPacket)
  : list (list byte) * Reassembler :=
  let '(out, r) := acc in
  let '(m, r) := ra_push r p in (out ++ match m with Some m => [m] | None => [] end, r).

Lemma slice_length o e p :
  (o <= e <= length p)%nat -> length (slice o e p) = (e - o)%nat.
Proof. intros. unfold slice. rewrite length_take, length_drop. lia. Qed.

Lemma slice_join o e p :
  (o <= e <= length p)%nat -> slice o e p ++ drop e p = drop o p.
Proof.
  intros H. unfold slice. replace (drop e p) with (drop (e - o) (drop o p)).
  - apply take_drop.
  - rewrite drop_drop. f_equal. lia.
Qed.

Section Loop.
Context (max : nat) (Hmax : (0 < max)%nat) (payload : list byte) (message : Z).

(** From a positive offset on, the remaining fragments complete the message. *)
Lemma reassemble_rest fuel offset s ps collected out :
  (0 < offset < length payload)%nat -> (length payload - offset < fuel)%nat ->
  carries s (fragment_loop fuel max offset payload message) ps ->
  foldl ra_step (out, MkReassembler collected (Some s)) ps
  = (out ++ [concat collected ++ drop offset payload], ra_new).
Proof.
  revert offset s ps collected. induction fuel as [|fuel IH];
    intros offset s ps collected Ho Hf Hc; [lia|].
  cbn [fragment_loop] in Hc. rewrite (proj2 (Nat.ltb_lt _ _)) in Hc by lia.
  rewrite (proj2 (Nat.eqb_neq _ _)) in Hc by lia.
  set (stop := Nat.min (offset + max) (length payload)) in *.
  inversion Hc as [|s' f fs p ps' Hs Hp Hpl Hrest]; subst s' f fs ps.
  cbn [fg_position fg_payload] in *. cbn [foldl ra_step].
  assert (offset <= stop <= length payload)%nat as Hst by lia.
  destruct (Nat.eqb_spec stop (length payload)) as [E|E].
  - unfold ra_push. rewrite Hp. rewrite decide_True by (simpl; congruence).
    simpl ra_fragments. rewrite Hpl.
    assert (ps' = []) as ->.
    { destruct fuel; cbn [fragment_loop] in Hrest; [by inversion Hrest|].
      rewrite (proj2 (Nat.ltb_ge _ _)) in Hrest by lia. by inversion Hrest. }
    simpl foldl. rewrite concat_app. simpl. rewrite app_nil_r.
    do 3 f_equal. rewrite <- (slice_join offset stop) by done.
    rewrite (drop_ge payload) by lia. by rewrite app_nil_r.
  - unfold ra_push. rewrite Hp. rewrite decide_True by (simpl; congruence).
    simpl ra_fragments. rewrite Hpl, app_nil_r, Hs.
    rewrite (IH stop (seq_next s)) by (done || lia).
    rewrite concat_app. simpl. rewrite app_nil_r, <- app_assoc, slice_join by done. done.
Qed.
End Loop.

Lemma reassemble_message max payload message s ps r out :
  (0 < max)%nat -> carries s (fragment_message max payload message) ps ->
  foldl ra_step (out, r) ps = (out ++ [payload], ra_new).
Proof.
  intros Hmax Hc. unfold fragment_message in Hc.
  destruct (Nat.leb_spec (length payload) max) as [Hle|Hgt].
  - inversion Hc as [|s' f fs p ps' Hs Hp Hpl Hrest]; subst s' f fs ps.
    inversion Hrest; subst. cbn. unfold ra_push. by rewrite Hp, Hpl.
  - cbn [fragment_loop] in Hc. rewrite (proj2 (Nat.ltb_lt _ _)) in Hc by lia.
    cbn [Nat.eqb] in Hc. rewrite Nat.add_0_l, Nat.min_l in Hc by lia.
    inversion Hc as [|s' f fs p ps' Hs Hp Hpl Hrest]; subst s' f fs ps.
    cbn [fg_position fg_payload] in *. cbn [foldl]. unfold ra_step at 2, ra_push.
    rewrite Hp, Hpl, app_nil_r, Hs.
    rewrite (reassemble_rest max Hmax payload message (length payload) max (seq_next s) ps')
      by (done || lia).
    simpl. rewrite app_nil_r, slice_join by lia. done.
Qed.

Lemma fragment_loop_bounds fuel max offset payload message :
  Forall (fun f => (1 <= length (fg_payload f) <= max)%nat /\ fg_message f = message)
    (fragment_loop fuel max offset payload message) \/ max = 0%nat.
Proof.
  destruct max as [|max]; [by right|left]. revert offset.
  induction fuel as [|fuel IH]; intros offset; cbn [fragment_loop]; [constructor|].
  destruct (Nat.ltb_spec offset (length payload)); [|constructor].
  constructor; [|apply IH]. cbn [fg_payload fg_message]. split; [|done].
  rewrite slice_length by lia. lia.
Qed.

Lemma fragment_message_number max payload message :
  Forall (fun f => fg_message f = message) (fragment_message max payload message).
Proof.
  unfold fragment_message. case_match; [by constructor|].
  generalize (S (length payload)) as fuel, 0%nat as offset. intros fuel.
  induction fuel as [|fuel IH]; intros offset; cbn [fragment_loop]; [constructor|].
  case_match; constructor; [done|apply IH].
Qed.

(** ** The shape of a fragmented message *)

(** One packet alone, or a first, middles and a last; in order they hold the message. *)
Definition shaped (m : list byte) (fs : list Fragment) : Prop :=
  concat (fg_payload <$> fs) = m /\
  ((exists f, fs = [f] /\ fg_position f = Single) \/
   ((2 <= length fs)%nat /\ forall i f, fs !! i = Some f ->
      fg_position f = if (i =? 0)%nat then First else if (S i =? length fs)%nat then Last else Middle)).

Lemma fragment_loop_rest max payload n fuel offset :
  (0 < max)%nat -> (0 < offset < length payload)%nat -> (length payload - offset < fuel)%nat ->
  let fs := fragment_loop fuel max offset payload n in
  (0 < length fs)%nat /\ concat (fg_payload <$> fs) = drop offset payload /\
  forall i f, fs !! i = Some f -> fg_position f = if (S i =? length fs)%nat then Last else Middle.
Proof.
  intros Hm. revert offset. induction fuel as [|fuel IH]; intros offset Ho Hf; [lia|]. cbv zeta.
  cbn [fragment_loop]. rewrite (proj2 (Nat.ltb_lt _ _)) by lia.
  rewrite (proj2 (Nat.eqb_neq _ _)) by lia.
  set (stop := Nat.min (offset + max) (length payload)).
  assert (offset < stop <= length payload)%nat as Hst by lia.
  rewrite fmap_cons. cbn [fg_payload concat length]. rewrite <- (slice_join offset stop) by lia.
  destruct (Nat.eqb_spec stop (length payload)) as [E|E].
  - assert (fragment_loop fuel max stop payload n = []) as ->.
    { destruct fuel; cbn [fragment_loop]; [done|]. by rewrite (proj2 (Nat.ltb_ge _ _)) by lia. }
    split; [simpl; lia|]. split; [by rewrite (drop_ge payload) by lia|]. intros [|i] f; [by intros [= <-]|done].
  - destruct (IH stop) as (H1 & H2 & H3); [lia..|]. split; [lia|]. split; [by rewrite H2|].
    intros [|i] f; [|apply H3]. intros [= <-]. cbn [fg_position].
    by rewrite (proj2 (Nat.eqb_neq _ _)) by lia.
Qed.

Lemma fragment_message_shaped max payload n :
  (0 < max)%nat -> shaped payload (fragment_message max payload n).
Proof.
  intros Hm. unfold fragment_message. destruct (Nat.leb_spec (length payload) max) as [Hle|Hgt].
  { split; [by rewrite fmap_cons; cbn; rewrite app_nil_r|]. left. by eexists. }
  cbn [fragment_loop]. rewrite (proj2 (Nat.ltb_lt _ _)) by lia. cbn [Nat.eqb].
  rewrite Nat.add_0_l, Nat.min_l by lia.
  destruct (fragment_loop_rest max payload n (length payload) max) as (H1 & H2 & H3); [lia..|].
  split; [rewrite fmap_cons; cbn [fg_payload concat]; rewrite H2; apply (slice_join 0); lia|right].
  split; [cbn [length]; lia|]. intros [|i] f Hf; [by injection Hf as <-|]. by apply H3.
Qed.
