(* ===== verification/ConnState.v ===== *)
(** * ConnState: the connection's state and its shared primitives
    ([connection.rs])

    [Connection] has the source's fields under the prefix [cn_].  A method that
    takes [&mut self] is a function to the updated record; one that can reach a
    panicking callee returns [panicky].  Updates are written with coqutil's
    record setters, [c <| field := v |>]. *)

From coqutil Require Export Datatypes.RecordSetters.
From S2P Require Import Prelude Buf Errors Reject Seq LossList Time Timestamp Rtt Drift Rate LiveCc PacketTypes Handshake Control Packet SendBuffer RecvBuffer Fec KeyMaterial Crypto Config Event Fragment.
Export TriangleBracketNotations.

Definition HS_VERSION_UDT : Z := 4.
Definition HS_VERSION_SRT : Z := 5.
Definition SRT_MAGIC : Z := 0x4A17.
Definition INDUCTION_EXT_FIELD : Z := 2.
Definition EXT_FLAG_HSREQ : Z := 0x0001.
Definition EXT_FLAG_CONFIG : Z := 0x0004.
Definition SRT_LIBRARY_VERSION : Z := 0x00010504.
Definition EXT_FLAG_KMREQ : Z := 0x0002.
Definition EXT_KMREQ : Z := 3.
Definition EXT_KMRSP : Z := 4.
Definition SYN_INTERVAL : Duration := dur_from_millis 250.
Definition KM_REFRESH_DEFAULT : Z := 16777216.

Inductive Side : Type := Caller | Acceptor.
Inductive State : Type := StInduction | StConclusion | StConnected | StFailed.

#[export] Instance side_eq_dec : EqDecision Side.
Proof. solve_decision. Defined.
#[export] Instance state_eq_dec : EqDecision State.
Proof. solve_decision. Defined.

Definition is_connected (s : State) : bool := match s with StConnected => true | _ => false end.
Definition is_handshaking (s : State) : bool :=
  match s with StInduction | StConclusion => true | _ => false end.

Record Connection : Type := MkConnection {
  cn_config : Config;
  cn_local_socket_id : SocketId;
  cn_initial_seq : SeqNumber;
  cn_start : Instant;
  cn_side : Side;
  cn_state : State;
  cn_peer_socket_id : SocketId;
  cn_syn_cookie : Z;
  cn_last_handshake : option (list byte);
  cn_crypto : option SessionCrypto;
  cn_key_material : option (list byte);
  cn_packets_on_key : Z;
  cn_rekey_pending : bool;
  cn_next_key_ready : bool;
  cn_pending_km : option (list byte);
  cn_km_retries : Z;
  cn_send_buffer : SendBuffer;
  cn_recv_buffer : RecvBuffer;
  cn_latency : Duration;
  cn_tsbpd_base : option (Timestamp * Instant);
  cn_ts_wrap : option TsbpdWrap;
  cn_drift : DriftTracer;
  cn_rtt : RttEstimator;
  cn_next_send_seq : SeqNumber;
  cn_next_message : Z;
  cn_next_ack_number : Z;
  cn_pending_acks : list (Z * Instant);
  cn_last_acked_point : option SeqNumber;
  cn_last_acked_avail : option Z;
  cn_peer_avail_window : Z;
  cn_reported_loss : list (SeqNumber * SeqNumber);
  cn_reorder_tolerance : Z;
  cn_highest_recv_seq : option SeqNumber;
  cn_orderly_streak : Z;
  cn_last_nak : option Instant;
  cn_packets_since_ack : Z;
  cn_exp_count : Z;
  cn_live_cc : option LiveCc;
  cn_send_queue : list Fragment;
  cn_next_send : option Instant;
  cn_closing : bool;
  cn_last_sent : Instant;
  cn_last_recv_any : Instant;
  cn_reassembler : Reassembler;
  cn_fec_send : option FecEncoder;
  cn_fec_recv : option FecReceiver;
  cn_stats : Stats;
  cn_rate : RateEstimator;
  cn_events : list Event;
  cn_outputs : list Output;
}.

#[export] Instance set_config : Setter cn_config.
Proof. mk_setter cn_config. Defined.
#[export] Instance set_local_socket_id : Setter cn_local_socket_id.
Proof. mk_setter cn_local_socket_id. Defined.
#[export] Instance set_initial_seq : Setter cn_initial_seq.
Proof. mk_setter cn_initial_seq. Defined.
#[export] Instance set_start : Setter cn_start.
Proof. mk_setter cn_start. Defined.
#[export] Instance set_side : Setter cn_side.
Proof. mk_setter cn_side. Defined.
#[export] Instance set_state : Setter cn_state.
Proof. mk_setter cn_state. Defined.
#[export] Instance set_peer_socket_id : Setter cn_peer_socket_id.
Proof. mk_setter cn_peer_socket_id. Defined.
#[export] Instance set_syn_cookie : Setter cn_syn_cookie.
Proof. mk_setter cn_syn_cookie. Defined.
#[export] Instance set_last_handshake : Setter cn_last_handshake.
Proof. mk_setter cn_last_handshake. Defined.
#[export] Instance set_crypto : Setter cn_crypto.
Proof. mk_setter cn_crypto. Defined.
#[export] Instance set_key_material : Setter cn_key_material.
Proof. mk_setter cn_key_material. Defined.
#[export] Instance set_packets_on_key : Setter cn_packets_on_key.
Proof. mk_setter cn_packets_on_key. Defined.
#[export] Instance set_rekey_pending : Setter cn_rekey_pending.
Proof. mk_setter cn_rekey_pending. Defined.
#[export] Instance set_next_key_ready : Setter cn_next_key_ready.
Proof. mk_setter cn_next_key_ready. Defined.
#[export] Instance set_pending_km : Setter cn_pending_km.
Proof. mk_setter cn_pending_km. Defined.
#[export] Instance set_km_retries : Setter cn_km_retries.
Proof. mk_setter cn_km_retries. Defined.
#[export] Instance set_send_buffer : Setter cn_send_buffer.
Proof. mk_setter cn_send_buffer. Defined.
#[export] Instance set_recv_buffer : Setter cn_recv_buffer.
Proof. mk_setter cn_recv_buffer. Defined.
#[export] Instance set_latency : Setter cn_latency.
Proof. mk_setter cn_latency. Defined.
#[export] Instance set_tsbpd_base : Setter cn_tsbpd_base.
Proof. mk_setter cn_tsbpd_base. Defined.
#[export] Instance set_ts_wrap : Setter cn_ts_wrap.
Proof. mk_setter cn_ts_wrap. Defined.
#[export] Instance set_drift : Setter cn_drift.
Proof. mk_setter cn_drift. Defined.
#[export] Instance set_rtt : Setter cn_rtt.
Proof. mk_setter cn_rtt. Defined.
#[export] Instance set_next_send_seq : Setter cn_next_send_seq.
Proof. mk_setter cn_next_send_seq. Defined.
#[export] Instance set_next_message : Setter cn_next_message.
Proof. mk_setter cn_next_message. Defined.
#[export] Instance set_next_ack_number : Setter cn_next_ack_number.
Proof. mk_setter cn_next_ack_number. Defined.
#[export] Instance set_pending_acks : Setter cn_pending_acks.
Proof. mk_setter cn_pending_acks. Defined.
#[export] Instance set_last_acked_point : Setter cn_last_acked_point.
Proof. mk_setter cn_last_acked_point. Defined.
#[export] Instance set_last_acked_avail : Setter cn_last_acked_avail.
Proof. mk_setter cn_last_acked_avail. Defined.
#[export] Instance set_peer_avail_window : Setter cn_peer_avail_window.
Proof. mk_setter cn_peer_avail_window. Defined.
#[export] Instance set_reported_loss : Setter cn_reported_loss.
Proof. mk_setter cn_reported_loss. Defined.
#[export] Instance set_reorder_tolerance : Setter cn_reorder_tolerance.
Proof. mk_setter cn_reorder_tolerance. Defined.
#[export] Instance set_highest_recv_seq : Setter cn_highest_recv_seq.
Proof. mk_setter cn_highest_recv_seq. Defined.
#[export] Instance set_orderly_streak : Setter cn_orderly_streak.
Proof. mk_setter cn_orderly_streak. Defined.
#[export] Instance set_last_nak : Setter cn_last_nak.
Proof. mk_setter cn_last_nak. Defined.
#[export] Instance set_packets_since_ack : Setter cn_packets_since_ack.
Proof. mk_setter cn_packets_since_ack. Defined.
#[export] Instance set_exp_count : Setter cn_exp_count.
Proof. mk_setter cn_exp_count. Defined.
#[export] Instance set_live_cc : Setter cn_live_cc.
Proof. mk_setter cn_live_cc. Defined.
#[export] Instance set_send_queue : Setter cn_send_queue.
Proof. mk_setter cn_send_queue. Defined.
#[export] Instance set_next_send : Setter cn_next_send.
Proof. mk_setter cn_next_send. Defined.
#[export] Instance set_closing : Setter cn_closing.
Proof. mk_setter cn_closing. Defined.
#[export] Instance set_last_sent : Setter cn_last_sent.
Proof. mk_setter cn_last_sent. Defined.
#[export] Instance set_last_recv_any : Setter cn_last_recv_any.
Proof. mk_setter cn_last_recv_any. Defined.
#[export] Instance set_reassembler : Setter cn_reassembler.
Proof. mk_setter cn_reassembler. Defined.
#[export] Instance set_fec_send : Setter cn_fec_send.
Proof. mk_setter cn_fec_send. Defined.
#[export] Instance set_fec_recv : Setter cn_fec_recv.
Proof. mk_setter cn_fec_recv. Defined.
#[export] Instance set_stats : Setter cn_stats.
Proof. mk_setter cn_stats. Defined.
#[export] Instance set_rate : Setter cn_rate.
Proof. mk_setter cn_rate. Defined.
#[export] Instance set_events : Setter cn_events.
Proof. mk_setter cn_events. Defined.
#[export] Instance set_outputs : Setter cn_outputs.
Proof. mk_setter cn_outputs. Defined.

(** [self.outputs.push_back], [self.events.push_back] *)
Definition push_output (o : Output) (c : Connection) : Connection :=
  c <| cn_outputs ::= fun os => os ++ [o] |>.
Definition push_event (e : Event) (c : Connection) : Connection :=
  c <| cn_events ::= fun es => es ++ [e] |>.

(** [self.stats.<field> += n] *)
Abbreviation bump n := (fun v => add64 v n).

Definition new_base (config : Config) (local_socket_id : SocketId) (initial_seq : SeqNumber)
  (start : Instant) (side : Side) (state : State) : Connection :=
  let fec_clip := Nat.max (Z.to_nat (sat_sub (cfg_mtu config) 44)) 1 in {|
    cn_config := config;
    cn_local_socket_id := local_socket_id;
    cn_initial_seq := initial_seq;
    cn_start := start;
    cn_side := side;
    cn_state := state;
    cn_peer_socket_id := socket_id_new 0;
    cn_syn_cookie := 0;
    cn_last_handshake := None;
    cn_crypto := None;
    cn_key_material := None;
    cn_packets_on_key := 0;
    cn_rekey_pending := false;
    cn_next_key_ready := false;
    cn_pending_km := None;
    cn_km_retries := 0;
    cn_send_buffer := sb_new;
    cn_recv_buffer := rb_new initial_seq;
    cn_latency := cfg_latency config;
    cn_tsbpd_base := None;
    cn_ts_wrap := None;
    cn_drift := drift_new;
    cn_rtt := rtt_new;
    cn_next_send_seq := initial_seq;
    cn_next_message := 1;
    cn_next_ack_number := 1;
    cn_pending_acks := [];
    cn_last_acked_point := None;
    cn_last_acked_avail := None;
    cn_peer_avail_window := cfg_flow_window config;
    cn_reported_loss := [];
    cn_reorder_tolerance := 0;
    cn_highest_recv_seq := None;
    cn_orderly_streak := 0;
    cn_last_nak := None;
    cn_packets_since_ack := 0;
    cn_exp_count := 1;
    cn_live_cc := if 0 <? cfg_max_bw config then Some (cc_new (cfg_max_bw config)) else None;
    cn_send_queue := [];
    cn_next_send := None;
    cn_closing := false;
    cn_last_sent := start;
    cn_last_recv_any := start;
    cn_reassembler := ra_new;
    cn_fec_send := (fun f => fe_new (fc_group_size f) fec_clip) <$> cfg_fec config;
    cn_fec_recv := (fun f => fr_new (fc_group_size f) fec_clip) <$> cfg_fec config;
    cn_stats := stats_default;
    cn_rate := rate_new;
    cn_events := [];
    cn_outputs := [];
  |}.

(** Microseconds since [start], truncated to the 32-bit field. *)
Definition wire_ts (c : Connection) (now : Instant) : Timestamp :=
  from_micros (wrap32 (as_micros (since now (cn_start c)))).

(** [emit]: queue a datagram and remember when we last sent. *)
Definition emit (datagram : list byte) (now : Instant) (c : Connection) : Connection :=
  push_output (SendDatagram datagram) (c <| cn_last_sent := now |>).

Definition ARQ_TIMERS : list TimerId :=
  [TiAck; TiNak; TiExp; TiTsbpd; TiSndPacing; TiKeepalive; TiPeerIdle].

Definition clear_arq_timers (c : Connection) : Connection :=
  foldl (fun c id => push_output (ClearTimer id) c) c ARQ_TIMERS.

Section Wire.
Context {B : BytesApi}.

Definition encode_control (dest : SocketId) (ts : Timestamp) (body : ControlBody)
  : panicky (list byte) :=
  packet_encode (PControl (MkControl ts dest body)) [].

Definition encode_data (packet : DataPacket) : panicky (list byte) :=
  packet_encode (PData packet) [].

Definition set_retransmitted (p : DataPacket) : DataPacket :=
  MkData (dp_seq p) (dp_position p) (dp_in_order p) (dp_encryption p) true
    (dp_message_number p) (dp_timestamp p) (dp_dest_socket_id p) (dp_payload p).

Definition encode_retransmit (packet : DataPacket) : panicky (list byte) :=
  packet_encode (PData (set_retransmitted packet)) [].

(** Encode a control body for the peer and [emit] it. *)
Definition emit_control (body : ControlBody) (now : Instant) (c : Connection)
  : panicky Connection :=
  bytes ← encode_control (cn_peer_socket_id c) (wire_ts c now) body;
  Ret (emit bytes now c).

Definition finalize_shutdown (now : Instant) (c : Connection) : panicky Connection :=
  bytes ← encode_control (cn_peer_socket_id c) (wire_ts c now) CbShutdown;
  let c := push_output (SendDatagram bytes) c in
  let c := clear_arq_timers c in
  let c := push_output (ClearTimer TiLinger) c in
  Ret (push_event EvClosed (c <| cn_closing := false |> <| cn_state := StFailed |>)).

Definition finish_close_if_drained (now : Instant) (c : Connection) : panicky Connection :=
  if cn_closing c && sb_is_empty (cn_send_buffer c)
     && match cn_send_queue c with [] => true | _ => false end
  then finalize_shutdown now c else Ret c.

Definition on_linger_timer (now : Instant) (c : Connection) : panicky Connection :=
  if cn_closing c then finalize_shutdown now c else Ret c.
End Wire.
