(* ===== verification/Rekey.v ===== *)
(** * Rekey: rotation of the Stream Encrypting Key ([connection/rekey.rs]) *)

From S2P Require Import Prelude Buf Errors Seq Time Control KeyMaterial Crypto PacketTypes Config Event ConnState.

Definition MAX_KM_RETRIES : Z := 60.

Definition km_refresh (c : Connection) : Z :=
  if cfg_km_refresh_rate (cn_config c) =? 0 then KM_REFRESH_DEFAULT
  else cfg_km_refresh_rate (cn_config c).

Definition km_preannounce (c : Connection) : Z := Z.max (km_refresh c / 4) 1.

(** The two halves of [account_key_and_maybe_rotate]: the switch ... *)
Definition maybe_switch_key (refresh : Z) (c : Connection) : Connection :=
  if cn_next_key_ready c && (refresh <=? cn_packets_on_key c) then
    c <| cn_crypto ::= fmap (fun crypto => sc_activate crypto (sc_next_flags crypto)) |>
      <| cn_packets_on_key := 0 |> <| cn_next_key_ready := false |>
  else c.

(** ... and the announcement. *)
Definition maybe_request_key (refresh : Z) (c : Connection) : Connection :=
  let announce_at := sat_sub refresh (km_preannounce c) in
  if negb (cn_rekey_pending c) && negb (cn_next_key_ready c)
     && match cn_pending_km c with None => true | Some _ => false end
     && (announce_at <=? cn_packets_on_key c)
  then
    match cfg_encryption (cn_config c) with
    | Some enc =>
        push_event (EvKeyRefreshNeeded (key_size_bytes (es_key_size enc)))
          (c <| cn_rekey_pending := true |>)
    | None => c
    end
  else c.

Definition account_key_and_maybe_rotate (c : Connection) : Connection :=
  match cn_crypto c with
  | None => c
  | Some _ =>
      let refresh := km_refresh c in
      let c := maybe_switch_key refresh c in
      let c := c <| cn_packets_on_key ::= fun n => clamp u32_max (n + 1) |> in
      maybe_request_key refresh c
  end.

Definition on_km_rsp (cif : list byte) (c : Connection) : Connection :=
  match cn_pending_km c with
  | Some km =>
      if bool_decide (km = cif)
      then c <| cn_pending_km := None |> <| cn_next_key_ready := true |>
      else c
  | None => c
  end.

Section Wire.
Context {B : BytesApi} {P : CryptoPrims}.

Definition km_control (subtype : Z) (cif : list byte) (now : Instant) (c : Connection)
  : panicky (list byte) :=
  encode_control (cn_peer_socket_id c) (wire_ts c now) (CbRaw CtUserDefined subtype 0 cif).

Definition provide_rekey (sek : list byte) (now : Instant) (c : Connection)
  : panicky Connection :=
  if negb (cn_rekey_pending c) then Ret c else
  match cfg_encryption (cn_config c) with
  | None => Ret c
  | Some enc =>
      match cn_crypto c with
      | None => Ret c
      | Some crypto =>
          match sc_salt crypto with
          | None => Ret c
          | Some salt =>
              let next := sc_next_flags crypto in
              '(keys, km) ← sk_from_raw (es_passphrase enc) next (es_cipher enc) salt sek;
              let c := c <| cn_crypto := Some (sc_install crypto next keys) |> in
              let km_bytes := km_encode km [] in
              bytes ← km_control EXT_KMREQ km_bytes now c;
              let c := emit bytes now c in
              Ret (c <| cn_rekey_pending := false |> <| cn_pending_km := Some km_bytes |>
                     <| cn_km_retries := 0 |>)
          end
      end
  end.

Definition resend_pending_km (now : Instant) (c : Connection) : panicky Connection :=
  match cn_pending_km c with
  | None => Ret c
  | Some km =>
      if MAX_KM_RETRIES <=? cn_km_retries c then Ret (c <| cn_pending_km := None |>)
      else
        let c := c <| cn_km_retries ::= fun n => add32 n 1 |> in
        bytes ← km_control EXT_KMREQ km now c;
        Ret (emit bytes now c)
  end.

Definition on_km_req (cif : list byte) (now : Instant) (c : Connection) : panicky Connection :=
  match cfg_encryption (cn_config c) with
  | None => Ret c
  | Some enc =>
      match km_decode cif with
      | Err _ => Ret c
      | Crash => Panic
      | Ok km =>
          match cn_crypto c with
          | None => Ret c
          | Some crypto =>
              match sk_from_key_material km (es_passphrase enc) with
              | Err _ => Ret c
              | Crash => Panic
              | Ok unwrapped =>
                  let c := c <| cn_crypto := Some (sc_install_unwrapped crypto unwrapped) |> in
                  bytes ← km_control EXT_KMRSP cif now c;
                  Ret (emit bytes now c)
              end
          end
      end
  end.
End Wire.
