(* ===== verification/Arq.v ===== *)
(** * Arq: the reliability engine ([connection/arq.rs])

    Sender: [send_data], pacing, ACK and NAK handling, too-late drop,
    retransmission.  Receiver: [insert_data], TSBPD delivery, ACK and NAK
    generation, FEC.  Timers: the intervals and the handlers.  The loops run on
    fuel and panic when it runs out, so "never panics" includes termination. *)

From S2P Require Import Prelude Buf Errors Seq LossList Time Timestamp Rtt Drift Rate LiveCc PacketTypes Control Packet SendBuffer RecvBuffer Fec Crypto Config Event Fragment ConnState Rekey.

Definition ACK_INTERVAL : Duration := dur_from_millis 10.
Definition LIGHT_ACK_EVERY : Z := 64.
Definition MIN_NAK_INTERVAL : Duration := dur_from_millis 20.
Definition MIN_EXP_INTERVAL : Duration := dur_from_millis 300.
Definition SND_DROP_MIN_THRESHOLD : Duration := dur_from_secs 1.
Definition MAX_PENDING_ACKS : nat := 16.
Definition MAX_EXP_COUNT : Z := 8.
Definition MAX_PACE_BURST : nat := 256.
Definition KEEPALIVE_PERIOD : Duration := dur_from_secs 1.
Definition MAX_REORDER_TOLERANCE : Z := 32.
Definition REORDER_DECAY_AFTER : Z := 50.

(** ** Free functions *)

Definition in_range (seq start stop : SeqNumber) : bool :=
  (0 <=? offset_from seq start) && (0 <=? offset_from stop seq).

Definition micros_u32 (d : Duration) : Z := clamp u32_max (as_micros d).
Definition micros_i64 (d : Duration) : Z := clamp i64_max (as_micros d).

Definition apply_signed (instant : Instant) (micros : Z) : Instant :=
  if 0 <=? micros then instant + dur_from_micros micros
  else default instant (checked_sub instant (dur_from_micros (- micros))).

Definition signed_micros (from to : Instant) : Z :=
  if from <=? to then micros_i64 (to - from) else - micros_i64 (from - to).

Definition nak_interval (c : Connection) : Duration :=
  Z.max (rtt_rto (cn_rtt c) / 2) MIN_NAK_INTERVAL.

Definition arm_exp (c : Connection) : Connection :=
  push_output (SetTimer TiExp (Z.max (rtt_rto (cn_rtt c) * cn_exp_count c) MIN_EXP_INTERVAL)) c.

Definition available_recv_buffer (c : Connection) : Z :=
  let held := (rb_occupancy (cn_recv_buffer c) + length (cn_events c))%nat in
  sat_sub (cfg_flow_window (cn_config c)) (clamp u32_max (Z.of_nat held)).

Definition enter_connected (ng : Negotiated) (now : Instant) (c : Connection) : Connection :=
  let c := c <| cn_state := StConnected |> <| cn_peer_socket_id := ng_peer_socket_id ng |>
             <| cn_latency := ng_latency ng |>
             <| cn_recv_buffer := rb_new (ng_peer_initial_seq ng) |> in
  let c := push_output (SetTimer TiAck ACK_INTERVAL) c in
  let c := push_output (SetTimer TiNak (nak_interval c)) c in
  let c := push_output (SetTimer TiKeepalive KEEPALIVE_PERIOD) c in
  let c := push_output (SetTimer TiPeerIdle (cfg_peer_idle_timeout (cn_config c))) c in
  push_event (EvConnected ng) (c <| cn_last_sent := now |> <| cn_last_recv_any := now |>).

(** ** Receiver bookkeeping *)

Definition track_reorder (seq : SeqNumber) (retransmitted : bool) (c : Connection) : Connection :=
  if retransmitted then c else
  match cn_highest_recv_seq c with
  | None => c <| cn_highest_recv_seq := Some seq |>
  | Some highest =>
      let offset := offset_from seq highest in
      if 0 <=? offset then
        let c := c <| cn_highest_recv_seq := Some seq |>
                   <| cn_orderly_streak ::= fun n => add32 n 1 |> in
        if REORDER_DECAY_AFTER <=? cn_orderly_streak c
        then c <| cn_orderly_streak := 0 |> <| cn_reorder_tolerance ::= fun t => sat_sub t 1 |>
        else c
      else
        let displacement := Z.min (- offset) MAX_REORDER_TOLERANCE in
        c <| cn_reorder_tolerance ::= fun t => Z.max t displacement |>
          <| cn_orderly_streak := 0 |>
  end.

Definition tsbpd_expected_arrival (c : Connection) (ts : Timestamp) : option Instant :=
  '(ref_ts, ref_instant) ← cn_tsbpd_base c;
  wrap ← cn_ts_wrap c;
  let offset := wrap_offset_of wrap ts - ts_as_micros ref_ts
                + drift_correction_us (cn_drift c) in
  Some (apply_signed ref_instant offset).

Definition tsbpd_play_time (c : Connection) (ts : Timestamp) : option Instant :=
  at_ ← tsbpd_expected_arrival c ts; Some (at_ + cn_latency c).

(** One delivered packet: count the gap it skipped, reassemble, report. *)
Definition deliver_one (c : Connection) : Connection :=
  let before := rb_ack_point (cn_recv_buffer c) in
  let '(popped, rb) := rb_pop (cn_recv_buffer c) in
  let c := c <| cn_recv_buffer := rb |> in
  match popped with
  | None => c
  | Some packet =>
      let advanced := offset_from (rb_ack_point rb) before in
      let c := c <| cn_stats -> st_packets_dropped ::= bump (Z.max 0 (advanced - 1)) |> in
      let '(message, ra) := ra_push (cn_reassembler c) packet in
      let c := c <| cn_reassembler := ra |> in
      match message with Some m => push_event (EvDataReceived m) c | None => c end
  end.

Fixpoint deliver_loop (fuel : nat) (now : Instant) (c : Connection) : panicky Connection :=
  match fuel with
  | O => Panic
  | S fuel =>
      match rb_peek (cn_recv_buffer c) with
      | None => Ret (push_output (ClearTimer TiTsbpd) c)
      | Some (_, ts) =>
          match tsbpd_play_time c ts with
          | None => Ret c
          | Some play_time =>
              if now <? play_time
              then Ret (push_output (SetTimer TiTsbpd (since play_time now)) c)
              else deliver_loop fuel now (deliver_one c)
          end
      end
  end.

(** Each round empties at least one slot. *)
Definition deliver_tsbpd (now : Instant) (c : Connection) : panicky Connection :=
  deliver_loop (S (length (rb_slots (cn_recv_buffer c)))) now c.

Definition on_ackack (ack_number : Z) (now : Instant) (c : Connection) : Connection :=
  match position (fun a => a.1 =? ack_number) (cn_pending_acks c) with
  | None => c
  | Some pos =>
      match cn_pending_acks c !! pos with
      | None => c
      | Some (_, sent_at) =>
          c <| cn_rtt ::= fun r => rtt_sample r (since now sent_at) |>
            <| cn_pending_acks ::= drop (S pos) |>
      end
  end.

Definition on_peer_idle_timer (now : Instant) (c : Connection) : Connection :=
  if negb (is_connected (cn_state c)) then c else
  let idle := since now (cn_last_recv_any c) in
  if cfg_peer_idle_timeout (cn_config c) <=? idle then
    push_event (EvFailed ConnTimeout) (clear_arq_timers (c <| cn_state := StFailed |>))
  else
    push_output (SetTimer TiPeerIdle
      (dur_saturating_sub (cfg_peer_idle_timeout (cn_config c)) idle)) c.

Section Wire.
Context {B : BytesApi} {P : CryptoPrims}.

(** ** Sender *)

Definition emit_fec_parity (group_last_seq : SeqNumber) (parity : FecParity) (now : Instant)
  (c : Connection) : panicky Connection :=
  let fec_packet := MkData group_last_seq Single true EncNone false (msg_new 0)
    (from_micros (timestamp_clip parity)) (cn_peer_socket_id c)
    (parity_encode parity ROW_INDEX) in
  bytes ← encode_data fec_packet;
  Ret (emit bytes now c).

(** The wire packet [send_data] stores: the ciphertext when encrypted. *)
Definition build_packet (f : Fragment) (now : Instant) (c : Connection) : panicky DataPacket :=
  let encryption := match cn_crypto c with Some crypto => sc_active crypto | None => EncNone end in
  let packet := MkData (cn_next_send_seq c) (fg_position f) true encryption false
    (msg_new (fg_message f)) (wire_ts c now) (cn_peer_socket_id c) (fg_payload f) in
  match cn_crypto c with
  | Some crypto =>
      let aad := header_aad packet in
      '(payload, _) ← sc_encrypt crypto (seq_value (cn_next_send_seq c)) aad (dp_payload packet);
      Ret (MkData (dp_seq packet) (dp_position packet) (dp_in_order packet)
             (dp_encryption packet) (dp_retransmitted packet) (dp_message_number packet)
             (dp_timestamp packet) (dp_dest_socket_id packet) payload)
  | None => Ret packet
  end.

Definition send_data (f : Fragment) (now : Instant) (c : Connection) : panicky Connection :=
  let c := account_key_and_maybe_rotate c in
  let c := c <| cn_stats -> st_packets_sent ::= bump 1 |>
             <| cn_stats -> st_bytes_sent ::= bump (Z.of_nat (length (fg_payload f))) |> in
  let seq := cn_next_send_seq c in
  stored ← build_packet f now c;
  datagram ← encode_data stored;
  let was_empty := sb_is_empty (cn_send_buffer c) in
  let payload_size := length (dp_payload stored) in
  let '(parity, fec) :=
    match cn_fec_send c with
    | Some fec =>
        let '(parity, fec) := fe_feed fec
          (MkFecData (clamp u16_max (Z.of_nat payload_size)) (enc_to_bits (dp_encryption stored))
             (ts_as_micros (dp_timestamp stored)) (dp_payload stored)) in
        (parity, Some fec)
    | None => (None, None)
    end in
  let c := c <| cn_fec_send := fec |> in
  let c := c <| cn_send_buffer ::= fun sb => sb_push sb stored |> in
  let c := emit datagram now c in
  c ← match parity with
      | Some parity => emit_fec_parity seq parity now c
      | None => Ret c
      end;
  let c := c <| cn_next_send_seq ::= seq_next |> in
  let c := c <| cn_live_cc ::= fmap (fun cc => on_packet_sent cc (Z.of_nat payload_size)) |> in
  Ret (if was_empty then arm_exp c else c).

(** The release loop of [pace]; the result carries [released]. *)
Fixpoint pace_loop (budget : nat) (period : Duration) (now : Instant) (released : nat)
  (c : Connection) : panicky (nat * Connection) :=
  match budget with
  | O => Ret (released, c)
  | S budget =>
      if match cn_next_send c with Some at_ => now <? at_ | None => false end
      then Ret (released, c)
      else
        match cn_send_queue c with
        | [] => Ret (released, c <| cn_next_send := None |>)
        | fragment :: rest =>
            c ← send_data fragment now (c <| cn_send_queue := rest |>);
            let last_slot := default now (cn_next_send c) in
            pace_loop budget period now (S released)
              (c <| cn_next_send := Some (last_slot + period) |>)
        end
  end.

Definition pace (now : Instant) (c : Connection) : panicky Connection :=
  match cn_live_cc c with
  | None => Ret c
  | Some cc =>
      let period := cc_snd_period cc in
      '(released, c) ← pace_loop MAX_PACE_BURST period now 0 c;
      let behind := match cn_next_send c with Some at_ => at_ <? now | None => false end in
      let c := if (released =? MAX_PACE_BURST)%nat && behind
               then c <| cn_next_send := Some (now + period) |> else c in
      match cn_send_queue c with
      | [] => finish_close_if_drained now (push_output (ClearTimer TiSndPacing) c)
      | _ =>
          let at_ := default now (cn_next_send c) in
          Ret (push_output (SetTimer TiSndPacing (since at_ now)) c)
      end
  end.

(** The shedding loop: [acc] is [(first, last_dropped, last_msg)]. *)
Fixpoint shed_loop (fuel : nat) (budget : Z) (now_ts : Timestamp)
  (acc : option (SeqNumber * SeqNumber * Z)) (c : Connection)
  : panicky (option (SeqNumber * SeqNumber * Z) * Connection) :=
  match fuel with
  | O => Panic
  | S fuel =>
      match sb_front (cn_send_buffer c) with
      | None => Ret (acc, c)
      | Some front =>
          if wrapping_diff now_ts (dp_timestamp front) <=? budget then Ret (acc, c)
          else
            let first := match acc with Some (f, _, _) => f | None => dp_seq front end in
            let acc := Some (first, dp_seq front, msg_value (dp_message_number front)) in
            let c := c <| cn_send_buffer ::= fun sb => snd (sb_drop_front sb) |>
                       <| cn_stats -> st_packets_dropped_sent ::= bump 1 |> in
            shed_loop fuel budget now_ts acc c
      end
  end.

Definition drop_budget (c : Connection) : Z :=
  wrap_i64 (Z.max (micros_i64 (cn_latency c)) (micros_i64 SND_DROP_MIN_THRESHOLD)
            + 2 * micros_i64 ACK_INTERVAL).

Definition drop_too_late (now : Instant) (c : Connection) : panicky Connection :=
  let budget := drop_budget c in
  let now_ts := wire_ts c now in
  '(acc, c) ← shed_loop (S (sb_len (cn_send_buffer c))) budget now_ts None c;
  match acc with
  | None => Ret c
  | Some (first, last, last_msg) =>
      bytes ← encode_control (cn_peer_socket_id c) now_ts (CbDropReq last_msg first last);
      let c := emit bytes now c in
      Ret (if sb_is_empty (cn_send_buffer c) then push_output (ClearTimer TiExp) c else c)
  end.

(** One packet of [retransmit_range]. *)
Definition retransmit_one (seq start stop : SeqNumber) (gate : Duration) (now : Instant)
  (c : Connection) : panicky Connection :=
  let due := match sb_last_retransmitted (cn_send_buffer c) seq with
             | Some at_ => gate <=? since now at_ | None => true end in
  if in_range seq start stop && due then
    match sb_get (cn_send_buffer c) seq with
    | None => Ret c
    | Some packet =>
        let c := c <| cn_stats -> st_packets_retransmitted ::= bump 1 |>
          <| cn_stats -> st_bytes_retransmitted ::=
               bump (Z.of_nat (length (dp_payload packet))) |> in
        bytes ← encode_retransmit packet;
        let c := emit bytes now c in
        Ret (c <| cn_send_buffer ::= fun sb => sb_mark_retransmitted sb seq now |>)
    end
  else Ret c.

Fixpoint retransmit_loop (fuel : nat) (seq last start stop : SeqNumber) (gate : Duration)
  (now : Instant) (c : Connection) : panicky Connection :=
  match fuel with
  | O => Panic
  | S fuel =>
      c ← retransmit_one seq start stop gate now c;
      if bool_decide (seq = last) then Ret c
      else retransmit_loop fuel (seq_next seq) last start stop gate now c
  end.

Definition retransmit_range (start stop : SeqNumber) (now : Instant) (c : Connection)
  : panicky Connection :=
  match sb_first_seq (cn_send_buffer c), sb_last_seq (cn_send_buffer c) with
  | Some first, Some last =>
      retransmit_loop (sb_len (cn_send_buffer c)) first last start stop
        (rtt_rtt (cn_rtt c)) now c
  | _, _ => Ret c
  end.

Fixpoint retransmit_ranges (loss : list LossRange) (now : Instant) (c : Connection)
  : panicky Connection :=
  match loss with
  | [] => Ret c
  | r :: loss =>
      c ← retransmit_range (range_start r) (range_end r) now c;
      retransmit_ranges loss now c
  end.

Definition on_ack (ack : Ack) (now : Instant) (c : Connection) : panicky Connection :=
  let c := c <| cn_stats -> st_acks_received ::= bump 1 |> in
  let c := c <| cn_send_buffer ::= fun sb => snd (sb_ack sb (ack_last_ack_seq ack)) |> in
  let c := match ack_cif ack with
           | AckFull _ _ avail _ _ _ => c <| cn_peer_avail_window := avail |>
           | _ => c end in
  c ← drop_too_late now c;
  let c := c <| cn_live_cc ::= fmap cc_on_ack |> in
  let c := c <| cn_exp_count := 1 |> in
  let c := if sb_is_empty (cn_send_buffer c) then push_output (ClearTimer TiExp) c
           else arm_exp c in
  c ← finish_close_if_drained now c;
  match ack_cif ack with
  | AckLight => Ret c
  | _ => emit_control (CbAckAck (ack_ack_number ack)) now c
  end.

Definition on_nak (loss : list LossRange) (now : Instant) (c : Connection)
  : panicky Connection :=
  let c := c <| cn_stats -> st_naks_received ::= bump 1 |> in
  c ← drop_too_late now c;
  retransmit_ranges loss now c.

Definition on_dropreq (first last : SeqNumber) (now : Instant) (c : Connection)
  : panicky Connection :=
  let before := rb_ack_point (cn_recv_buffer c) in
  let c := c <| cn_recv_buffer ::= fun rb => rb_drop_range rb first last |> in
  let advanced := offset_from (rb_ack_point (cn_recv_buffer c)) before in
  let c := c <| cn_stats -> st_packets_dropped ::= bump (Z.max 0 advanced) |> in
  let c := c <| cn_reported_loss := rb_missing (cn_recv_buffer c) |> in
  deliver_tsbpd now c.

Definition on_exp_timer (now : Instant) (c : Connection) : panicky Connection :=
  if negb (is_connected (cn_state c)) || sb_is_empty (cn_send_buffer c) then Ret c else
  c ← drop_too_late now c;
  if sb_is_empty (cn_send_buffer c) then Ret c else
  c ← match sb_first_seq (cn_send_buffer c), sb_last_seq (cn_send_buffer c) with
      | Some first, Some last => retransmit_range first last now c
      | _, _ => Ret c
      end;
  let c := c <| cn_exp_count ::= fun n => Z.min (n + 1) MAX_EXP_COUNT |> in
  Ret (arm_exp c).

(** ** Receiver *)

Definition send_light_ack (now : Instant) (c : Connection) : panicky Connection :=
  let c := c <| cn_packets_since_ack := 0 |> in
  let ack := MkAck 0 (rb_received_ack_point (cn_recv_buffer c)) AckLight in
  let c := c <| cn_stats -> st_acks_sent ::= bump 1 |> in
  emit_control (CbAck ack) now c.

Definition send_nak (missing : list (SeqNumber * SeqNumber)) (now : Instant)
  (c : Connection) : panicky Connection :=
  let loss := (fun r => range_new r.1 r.2) <$> missing in
  bytes ← encode_control (cn_peer_socket_id c) (wire_ts c now) (CbNak loss);
  let c := c <| cn_stats -> st_naks_sent ::= bump 1 |> in
  let c := emit bytes now c in
  Ret (c <| cn_last_nak := Some now |>).

(** Decryption of an incoming payload; [None] is "undecryptable: drop". *)
Definition decrypt_data (data : DataPacket) (c : Connection) : panicky (option DataPacket) :=
  match dp_encryption data with
  | EncNone => Ret (Some data)
  | _ =>
      match cn_crypto c with
      | None => Ret None
      | Some crypto =>
          plain ← sc_decrypt crypto (seq_value (dp_seq data)) (dp_encryption data)
                    (header_aad data) (dp_payload data);
          Ret (match plain with
               | Some p => Some (MkData (dp_seq data) (dp_position data) (dp_in_order data)
                   (dp_encryption data) (dp_retransmitted data) (dp_message_number data)
                   (dp_timestamp data) (dp_dest_socket_id data) p)
               | None => None
               end)
      end
  end.

(** The TSBPD anchor and the wrap tracker on an accepted packet. *)
Definition anchor_tsbpd (ts : Timestamp) (now : Instant) (c : Connection) : Connection :=
  match cn_tsbpd_base c with
  | None => c <| cn_tsbpd_base := Some (ts, now) |> <| cn_ts_wrap := Some (wrap_new ts) |>
  | Some _ => c <| cn_ts_wrap ::= fmap (fun w => wrap_observe w ts) |>
  end.

Definition sample_drift (ts : Timestamp) (retransmitted : bool) (now : Instant)
  (c : Connection) : Connection :=
  if retransmitted then c else
  match tsbpd_expected_arrival c ts with
  | None => c
  | Some expected =>
      let observed := signed_micros expected now in
      c <| cn_drift ::= fun d => drift_sample d observed (micros_i64 (rtt_rtt (cn_rtt c))) |>
  end.

(** The loss report at the end of [insert_data]. *)
Definition report_loss (now : Instant) (c : Connection) : panicky Connection :=
  if rb_has_gaps (cn_recv_buffer c) then
    let missing := rb_missing_aged (cn_recv_buffer c) (cn_reorder_tolerance c) in
    if bool_decide (missing <> []) && bool_decide (missing <> cn_reported_loss c) then
      c ← send_nak missing now c;
      Ret (c <| cn_reported_loss := missing |>)
    else Ret c
  else if bool_decide (cn_reported_loss c <> []) then Ret (c <| cn_reported_loss := [] |>)
  else Ret c.

(** Everything [insert_data] does once the packet is stored. *)
Definition after_insert (data : DataPacket) (now : Instant) (c : Connection)
  : panicky Connection :=
  let payload_len := Z.of_nat (length (dp_payload data)) in
  let c := c <| cn_stats -> st_packets_received ::= bump 1 |>
             <| cn_stats -> st_bytes_received ::= bump payload_len |> in
  let c := track_reorder (dp_seq data) (dp_retransmitted data) c in
  let arrival_us := clamp u64_max (as_micros (since now (cn_start c))) in
  let c := c <| cn_rate ::= fun r => rate_record r arrival_us (clamp u32_max payload_len) |> in
  let c := anchor_tsbpd (dp_timestamp data) now c in
  let c := sample_drift (dp_timestamp data) (dp_retransmitted data) now c in
  c ← deliver_tsbpd now c;
  let c := c <| cn_packets_since_ack ::= fun n => add32 n 1 |> in
  c ← if LIGHT_ACK_EVERY <=? cn_packets_since_ack c then send_light_ack now c else Ret c;
  report_loss now c.

Definition insert_data (data : DataPacket) (now : Instant) (c : Connection)
  : panicky Connection :=
  if available_recv_buffer c =? 0
  then Ret (c <| cn_stats -> st_packets_dropped_full ::= bump 1 |>) else
  decrypted ← decrypt_data data c;
  match decrypted with
  | None => Ret (c <| cn_stats -> st_packets_undecryptable ::= bump 1 |>)
  | Some data =>
      let '(inserted, rb) := rb_insert (cn_recv_buffer c) data in
      let c := c <| cn_recv_buffer := rb |> in
      if negb inserted then Ret (c <| cn_stats -> st_packets_duplicate ::= bump 1 |>)
      else after_insert data now c
  end.

Definition inject_recovered (rp : RecoveredPacket) (now : Instant) (c : Connection)
  : panicky Connection :=
  match enc_from_bits (rp_flags rp) with
  | Ok encryption =>
      let c := c <| cn_stats -> st_packets_recovered ::= bump 1 |> in
      insert_data (MkData (rp_seq rp) Single true encryption true (msg_new 1)
        (from_micros (rp_timestamp rp)) (cn_peer_socket_id c) (rp_payload rp)) now c
  | _ => Ret c
  end.

Fixpoint inject_all (recovered : list RecoveredPacket) (now : Instant) (c : Connection)
  : panicky Connection :=
  match recovered with
  | [] => Ret c
  | rp :: rest => c ← inject_recovered rp now c; inject_all rest now c
  end.

Definition on_data (data : DataPacket) (now : Instant) (c : Connection) : panicky Connection :=
  match cn_fec_recv c with
  | Some fec =>
      if msg_value (dp_message_number data) =? 0 then
        let '(fec, recovered) :=
          observe_parity fec (dp_seq data) (dp_payload data) (ts_as_micros (dp_timestamp data)) in
        inject_all recovered now (c <| cn_fec_recv := Some fec |>)
      else
        let '(fec, recovered) :=
          observe_data fec (dp_seq data) (clamp u16_max (Z.of_nat (length (dp_payload data))))
            (enc_to_bits (dp_encryption data)) (ts_as_micros (dp_timestamp data))
            (dp_payload data) in
        c ← insert_data data now (c <| cn_fec_recv := Some fec |>);
        inject_all recovered now c
  | None => insert_data data now c
  end.

(** ** Timers *)

Definition on_keepalive_timer (now : Instant) (c : Connection) : panicky Connection :=
  if negb (is_connected (cn_state c)) then Ret c else
  c ← resend_pending_km now c;
  c ← if KEEPALIVE_PERIOD <=? since now (cn_last_sent c)
      then emit_control CbKeepalive now c else Ret c;
  Ret (push_output (SetTimer TiKeepalive KEEPALIVE_PERIOD) c).

Definition on_ack_timer (now : Instant) (c : Connection) : panicky Connection :=
  if negb (is_connected (cn_state c)) then Ret c else
  let c := push_output (SetTimer TiAck ACK_INTERVAL) c in
  let ack_point := rb_received_ack_point (cn_recv_buffer c) in
  let avail := available_recv_buffer c in
  if bool_decide (cn_last_acked_point c = Some ack_point)
     && bool_decide (cn_last_acked_avail c = Some avail)
  then Ret c else
  let ack_number := cn_next_ack_number c in
  let c := c <| cn_next_ack_number := wrap32 (ack_number + 1) |>
             <| cn_pending_acks ::= fun l => l ++ [(ack_number, now)] |> in
  let c := if (MAX_PENDING_ACKS <? length (cn_pending_acks c))%nat
           then c <| cn_pending_acks ::= drop 1 |> else c in
  let c := c <| cn_last_acked_point := Some ack_point |>
             <| cn_last_acked_avail := Some avail |> <| cn_packets_since_ack := 0 |> in
  let '(packets_recv_rate, receiving_rate) := delivery_rate (cn_rate c) in
  let ack := MkAck ack_number ack_point
    (AckFull (micros_u32 (rtt_rtt (cn_rtt c))) (micros_u32 (rtt_var (cn_rtt c))) avail
       packets_recv_rate (peak_rate (cn_rate c)) receiving_rate) in
  let c := c <| cn_stats -> st_acks_sent ::= bump 1 |> in
  emit_control (CbAck ack) now c.

Definition on_nak_timer (now : Instant) (c : Connection) : panicky Connection :=
  if negb (is_connected (cn_state c)) then Ret c else
  let c := push_output (SetTimer TiNak (nak_interval c)) c in
  if match cn_last_nak c with
     | Some at_ => since now at_ <? rtt_rto (cn_rtt c) | None => false end
  then Ret c else
  let missing := rb_missing_aged (cn_recv_buffer c) (cn_reorder_tolerance c) in
  if bool_decide (missing <> []) then send_nak missing now c else Ret c.
End Wire.
