(* ===== verification/Setup.v ===== *)
(** * Setup: the caller's handshake and the acceptor's crypto
    ([connection/setup.rs]) *)

From S2P Require Import Prelude Buf Errors Reject Seq Time Timestamp PacketTypes Handshake Control KeyMaterial Crypto Config Event ConnState Arq.

Definition millis_u16 (d : Duration) : Z := clamp u16_max (as_millis d).

Definition srt_handshake_ext (latency_ms : Z) : SrtHandshake :=
  MkSrtHs SRT_LIBRARY_VERSION
    (MkFlags (Z.lor (Z.lor (Z.lor (Z.lor TSBPD_SND TSBPD_RCV) TLPKTDROP) PERIODIC_NAK) REXMIT))
    latency_ms latency_ms.

(** [find_map] over the extensions. *)
Fixpoint find_map {A B} (f : A -> option B) (l : list A) : option B :=
  match l with
  | [] => None
  | x :: l => match f x with Some y => Some y | None => find_map f l end
  end.

Definition negotiate (local_latency : Duration) (peer_hs : Handshake) : Negotiated :=
  let peer_latency_ms := default 0 (find_map (fun ext =>
    match ext with HsReq s | HsRsp s => Some (sh_recv_tsbpd_delay s) | _ => None end)
    (hs_extensions peer_hs)) in
  MkNegotiated (hs_srt_socket_id peer_hs) (hs_initial_seq peer_hs)
    (Z.max local_latency (dur_from_millis peer_latency_ms)) (hs_encryption peer_hs).

Definition find_raw (t : Z) (hs : Handshake) : option (list byte) :=
  find_map (fun ext => match ext with
    | ExtRaw ext_type content => if ext_type =? t then Some content else None
    | _ => None end) (hs_extensions hs).

(** The stream id a conclusion carries. *)
Definition find_stream_id (hs : Handshake) : option (list byte) :=
  find_map (fun ext => match ext with StreamId id => Some id | _ => None end) (hs_extensions hs).

(** [res::map_err(ConnectionError::Crypto)?] with the panics of the callees. *)
Definition accept_crypto `{B : BytesApi} `{P : CryptoPrims}
  (encryption : option EncryptionSettings) (caller_hs : Handshake)
  : res ConnectionError (option UnwrappedKm * option (list byte)) :=
  let kmreq := find_raw EXT_KMREQ caller_hs in
  match encryption with
  | None =>
      match kmreq with
      | Some _ => Err (CoCrypto UnexpectedKeyMaterial)
      | None => Ok (None, None)
      end
  | Some enc =>
      match kmreq with
      | None => Err (CoCrypto MissingKeyMaterial)
      | Some km_bytes =>
          km ← map_err CoCrypto (km_decode km_bytes);
          keys ← map_err CoCrypto (sk_from_key_material km (es_passphrase enc));
          Ok (Some keys, Some km_bytes)
      end
  end.

Section Wire.
Context {B : BytesApi}.

Definition emit_handshake (dest : SocketId) (hs : Handshake) (now : Instant) (c : Connection)
  : panicky Connection :=
  bytes ← encode_control dest (wire_ts c now) (CbHandshake hs);
  let c := c <| cn_last_handshake := Some bytes |> in
  let c := push_output (SendDatagram bytes) c in
  Ret (push_output (SetTimer TiHandshake SYN_INTERVAL) c).

Definition induction_hs (c : Connection) : Handshake :=
  MkHandshake HS_VERSION_UDT EfNone INDUCTION_EXT_FIELD (cn_initial_seq c)
    (cfg_mtu (cn_config c)) (cfg_flow_window (cn_config c)) hst_INDUCTION
    (cn_local_socket_id c) 0 (replicate 16 zero_byte) [].

Definition send_induction (now : Instant) (c : Connection) : panicky Connection :=
  emit_handshake (socket_id_new 0) (induction_hs c) now c.

Definition conclusion_hs (c : Connection) : Handshake :=
  let extensions := [HsReq (srt_handshake_ext (millis_u16 (cfg_latency (cn_config c))))] in
  let extension_field := EXT_FLAG_HSREQ in
  let '(extensions, extension_field) :=
    match cfg_stream_id (cn_config c) with
    | Some stream_id =>
        (extensions ++ [StreamId stream_id], Z.lor extension_field EXT_FLAG_CONFIG)
    | None => (extensions, extension_field)
    end in
  let '(extensions, extension_field, encryption) :=
    match cn_key_material c, cfg_encryption (cn_config c) with
    | Some km, Some enc =>
        (extensions ++ [ExtRaw EXT_KMREQ km], Z.lor extension_field EXT_FLAG_KMREQ,
         to_field (es_key_size enc))
    | _, _ => (extensions, extension_field, EfNone)
    end in
  MkHandshake HS_VERSION_SRT encryption extension_field (cn_initial_seq c)
    (cfg_mtu (cn_config c)) (cfg_flow_window (cn_config c)) hst_CONCLUSION
    (cn_local_socket_id c) (cn_syn_cookie c) (replicate 16 zero_byte) extensions.

Definition send_conclusion (now : Instant) (c : Connection) : panicky Connection :=
  emit_handshake (socket_id_new 0) (conclusion_hs c) now c.

Definition on_induction_response (hs : Handshake) (now : Instant) (c : Connection)
  : panicky Connection :=
  if negb (hs_version hs =? HS_VERSION_SRT) || negb (hs_extension_field hs =? SRT_MAGIC)
     || negb (bool_decide (hs_handshake_type hs = hst_INDUCTION))
  then Ret c else
  let c := c <| cn_peer_socket_id := hs_srt_socket_id hs |>
             <| cn_syn_cookie := hs_syn_cookie hs |> <| cn_state := StConclusion |> in
  send_conclusion now c.
End Wire.

Definition on_conclusion_response (hs : Handshake) (now : Instant) (c : Connection) : Connection :=
  if negb (bool_decide (hs_handshake_type hs = hst_CONCLUSION))
     || negb (hs_version hs =? HS_VERSION_SRT)
  then c else
  let negotiated := negotiate (cfg_latency (cn_config c)) hs in
  enter_connected negotiated now (push_output (ClearTimer TiHandshake) c).
