(* ===== verification/Conn.v ===== *)
(** * Conn: the connection's entry points ([connection.rs])

    [connect]/[accept] build a machine, [feed_recv_buf], [handle_timer],
    [conn_send], [conn_close] and [Rekey.provide_rekey] drive it, the polls
    drain it. *)

From S2P Require Import Prelude Buf Errors Reject Seq Time Timestamp Rtt Rate LossList PacketTypes Handshake Control Packet SendBuffer RecvBuffer KeyMaterial Crypto Config Event Fragment ConnState Rekey Arq Setup.

(** ** Reads *)

Definition max_payload (c : Connection) : nat :=
  let tag := match cn_crypto c with Some crypto => if sc_is_aead crypto then 16 else 0 | None => 0 end in
  Nat.max (Z.to_nat (sat_sub (cfg_mtu (cn_config c)) (44 + tag))) 1.

Definition send_window_available (c : Connection) : bool :=
  let cap := Z.min (cfg_flow_window (cn_config c)) (cn_peer_avail_window c) in
  Z.of_nat (length (cn_send_queue c) + sb_len (cn_send_buffer c)) <? cap.

Definition conn_stats (c : Connection) : Stats :=
  let '(pps, bps) := delivery_rate (cn_rate c) in
  (cn_stats c) <| st_rtt_us := micros_u32 (rtt_rtt (cn_rtt c)) |>
    <| st_rtt_var_us := micros_u32 (rtt_var (cn_rtt c)) |>
    <| st_flight_size := clamp u32_max (Z.of_nat (sb_len (cn_send_buffer c))) |>
    <| st_recv_buffer_packets := clamp u32_max (Z.of_nat (rb_occupancy (cn_recv_buffer c))) |>
    <| st_recv_rate_pps := pps |> <| st_recv_rate_bps := bps |>
    <| st_link_capacity_pps := peak_rate (cn_rate c) |>
    <| st_send_buffer_packets :=
         clamp u32_max (Z.of_nat (sb_len (cn_send_buffer c) + length (cn_send_queue c))) |>
    <| st_latency_ms := clamp u32_max (as_millis (cn_latency c)) |>.

Definition poll_event (c : Connection) : option Event * Connection :=
  match cn_events c with
  | [] => (None, c)
  | e :: rest => (Some e, c <| cn_events := rest |>)
  end.

Definition poll_output (c : Connection) : option Output * Connection :=
  match cn_outputs c with
  | [] => (None, c)
  | o :: rest => (Some o, c <| cn_outputs := rest |>)
  end.

(** Advancing the message number skips 0, the parity marker. *)
Definition next_message_number (n : Z) : Z :=
  let n := wrap32 (n + 1) in
  if msg_value (msg_new n) =? 0 then 1 else n.

(** ** The graceful-close flush: [while let Some(packet) = pop_in_order()] *)
Fixpoint flush_loop (fuel : nat) (c : Connection) : panicky Connection :=
  match fuel with
  | O => Panic
  | S fuel =>
      let '(popped, rb) := rb_pop_in_order (cn_recv_buffer c) in
      let c := c <| cn_recv_buffer := rb |> in
      match popped with
      | None => Ret c
      | Some packet =>
          let '(message, ra) := ra_push (cn_reassembler c) packet in
          let c := c <| cn_reassembler := ra |> in
          flush_loop fuel
            (match message with Some m => push_event (EvDataReceived m) c | None => c end)
      end
  end.

Definition on_shutdown (c : Connection) : panicky Connection :=
  c ← flush_loop (S (length (rb_slots (cn_recv_buffer c)))) c;
  Ret (push_event EvClosed (clear_arq_timers (c <| cn_state := StFailed |>))).

(** The acceptor re-answers a duplicate conclusion. *)
Definition on_dup_handshake (hs : Handshake) (c : Connection) : Connection :=
  if bool_decide (cn_side c = Acceptor)
     && bool_decide (hs_handshake_type hs = hst_CONCLUSION)
  then match cn_last_handshake c with
       | Some bytes => push_output (SendDatagram bytes) c
       | None => c
       end
  else c.

Definition on_handshake_timer (now : Instant) (c : Connection) : Connection :=
  if negb (is_handshaking (cn_state c)) then c else
  if cfg_connect_timeout (cn_config c) <=? since now (cn_start c) then
    push_event (EvFailed HandshakeTimeout)
      (push_output (ClearTimer TiHandshake) (c <| cn_state := StFailed |>))
  else
    match cn_last_handshake c with
    | Some bytes =>
        push_output (SetTimer TiHandshake SYN_INTERVAL) (push_output (SendDatagram bytes) c)
    | None => c
    end.

(** A rejected caller fails at once. *)
Definition on_rejected (reason : RejectReason) (c : Connection) : Connection :=
  push_event (EvFailed (Rejected reason))
    (push_output (ClearTimer TiHandshake) (c <| cn_state := StFailed |>)).

Section Wire.
Context {B : BytesApi} {P : CryptoPrims}.

Definition connect (config : Config) (local_socket_id : SocketId) (initial_seq : SeqNumber)
  (now : Instant) (rng : nat -> nat -> list byte) : panicky Connection :=
  let conn := new_base config local_socket_id initial_seq now Caller StInduction in
  conn ← match cfg_encryption (cn_config conn) with
    | Some enc =>
        '(keys, km) ← sk_generate (es_passphrase enc) (key_size_bytes (es_key_size enc))
                        (es_cipher enc) rng;
        Ret (conn <| cn_crypto := Some (sc_new_even keys) |>
                  <| cn_key_material := Some (km_encode km []) |>)
    | None => Ret conn
    end;
  send_induction now conn.

Definition validate_accept (config : Config) (caller_hs : Handshake)
  : res ConnectionError unit :=
  (fun _ => tt) <$> accept_crypto (cfg_encryption config) caller_hs.

Definition accept_response (config : Config) (local_socket_id : SocketId)
  (caller_hs : Handshake) (key_material : option (list byte)) : Handshake :=
  let negotiated := negotiate (cfg_latency config) caller_hs in
  let extensions := [HsRsp (srt_handshake_ext (millis_u16 (ng_latency negotiated)))] in
  let '(extensions, extension_field) :=
    match key_material with
    | Some km => (extensions ++ [ExtRaw EXT_KMRSP km], Z.lor EXT_FLAG_HSREQ EXT_FLAG_KMREQ)
    | None => (extensions, EXT_FLAG_HSREQ)
    end in
  MkHandshake HS_VERSION_SRT (hs_encryption caller_hs) extension_field
    (hs_initial_seq caller_hs) (cfg_mtu config) (cfg_flow_window config) hst_CONCLUSION
    local_socket_id 0 (replicate 16 zero_byte) extensions.

Definition accept (config : Config) (local_socket_id : SocketId)
  (_local_initial_seq : SeqNumber) (caller_hs : Handshake) (now : Instant)
  : res ConnectionError Connection :=
  let negotiated := negotiate (cfg_latency config) caller_hs in
  '(crypto, key_material) ← accept_crypto (cfg_encryption config) caller_hs;
  let response := accept_response config local_socket_id caller_hs key_material in
  let conn := new_base config local_socket_id (hs_initial_seq caller_hs) now Acceptor
                StConclusion in
  let conn := conn <| cn_crypto := sc_from_initial <$> crypto |>
                   <| cn_key_material := key_material |> in
  bytes ← lift (encode_control (hs_srt_socket_id caller_hs) (wire_ts conn now)
                  (CbHandshake response));
  let conn := conn <| cn_last_handshake := Some bytes |> in
  let conn := push_output (SendDatagram bytes) conn in
  Ok (enter_connected negotiated now conn).

Definition on_control (body : ControlBody) (now : Instant) (c : Connection)
  : panicky Connection :=
  match body with
  | CbAck ack => on_ack ack now c
  | CbAckAck ack_number => Ret (on_ackack ack_number now c)
  | CbNak loss => on_nak loss now c
  | CbShutdown => on_shutdown c
  | CbDropReq _ first last => on_dropreq first last now c
  | CbRaw CtUserDefined subtype _ cif =>
      if subtype =? EXT_KMREQ then on_km_req cif now c
      else if subtype =? EXT_KMRSP then Ret (on_km_rsp cif c)
      else Ret c
  | CbHandshake hs => Ret (on_dup_handshake hs c)
  | _ => Ret c
  end.

Definition on_connected_packet (packet : Packet) (now : Instant) (c : Connection)
  : panicky Connection :=
  match packet with
  | PData data => on_data data now c
  | PControl ctrl => on_control (cp_body ctrl) now c
  end.

(** A packet while the handshake is in progress. *)
Definition on_handshake_packet (packet : Packet) (now : Instant) (c : Connection)
  : panicky Connection :=
  match packet with
  | PControl (MkControl _ _ (CbHandshake hs)) =>
      match hst_reject_reason (hs_handshake_type hs) with
      | Some reason => Ret (on_rejected reason c)
      | None =>
          match cn_state c with
          | StInduction => on_induction_response hs now c
          | _ => Ret (on_conclusion_response hs now c)
          end
      end
  | _ => Ret c
  end.

Definition feed_recv_buf (datagram : list byte) (now : Instant) (c : Connection)
  : panicky Connection :=
  match packet_decode datagram with
  | Err _ => Ret c
  | Crash => Panic
  | Ok packet =>
      let c := if is_connected (cn_state c) then c <| cn_last_recv_any := now |> else c in
      match cn_state c with
      | StInduction | StConclusion => on_handshake_packet packet now c
      | StConnected => on_connected_packet packet now c
      | StFailed => Ret c
      end
  end.

Definition handle_timer (id : TimerId) (now : Instant) (c : Connection) : panicky Connection :=
  match id with
  | TiHandshake => Ret (on_handshake_timer now c)
  | TiAck => on_ack_timer now c
  | TiNak => on_nak_timer now c
  | TiExp => on_exp_timer now c
  | TiTsbpd => deliver_tsbpd now c
  | TiSndPacing => pace now c
  | TiLinger => on_linger_timer now c
  | TiKeepalive => on_keepalive_timer now c
  | TiPeerIdle => Ret (on_peer_idle_timer now c)
  end.

Fixpoint send_all (fragments : list Fragment) (now : Instant) (c : Connection)
  : panicky Connection :=
  match fragments with
  | [] => Ret c
  | f :: fs => c ← send_data f now c; send_all fs now c
  end.

Definition conn_send (payload : list byte) (now : Instant) (c : Connection)
  : res ConnectionError Connection :=
  if cn_closing c || negb (is_connected (cn_state c)) then Err InvalidState else
  let message := cn_next_message c in
  let c := c <| cn_next_message := next_message_number message |> in
  let fragments := fragment_message (max_payload c) payload message in
  match cn_live_cc c with
  | None => lift (send_all fragments now c)
  | Some _ => lift (pace now (c <| cn_send_queue ::= fun q => q ++ fragments |>))
  end.

Definition conn_close (now : Instant) (c : Connection) : panicky Connection :=
  if cn_closing c || bool_decide (cn_state c = StFailed) then Ret c else
  if negb (is_connected (cn_state c)) then
    Ret (push_event EvClosed (c <| cn_state := StFailed |>))
  else if sb_is_empty (cn_send_buffer c)
          && match cn_send_queue c with [] => true | _ => false end
  then finalize_shutdown now c
  else Ret (push_output (SetTimer TiLinger (cfg_linger (cn_config c)))
              (c <| cn_closing := true |>)).
End Wire.
