(* ===== verification/ConnInv.v ===== *)
(** * ConnInv: the connection invariant and the preservation of it

    [conn_ok] says what the fields the panicking callees depend on look like;
    [advance c c'] that an operation kept it, left the identity fields alone,
    only moved the state forward ([state_rank]) and only appended to the event
    and output queues.  Each handler satisfies [wp (handler c) (advance c)]: it
    returns (no panic, every loop ends) and advances. *)

From S2P Require Import Prelude Buf Errors Reject Seq LossList Time Timestamp Rtt Rate LiveCc PacketTypes Handshake Control Packet SendBuffer RecvBuffer Fec KeyMaterial Crypto Config Event Fragment ConnState Rekey Arq Setup Conn.

(** ** The invariant *)

(** The slot a rotation would switch to. *)
Definition sc_next_keys (sc : SessionCrypto) : option SessionKeys :=
  match sc_next_flags sc with KfOdd => sc_odd sc | _ => sc_even sc end.

Definition send_window_ok (sb : SendBuffer) (next : SeqNumber) : Prop :=
  exists s, seq_ok s /\ contiguous s (sb_packets sb) /\ next = seq_add s (Z.of_nat (sb_len sb)).

Definition message_ok (n : Z) : Prop := u32_ok n /\ msg_value (msg_new n) <> 0.

(** Full ACKs still waiting for their ACKACK: consecutive numbers, ending just
    below the next one. *)
Definition acks_ok (pending : list (Z * Instant)) (next : Z) : Prop :=
  u32_ok next /\ (length pending <= MAX_PENDING_ACKS)%nat /\
  forall i a, pending !! i = Some a -> a.1 = wrap32 (next - Z.of_nat (length pending) + Z.of_nat i).

Definition bookkeeping (c : Connection) :=
  ((cn_peer_socket_id c, cn_last_handshake c), cn_pending_acks c, cn_next_ack_number c, cn_reorder_tolerance c,
   cn_exp_count c).

(** A stored handshake is sent again as it is. *)
Definition peer_ok (p : SocketId * option (list byte)) : Prop :=
  socket_id_ok p.1 /\ forall bs, p.2 = Some bs -> (16 <= length bs)%nat.

Definition book_ok (b : (SocketId * option (list byte)) * list (Z * Instant) * Z * Z * Z) : Prop :=
  acks_ok b.1.1.1.2 b.1.1.2 /\ 0 <= b.1.2 <= MAX_REORDER_TOLERANCE /\
  1 <= b.2 <= MAX_EXP_COUNT /\ peer_ok b.1.1.1.1.

Record conn_ok (c : Connection) : Prop := {
  ok_crypto : forall sc, cn_crypto c = Some sc -> sc_ok sc;
  ok_next_key : forall sc, cn_crypto c = Some sc ->
    cn_next_key_ready c = true \/ is_Some (cn_pending_km c) -> is_Some (sc_next_keys sc);
  ok_send : send_window_ok (cn_send_buffer c) (cn_next_send_seq c);
  ok_recv : rb_ok (cn_recv_buffer c);
  ok_message : message_ok (cn_next_message c);
  ok_cc : forall cc, cn_live_cc c = Some cc -> 0 < cc_max_bw cc;
  ok_stream : forall s, cfg_stream_id (cn_config c) = Some s -> words_fit (padded_len (length s));
  ok_km : forall km, cn_key_material c = Some km -> words_fit (length km);
  ok_book : book_ok (bookkeeping c);
}.

(** The fields the invariant reads, and the ones nothing may change. *)
Definition core (c : Connection) :=
  (cn_crypto c, cn_next_key_ready c, cn_pending_km c, cn_send_buffer c, cn_next_send_seq c,
   cn_recv_buffer c, cn_next_message c, cn_live_cc c, cn_key_material c, bookkeeping c).

Definition identity (c : Connection) :=
  (cn_config c, cn_local_socket_id c, cn_initial_seq c, cn_start c, cn_side c).

Definition state_rank (s : State) : nat :=
  match s with StInduction => 0 | StConclusion => 1 | StConnected => 2 | StFailed => 3 end.

(** What may be queued: a request for a key of AES size, a datagram that holds
    at least a packet header. *)
Definition event_ok (e : Event) : Prop :=
  match e with EvKeyRefreshNeeded n => valid_key_length n = true | _ => True end.
Definition output_ok (o : Output) : Prop :=
  match o with SendDatagram d => (16 <= length d)%nat | _ => True end.

Record advance (c c' : Connection) : Prop := {
  adv_ok : conn_ok c';
  adv_identity : identity c' = identity c;
  adv_state : (state_rank (cn_state c) <= state_rank (cn_state c'))%nat;
  adv_new_events : grows event_ok (cn_events c) (cn_events c');
  adv_new_outputs : grows output_ok (cn_outputs c) (cn_outputs c');
}.

Lemma adv_events c c' : advance c c' -> prefix (cn_events c) (cn_events c').
Proof. intros H. eapply grows_prefix, H. Qed.
Lemma adv_outputs c c' : advance c c' -> prefix (cn_outputs c) (cn_outputs c').
Proof. intros H. eapply grows_prefix, H. Qed.

Lemma conn_ok_core c c' :
  core c' = core c -> cn_config c' = cn_config c -> conn_ok c -> conn_ok c'.
Proof.
  unfold core. intros ([= E1 E2 E3 E4 E5 E6 E7 E8 E9] & E10)%pair_equal_spec E0 H.
  destruct H. constructor; rewrite ?E0, ?E1, ?E2, ?E3, ?E4, ?E5, ?E6, ?E7, ?E8, ?E9, ?E10; assumption.
Qed.

Lemma last_handshake_length c bs :
  conn_ok c -> cn_last_handshake c = Some bs -> (16 <= length bs)%nat.
Proof. intros Hok. destruct (ok_book _ Hok) as (_ & _ & _ & _ & H). apply H. Qed.

Lemma advance_refl c : conn_ok c -> advance c c.
Proof. intros H. by constructor. Qed.

Lemma advance_trans c1 c2 c3 : advance c1 c2 -> advance c2 c3 -> advance c1 c3.
Proof.
  intros [H1 H2 H3 H4 H5] [H1' H2' H3' H4' H5']. constructor; [done|congruence|lia|..].
  - by etransitivity.
  - by etransitivity.
Qed.

(** An update outside the invariant's fields. *)
Lemma advance_frame c c' :
  conn_ok c -> core c' = core c -> identity c' = identity c ->
  (state_rank (cn_state c) <= state_rank (cn_state c'))%nat ->
  grows event_ok (cn_events c) (cn_events c') -> grows output_ok (cn_outputs c) (cn_outputs c') ->
  advance c c'.
Proof.
  intros Hok Hc Hi Hs He Ho. constructor; [|done..].
  eapply conn_ok_core; [done| |done]. unfold identity in Hi. congruence.
Qed.

(** Changing the invariant's fields: the new [conn_ok] is what is left to show. *)
Lemma advance_core c c' :
  identity c' = identity c -> cn_state c' = cn_state c -> cn_events c' = cn_events c ->
  cn_outputs c' = cn_outputs c -> conn_ok c' -> advance c c'.
Proof. intros Hi Hs He Ho Hok. constructor; [done|done|rewrite Hs; done|by rewrite He|by rewrite Ho]. Qed.

(** An update of the bookkeeping alone. *)
Lemma advance_book c c' :
  conn_ok c -> (core c').1 = (core c).1 -> identity c' = identity c -> cn_state c' = cn_state c ->
  cn_events c' = cn_events c -> cn_outputs c' = cn_outputs c -> book_ok (bookkeeping c') ->
  advance c c'.
Proof.
  intros [K1 K2 K3 K4 K5 K6 K7 K8 K9] [= E1 E2 E3 E4 E5 E6 E7 E8 E9] Hi Hs He Ho Hb.
  apply advance_core; [done..|]. unfold identity in Hi. injection Hi as Hi1 Hi2 Hi3 Hi4 Hi5.
  constructor; rewrite ?E1, ?E2, ?E3, ?E4, ?E5, ?E6, ?E7, ?E8, ?E9, ?Hi1; assumption.
Qed.

(** ** The bookkeeping *)

Lemma acks_push pending next now :
  acks_ok pending next ->
  let l := pending ++ [(next, now)] in
  acks_ok (if (MAX_PENDING_ACKS <? length l)%nat then drop 1 l else l) (wrap32 (next + 1)).
Proof.
  intros (Hu & Hl & Hp) l. unfold MAX_PENDING_ACKS in *.
  assert (length l = S (length pending)) as Hlen by (unfold l; rewrite length_app; simpl; lia).
  assert (forall i a, l !! i = Some a ->
    a.1 = wrap32 (next + 1 - Z.of_nat (length l) + Z.of_nat i)) as Hl'.
  { intros i a [Hi|[Hi Ha]]%lookup_app_Some.
    - rewrite (Hp i a Hi), Hlen. f_equal. lia.
    - destruct (i - length pending)%nat eqn:Ei; [|done]. injection Ha as <-. simpl.
      rewrite Hlen. unfold wrap32. rewrite Z.mod_small; unfold u32_ok in Hu; lia. }
  assert (forall z, wrap32 (wrap32 (next + 1) - z) = wrap32 (next + 1 - z)) as Hw.
  { intros z. unfold wrap32. apply Zminus_mod_idemp_l. }
  split; [apply Z.mod_pos_bound; lia|]. unfold MAX_PENDING_ACKS.
  destruct (Nat.ltb_spec 16 (length l)) as [Hlt|Hge]; (split; [rewrite ?length_drop; lia|]);
    intros i a Ha.
  - rewrite lookup_drop in Ha. rewrite (Hl' _ _ Ha), length_drop.
    replace (wrap32 (next + 1) - Z.of_nat (length l - 1) + Z.of_nat i)
      with (wrap32 (next + 1) - (Z.of_nat (length l - 1) - Z.of_nat i)) by lia.
    rewrite Hw. f_equal. lia.
  - rewrite (Hl' _ _ Ha).
    replace (wrap32 (next + 1) - Z.of_nat (length l) + Z.of_nat i)
      with (wrap32 (next + 1) - (Z.of_nat (length l) - Z.of_nat i)) by lia.
    rewrite Hw. f_equal. lia.
Qed.

Lemma acks_drop pending next n : acks_ok pending next -> acks_ok (drop n pending) next.
Proof.
  intros (Hu & Hl & Hp). split; [done|]. rewrite length_drop. split; [lia|].
  intros i a Ha. rewrite lookup_drop in Ha. rewrite (Hp _ _ Ha). f_equal.
  apply lookup_lt_Some in Ha. lia.
Qed.

(** The numbers are distinct: the entry of a number is the only one. *)
Lemma acks_position pending next i a :
  acks_ok pending next -> pending !! i = Some a ->
  position (fun b => b.1 =? a.1) pending = Some i.
Proof.
  intros (Hu & Hl & Hp) Hi. apply position_spec. split.
  - exists a. split; [done|]. apply Z.eqb_refl.
  - intros j b Hj Hb. apply Z.eqb_neq. rewrite (Hp _ _ Hi), (Hp _ _ Hb).
    apply lookup_lt_Some in Hi. unfold MAX_PENDING_ACKS, wrap32 in *.
    set (x := next - Z.of_nat (length pending)). zmod.
Qed.

Lemma advance_exp_count c f :
  conn_ok c -> (forall n, 1 <= n <= MAX_EXP_COUNT -> 1 <= f n <= MAX_EXP_COUNT) ->
  advance c (c <| cn_exp_count ::= f |>).
Proof.
  intros Hok Hf. apply advance_book; [done|reflexivity..|].
  destruct (ok_book _ Hok) as (H1 & H2 & H3 & H4). split; [exact H1|]. split; [exact H2|].
  split; [by apply Hf|exact H4].
Qed.

Lemma advance_acks c pending next :
  conn_ok c -> acks_ok pending next ->
  advance c (c <| cn_pending_acks := pending |> <| cn_next_ack_number := next |>).
Proof.
  intros Hok Ha. apply advance_book; [done|reflexivity..|].
  destruct (ok_book _ Hok) as (_ & H2 & H3). split; [exact Ha|]. split; [exact H2|exact H3].
Qed.

Lemma wp_advance_bind c0 c m k :
  advance c0 c -> wp m (advance c) -> (forall c', advance c c' -> wp (k c') (advance c')) ->
  wp (m ≫= k) (advance c0).
Proof.
  intros H0 Hm Hk. eapply wp_bind; [exact Hm|]. intros c' Hc'. eapply wp_mono; [by apply Hk|].
  intros c'' H''. eapply advance_trans; [exact H0|]. by eapply advance_trans.
Qed.

(** Continue from a state reached by an update. *)
Lemma wp_advance_from c c' m : advance c c' -> wp m (advance c') -> wp m (advance c).
Proof. intros H Hm. eapply wp_mono; [exact Hm|]. intros c'' H'. by eapply advance_trans. Qed.

(** [adv] closes [advance c c'] goals for updates outside the core. *)
Ltac adv :=
  apply advance_frame;
  [ assumption || (eapply adv_ok; eassumption)
  | reflexivity | reflexivity
  | simpl; lia || reflexivity
  | first [reflexivity | apply grows_snoc; done]
  | first [reflexivity | apply grows_snoc; done] ].

Create HintDb adv.

(** Timer requests are fine whatever they hold. *)
Class TimerOutput (o : Output) : Prop := timer_output : output_ok o.
#[export] Instance set_timer_output id after : TimerOutput (SetTimer id after) := I.
#[export] Instance clear_timer_output id : TimerOutput (ClearTimer id) := I.
Class PlainEvent (e : Event) : Prop := plain_event : event_ok e.
#[export] Instance connected_plain n : PlainEvent (EvConnected n) := I.
#[export] Instance data_plain m : PlainEvent (EvDataReceived m) := I.
#[export] Instance failed_plain x : PlainEvent (EvFailed x) := I.
#[export] Instance closed_plain : PlainEvent EvClosed := I.

Section Frames.
Context (c : Connection) (Hok : conn_ok c).

Lemma push_output_advance o `{Ho : !TimerOutput o} : advance c (push_output o c).
Proof using Hok. adv. Qed.

Lemma push_datagram_advance d : (16 <= length d)%nat -> advance c (push_output (SendDatagram d) c).
Proof using Hok. intros Hd. adv. Qed.

Lemma push_event_advance e `{He : !PlainEvent e} : advance c (push_event e c).
Proof using Hok. adv. Qed.

Lemma emit_advance d now : (16 <= length d)%nat -> advance c (emit d now c).
Proof using Hok. intros Hd. adv. Qed.

Lemma arm_exp_advance : advance c (arm_exp c).
Proof using Hok. adv. Qed.
End Frames.

Lemma clear_arq_timers_advance c : conn_ok c -> advance c (clear_arq_timers c).
Proof.
  unfold clear_arq_timers. generalize ARQ_TIMERS as ids. intros ids. revert c.
  induction ids as [|id ids IH]; intros c Hok; cbn [foldl]; [by apply advance_refl|].
  pose proof (push_output_advance c Hok (ClearTimer id)) as H.
  eapply advance_trans; [exact H|]. apply IH. apply H.
Qed.

#[export] Hint Resolve push_output_advance push_datagram_advance push_event_advance emit_advance arm_exp_advance
  clear_arq_timers_advance advance_refl : adv.
#[export] Hint Extern 1 (conn_ok _) => eapply adv_ok; eassumption : adv.

(** A queue push from a state that [H] says is fine. *)
Ltac queued H :=
  first [apply push_output_advance | apply push_event_advance | apply push_datagram_advance];
  first [apply _ | apply H | done].

(** Chain [advance] facts: [advs H] continues from [H : advance c c']. *)
Ltac advs H := eapply advance_trans; [eapply H|].

(** ** Encoding never panics outside the handshake *)

Section Wire.
Context {B : BytesApi} {HB : BytesSpec B}.

Definition body_encodes (body : ControlBody) : Prop :=
  match body with CbHandshake hs => exists bs, forall out, hs_encode hs out = Ret (out ++ bs)
  | _ => True end.

Lemma loss_encode_appends loss out : exists k, loss_encode loss out = out ++ k.
Proof.
  unfold loss_encode. revert out. induction loss as [|r loss IH]; intros out; cbn [foldl].
  { exists []. by rewrite app_nil_r. }
  assert (exists k, loss_encode_one out r = out ++ k) as [k ->].
  { unfold loss_encode_one. case_match; buf_spec; rewrite <- ?app_assoc; by eexists. }
  destruct (IH (out ++ k)) as [k' ->]. rewrite <- app_assoc. by eexists.
Qed.

Lemma encode_cif_appends body out :
  body_encodes body -> exists k, encode_cif body out = Ret (out ++ k).
Proof.
  intros H. destruct body as [| | |n|n f l|n|ack|loss|hs|t st ts cif]; cbn [encode_cif];
    try (exists []; by rewrite app_nil_r).
  - buf_spec. rewrite <- app_assoc. by eexists.
  - destruct (ack_cif ack); buf_spec; rewrite <- ?app_assoc; by eexists.
  - destruct (loss_encode_appends loss out) as [k ->]. by eexists.
  - destruct H as [bs H]. rewrite H. by eexists.
  - buf_spec. by eexists.
Qed.

Lemma packet_decode_length d p : packet_decode d = Ok p -> (16 <= length d)%nat.
Proof. unfold packet_decode. destruct (Nat.ltb_spec (length d) HEADER_LEN); [done|]. by intros _. Qed.

Lemma encode_control_total dest ts body :
  body_encodes body ->
  exists bs, encode_control dest ts body = Ret bs /\ (16 <= length bs)%nat.
Proof.
  intros H. unfold encode_control. cbn [packet_encode cp_body].
  destruct (to_wire body) as [[t st] tsp].
  match goal with |- context [encode_cif body ?o] =>
    set (out := o); assert (length out = 16%nat) as Hout
      by (unfold out; buf_spec; by rewrite !length_app, !length_be_bytes); clearbody out end.
  destruct (encode_cif_appends body out H) as [k ->].
  eexists. split; [done|]. rewrite length_app, Hout. lia.
Qed.

Lemma emit_control_wp body now c :
  conn_ok c -> body_encodes body -> wp (emit_control body now c) (advance c).
Proof.
  intros Hok Hb. unfold emit_control.
  destruct (encode_control_total (cn_peer_socket_id c) (wire_ts c now) body Hb) as (bs & -> & Hl).
  simpl. by apply emit_advance.
Qed.

(** Encode and [emit] from any state, as the handlers do. *)
Lemma encode_control_wp dest ts body k c :
  body_encodes body -> (forall bs, (16 <= length bs)%nat -> wp (k bs) (advance c)) ->
  wp (encode_control dest ts body ≫= k) (advance c).
Proof.
  intros Hb Hk. destruct (encode_control_total dest ts body Hb) as (bs & -> & Hl). by apply Hk.
Qed.

Lemma finalize_shutdown_wp now c : conn_ok c -> wp (finalize_shutdown now c) (advance c).
Proof.
  intros Hok. unfold finalize_shutdown. apply encode_control_wp; [done|]. intros bs Hl. simpl wp.
  pose proof (push_datagram_advance c Hok bs Hl) as H1.
  pose proof (clear_arq_timers_advance _ (adv_ok _ _ H1)) as H2.
  pose proof (push_output_advance _ (adv_ok _ _ H2) (ClearTimer TiLinger)) as H3.
  set (c3 := push_output (ClearTimer TiLinger) _) in *.
  eapply advance_trans; [exact H1|]. eapply advance_trans; [exact H2|].
  eapply advance_trans; [exact H3|]. pose proof (adv_ok _ _ H3) as Hok3.
  clearbody c3. apply advance_frame; [done|reflexivity|reflexivity| |by apply grows_snoc|reflexivity].
  simpl. destruct (cn_state c3); simpl; lia.
Qed.

Lemma finish_close_wp now c : conn_ok c -> wp (finish_close_if_drained now c) (advance c).
Proof.
  intros Hok. unfold finish_close_if_drained. case_match; [by apply finalize_shutdown_wp|].
  by apply advance_refl.
Qed.

Lemma on_linger_timer_wp now c : conn_ok c -> wp (on_linger_timer now c) (advance c).
Proof.
  intros Hok. unfold on_linger_timer. case_match; [by apply finalize_shutdown_wp|].
  by apply advance_refl.
Qed.
End Wire.

(** ** Key rotation *)

Lemma sc_ok_active sc :
  sc_ok sc -> is_Some (match sc_active sc with EncOdd => sc_odd sc | _ => sc_even sc end).
Proof. by intros (_ & _ & H & _). Qed.

Lemma sc_activate_next sc :
  sc_ok sc -> is_Some (sc_next_keys sc) ->
  sc_ok (sc_activate sc (sc_next_flags sc)) /\
  is_Some (sc_next_keys (sc_activate sc (sc_next_flags sc))).
Proof.
  intros (H1 & H2 & H3 & H4) Hn.
  unfold sc_next_keys, sc_next_flags, sc_ok, sc_active_keys, sc_activate in *.
  by destruct (sc_active sc); simpl in *; split_and!.
Qed.

Lemma sc_install_next sc k :
  sc_ok sc -> sk_ok k ->
  sc_ok (sc_install sc (sc_next_flags sc) k) /\
  is_Some (sc_next_keys (sc_install sc (sc_next_flags sc) k)).
Proof.
  intros Hok Hk. split; [by apply sc_install_ok|].
  unfold sc_next_keys, sc_next_flags. destruct (sc_active sc) eqn:E; simpl; rewrite E; by eexists.
Qed.

Lemma sc_install_unwrapped_next sc u :
  is_Some (sc_next_keys sc) -> is_Some (sc_next_keys (sc_install_unwrapped sc u)).
Proof.
  unfold sc_next_keys, sc_next_flags, sc_install_unwrapped.
  destruct (ukm_even u), (ukm_odd u); simpl; destruct (sc_active sc); simpl; try done; by eexists.
Qed.

Lemma sc_salt_ok sc salt : sc_ok sc -> sc_salt sc = Some salt -> length salt = SALT_LEN.
Proof.
  intros (H1 & H2 & _) Hs. unfold sc_salt in Hs.
  destruct (sc_even sc) as [k|]; [|destruct (sc_odd sc) as [k|]]; simplify_eq/=.
  - by apply (H1 k).
  - by apply (H2 k).
Qed.

Lemma maybe_switch_key_advance refresh c : conn_ok c -> advance c (maybe_switch_key refresh c).
Proof.
  intros Hok. unfold maybe_switch_key. case_match eqn:E; [|by apply advance_refl].
  apply andb_prop in E as [Er _].
  apply advance_core; [reflexivity..|].
  destruct Hok as [H1 H2 H3 H4 H5 H6 H7 H8 H9]. constructor; try assumption.
  - intros sc Hsc. change (fmap (fun crypto => sc_activate crypto (sc_next_flags crypto)) (cn_crypto c) = Some sc) in Hsc.
    apply fmap_Some in Hsc as (sc0 & Hsc0 & ->). apply sc_activate_next; auto.
  - intros sc Hsc _. change (fmap (fun crypto => sc_activate crypto (sc_next_flags crypto)) (cn_crypto c) = Some sc) in Hsc.
    apply fmap_Some in Hsc as (sc0 & Hsc0 & ->). apply sc_activate_next; auto.
Qed.

Lemma maybe_request_key_advance refresh c : conn_ok c -> advance c (maybe_request_key refresh c).
Proof.
  intros Hok. unfold maybe_request_key. case_match; [|by apply advance_refl].
  destruct (cfg_encryption (cn_config c)) as [enc|]; [|by apply advance_refl].
  apply advance_frame; try done. apply grows_snoc. by destruct (es_key_size enc).
Qed.

Lemma account_key_advance c : conn_ok c -> advance c (account_key_and_maybe_rotate c).
Proof.
  intros Hok. unfold account_key_and_maybe_rotate. destruct (cn_crypto c); [|by apply advance_refl].
  pose proof (maybe_switch_key_advance (km_refresh c) c Hok) as H1. advs H1.
  set (c1 := maybe_switch_key _ c) in *.
  assert (advance c1 (c1 <| cn_packets_on_key ::= fun n => clamp u32_max (n + 1) |>)) as H2 by adv.
  advs H2. apply maybe_request_key_advance, H2.
Qed.

Lemma on_km_rsp_advance cif c : conn_ok c -> advance c (on_km_rsp cif c).
Proof.
  intros Hok. unfold on_km_rsp. destruct (cn_pending_km c) as [km|] eqn:E; [|by apply advance_refl].
  case_match; [|by apply advance_refl].
  apply advance_core; [reflexivity..|].
  destruct Hok as [H1 H2 H3 H4 H5 H6 H7 H8 H9]. constructor; try assumption.
  intros sc Hsc _. apply H2; [done|]. right. by rewrite E.
Qed.

Section Rekey.
Context {B : BytesApi} {HB : BytesSpec B} {P : CryptoPrims} {HP : CryptoSpec P}.

Lemma km_control_total subtype cif now c :
  exists bs, km_control subtype cif now c = Ret bs /\ (16 <= length bs)%nat.
Proof. unfold km_control. by apply encode_control_total. Qed.

Lemma provide_rekey_wp sek now c :
  conn_ok c -> valid_key_length (length sek) = true -> wp (provide_rekey sek now c) (advance c).
Proof.
  intros Hok Hk. unfold provide_rekey. case_match; [by apply advance_refl|].
  destruct (cfg_encryption (cn_config c)) as [enc|]; [|by apply advance_refl].
  destruct (cn_crypto c) as [sc|] eqn:Esc; [|by apply advance_refl].
  destruct (sc_salt sc) as [salt|] eqn:Es; [|by apply advance_refl].
  pose proof (ok_crypto _ Hok _ Esc) as Hsc.
  pose proof (sc_salt_ok _ _ Hsc Es) as Hsalt.
  destruct (build_km_some (es_passphrase enc) (sc_next_flags sc) (es_cipher enc) salt sek Hk Hsalt)
    as (km & Hb & _).
  { unfold sc_next_flags. by destruct (sc_active sc). }
  unfold sk_from_raw. rewrite Hb. cbn [mbind panicky_bind].
  destruct (sc_install_next sc (MkKeys salt sek (es_cipher enc)) Hsc) as [Hi1 Hi2]; [by split|].
  assert (advance c (c <| cn_crypto := Some (sc_install sc (sc_next_flags sc)
            (MkKeys salt sek (es_cipher enc))) |>)) as H1.
  { apply advance_core; [reflexivity..|]. destruct Hok as [K1 K2 K3 K4 K5 K6 K7 K8 K9].
    constructor; try assumption; by intros sc' [= <-]. }
  eapply wp_advance_from; [exact H1|]. set (c1 := c <| cn_crypto := _ |>) in *.
  destruct (km_control_total EXT_KMREQ (km_encode km []) now c1) as (bs & -> & Hl).
  cbn [mbind panicky_bind wp].
  pose proof (emit_advance c1 (adv_ok _ _ H1) bs now Hl) as H2. advs H2.
  assert (forall sc', cn_crypto (emit bs now c1) = Some sc' -> is_Some (sc_next_keys sc')) as Hn.
  { intros sc' [= <-]. done. }
  pose proof (adv_ok _ _ H2) as Hok2. set (c2 := emit bs now c1) in *. clearbody c2.
  apply advance_core; [reflexivity..|]. destruct Hok2 as [K1 K2 K3 K4 K5 K6 K7 K8 K9].
  constructor; try assumption. intros sc' Hsc' _. by apply Hn.
Qed.

Lemma resend_pending_km_wp now c : conn_ok c -> wp (resend_pending_km now c) (advance c).
Proof.
  intros Hok. unfold resend_pending_km. destruct (cn_pending_km c) as [km|] eqn:E;
    [|by apply advance_refl].
  case_match.
  - apply advance_core; [reflexivity..|]. destruct Hok as [K1 K2 K3 K4 K5 K6 K7 K8 K9].
    constructor; try assumption. intros sc Hsc [Hr|[? Hp]]; [|done]. apply K2; [done|by left].
  - assert (advance c (c <| cn_km_retries ::= fun n => add32 n 1 |>)) as H1 by adv.
    eapply wp_advance_from; [exact H1|].
    match goal with |- wp (km_control _ _ _ ?c1 ≫= _) _ =>
      destruct (km_control_total EXT_KMREQ km now c1) as (bs & -> & Hl) end.
    cbn [mbind panicky_bind wp]. apply emit_advance; [apply H1|done].
Qed.

Lemma on_km_req_wp cif now c : conn_ok c -> wp (on_km_req cif now c) (advance c).
Proof.
  intros Hok. unfold on_km_req.
  destruct (cfg_encryption (cn_config c)) as [enc|]; [|by apply advance_refl].
  destruct (km_decode_total cif) as [(km & -> & Hkm)|[x ->]]; [|by apply advance_refl].
  destruct (cn_crypto c) as [sc|] eqn:Esc; [|by apply advance_refl].
  destruct (sk_from_key_material_total km (es_passphrase enc) Hkm) as [(u & -> & Hu)|[x ->]];
    [|by apply advance_refl].
  assert (advance c (c <| cn_crypto := Some (sc_install_unwrapped sc u) |>)) as H1.
  { apply advance_core; [reflexivity..|]. destruct Hok as [K1 K2 K3 K4 K5 K6 K7 K8 K9].
    constructor; try assumption; intros sc' [= <-].
    - apply sc_install_unwrapped_ok; auto.
    - intros Hp. apply sc_install_unwrapped_next. by apply K2. }
  eapply wp_advance_from; [exact H1|]. set (c1 := c <| cn_crypto := _ |>) in *.
  destruct (km_control_total EXT_KMRSP cif now c1) as (bs & -> & Hl). cbn [mbind panicky_bind wp].
  apply emit_advance; [apply H1|done].
Qed.
End Rekey.

(** ** Frames: changes outside the invariant, valid also mid-operation *)

Record frame (c c' : Connection) : Prop := {
  fr_core : core c' = core c;
  fr_identity : identity c' = identity c;
  fr_state : cn_state c' = cn_state c;
  fr_events : grows event_ok (cn_events c) (cn_events c');
  fr_outputs : grows output_ok (cn_outputs c) (cn_outputs c');
}.

Lemma frame_refl c : frame c c.
Proof. by constructor. Qed.

Lemma frame_trans c1 c2 c3 : frame c1 c2 -> frame c2 c3 -> frame c1 c3.
Proof.
  intros [A1 A2 A3 A4 A5] [B1 B2 B3 B4 B5]. constructor; try congruence.
  - by etransitivity.
  - by etransitivity.
Qed.

Lemma frame_advance c c' : conn_ok c -> frame c c' -> advance c c'.
Proof. intros Hok [A1 A2 A3 A4 A5]. apply advance_frame; try done. by rewrite A3. Qed.

Lemma frame_emit d now c : (16 <= length d)%nat -> frame c (emit d now c).
Proof. intros Hd. constructor; [reflexivity..|]. by apply grows_snoc. Qed.

(** ** Sending *)

Section Send.
Context {B : BytesApi} {HB : BytesSpec B} {P : CryptoPrims} {HP : CryptoSpec P}.

Lemma encode_data_total p : exists bs, encode_data p = Ret bs /\ (16 <= length bs)%nat.
Proof.
  unfold encode_data. cbn [packet_encode]. eexists. split; [done|]. buf_spec.
  rewrite !length_app, !length_be_bytes. simpl. lia.
Qed.

Lemma emit_fec_parity_emits s p now c :
  exists d, emit_fec_parity s p now c = Ret (emit d now c) /\ (16 <= length d)%nat.
Proof.
  unfold emit_fec_parity.
  match goal with |- context [encode_data ?p] => destruct (encode_data_total p) as (d & -> & Hd) end.
  by exists d.
Qed.

Lemma emit_fec_parity_frame s p now c : wp (emit_fec_parity s p now c) (frame c).
Proof. destruct (emit_fec_parity_emits s p now c) as (d & -> & Hd). by apply frame_emit. Qed.

Lemma build_packet_total f now c :
  conn_ok c -> exists p, build_packet f now c = Ret p /\ dp_seq p = cn_next_send_seq c.
Proof.
  intros Hok. unfold build_packet. destruct (cn_crypto c) as [sc|] eqn:E; [|by eexists].
  match goal with |- context [sc_encrypt sc ?s ?a ?p] =>
    destruct (sc_encrypt_total sc s a p (ok_crypto _ Hok _ E)) as (ct & k & _ & _ & -> & _) end.
  by eexists.
Qed.

Lemma send_window_push sb next p :
  send_window_ok sb next -> dp_seq p = next -> send_window_ok (sb_push sb p) (seq_next next).
Proof.
  intros (s & Hs & Hc & ->) Hp. exists s. split_and!; [done|by apply contiguous_snoc|].
  unfold sb_len, sb_push. simpl. rewrite length_app, seq_add_next. simpl. f_equal. lia.
Qed.

Lemma send_data_wp f now c : conn_ok c -> wp (send_data f now c) (advance c).
Proof.
  intros Hok0. unfold send_data.
  pose proof (account_key_advance c Hok0) as H0.
  set (c0 := account_key_and_maybe_rotate c) in *. clearbody c0.
  eapply wp_advance_from; [exact H0|].
  assert (conn_ok c0) as Hok by (eapply adv_ok; eassumption).
  match goal with |- wp (build_packet f now ?c ≫= _) _ => set (c1 := c) end.
  assert (advance c0 c1) as H1 by adv. eapply wp_advance_from; [exact H1|].
  destruct (build_packet_total f now c1 (adv_ok _ _ H1)) as (p & -> & Hp).
  cbn [mbind panicky_bind]. destruct (encode_data_total p) as (d & -> & Hd). cbn [mbind panicky_bind].
  pose proof (adv_ok _ _ H1) as Hok1. clearbody c1. clear c0 H1 Hok c Hok0 H0.
  match goal with |- context [let '(_, _) := ?m in _] => destruct m as [parity fec] end.
  match goal with |- wp (_ ≫= _) _ => idtac end.
  set (c2 := c1 <| cn_fec_send := fec |> <| cn_send_buffer ::= fun sb => sb_push sb p |>).
  assert (frame c2 (emit d now c2)) as H3 by by apply frame_emit.
  apply (wp_bind _ _ (frame c2)).
  { destruct parity as [parity|]; [|exact H3].
    eapply wp_mono; [apply emit_fec_parity_frame|]. intros c' H'. by eapply frame_trans. }
  intros c4 H4. cbn [wp].
  set (c5 := c4 <| cn_next_send_seq ::= seq_next |>
                <| cn_live_cc ::= fmap (fun cc => on_packet_sent cc (Z.of_nat (length (dp_payload p)))) |>).
  assert (advance c1 c5) as H5.
  { pose proof (fr_core _ _ H4) as Hcore. unfold core in Hcore.
    apply pair_equal_spec in Hcore as [Hcore E10]. injection Hcore as E1 E2 E3 E4 E5 E6 E7 E8 E9.
    pose proof (fr_identity _ _ H4) as Hid. unfold identity in Hid.
    destruct Hok1 as [K1 K2 K3 K4 K5 K6 K7 K8 K9]. constructor.
    - constructor.
      + change (cn_crypto c5) with (cn_crypto c4). by rewrite E1.
      + change (cn_crypto c5) with (cn_crypto c4).
        change (cn_next_key_ready c5) with (cn_next_key_ready c4).
        change (cn_pending_km c5) with (cn_pending_km c4). by rewrite E1, E2, E3.
      + change (cn_send_buffer c5) with (cn_send_buffer c4).
        change (cn_next_send_seq c5) with (seq_next (cn_next_send_seq c4)). rewrite E4, E5.
        apply (send_window_push _ (cn_next_send_seq c1)); [exact K3|exact Hp].
      + change (cn_recv_buffer c5) with (cn_recv_buffer c4). by rewrite E6.
      + change (cn_next_message c5) with (cn_next_message c4). by rewrite E7.
      + intros cc Hcc.
        change (fmap (fun cc => on_packet_sent cc (Z.of_nat (length (dp_payload p)))) (cn_live_cc c4)
                = Some cc) in Hcc.
        rewrite E8 in Hcc. apply fmap_Some in Hcc as (cc0 & Hcc0 & ->). by apply (K6 cc0).
      + change (cn_config c5) with (cn_config c4). injection Hid as -> _. exact K7.
      + change (cn_key_material c5) with (cn_key_material c4). by rewrite E9.
      + change (bookkeeping c5) with (bookkeeping c4). by rewrite E10.
    - exact Hid.
    - change (cn_state c5) with (cn_state c4). by rewrite (fr_state _ _ H4).
    - exact (fr_events _ _ H4).
    - exact (fr_outputs _ _ H4). }
  case_match; [|exact H5]. advs H5. apply arm_exp_advance, H5.
Qed.

Lemma pace_loop_wp budget period now released c :
  conn_ok c -> wp (pace_loop budget period now released c) (fun r => advance c r.2).
Proof.
  revert released c. induction budget as [|budget IH]; intros released c Hok; cbn [pace_loop].
  { by apply advance_refl. }
  case_match; [by apply advance_refl|].
  destruct (cn_send_queue c) as [|f rest]; [by simpl; adv|].
  assert (advance c (c <| cn_send_queue := rest |>)) as H1 by adv.
  eapply wp_bind; [by apply send_data_wp, H1|]. intros c2 H2.
  match goal with |- wp (pace_loop _ _ _ _ ?c) _ => assert (advance c2 c) as H3 by adv end.
  eapply wp_mono; [apply IH, H3|]. intros [r c'] H4. simpl in *.
  advs H1. advs H2. advs H3. exact H4.
Qed.

Lemma pace_wp now c : conn_ok c -> wp (pace now c) (advance c).
Proof.
  intros Hok. unfold pace. destruct (cn_live_cc c) as [cc|]; [|by apply advance_refl].
  eapply wp_bind; [by apply pace_loop_wp|]. intros [released c1] H1. simpl in H1.
  eapply wp_advance_from; [exact H1|]. pose proof (adv_ok _ _ H1) as Hok1.
  clear H1 Hok c. cbv zeta.
  match goal with |- wp (match cn_send_queue ?c with _ => _ end) _ =>
    set (c2 := c); assert (advance c1 c2) as H2 end.
  { unfold c2. case_match; [adv|by apply advance_refl]. }
  clearbody c2. eapply wp_advance_from; [exact H2|]. pose proof (adv_ok _ _ H2) as Hok2.
  destruct (cn_send_queue c2).
  - pose proof (push_output_advance c2 Hok2 (ClearTimer TiSndPacing)) as H3.
    eapply wp_advance_from; [exact H3|]. apply finish_close_wp, H3.
  - simpl. by apply push_output_advance.
Qed.

(** ** Shedding and retransmission *)

Lemma send_window_drop sb next n :
  send_window_ok sb next -> (n <= sb_len sb)%nat ->
  send_window_ok (MkSendBuffer (drop n (sb_packets sb))) next.
Proof.
  intros (s & Hs & Hc & ->) Hn. exists (seq_add s (Z.of_nat n)).
  split_and!; [apply seq_add_ok|by apply contiguous_drop|].
  unfold sb_len in *. simpl. rewrite length_drop, seq_add_add. f_equal. lia.
Qed.

Lemma advance_send_buffer c c' :
  conn_ok c -> identity c' = identity c -> cn_state c' = cn_state c ->
  grows event_ok (cn_events c) (cn_events c') -> grows output_ok (cn_outputs c) (cn_outputs c') ->
  send_window_ok (cn_send_buffer c') (cn_next_send_seq c') ->
  (cn_crypto c', cn_next_key_ready c', cn_pending_km c', cn_recv_buffer c', cn_next_message c',
   cn_live_cc c', cn_key_material c', bookkeeping c') =
  (cn_crypto c, cn_next_key_ready c, cn_pending_km c, cn_recv_buffer c, cn_next_message c,
   cn_live_cc c, cn_key_material c, bookkeeping c) -> advance c c'.
Proof.
  intros [K1 K2 K3 K4 K5 K6 K7 K8 K9] Hi Hs He Ho Hw ([= E1 E2 E3 E4 E5 E6 E7] & E8)%pair_equal_spec.
  unfold identity in Hi. injection Hi as Hi1 Hi2 Hi3 Hi4 Hi5.
  constructor; [|unfold identity; congruence|by rewrite Hs|done|done].
  constructor; rewrite ?E1, ?E2, ?E3, ?E4, ?E5, ?E6, ?E7, ?E8, ?E9, ?Hi1; assumption.
Qed.

Lemma sb_drop_front_drop sb : snd (sb_drop_front sb) = MkSendBuffer (drop 1 (sb_packets sb)).
Proof. by destruct sb as [[|x l]]. Qed.

Lemma shed_loop_wp fuel budget now_ts acc c :
  conn_ok c -> (sb_len (cn_send_buffer c) < fuel)%nat ->
  wp (shed_loop fuel budget now_ts acc c) (fun r => advance c r.2).
Proof.
  revert acc c. induction fuel as [|fuel IH]; intros acc c Hok Hf; [lia|].
  cbn [shed_loop]. destruct (sb_front (cn_send_buffer c)) as [front|] eqn:E;
    [|by apply advance_refl].
  case_match; [by apply advance_refl|].
  match goal with |- wp (shed_loop _ _ _ _ ?c) _ => set (c1 := c) end.
  assert (0 < sb_len (cn_send_buffer c))%nat as Hlen.
  { unfold sb_front in E. unfold sb_len. destruct (sb_packets (cn_send_buffer c)); [done|simpl; lia]. }
  assert (cn_send_buffer c1 = MkSendBuffer (drop 1 (sb_packets (cn_send_buffer c)))) as Esb.
  { change (cn_send_buffer c1) with (snd (sb_drop_front (cn_send_buffer c))).
    apply sb_drop_front_drop. }
  assert (advance c c1) as H1.
  { apply advance_send_buffer; try done. rewrite Esb. apply send_window_drop; [apply Hok|lia]. }
  eapply wp_mono; [apply IH; [apply H1|]|].
  - rewrite Esb. unfold sb_len in *. simpl. rewrite length_drop. lia.
  - intros r Hr. by advs H1.
Qed.

Lemma drop_too_late_wp now c : conn_ok c -> wp (drop_too_late now c) (advance c).
Proof.
  intros Hok. unfold drop_too_late. eapply wp_bind; [apply shed_loop_wp; [done|lia]|].
  intros [acc c1] H1. simpl in H1. eapply wp_advance_from; [exact H1|].
  pose proof (adv_ok _ _ H1) as Hok1. destruct acc as [[[first last] msg]|]; [|by apply advance_refl].
  apply encode_control_wp; [done|]. intros bs Hl. cbn [wp].
  pose proof (emit_advance c1 Hok1 bs now Hl) as H2. case_match; [|exact H2].
  advs H2. queued H2.
Qed.

Lemma retransmit_one_wp seq start stop gate now c :
  conn_ok c ->
  wp (retransmit_one seq start stop gate now c)
    (fun c' => advance c c' /\ sb_len (cn_send_buffer c') = sb_len (cn_send_buffer c)).
Proof.
  intros Hok. unfold retransmit_one. case_match; [|by split; [apply advance_refl|]].
  destruct (sb_get (cn_send_buffer c) seq) as [packet|]; [|by split; [apply advance_refl|]].
  unfold encode_retransmit. destruct (encode_data_total (set_retransmitted packet)) as (d & Ed & Hd).
  unfold encode_data in Ed. rewrite Ed. cbn [mbind panicky_bind wp].
  match goal with |- advance c ?c' /\ _ => set (c1 := c') end.
  assert (cn_send_buffer c1 = sb_mark_retransmitted (cn_send_buffer c) seq now) as Esb by reflexivity.
  assert (sb_len (cn_send_buffer c1) = sb_len (cn_send_buffer c)) as Hlen.
  { rewrite Esb. unfold sb_mark_retransmitted. destruct (sb_index_of _ _); [|done].
    unfold sb_len. simpl. by rewrite length_alter. }
  split; [|done]. apply advance_send_buffer; try done; try by apply grows_snoc.
  change (cn_next_send_seq c1) with (cn_next_send_seq c). rewrite Esb.
  destruct (ok_send _ Hok) as (s & Hs & Hc & Hn). exists s. split_and!; [done| |].
  - unfold sb_mark_retransmitted. destruct (sb_index_of _ _); [|done]. by apply contiguous_alter.
  - rewrite Hn. do 2 f_equal. by rewrite <- Esb, Hlen.
Qed.

(** The walk visits [first, first + 1, ...] and stops at the last packet:
    the fuel is the number of packets held. *)
Lemma retransmit_loop_wp k start stop gate now seq c :
  conn_ok c -> seq_ok seq ->
  wp (retransmit_loop (S k) seq (seq_add seq (Z.of_nat k)) start stop gate now c) (advance c).
Proof.
  revert seq c. induction k as [|k IH]; intros seq c Hok Hs; cbn [retransmit_loop];
    (eapply wp_bind; [by apply retransmit_one_wp|]); intros c1 [H1 _];
    case_bool_decide as Hd; try exact H1.
  - destruct Hd. symmetry. by apply seq_add_0.
  - eapply wp_advance_from; [exact H1|].
    replace (seq_add seq (Z.of_nat (S k))) with (seq_add (seq_next seq) (Z.of_nat k))
      by (rewrite seq_next_add; f_equal; lia).
    apply IH; [apply H1|apply seq_next_ok].
Qed.

Lemma send_window_ends sb next :
  send_window_ok sb next ->
  (sb_packets sb = []) \/
  (exists s k, seq_ok s /\ sb_len sb = S k /\ sb_first_seq sb = Some s /\
     sb_last_seq sb = Some (seq_add s (Z.of_nat k))).
Proof.
  intros (s & Hs & Hc & _). destruct (decide (sb_packets sb = [])) as [E|E]; [by left|right].
  destruct (sb_packets sb) as [|x l] eqn:El; [done|].
  exists s, (length l). unfold sb_len, sb_first_seq, sb_last_seq. rewrite El.
  split_and!; [done|done|by rewrite <- (contiguous_head _ _ _ Hs Hc)|].
  rewrite last_lookup. simpl Init.Nat.pred.
  destruct (lookup_lt_is_Some_2 (x :: l) (length l)) as [y Hy]; [simpl; lia|].
  change (length (x :: l)) with (S (length l)). simpl Init.Nat.pred. rewrite Hy. simpl. by rewrite (Hc _ _ Hy).
Qed.

Lemma retransmit_range_wp start stop now c :
  conn_ok c -> wp (retransmit_range start stop now c) (advance c).
Proof.
  intros Hok. unfold retransmit_range.
  destruct (send_window_ends _ _ (ok_send _ Hok)) as [E|(s & k & Hs & -> & -> & ->)].
  - unfold sb_first_seq. rewrite E. by apply advance_refl.
  - by apply retransmit_loop_wp.
Qed.

Lemma retransmit_ranges_wp loss now c :
  conn_ok c -> wp (retransmit_ranges loss now c) (advance c).
Proof.
  revert c. induction loss as [|r loss IH]; intros c Hok; cbn [retransmit_ranges].
  { by apply advance_refl. }
  eapply wp_advance_bind; [by apply advance_refl|by apply retransmit_range_wp|].
  intros c1 H1. apply IH, H1.
Qed.

Lemma on_nak_wp loss now c : conn_ok c -> wp (on_nak loss now c) (advance c).
Proof.
  intros Hok. unfold on_nak. cbv zeta.
  match goal with |- wp (drop_too_late now ?c ≫= _) _ => set (c1 := c) end.
  assert (advance c c1) as H1 by adv.
  eapply wp_advance_bind; [exact H1|apply drop_too_late_wp, H1|].
  intros c2 H2. apply retransmit_ranges_wp, H2.
Qed.

Lemma on_exp_timer_wp now c : conn_ok c -> wp (on_exp_timer now c) (advance c).
Proof.
  intros Hok. unfold on_exp_timer. case_match; [by apply advance_refl|].
  eapply wp_advance_bind; [by apply advance_refl|by apply drop_too_late_wp|].
  intros c1 H1. pose proof (adv_ok _ _ H1) as Hok1. case_match; [by apply advance_refl|].
  eapply wp_advance_bind; [by apply advance_refl| |].
  - destruct (sb_first_seq _); [destruct (sb_last_seq _)|];
      try (by apply advance_refl). by apply retransmit_range_wp.
  - intros c2 H2. pose proof (adv_ok _ _ H2) as Hok2. cbn [wp].
    assert (advance c2 (c2 <| cn_exp_count ::= fun n => Z.min (n + 1) MAX_EXP_COUNT |>)) as H3
      by (apply advance_exp_count; [done|unfold MAX_EXP_COUNT; lia]).
    advs H3. apply arm_exp_advance, H3.
Qed.

Lemma ack_window sb next n :
  send_window_ok sb next -> send_window_ok (snd (sb_ack sb n)) next.
Proof.
  intros H. unfold sb_ack.
  destruct (ack_loop_suffix (sb_packets sb) n 0) as (k & Hk & ->). simpl.
  by apply send_window_drop.
Qed.

(** Everything before the answer, and then the answer. *)
Lemma on_ack_answers ack now c Q :
  conn_ok c ->
  (forall c', advance c c' ->
     wp (match ack_cif ack with AckLight => Ret c'
         | _ => emit_control (CbAckAck (ack_ack_number ack)) now c' end) Q) ->
  wp (on_ack ack now c) Q.
Proof.
  intros Hok HQ. unfold on_ack. cbv zeta.
  set (c1 := c <| cn_stats -> st_acks_received ::= bump 1 |>
               <| cn_send_buffer ::= fun sb => snd (sb_ack sb (ack_last_ack_seq ack)) |>).
  assert (advance c c1) as H1.
  { apply advance_send_buffer; try done. apply ack_window, Hok. }
  pose proof (adv_ok _ _ H1) as Hok1. clearbody c1.
  match goal with |- wp (drop_too_late now ?c ≫= _) _ => set (c2 := c) end.
  assert (advance c1 c2) as H2 by (unfold c2; destruct (ack_cif ack); try (by apply advance_refl); adv).
  clearbody c2. eapply wp_bind; [apply drop_too_late_wp, H2|].
  intros c3 H3. pose proof (adv_ok _ _ H3) as Hok3.
  set (c4 := c3 <| cn_live_cc ::= fmap cc_on_ack |> <| cn_exp_count := 1 |>).
  assert (advance c3 c4) as H4.
  { apply advance_core; [reflexivity..|]. destruct Hok3 as [K1 K2 K3 K4 K5 K6 K7 K8 K9].
    constructor; try assumption; [intros cc Hcc|].
    - change (fmap cc_on_ack (cn_live_cc c3) = Some cc) in Hcc.
      apply fmap_Some in Hcc as (cc0 & Hcc0 & ->). by apply (K6 cc0).
    - destruct K9 as (B1 & B2 & _ & B4). split; [exact B1|]. split; [exact B2|].
      split; [by vm_compute|exact B4]. }
  pose proof (adv_ok _ _ H4) as Hok4. clearbody c4.
  match goal with |- wp (finish_close_if_drained now ?c ≫= _) _ => set (c5 := c) end.
  assert (advance c4 c5) as H5.
  { unfold c5. destruct (sb_is_empty (cn_send_buffer c4));
      [by apply push_output_advance|by apply arm_exp_advance]. }
  eapply wp_bind; [apply finish_close_wp, H5|]. intros c6 H6. apply HQ.
  advs H1. advs H2. advs H3. advs H4. advs H5. exact H6.
Qed.

Lemma on_ack_wp ack now c : conn_ok c -> wp (on_ack ack now c) (advance c).
Proof.
  intros Hok. apply on_ack_answers; [done|]. intros c' H'. eapply wp_advance_from; [exact H'|].
  pose proof (adv_ok _ _ H').
  destruct (ack_cif ack); [by apply advance_refl|by apply emit_control_wp..].
Qed.
End Send.

(** ** Receiving *)

Lemma advance_recv_buffer c c' :
  conn_ok c -> identity c' = identity c -> cn_state c' = cn_state c ->
  grows event_ok (cn_events c) (cn_events c') -> grows output_ok (cn_outputs c) (cn_outputs c') ->
  rb_ok (cn_recv_buffer c') ->
  (cn_crypto c', cn_next_key_ready c', cn_pending_km c', cn_send_buffer c', cn_next_send_seq c',
   cn_next_message c', cn_live_cc c', cn_key_material c', bookkeeping c') =
  (cn_crypto c, cn_next_key_ready c, cn_pending_km c, cn_send_buffer c, cn_next_send_seq c,
   cn_next_message c, cn_live_cc c, cn_key_material c, bookkeeping c) -> advance c c'.
Proof.
  intros [K1 K2 K3 K4 K5 K6 K7 K8 K9] Hi Hs He Ho Hw ([= E1 E2 E3 E4 E5 E6 E7 E8] & E9)%pair_equal_spec.
  unfold identity in Hi. injection Hi as Hi1 Hi2 Hi3 Hi4 Hi5.
  constructor; [|unfold identity; congruence|by rewrite Hs|done|done].
  constructor; rewrite ?E1, ?E2, ?E3, ?E4, ?E5, ?E6, ?E7, ?E8, ?E9, ?Hi1; assumption.
Qed.

Lemma rb_peek_earliest rb q ts :
  rb_ok rb -> rb_peek rb = Some (q, ts) ->
  exists pos p, rb_earliest rb pos p /\ dp_seq p = q /\ dp_timestamp p = ts.
Proof.
  intros Hok H. unfold rb_peek in H. apply bind_Some in H as (pos & Hpos & H).
  apply bind_Some in H as (p & Hp & [= <- <-]).
  destruct (position_earliest _ _ Hpos) as (p' & He). exists pos, p'. split; [done|].
  destruct He as [Hp' _]. unfold rb_at in Hp'. rewrite Hp in Hp'. by simplify_eq.
Qed.

Lemma earliest_length rb pos p : rb_earliest rb pos p -> (pos < length (rb_slots rb))%nat.
Proof.
  intros [Hp _]. unfold rb_at in Hp. destruct (rb_slots rb !! pos) eqn:E; [|done].
  by eapply lookup_lt_Some.
Qed.

Lemma deliver_one_advance c pos p :
  conn_ok c -> rb_earliest (cn_recv_buffer c) pos p ->
  advance c (deliver_one c) /\
  (length (rb_slots (cn_recv_buffer (deliver_one c))) < length (rb_slots (cn_recv_buffer c)))%nat.
Proof.
  intros Hok He. pose proof (ok_recv _ Hok) as Hrb. unfold deliver_one.
  rewrite (rb_pop_earliest _ _ _ Hrb He). cbv zeta.
  destruct (ra_push _ p) as [message ra]. pose proof (earliest_length _ _ _ He) as Hlt.
  split.
  - destruct message; apply advance_recv_buffer; try done; try (by apply grows_snoc); by apply rb_skip_ok.
  - assert (forall c' : Connection, cn_recv_buffer c' =
      MkRecvBuffer (seq_add (rb_base (cn_recv_buffer c)) (Z.of_nat (S pos)))
        (drop (S pos) (rb_slots (cn_recv_buffer c)))
        (present_count (drop (S pos) (rb_slots (cn_recv_buffer c)))) ->
      (length (rb_slots (cn_recv_buffer c')) < length (rb_slots (cn_recv_buffer c)))%nat) as H.
    { intros c' ->. cbn [rb_slots]. rewrite length_drop. lia. }
    apply H. by destruct message.
Qed.

Lemma deliver_loop_wp fuel now c :
  conn_ok c -> (length (rb_slots (cn_recv_buffer c)) < fuel)%nat ->
  wp (deliver_loop fuel now c) (advance c).
Proof.
  revert c. induction fuel as [|fuel IH]; intros c Hok Hf; [lia|]. cbn [deliver_loop].
  destruct (rb_peek (cn_recv_buffer c)) as [[q ts]|] eqn:E; [|by apply push_output_advance].
  destruct (tsbpd_play_time c ts); [|by apply advance_refl].
  case_match; [by apply push_output_advance|].
  destruct (rb_peek_earliest _ _ _ (ok_recv _ Hok) E) as (pos & p & He & _).
  destruct (deliver_one_advance c pos p Hok He) as [H1 H2].
  eapply wp_advance_from; [exact H1|]. apply IH; [apply H1|lia].
Qed.

Lemma deliver_tsbpd_wp now c : conn_ok c -> wp (deliver_tsbpd now c) (advance c).
Proof. intros Hok. apply deliver_loop_wp; [done|lia]. Qed.

Lemma track_reorder_advance q r c : conn_ok c -> advance c (track_reorder q r c).
Proof.
  intros Hok. unfold track_reorder. case_match; [by apply advance_refl|].
  destruct (cn_highest_recv_seq c) as [h|]; [|adv]. cbv zeta.
  destruct (ok_book _ Hok) as (B1 & B2 & B3). cbn [fst snd bookkeeping] in B2.
  destruct (Z.leb_spec 0 (offset_from q h)); [case_match|];
    (adv || (apply advance_book; [done|reflexivity..|]));
    (split; [exact B1|]); (split; [|exact B3]).
  - change (0 <= sat_sub (cn_reorder_tolerance c) 1 <= MAX_REORDER_TOLERANCE). unfold sat_sub. lia.
  - change (0 <= Z.max (cn_reorder_tolerance c) (Z.min (- offset_from q h) MAX_REORDER_TOLERANCE)
              <= MAX_REORDER_TOLERANCE). lia.
Qed.

Lemma anchor_tsbpd_advance ts now c : conn_ok c -> advance c (anchor_tsbpd ts now c).
Proof. intros Hok. unfold anchor_tsbpd. destruct (cn_tsbpd_base c); adv. Qed.

Lemma sample_drift_advance ts r now c : conn_ok c -> advance c (sample_drift ts r now c).
Proof.
  intros Hok. unfold sample_drift. case_match; [by apply advance_refl|].
  destruct (tsbpd_expected_arrival c ts); [adv|by apply advance_refl].
Qed.

Lemma on_ackack_advance n now c : conn_ok c -> advance c (on_ackack n now c).
Proof.
  intros Hok. unfold on_ackack. destruct (position _ _); [|by apply advance_refl].
  destruct (cn_pending_acks c !! _) as [[? at_]|]; [|by apply advance_refl].
  apply advance_book; [done|reflexivity..|].
  destruct (ok_book _ Hok) as (H1 & H2 & H3). split; [|split; [exact H2|exact H3]].
  change (acks_ok (drop (S n0) (cn_pending_acks c)) (cn_next_ack_number c)). by apply acks_drop.
Qed.

Section Receive.
Context {B : BytesApi} {HB : BytesSpec B} {P : CryptoPrims} {HP : CryptoSpec P}.

Lemma send_light_ack_wp now c : conn_ok c -> wp (send_light_ack now c) (advance c).
Proof.
  intros Hok. unfold send_light_ack. cbv zeta.
  match goal with |- wp (emit_control _ now ?c') _ => assert (advance c c') as H1 by adv end.
  eapply wp_advance_from; [exact H1|]. apply emit_control_wp; [apply H1|done].
Qed.

Lemma send_nak_wp missing now c : conn_ok c -> wp (send_nak missing now c) (advance c).
Proof.
  intros Hok. unfold send_nak. apply encode_control_wp; [done|]. intros bs Hl. cbn [wp]. adv.
Qed.

Lemma report_loss_wp now c : conn_ok c -> wp (report_loss now c) (advance c).
Proof.
  intros Hok. unfold report_loss. case_match.
  - case_match; [|by apply advance_refl].
    eapply wp_advance_bind; [by apply advance_refl|by apply send_nak_wp|].
    intros c1 H1. cbn [wp]. adv.
  - case_match; [adv|by apply advance_refl].
Qed.

Lemma after_insert_wp data now c : conn_ok c -> wp (after_insert data now c) (advance c).
Proof.
  intros Hok. unfold after_insert. cbv zeta.
  match goal with |- context [track_reorder _ _ ?c'] => set (c1 := c') end.
  assert (advance c c1) as H1 by adv.
  pose proof (track_reorder_advance (dp_seq data) (dp_retransmitted data) c1 (adv_ok _ _ H1)) as H2.
  match goal with |- context [anchor_tsbpd _ _ ?c'] => set (c2 := c') end.
  assert (advance c c2) as H3.
  { advs H1. advs H2. pose proof (adv_ok _ _ H2). unfold c2. adv. }
  clear H1 H2. clearbody c2. clear c1.
  pose proof (anchor_tsbpd_advance (dp_timestamp data) now c2 (adv_ok _ _ H3)) as H4.
  pose proof (sample_drift_advance (dp_timestamp data) (dp_retransmitted data) now _
    (adv_ok _ _ H4)) as H5.
  eapply wp_advance_from; [exact H3|]. eapply wp_advance_from; [exact H4|].
  eapply wp_advance_bind; [exact H5|apply deliver_tsbpd_wp, H5|].
  intros c6 H6. pose proof (adv_ok _ _ H6) as Hok6.
  match goal with |- wp (match _ with _ => _ end ≫= _) (advance ?c0) => idtac | |- _ => idtac end.
  set (c7 := c6 <| cn_packets_since_ack ::= fun n => add32 n 1 |>).
  assert (advance c6 c7) as H7 by adv. pose proof (adv_ok _ _ H7) as Hok7.
  eapply wp_advance_bind; [exact H7| |].
  - case_match; [by apply send_light_ack_wp|by apply advance_refl].
  - intros c8 H8. apply report_loss_wp, H8.
Qed.

Lemma decrypt_data_total data c :
  conn_ok c -> exists o, decrypt_data data c = Ret o /\
    forall d, o = Some d -> dp_seq d = dp_seq data.
Proof.
  intros Hok. unfold decrypt_data.
  assert (exists o, match cn_crypto c with
    | Some crypto =>
        plain ← sc_decrypt crypto (seq_value (dp_seq data)) (dp_encryption data)
                  (header_aad data) (dp_payload data);
        Ret (match plain with
             | Some p => Some (MkData (dp_seq data) (dp_position data) (dp_in_order data)
                 (dp_encryption data) (dp_retransmitted data) (dp_message_number data)
                 (dp_timestamp data) (dp_dest_socket_id data) p)
             | None => None end)
    | None => Ret None end = Ret o /\ forall d, o = Some d -> dp_seq d = dp_seq data) as H.
  { destruct (cn_crypto c) as [sc|] eqn:E; [|by eexists].
    destruct (sc_decrypt_total sc (seq_value (dp_seq data)) (dp_encryption data)
      (header_aad data) (dp_payload data) (ok_crypto _ Hok _ E)) as [o ->].
    cbn [mbind panicky_bind]. eexists; split; [done|]. destruct o; by intros d [= <-]. }
  destruct (dp_encryption data); [|exact H..]. eexists; split; [done|]. by intros d [= <-].
Qed.

Lemma insert_data_wp data now c :
  conn_ok c -> seq_ok (dp_seq data) -> wp (insert_data data now c) (advance c).
Proof.
  intros Hok Hs. unfold insert_data. case_match; [simpl; adv|].
  destruct (decrypt_data_total data c Hok) as (o & -> & Hseq). cbn [mbind panicky_bind].
  destruct o as [d|]; [|simpl; adv].
  pose proof (rb_insert_ok (cn_recv_buffer c) d (ok_recv _ Hok)) as Hrb.
  rewrite (Hseq d eq_refl) in Hrb. specialize (Hrb Hs).
  destruct (rb_insert (cn_recv_buffer c) d) as [inserted rb]. simpl in Hrb. cbv zeta.
  assert (advance c (c <| cn_recv_buffer := rb |>)) as H1 by (by apply advance_recv_buffer).
  eapply wp_advance_from; [exact H1|]. pose proof (adv_ok _ _ H1) as Hok1.
  case_match; [simpl; adv|by apply after_insert_wp].
Qed.

Lemma inject_recovered_wp rp now c :
  conn_ok c -> seq_ok (rp_seq rp) -> wp (inject_recovered rp now c) (advance c).
Proof.
  intros Hok Hs. unfold inject_recovered. destruct (enc_from_bits _); try by apply advance_refl.
  cbv zeta. match goal with |- wp (insert_data ?d now ?c') _ => assert (advance c c') as H1 by adv end.
  eapply wp_advance_from; [exact H1|]. apply insert_data_wp; [apply H1|done].
Qed.

Lemma inject_all_wp rps now c :
  conn_ok c -> Forall (fun rp => seq_ok (rp_seq rp)) rps -> wp (inject_all rps now c) (advance c).
Proof.
  intros Hok H. revert c Hok. induction H as [|rp rps Hrp H IH]; intros c Hok; cbn [inject_all].
  { by apply advance_refl. }
  eapply wp_advance_bind; [by apply advance_refl|by apply inject_recovered_wp|].
  intros c1 H1. apply IH, H1.
Qed.

(** The FEC engine only rebuilds packets with valid sequence numbers. *)
Lemma scan_group_missing n data s present missing ps m :
  seq_ok s -> (forall q, missing = Some q -> seq_ok q) ->
  scan_group n data s present missing = Some (ps, Some m) -> seq_ok m.
Proof.
  revert s present missing. induction n as [|n IH]; intros s present missing Hs Hm H;
    cbn [scan_group] in H; [injection H as _ H; auto|].
  destruct (data !! _); [eapply IH; [apply seq_next_ok|exact Hm|exact H]|].
  destruct missing; [done|]. eapply IH; [apply seq_next_ok| |exact H]. by intros q [= <-].
Qed.

Lemma try_group_seqs fr b out :
  seq_ok b -> Forall (fun rp => seq_ok (rp_seq rp)) out ->
  Forall (fun rp => seq_ok (rp_seq rp)) (snd (try_group fr b out)).
Proof.
  intros Hb Ho. unfold try_group. destruct (fr_parities fr !! _); [|done].
  destruct (scan_group _ _ _ _ _) as [[ps [m|]]|] eqn:E; [|done..].
  destruct (recover_row _ _ _ _); [|done]. simpl. apply Forall_app. split; [done|].
  constructor; [|done]. simpl. by eapply scan_group_missing in E.
Qed.

Lemma try_groups_seqs n fr b out :
  seq_ok b -> Forall (fun rp => seq_ok (rp_seq rp)) out ->
  Forall (fun rp => seq_ok (rp_seq rp)) (snd (try_groups n fr b out)).
Proof.
  revert fr b out. induction n as [|n IH]; intros fr b out Hb Ho; [done|]. cbn [try_groups].
  pose proof (try_group_seqs fr b out Hb Ho) as H. destruct (try_group fr b out).
  apply IH; [apply seq_prev_ok|done].
Qed.

Lemma iter_prev_ok n s : seq_ok s -> seq_ok (Nat.iter n seq_prev s).
Proof. intros H. destruct n; [done|]. apply seq_prev_ok. Qed.

Lemma on_data_wp data now c :
  conn_ok c -> seq_ok (dp_seq data) -> wp (on_data data now c) (advance c).
Proof.
  intros Hok Hs. unfold on_data. destruct (cn_fec_recv c) as [fec|];
    [|by apply insert_data_wp].
  case_match.
  - unfold observe_parity. destruct (decode_parity _ _) as [[index parity]|]; cbv zeta.
    2: { simpl. adv. }
    destruct (negb (index =? ROW_INDEX)); [simpl; adv|].
    match goal with |- context [try_group ?fr ?b []] =>
      pose proof (try_group_seqs fr b [] ltac:(by apply iter_prev_ok) ltac:(constructor)) as Hq;
      destruct (try_group fr b []) as [fr' rps] end.
    simpl in Hq. match goal with |- wp (inject_all _ now ?c') _ => assert (advance c c') as H1 by adv end.
    eapply wp_advance_from; [exact H1|]. apply inject_all_wp; [apply H1|done].
  - unfold observe_data. cbv zeta.
    match goal with |- context [try_groups ?n ?fr ?b []] =>
      pose proof (try_groups_seqs n fr b [] Hs ltac:(constructor)) as Hq;
      destruct (try_groups n fr b []) as [fr' rps] end.
    simpl in Hq.
    match goal with |- wp (insert_data _ now ?c' ≫= _) _ => assert (advance c c') as H1 by adv end.
    eapply wp_advance_bind; [exact H1|apply insert_data_wp; [apply H1|done]|].
    intros c2 H2. apply inject_all_wp; [apply H2|done].
Qed.

Lemma on_dropreq_wp first last now c :
  conn_ok c -> seq_ok last -> wp (on_dropreq first last now c) (advance c).
Proof.
  intros Hok Hl. unfold on_dropreq. cbv zeta.
  match goal with |- wp (deliver_tsbpd now ?c') _ => assert (advance c c') as H1 end.
  { apply advance_recv_buffer; try done. apply (rb_drop_range_ok _ first last (ok_recv _ Hok) Hl). }
  eapply wp_advance_from; [exact H1|]. apply deliver_tsbpd_wp, H1.
Qed.

(** ** Timers *)

Lemma on_keepalive_timer_wp now c : conn_ok c -> wp (on_keepalive_timer now c) (advance c).
Proof.
  intros Hok. unfold on_keepalive_timer. case_match; [by apply advance_refl|].
  eapply wp_advance_bind; [by apply advance_refl|by apply resend_pending_km_wp|].
  intros c1 H1. pose proof (adv_ok _ _ H1) as Hok1.
  eapply wp_advance_bind; [by apply advance_refl| |].
  - case_match; [by apply emit_control_wp|by apply advance_refl].
  - intros c2 H2. simpl. queued H2.
Qed.

Lemma on_ack_timer_wp now c : conn_ok c -> wp (on_ack_timer now c) (advance c).
Proof.
  intros Hok. unfold on_ack_timer. case_match; [by apply advance_refl|]. cbv zeta.
  pose proof (push_output_advance c Hok (SetTimer TiAck ACK_INTERVAL)) as H1.
  set (c1 := push_output _ c) in *. eapply wp_advance_from; [exact H1|].
  pose proof (adv_ok _ _ H1) as Hok1. clearbody c1. case_match; [by apply advance_refl|].
  match goal with |- context [(MAX_PENDING_ACKS <? length (cn_pending_acks ?c'))%nat] =>
    set (c2 := c') end.
  match goal with |- context [if ?b then ?x else c2] => set (c3 := if b then x else c2) end.
  assert (advance c1 c3) as H3.
  { pose proof (acks_push _ _ now (proj1 (ok_book _ Hok1))) as Ha.
    change (bookkeeping c1).1.1.1.2 with (cn_pending_acks c1) in Ha.
    change (bookkeeping c1).1.1.2 with (cn_next_ack_number c1) in Ha. cbv zeta in Ha.
    replace c3 with (c1 <| cn_pending_acks := if (MAX_PENDING_ACKS <? length (cn_pending_acks c2))%nat
      then drop 1 (cn_pending_acks c2) else cn_pending_acks c2 |>
      <| cn_next_ack_number := wrap32 (cn_next_ack_number c1 + 1) |>)
      by (unfold c3; destruct (_ <? _)%nat; destruct c1; reflexivity).
    by apply advance_acks. }
  eapply wp_advance_from; [exact H3|]. pose proof (adv_ok _ _ H3) as Hok3. clearbody c3.
  destruct (delivery_rate _) as [a b].
  match goal with |- wp (emit_control _ now ?c') _ => assert (advance c3 c') as H4 by adv end.
  eapply wp_advance_from; [exact H4|]. apply emit_control_wp; [apply H4|done].
Qed.

Lemma on_nak_timer_wp now c : conn_ok c -> wp (on_nak_timer now c) (advance c).
Proof.
  intros Hok. unfold on_nak_timer. case_match; [by apply advance_refl|]. cbv zeta.
  pose proof (push_output_advance c Hok (SetTimer TiNak (nak_interval c))) as H1.
  set (c1 := push_output _ c) in *. eapply wp_advance_from; [exact H1|].
  pose proof (adv_ok _ _ H1) as Hok1. clearbody c1.
  destruct (match cn_last_nak c1 with Some _ => _ | None => _ end); [by apply advance_refl|].
  destruct (bool_decide _); [by apply send_nak_wp|by apply advance_refl].
Qed.
End Receive.

(** ** The handshake *)

Lemma set_failed_advance c : conn_ok c -> advance c (c <| cn_state := StFailed |>).
Proof.
  intros Hok. apply advance_frame; try done.
  change (cn_state (c <| cn_state := StFailed |>)) with StFailed. destruct (cn_state c); simpl; lia.
Qed.

Section Handshaking.
Context {B : BytesApi} {HB : BytesSpec B} {P : CryptoPrims} {HP : CryptoSpec P}.

Definition ext_fits (e : HandshakeExtension) : Prop := words_fit (length (ext_content e)).

Lemma ext_encode_fits e out : ext_fits e -> ext_encode e out = Ret (out ++ ext_bytes e).
Proof.
  unfold ext_fits. intros Hfit.
  destruct e as [hs|hs|s|t c]; cbn [ext_encode]; unfold ext_bytes, encode_stream_id;
    rewrite ?put_chunks_rev_eq.
  1,2: rewrite put_ext_header_ok by done; simpl; rewrite srt_hs_encode_bytes;
    by rewrite <- !app_assoc.
  - change (s ++ replicate _ _) with (pad_words s). cbn [app].
    rewrite put_ext_header_ok by done. simpl. buf_spec. by rewrite <- !app_assoc.
  - rewrite put_ext_header_ok by done. simpl. buf_spec. by rewrite <- !app_assoc.
Qed.

Lemma exts_encode_fits es out :
  Forall ext_fits es -> exts_encode es out = Ret (out ++ (es ≫= ext_bytes)).
Proof.
  intros H. revert out. induction H as [|e es He Hes IH]; intros out; [by rewrite app_nil_r|].
  cbn [exts_encode]. rewrite ext_encode_fits by done. simpl. rewrite IH.
  by rewrite <- app_assoc.
Qed.

Lemma hs_encode_fits h out :
  Forall ext_fits (hs_extensions h) -> hs_encode h out = Ret (out ++ hs_bytes h).
Proof.
  intros H. unfold hs_encode. rewrite exts_encode_fits by done.
  unfold hs_bytes, hs_fixed, hst_to_raw. buf_spec. by rewrite <- !app_assoc.
Qed.

Lemma hs_body_encodes h : Forall ext_fits (hs_extensions h) -> body_encodes (CbHandshake h).
Proof. intros H. exists (hs_bytes h). intros out. by apply hs_encode_fits. Qed.

Lemma stream_id_fits s : words_fit (padded_len (length s)) -> ext_fits (StreamId s).
Proof.
  intros H. unfold ext_fits. cbn [ext_content].
  rewrite (length_rev_chunks _ _ (length_pad_words s)).
  unfold words_fit, padded_len in *. by rewrite (Nat.mul_comm 4).
Qed.

Lemma hsreq_fits x : ext_fits (HsReq x).
Proof. unfold ext_fits, words_fit. by vm_compute. Qed.
Lemma hsrsp_fits x : ext_fits (HsRsp x).
Proof. unfold ext_fits, words_fit. by vm_compute. Qed.

Lemma conclusion_fits c : conn_ok c -> Forall ext_fits (hs_extensions (conclusion_hs c)).
Proof.
  intros Hok. unfold conclusion_hs.
  pose proof (ok_stream _ Hok) as Hst. pose proof (ok_km _ Hok) as Hkm.
  destruct (cfg_stream_id (cn_config c)) as [s|], (cn_key_material c) as [km|],
    (cfg_encryption (cn_config c)); cbn [hs_extensions app];
    repeat (constructor; [first [apply hsreq_fits | apply stream_id_fits; by apply Hst |
                                 by apply Hkm]|]); constructor.
Qed.

Lemma last_handshake_advance c bs :
  conn_ok c -> (16 <= length bs)%nat -> advance c (c <| cn_last_handshake := Some bs |>).
Proof.
  intros Hok Hl. apply advance_book; [done|reflexivity..|].
  destruct (ok_book _ Hok) as (B1 & B2 & B3 & B4 & _).
  split_and!; [exact B1|apply B2|apply B2|apply B3|apply B3|split; [exact B4|by intros bs' [= <-]]].
Qed.

Lemma emit_handshake_wp dest hs now c :
  conn_ok c -> Forall ext_fits (hs_extensions hs) -> wp (emit_handshake dest hs now c) (advance c).
Proof.
  intros Hok Hf. unfold emit_handshake. apply encode_control_wp; [by apply hs_body_encodes|].
  intros bs Hl. cbn [wp]. cbv zeta.
  pose proof (last_handshake_advance c bs Hok Hl) as H1. advs H1. pose proof (push_datagram_advance _ (adv_ok _ _ H1) bs Hl) as H2. advs H2.
  queued H2.
Qed.

Lemma on_induction_response_wp hs now c :
  conn_ok c -> cn_state c = StInduction -> socket_id_ok (hs_srt_socket_id hs) ->
  wp (on_induction_response hs now c) (advance c).
Proof.
  intros Hok Hs Hid. unfold on_induction_response. case_match; [by apply advance_refl|]. cbv zeta.
  match goal with |- wp (send_conclusion now ?c') _ => assert (advance c c') as H1 end.
  { constructor; [|reflexivity|rewrite Hs; simpl; lia|reflexivity|reflexivity].
    destruct Hok as [K1 K2 K3 K4 K5 K6 K7 K8 K9]. constructor; try assumption.
    destruct K9 as (B1 & B2 & B3 & _ & B5).
    split_and!; [exact B1|apply B2|apply B2|apply B3|apply B3|split; [exact Hid|exact B5]]. }
  eapply wp_advance_from; [exact H1|]. apply emit_handshake_wp; [apply H1|].
  by apply conclusion_fits, H1.
Qed.

Lemma enter_connected_advance ng now c :
  conn_ok c -> is_handshaking (cn_state c) = true -> seq_ok (ng_peer_initial_seq ng) ->
  socket_id_ok (ng_peer_socket_id ng) -> advance c (enter_connected ng now c).
Proof.
  intros Hok Hs Hq Hid. unfold enter_connected. cbv zeta.
  set (c1 := c <| cn_state := StConnected |> <| cn_peer_socket_id := ng_peer_socket_id ng |>
           <| cn_latency := ng_latency ng |>
           <| cn_recv_buffer := rb_new (ng_peer_initial_seq ng) |>).
  assert (advance c c1) as H1.
  { assert (conn_ok c1) as Hok1.
    { destruct Hok as [K1 K2 K3 K4 K5 K6 K7 K8 K9]. constructor; try assumption;
        [by apply rb_new_ok|].
      destruct K9 as (B1 & B2 & B3 & _ & B5).
      split_and!; [exact B1|apply B2|apply B2|apply B3|apply B3|split; [exact Hid|exact B5]]. }
    constructor; [exact Hok1|reflexivity| |reflexivity|reflexivity].
    change (cn_state c1) with StConnected. destruct (cn_state c); simpl in *; try lia; done. }
  clearbody c1. advs H1.
  pose proof (push_output_advance _ (adv_ok _ _ H1) (SetTimer TiAck ACK_INTERVAL)) as H2. advs H2.
  set (c2 := push_output _ c1) in *.
  pose proof (push_output_advance _ (adv_ok _ _ H2) (SetTimer TiNak (nak_interval c2))) as H3. advs H3.
  set (c3 := push_output _ c2) in *.
  pose proof (push_output_advance _ (adv_ok _ _ H3) (SetTimer TiKeepalive KEEPALIVE_PERIOD)) as H4. advs H4.
  set (c4 := push_output _ c3) in *.
  pose proof (push_output_advance _ (adv_ok _ _ H4)
    (SetTimer TiPeerIdle (cfg_peer_idle_timeout (cn_config c4)))) as H5. advs H5.
  set (c5 := push_output _ c4) in *. clearbody c5.
  assert (advance c5 (c5 <| cn_last_sent := now |> <| cn_last_recv_any := now |>)) as H6.
  { pose proof (adv_ok _ _ H5). adv. }
  advs H6. queued H6.
Qed.

Lemma on_conclusion_response_advance hs now c :
  conn_ok c -> is_handshaking (cn_state c) = true -> seq_ok (hs_initial_seq hs) ->
  socket_id_ok (hs_srt_socket_id hs) -> advance c (on_conclusion_response hs now c).
Proof.
  intros Hok Hs Hq Hid. unfold on_conclusion_response. case_match; [by apply advance_refl|]. cbv zeta.
  pose proof (push_output_advance c Hok (ClearTimer TiHandshake)) as H1. advs H1.
  apply enter_connected_advance; [apply H1|done|done|exact Hid].
Qed.

Lemma on_rejected_advance reason c : conn_ok c -> advance c (on_rejected reason c).
Proof.
  intros Hok. unfold on_rejected. pose proof (set_failed_advance c Hok) as H1. advs H1.
  pose proof (push_output_advance _ (adv_ok _ _ H1) (ClearTimer TiHandshake)) as H2.
  advs H2. queued H2.
Qed.

Lemma on_handshake_timer_advance now c : conn_ok c -> advance c (on_handshake_timer now c).
Proof.
  intros Hok. unfold on_handshake_timer. case_match; [by apply advance_refl|].
  case_match.
  - pose proof (set_failed_advance c Hok) as H1. advs H1.
    pose proof (push_output_advance _ (adv_ok _ _ H1) (ClearTimer TiHandshake)) as H2.
    advs H2. queued H2.
  - destruct (cn_last_handshake c) as [bs|] eqn:El; [|by apply advance_refl].
    pose proof (push_datagram_advance _ Hok bs (last_handshake_length _ _ Hok El)) as H1. advs H1.
    queued H1.
Qed.

Lemma on_peer_idle_timer_advance now c : conn_ok c -> advance c (on_peer_idle_timer now c).
Proof.
  intros Hok. unfold on_peer_idle_timer. case_match; [by apply advance_refl|]. cbv zeta.
  case_match; [|by apply push_output_advance].
  pose proof (set_failed_advance c Hok) as H1. advs H1.
  pose proof (clear_arq_timers_advance _ (adv_ok _ _ H1)) as H2. advs H2.
  queued H2.
Qed.

Lemma on_dup_handshake_advance hs c : conn_ok c -> advance c (on_dup_handshake hs c).
Proof.
  intros Hok. unfold on_dup_handshake. case_match; [|by apply advance_refl].
  destruct (cn_last_handshake c) as [bs|] eqn:El; [|by apply advance_refl].
  apply push_datagram_advance; [done|by eapply last_handshake_length].
Qed.

Lemma flush_loop_wp fuel c :
  conn_ok c -> (length (rb_slots (cn_recv_buffer c)) < fuel)%nat -> wp (flush_loop fuel c) (advance c).
Proof.
  revert c. induction fuel as [|fuel IH]; intros c Hok Hf; [lia|]. cbn [flush_loop].
  pose proof (ok_recv _ Hok) as Hrb.
  assert (rb_pop_in_order (cn_recv_buffer c) = (None, cn_recv_buffer c) \/
    exists pos p, rb_earliest (cn_recv_buffer c) pos p /\
      rb_pop_in_order (cn_recv_buffer c) = rb_pop (cn_recv_buffer c)) as [E|(pos & p & He & E)].
  { unfold rb_pop_in_order. destruct (rb_slots (cn_recv_buffer c)) as [|[p|] r] eqn:Es;
      [by left| |by left]. right. exists 0%nat, p. split; [|done].
    split; [unfold rb_at; by rewrite Es|lia]. }
  - rewrite E. cbv zeta. simpl. by apply advance_recv_buffer.
  - rewrite E, (rb_pop_earliest _ _ _ Hrb He). cbv zeta.
    destruct (ra_push _ p) as [message ra]. pose proof (earliest_length _ _ _ He) as Hlt.
    match goal with |- wp (flush_loop fuel ?c') _ => set (c2 := c') end.
    assert (advance c c2) as H1.
    { unfold c2. destruct message; apply advance_recv_buffer; try done; try (by apply grows_snoc);
        by apply rb_skip_ok. }
    eapply wp_advance_from; [exact H1|]. apply IH; [apply H1|].
    assert (rb_slots (cn_recv_buffer c2) = drop (S pos) (rb_slots (cn_recv_buffer c))) as ->
      by (unfold c2; by destruct message).
    rewrite length_drop. lia.
Qed.

Lemma on_shutdown_wp c : conn_ok c -> wp (on_shutdown c) (advance c).
Proof.
  intros Hok. unfold on_shutdown.
  eapply wp_advance_bind; [by apply advance_refl|apply flush_loop_wp; [done|lia]|].
  intros c1 H1. pose proof (adv_ok _ _ H1) as Hok1. cbn [wp].
  pose proof (set_failed_advance c1 Hok1) as H2.
  advs H2. pose proof (clear_arq_timers_advance _ (adv_ok _ _ H2)) as H3. advs H3.
  queued H3.
Qed.

(** ** The entry points *)

Lemma on_control_wp body now c : conn_ok c -> cb_ok body -> wp (on_control body now c) (advance c).
Proof.
  intros Hok Hb. unfold on_control.
  destruct body as [| | |n|n f l|n|ack|loss|hs|t st ts cif]; try by apply advance_refl.
  - by apply on_shutdown_wp.
  - by apply on_ackack_advance.
  - destruct Hb as (_ & _ & Hl). by apply on_dropreq_wp.
  - by apply on_ack_wp.
  - by apply on_nak_wp.
  - by apply on_dup_handshake_advance.
  - destruct t; try by apply advance_refl. case_match; [by apply on_km_req_wp|].
    case_match; [by apply on_km_rsp_advance|by apply advance_refl].
Qed.

Lemma on_handshake_packet_wp p now c :
  conn_ok c -> packet_ok p -> is_handshaking (cn_state c) = true ->
  wp (on_handshake_packet p now c) (advance c).
Proof.
  intros Hok Hp Hh. unfold on_handshake_packet.
  destruct p as [d|[ts dest body]]; [by apply advance_refl|].
  destruct body; try by apply advance_refl. destruct Hp as (_ & _ & Hhs). simpl in Hhs.
  destruct (hst_reject_reason _); [by apply on_rejected_advance|].
  destruct (cn_state c) eqn:E; try done.
  - apply on_induction_response_wp; [done|done|apply Hhs].
  - apply on_conclusion_response_advance; [done|by rewrite E|apply Hhs|apply Hhs].
Qed.

Lemma feed_recv_buf_wp datagram now c :
  conn_ok c -> wp (feed_recv_buf datagram now c) (advance c).
Proof.
  intros Hok. unfold feed_recv_buf.
  destruct (packet_decode_total datagram) as [(p & -> & Hp)|[x ->]]; [|by apply advance_refl].
  cbv zeta. match goal with |- context [if is_connected (cn_state c) then ?x else c] =>
    set (c1 := if is_connected (cn_state c) then x else c);
    assert (advance c c1) as H1 end.
  { unfold c1. destruct (is_connected (cn_state c)); [adv|by apply advance_refl]. }
  eapply wp_advance_from; [exact H1|]. pose proof (adv_ok _ _ H1) as Hok1. clearbody c1.
  pose proof (on_handshake_packet_wp p now c1 Hok1 Hp) as Hhs.
  destruct (cn_state c1) eqn:E; [by apply Hhs|by apply Hhs| |by apply advance_refl].
  destruct p as [d|[ts dest body]]; simpl on_connected_packet.
  - apply on_data_wp; [done|apply Hp].
  - apply on_control_wp; [done|apply Hp].
Qed.

Lemma handle_timer_wp id now c : conn_ok c -> wp (handle_timer id now c) (advance c).
Proof.
  intros Hok. destruct id; cbn [handle_timer].
  - by apply on_handshake_timer_advance.
  - by apply on_ack_timer_wp.
  - by apply on_nak_timer_wp.
  - by apply on_exp_timer_wp.
  - by apply deliver_tsbpd_wp.
  - by apply pace_wp.
  - by apply on_linger_timer_wp.
  - by apply on_keepalive_timer_wp.
  - by apply on_peer_idle_timer_advance.
Qed.

Lemma send_all_wp fs now c : conn_ok c -> wp (send_all fs now c) (advance c).
Proof.
  revert c. induction fs as [|f fs IH]; intros c Hok; cbn [send_all]; [by apply advance_refl|].
  eapply wp_advance_bind; [by apply advance_refl|by apply send_data_wp|].
  intros c1 H1. apply IH, H1.
Qed.

Lemma next_message_ok n : message_ok n -> message_ok (next_message_number n).
Proof.
  intros [Hn _]. unfold next_message_number. case_match eqn:E.
  - split; [split; lia|done].
  - apply Z.eqb_neq in E. split; [unfold u32_ok; zmod|done].
Qed.

Lemma conn_send_total payload now c :
  conn_ok c ->
  (exists c', conn_send payload now c = Ok c' /\ advance c c') \/
  (conn_send payload now c = Err InvalidState /\
   (cn_closing c = true \/ cn_state c <> StConnected)).
Proof.
  intros Hok. unfold conn_send. destruct (cn_closing c || negb (is_connected (cn_state c))) eqn:E.
  { right. split; [done|]. apply orb_prop in E as [E|E]; [by left|right]. intros Hs. by rewrite Hs in E. }
  left. cbv zeta. set (c1 := c <| cn_next_message := next_message_number (cn_next_message c) |>).
  assert (advance c c1) as H1.
  { apply advance_core; [reflexivity..|]. destruct Hok as [K1 K2 K3 K4 K5 K6 K7 K8 K9].
    constructor; try assumption. by apply (next_message_ok (cn_next_message c)). }
  pose proof (adv_ok _ _ H1) as Hok1. clearbody c1. clear E.
  destruct (cn_live_cc c1).
  - match goal with |- context [pace now ?c'] => assert (advance c1 c') as H2 by adv;
      pose proof (pace_wp now c' (adv_ok _ _ H2)) as Hw; destruct (pace now c') as [c2|]; [|done] end.
    simpl in Hw. exists c2. split; [done|]. advs H1. by advs H2.
  - match goal with |- context [send_all ?fs now c1] =>
      pose proof (send_all_wp fs now c1 Hok1) as Hw; destruct (send_all fs now c1) as [c2|]; [|done] end.
    simpl in Hw. exists c2. split; [done|]. by advs H1.
Qed.

Lemma conn_close_wp now c : conn_ok c -> wp (conn_close now c) (advance c).
Proof.
  intros Hok. unfold conn_close. case_match; [by apply advance_refl|].
  case_match.
  - cbn [wp]. pose proof (set_failed_advance c Hok) as Hf1. advs Hf1. queued Hf1.
  - case_match; [by apply finalize_shutdown_wp|]. cbn [wp].
    assert (advance c (c <| cn_closing := true |>)) as Hf1 by adv. advs Hf1.
    queued Hf1.
Qed.
End Handshaking.
