(* ===== verification/ConnStart.v ===== *)
(** * ConnStart: fresh connections, the driver's step relation, reachability

    [connect] and [accept] establish the invariant of [ConnInv]; [conn_step] is
    one call of the public interface and [reachable] what a driver can bring a
    connection to with any sequence of calls. *)

From S2P Require Import Prelude Buf Errors Reject Seq Time Timestamp Rtt PacketTypes Handshake Control Packet SendBuffer RecvBuffer KeyMaterial Crypto Config Event Fragment ConnState Rekey Arq Setup Conn ConnInv.

(** What the embedder configures: a stream id that fits its extension. *)
Definition stream_id_fits_config (cfg : Config) : Prop :=
  forall s, cfg_stream_id cfg = Some s -> words_fit (padded_len (length s)).

(** The embedder's random source fills the buffer it is given. *)
Definition rng_fills (rng : nat -> nat -> list byte) : Prop := forall i n, length (rng i n) = n.

(** ** One call of the public interface *)

Inductive ConnCall : Type :=
  | CallFeed (datagram : list byte) (now : Instant)
  | CallTimer (id : TimerId) (now : Instant)
  | CallSend (payload : list byte) (now : Instant)
  | CallClose (now : Instant)
  | CallRekey (sek : list byte) (now : Instant)
  | CallPollEvent
  | CallPollOutput.

(** A refused [send] leaves the connection as it was. *)
Definition sent_or (c : Connection) (r : res ConnectionError Connection) : panicky Connection :=
  match r with Ok c' => Ret c' | Err _ => Ret c | Crash => Panic end.

Section Steps.
Context {B : BytesApi} {P : CryptoPrims}.

Definition conn_step (call : ConnCall) (c : Connection) : panicky Connection :=
  match call with
  | CallFeed datagram now => feed_recv_buf datagram now c
  | CallTimer id now => handle_timer id now c
  | CallSend payload now => sent_or c (conn_send payload now c)
  | CallClose now => conn_close now c
  | CallRekey sek now => provide_rekey sek now c
  | CallPollEvent => Ret (snd (poll_event c))
  | CallPollOutput => Ret (snd (poll_output c))
  end.

(** What a call demands of its arguments: only that a key is an AES key. *)
Definition call_ok (call : ConnCall) : Prop :=
  match call with CallRekey sek _ => valid_key_length (length sek) = true | _ => True end.

Inductive reaches : Connection -> Connection -> Prop :=
  | reaches_refl c : reaches c c
  | reaches_step c1 c2 c3 call :
      reaches c1 c2 -> call_ok call -> conn_step call c2 = Ret c3 -> reaches c1 c3.

(** A caller's or an acceptor's first state. *)
Inductive starts : Connection -> Prop :=
  | starts_connect cfg id isn now rng c :
      stream_id_fits_config cfg -> seq_ok isn -> rng_fills rng ->
      connect cfg id isn now rng = Ret c -> starts c
  | starts_accept cfg id isn hs now c :
      stream_id_fits_config cfg -> hs_ok hs ->
      accept cfg id isn hs now = Ok c -> starts c.
End Steps.

(** ** Fresh connections satisfy the invariant *)

(** What is waiting in the queues is what [advance] allows there. *)
Definition queues_ok (c : Connection) : Prop :=
  Forall event_ok (cn_events c) /\ Forall output_ok (cn_outputs c).

Lemma advance_queues c c' : advance c c' -> queues_ok c -> queues_ok c'.
Proof.
  intros H [He Ho]. split; [eapply grows_Forall, He|eapply grows_Forall, Ho]; apply H.
Qed.

Lemma new_base_ok cfg id isn now side st :
  stream_id_fits_config cfg -> seq_ok isn -> conn_ok (new_base cfg id isn now side st).
Proof.
  intros Hs Hq. constructor; simpl; try done.
  - exists isn. split_and!; [done|by intros i x Hx|]. simpl. by rewrite seq_add_0.
  - intros cc. destruct (Z.ltb_spec 0 (cfg_max_bw cfg)); [|done]. intros [= <-]. done.
  - split; [|by vm_compute]. split; [by vm_compute|]. split; [vm_compute; lia|]. by intros i a Ha.
Qed.

Section Start.
Context {B : BytesApi} {HB : BytesSpec B} {P : CryptoPrims} {HP : CryptoSpec P}.

Lemma key_size_valid k : valid_key_length (key_size_bytes k) = true.
Proof. by destruct k. Qed.

Lemma sk_generate_ok passphrase k mode rng :
  rng_fills rng ->
  exists keys km, sk_generate passphrase (key_size_bytes k) mode rng = Ret (keys, km) /\
    sk_ok keys /\ km_ok km /\
    keys = MkKeys (rng 0%nat SALT_LEN) (rng 1%nat (key_size_bytes k)) mode /\
    sk_from_key_material km passphrase = Ok (MkUnwrapped (Some keys) None).
Proof.
  intros Hr. unfold sk_generate, build_key_material.
  assert (valid_key_length (length (rng 1%nat (key_size_bytes k))) = true) as Hk
    by (rewrite Hr; apply key_size_valid).
  destruct (build_km_some passphrase KfEven mode (rng 0%nat SALT_LEN)
              (rng 1%nat (key_size_bytes k)) Hk (Hr _ _)) as (km & Hb & Hkm & _); [done|].
  rewrite Hb. simpl. eexists _, km. split_and!; [done| |done..|].
  - split; [done|apply Hr].
  - exact (sk_from_key_material_single _ KfEven _ _ _ _ Hk (Hr _ _) ltac:(done) Hb).
Qed.

Lemma km_bytes_fit km : km_ok km -> words_fit (length (km_bytes km)).
Proof.
  intros (Hk & Hs & Hw). unfold words_fit, km_bytes, u16_max.
  rewrite !length_app, !length_be_bytes, Hs, Hw. unfold SALT_LEN, ICV_LEN.
  destruct (km_key_flags km), Hk as [-> |[-> | ->]]; by vm_compute.
Qed.

(** A caller's key material, whatever it configured. *)
Lemma connect_wp cfg id isn now rng :
  stream_id_fits_config cfg -> seq_ok isn -> rng_fills rng ->
  wp (connect cfg id isn now rng) (fun c => conn_ok c /\ queues_ok c).
Proof.
  intros Hs Hq Hr. unfold connect.
  pose proof (new_base_ok cfg id isn now Caller StInduction Hs Hq) as Hb.
  set (b := new_base cfg id isn now Caller StInduction) in *.
  assert (forall c, conn_ok c /\ queues_ok c ->
    wp (send_induction now c) (fun c => conn_ok c /\ queues_ok c)) as Hind.
  { intros c [Hc Hq']. eapply wp_mono; [apply emit_handshake_wp; [done|constructor]|].
    intros c' H'. split; [apply H'|by eapply advance_queues]. }
  assert (queues_ok b) as Hbq by (by split; constructor).
  apply (wp_bind _ _ (fun c => conn_ok c /\ queues_ok c)); [|exact Hind].
  destruct (cfg_encryption (cn_config b)) as [enc|]; [|by split].
  destruct (sk_generate_ok (es_passphrase enc) (es_key_size enc) (es_cipher enc) rng Hr)
    as (keys & km & -> & Hk & Hkm & _).
  cbn [mbind panicky_bind wp]. split; [|exact Hbq]. destruct Hb as [K1 K2 K3 K4 K5 K6 K7 K8 K9].
  constructor; try assumption.
  - intros sc [= <-]. by apply sc_new_even_ok.
  - intros sc _ [H|[? H]]; done.
  - intros km' [= <-]. rewrite km_encode_bytes. by apply km_bytes_fit.
Qed.

Lemma find_map_in {A C} (f : A -> option C) l y :
  find_map f l = Some y -> exists x, x ∈ l /\ f x = Some y.
Proof.
  induction l as [|x l IH]; simpl; [done|].
  destruct (f x) eqn:E; [intros [= ->]; exists x; split; [apply list_elem_of_here|done]|].
  intros (z & Hz & Hf)%IH. exists z. split; [by apply list_elem_of_further|done].
Qed.

Lemma find_raw_fits t hs km :
  hs_ok hs -> find_raw t hs = Some km -> words_fit (length km).
Proof.
  intros Hhs (e & He & Hf)%find_map_in.
  destruct Hhs as (_ & _ & _ & _ & _ & _ & _ & _ & _ & Hall).
  rewrite Forall_forall in Hall. specialize (Hall e He).
  destruct e as [| | |t' content]; try done. case_match; [|done]. injection Hf as ->.
  apply Hall.
Qed.

Lemma accept_crypto_total enc hs :
  hs_ok hs ->
  (exists u km, accept_crypto enc hs = Ok (u, km) /\
     (forall x, u = Some x -> ukm_ok x) /\ (forall k, km = Some k -> words_fit (length k))) \/
  (exists x, accept_crypto enc hs = Err (CoCrypto x)).
Proof.
  intros Hhs. unfold accept_crypto. destruct enc as [enc|], (find_raw EXT_KMREQ hs) as [km|] eqn:E.
  - destruct (km_decode_total km) as [(k & -> & Hk)|[x ->]]; [|right; by eexists].
    cbn [map_err mbind res_bind].
    destruct (sk_from_key_material_total k (es_passphrase enc) Hk) as [(u & -> & Hu)|[x ->]];
      [|right; by eexists].
    left. eexists _, _. split_and!; [done|by intros ? [= <-]|].
    intros ? [= <-]. by eapply find_raw_fits.
  - right. by eexists.
  - right. by eexists.
  - left. by eexists _, _.
Qed.

Lemma accept_response_fits cfg id hs km :
  (forall k, km = Some k -> words_fit (length k)) ->
  Forall ext_fits (hs_extensions (accept_response cfg id hs km)).
Proof.
  intros Hk. unfold accept_response. destruct km as [km|]; cbn [hs_extensions app];
    repeat (constructor; [first [apply hsrsp_fits | by apply Hk]|]); constructor.
Qed.

(** [accept] returns a sound connection or a crypto error. *)
Lemma accept_total cfg id isn hs now :
  stream_id_fits_config cfg -> hs_ok hs ->
  (exists c, accept cfg id isn hs now = Ok c /\ conn_ok c /\ cn_state c = StConnected /\ queues_ok c) \/
  (exists x, accept cfg id isn hs now = Err (CoCrypto x)).
Proof.
  intros Hs Hhs. unfold accept. cbv zeta.
  destruct (accept_crypto_total (cfg_encryption cfg) hs Hhs)
    as [(u & km & -> & Hu & Hk)|[x ->]]; [|right; by eexists]. cbn [mbind res_bind]. left.
  assert (seq_ok (hs_initial_seq hs)) as Hq by apply Hhs.
  pose proof (new_base_ok cfg id (hs_initial_seq hs) now Acceptor StConclusion Hs Hq) as Hb.
  match goal with |- context [wire_ts ?c now] => set (c1 := c) end.
  assert (conn_ok c1) as Hok1.
  { destruct Hb as [K1 K2 K3 K4 K5 K6 K7 K8 K9]. constructor; try assumption.
    - intros sc Hsc. change (sc_from_initial <$> u = Some sc) in Hsc.
      apply fmap_Some in Hsc as (v & Hv & ->). by apply sc_from_initial_ok, Hu.
    - intros sc _ [H|[? H]]; done. }
  destruct (encode_control_total (hs_srt_socket_id hs) (wire_ts c1 now)
    (CbHandshake (accept_response cfg id hs km))) as (bs & -> & Hl).
  { by apply hs_body_encodes, accept_response_fits. }
  cbn [lift mbind res_bind]. eexists. split; [done|].
  match goal with |- conn_ok (enter_connected _ _ ?c) /\ _ => set (c2 := c) end.
  assert (advance c1 c2) as H2.
  { pose proof (last_handshake_advance c1 bs Hok1 Hl) as H3. advs H3.
    by apply push_datagram_advance; [apply H3|]. }
  assert (advance c2 (enter_connected (negotiate (cfg_latency cfg) hs) now c2)) as H4
    by (apply enter_connected_advance; [apply H2|done|exact Hq|apply Hhs]).
  split_and!; [apply H4|done|]. eapply advance_queues; [exact H4|].
  eapply advance_queues; [exact H2|]. split; constructor.
Qed.

Lemma starts_queues c : starts c -> conn_ok c /\ queues_ok c.
Proof.
  destruct 1 as [cfg id isn now rng c Hs Hq Hr E|cfg id isn hs now c Hs Hhs E].
  - pose proof (connect_wp cfg id isn now rng Hs Hq Hr) as H. by rewrite E in H.
  - destruct (accept_total cfg id isn hs now Hs Hhs) as [(c' & E' & H & _ & Hq)|[x E']]; [|congruence].
    rewrite E in E'. by injection E' as <-.
Qed.

Lemma starts_ok c : starts c -> conn_ok c.
Proof. apply starts_queues. Qed.

(** ** Every call returns and keeps the invariant *)

(** Every call but a poll only appends to the queues. *)
Definition is_poll (call : ConnCall) : bool :=
  match call with CallPollEvent | CallPollOutput => true | _ => false end.

Lemma conn_step_advance call c :
  conn_ok c -> call_ok call -> is_poll call = false -> wp (conn_step call c) (advance c).
Proof.
  intros Hok Hc Hp. destruct call; try done; cbn [conn_step].
  - by apply feed_recv_buf_wp.
  - by apply handle_timer_wp.
  - destruct (conn_send_total payload now c Hok) as [(c' & -> & Ha)|[-> _]]; [exact Ha|].
    by apply advance_refl.
  - by apply conn_close_wp.
  - by apply provide_rekey_wp.
Qed.

Lemma poll_event_cons e rest c :
  cn_events c = e :: rest -> poll_event c = (Some e, c <| cn_events := rest |>).
Proof. intros E. unfold poll_event. by rewrite E. Qed.
Lemma poll_output_cons o rest c :
  cn_outputs c = o :: rest -> poll_output c = (Some o, c <| cn_outputs := rest |>).
Proof. intros E. unfold poll_output. by rewrite E. Qed.

(** The queues are no part of the invariant. *)
Lemma conn_ok_events es c : conn_ok c -> conn_ok (c <| cn_events := es |>).
Proof. by apply conn_ok_core. Qed.
Lemma conn_ok_outputs os c : conn_ok c -> conn_ok (c <| cn_outputs := os |>).
Proof. by apply conn_ok_core. Qed.

Lemma conn_step_wp call c :
  conn_ok c -> call_ok call ->
  wp (conn_step call c) (fun c' => conn_ok c' /\ identity c' = identity c /\
    (state_rank (cn_state c) <= state_rank (cn_state c'))%nat).
Proof.
  intros Hok Hc. destruct (is_poll call) eqn:Hp.
  - destruct call; try done; cbn [conn_step].
    + unfold poll_event. destruct (cn_events c); simpl; [by split_and!|].
      split_and!; [by apply conn_ok_events|done..].
    + unfold poll_output. destruct (cn_outputs c); simpl; [by split_and!|].
      split_and!; [by apply conn_ok_outputs|done..].
  - eapply wp_mono; [by apply conn_step_advance|]. by intros c' [].
Qed.

Lemma conn_step_queues call c c' :
  conn_ok c -> queues_ok c -> call_ok call -> conn_step call c = Ret c' -> queues_ok c'.
Proof.
  intros Hok [He Ho] Hc Hs. destruct (is_poll call) eqn:Hp.
  - destruct call; try done; cbn [conn_step] in Hs; injection Hs as <-.
    + unfold poll_event. destruct (cn_events c) eqn:E; simpl; [by split; [rewrite E|]|].
      split; [by apply Forall_cons in He as [_ He]|exact Ho].
    + unfold poll_output. destruct (cn_outputs c) eqn:E; simpl; [by split; [|rewrite E]|].
      split; [exact He|by apply Forall_cons in Ho as [_ Ho]].
  - pose proof (conn_step_advance call c Hok Hc Hp) as H. rewrite Hs in H.
    by eapply advance_queues.
Qed.

Lemma reaches_ok c c' :
  conn_ok c -> reaches c c' ->
  conn_ok c' /\ identity c' = identity c /\
  (state_rank (cn_state c) <= state_rank (cn_state c'))%nat.
Proof.
  intros Hok. induction 1 as [c|c1 c2 c3 call Hr IH Hc Hs]; [done|].
  destruct (IH Hok) as (H1 & H2 & H3).
  pose proof (conn_step_wp call c2 H1 Hc) as H. rewrite Hs in H. cbn [wp] in H.
  destruct H as (? & ? & ?). split_and!; [done|congruence|lia].
Qed.

Lemma reaches_trans c1 c2 c3 : reaches c1 c2 -> reaches c2 c3 -> reaches c1 c3.
Proof. intros H1 H2. induction H2; [done|]. eapply reaches_step; [by apply IHreaches|done..]. Qed.
End Start.
