(* ===== verification/Listener.v ===== *)
(** * Listener: the stateless listener ([listener.rs])

    Induction requests are answered with a SYN cookie and leave no per-peer
    state; a conclusion that returns a valid cookie is accepted, or parked for
    the application ([defer_accepts]).  [FNV-1a] hashes the peer's address, the
    port and the minute. *)

From coqutil Require Import Datatypes.RecordSetters.
From S2P Require Import Prelude Buf Errors Reject Seq Time Timestamp PacketTypes Handshake Control Packet KeyMaterial Crypto Config Event ConnState Rekey Arq Setup Conn.

(** ** [std::net::SocketAddr] *)

Inductive SocketAddr : Type :=
  | AddrV4 (octets : list byte) (port : Z)
  | AddrV6 (octets : list byte) (port flowinfo scope_id : Z).

#[export] Instance socket_addr_eq_dec : EqDecision SocketAddr.
Proof. solve_decision. Defined.

Definition addr_octets (a : SocketAddr) : list byte :=
  match a with AddrV4 o _ => o | AddrV6 o _ _ _ => o end.
Definition addr_port (a : SocketAddr) : Z :=
  match a with AddrV4 _ p => p | AddrV6 _ p _ _ => p end.

Definition addr_ok (a : SocketAddr) : Prop :=
  length (addr_octets a) = (match a with AddrV4 _ _ => 4 | AddrV6 _ _ _ _ => 16 end)%nat.

Definition COOKIE_QUANTUM : Duration := dur_from_secs 60.
Definition PENDING_TTL : Duration := dur_from_secs 30.

Record PendingConn : Type := MkPending {
  pd_from : SocketAddr;
  pd_conclusion : Handshake;
  pd_since : Instant;
}.

Record ConnRequest : Type := MkRequest { rq_remote : SocketAddr; rq_stream_id : option (list byte) }.

Record Listener : Type := MkListener {
  ln_config : Config;
  ln_local_socket_id : SocketId;
  ln_local_initial_seq : SeqNumber;
  ln_cookie_secret : Z;
  ln_start : Instant;
  ln_responses : list (SocketAddr * list byte);
  ln_accepted : list Connection;
  ln_deferred : bool;
  ln_pending : list PendingConn;
  ln_requests : list ConnRequest;
  ln_accept_counter : Z;
}.

#[export] Instance set_ln_responses : Setter ln_responses.
Proof. mk_setter ln_responses. Defined.
#[export] Instance set_ln_accepted : Setter ln_accepted.
Proof. mk_setter ln_accepted. Defined.
#[export] Instance set_ln_deferred : Setter ln_deferred.
Proof. mk_setter ln_deferred. Defined.
#[export] Instance set_ln_pending : Setter ln_pending.
Proof. mk_setter ln_pending. Defined.
#[export] Instance set_ln_requests : Setter ln_requests.
Proof. mk_setter ln_requests. Defined.
#[export] Instance set_ln_accept_counter : Setter ln_accept_counter.
Proof. mk_setter ln_accept_counter. Defined.

Definition ln_new (config : Config) (local_socket_id : SocketId) (local_initial_seq : SeqNumber)
  (cookie_secret : Z) (now : Instant) : Listener :=
  MkListener config local_socket_id local_initial_seq cookie_secret now [] [] false [] [] 0.

Definition defer_accepts (l : Listener) : Listener := l <| ln_deferred := true |>.

(** ** The SYN cookie *)

Definition FNV_OFFSET : Z := 0xcbf29ce484222325.
Definition FNV_PRIME : Z := 0x00000100000001b3.

Definition fnv_mix (h : Z) (b : byte) : Z := wrap64 (Z.lxor h (u8_to_Z b) * FNV_PRIME).

Definition syn_cookie (secret : Z) (from : SocketAddr) (quantum : Z) : Z :=
  let h := Z.lxor FNV_OFFSET secret in
  let h := foldl fnv_mix h (addr_octets from) in
  let h := foldl fnv_mix h (be_bytes 2 (addr_port from)) in
  let h := foldl fnv_mix h (be_bytes 8 quantum) in
  wrap32 (Z.lxor h (Z.shiftr h 32)).

(** [ip[..4].copy_from_slice(..)] into sixteen zeros, or all sixteen octets. *)
Definition peer_ip (from : SocketAddr) : list byte :=
  match from with
  | AddrV4 o _ => o ++ replicate 12 zero_byte
  | AddrV6 o _ _ _ => o
  end.

Definition ln_quantum (l : Listener) (now : Instant) : Z :=
  as_secs (since now (ln_start l)) / as_secs COOKIE_QUANTUM.

Definition ln_cookie (l : Listener) (from : SocketAddr) (q : Z) : Z :=
  syn_cookie (ln_cookie_secret l) from q.

Definition cookie_valid (l : Listener) (cookie : Z) (from : SocketAddr) (now : Instant) : bool :=
  let q := ln_quantum l now in
  (cookie =? ln_cookie l from q) || ((0 <? q) && (cookie =? ln_cookie l from (q - 1))).

Definition ln_wire_ts (l : Listener) (now : Instant) : Timestamp :=
  from_micros (wrap32 (as_micros (since now (ln_start l)))).

Definition reject_reason (error : ConnectionError) : RejectReason :=
  match error with
  | CoCrypto (MissingKeyMaterial | UnexpectedKeyMaterial) => RejUnsecure
  | CoCrypto _ => RejBadSecret
  | _ => RejUnknown
  end.

(** ** [mint_socket_id]

    At most two counter values are skipped (0 and the listener's own id), so
    three rounds are enough. *)
Fixpoint mint_loop (fuel : nat) (l : Listener) : panicky (SocketId * Listener) :=
  match fuel with
  | O => Panic
  | S fuel =>
      let l := l <| ln_accept_counter ::= fun n => wrap32 (n + 1) |> in
      let id := Z.lxor (socket_id_value (ln_local_socket_id l)) (ln_accept_counter l) in
      if negb (id =? 0) && negb (id =? socket_id_value (ln_local_socket_id l))
      then Ret (socket_id_new id, l)
      else mint_loop fuel l
  end.

Definition mint_socket_id (l : Listener) : panicky (SocketId * Listener) := mint_loop 3 l.

(** [Vec::swap_remove]: the last entry takes the removed one's place. *)
Definition swap_remove {A} (i : nat) (l : list A) : list A :=
  match last l with
  | Some x => take (Init.Nat.pred (length l)) (<[i := x]> l)
  | None => l
  end.

Definition pending_index (remote : SocketAddr) (l : Listener) : option nat :=
  position (fun p => bool_decide (pd_from p = remote)) (ln_pending l).

Section Wire.
Context {B : BytesApi} {P : CryptoPrims}.

Definition push_response (dest : SocketId) (hs : Handshake) (from : SocketAddr)
  (now : Instant) (l : Listener) : panicky Listener :=
  bytes ← encode_control dest (ln_wire_ts l now) (CbHandshake hs);
  Ret (l <| ln_responses ::= fun rs => rs ++ [(from, bytes)] |>).

Definition induction_response (from : SocketAddr) (now : Instant) (l : Listener) : Handshake :=
  MkHandshake HS_VERSION_SRT EfNone SRT_MAGIC (ln_local_initial_seq l) (cfg_mtu (ln_config l))
    (cfg_flow_window (ln_config l)) hst_INDUCTION (ln_local_socket_id l)
    (ln_cookie l from (ln_quantum l now)) (peer_ip from) [].

Definition on_induction (request : Handshake) (from : SocketAddr) (now : Instant)
  (l : Listener) : panicky Listener :=
  push_response (hs_srt_socket_id request) (induction_response from now l) from now l.

Definition rejection_response (from : SocketAddr) (reason : RejectReason) (l : Listener)
  : Handshake :=
  MkHandshake HS_VERSION_SRT EfNone 0 (ln_local_initial_seq l) (cfg_mtu (ln_config l))
    (cfg_flow_window (ln_config l)) (hst_rejection reason) (ln_local_socket_id l) 0
    (peer_ip from) [].

Definition ln_reject (conclusion : Handshake) (from : SocketAddr) (reason : RejectReason)
  (now : Instant) (l : Listener) : panicky Listener :=
  push_response (hs_srt_socket_id conclusion) (rejection_response from reason l) from now l.

Definition park_conclusion (conclusion : Handshake) (from : SocketAddr) (now : Instant)
  (l : Listener) : panicky Listener :=
  match validate_accept (ln_config l) conclusion with
  | Crash => Panic
  | Err error => ln_reject conclusion from (reject_reason error) now l
  | Ok _ =>
      match pending_index from l with
      | Some i =>
          Ret (l <| ln_pending ::= alter (fun _ => MkPending from conclusion now) i |>)
      | None =>
          Ret (l <| ln_pending ::= fun ps => ps ++ [MkPending from conclusion now] |>
                 <| ln_requests ::= fun rs => rs ++ [MkRequest from (find_stream_id conclusion)] |>)
      end
  end.

Definition on_conclusion (conclusion : Handshake) (from : SocketAddr) (now : Instant)
  (l : Listener) : panicky Listener :=
  if negb (cookie_valid l (hs_syn_cookie conclusion) from now) then Ret l else
  if ln_deferred l then park_conclusion conclusion from now l else
  '(conn_id, l) ← mint_socket_id l;
  match accept (ln_config l) conn_id (ln_local_initial_seq l) conclusion now with
  | Crash => Panic
  | Ok conn => Ret (l <| ln_accepted ::= fun cs => cs ++ [conn] |>)
  | Err error => ln_reject conclusion from (reject_reason error) now l
  end.

(** [self.pending.retain(..)] *)
Definition expire_pending (now : Instant) (l : Listener) : Listener :=
  l <| ln_pending ::= List.filter (fun p => since now (pd_since p) <? PENDING_TTL) |>.

Definition ln_feed_recv_buf (datagram : list byte) (from : SocketAddr) (now : Instant)
  (l : Listener) : panicky Listener :=
  let l := expire_pending now l in
  match packet_decode datagram with
  | Crash => Panic
  | Ok (PControl (MkControl _ _ (CbHandshake hs))) =>
      if decide (hs_handshake_type hs = hst_INDUCTION) then on_induction hs from now l
      else if decide (hs_handshake_type hs = hst_CONCLUSION) then on_conclusion hs from now l
      else Ret l
  | _ => Ret l
  end.

(** ** The application's decision *)

Definition accept_pending (remote : SocketAddr) (now : Instant) (l : Listener)
  : panicky ((ConnectionError + Connection) * Listener) :=
  match pending_index remote l with
  | None => Ret (inl InvalidState, l)
  | Some index =>
      match ln_pending l !! index with
      | None => Panic
      | Some parked =>
          let l := l <| ln_pending ::= swap_remove index |> in
          '(conn_id, l) ← mint_socket_id l;
          match accept (ln_config l) conn_id (ln_local_initial_seq l) (pd_conclusion parked) now with
          | Crash => Panic
          | Ok conn => Ret (inr conn, l)
          | Err error =>
              l ← ln_reject (pd_conclusion parked) (pd_from parked) (reject_reason error) now l;
              Ret (inl error, l)
          end
      end
  end.

Definition reject_pending (remote : SocketAddr) (reason : RejectReason) (now : Instant)
  (l : Listener) : panicky (bool * Listener) :=
  match pending_index remote l with
  | None => Ret (false, l)
  | Some index =>
      match ln_pending l !! index with
      | None => Panic
      | Some parked =>
          let l := l <| ln_pending ::= swap_remove index |> in
          l ← ln_reject (pd_conclusion parked) (pd_from parked) reason now l;
          Ret (true, l)
      end
  end.
End Wire.

(** ** The polls *)

Definition poll_request (l : Listener) : option ConnRequest * Listener :=
  match ln_requests l with
  | [] => (None, l)
  | r :: rest => (Some r, l <| ln_requests := rest |>)
  end.

Definition poll_response (l : Listener) : option (SocketAddr * list byte) * Listener :=
  match ln_responses l with
  | [] => (None, l)
  | r :: rest => (Some r, l <| ln_responses := rest |>)
  end.

Definition poll_accept (l : Listener) : option Connection * Listener :=
  match ln_accepted l with
  | [] => (None, l)
  | c :: rest => (Some c, l <| ln_accepted := rest |>)
  end.
