(* ===== verification/ListenerInv.v ===== *)
(** * ListenerInv: the listener's invariant and the preservation of it *)

From coqutil Require Import Datatypes.RecordSetters.
From S2P Require Import Prelude Buf Errors Reject Seq Time Timestamp PacketTypes Handshake Control Packet KeyMaterial Crypto Config Event ConnState Rekey Arq Setup Conn ConnInv ConnStart Listener.

(** At most one parked conclusion per address, each well formed; every accepted
    connection sound. *)
Record ln_ok (l : Listener) : Prop := {
  lo_config : stream_id_fits_config (ln_config l);
  lo_id : u32_ok (socket_id_value (ln_local_socket_id l));
  lo_seq : seq_ok (ln_local_initial_seq l);
  lo_counter : u32_ok (ln_accept_counter l);
  lo_pending : NoDup (pd_from <$> ln_pending l);
  lo_parked : Forall (fun p => hs_ok (pd_conclusion p)) (ln_pending l);
  lo_accepted : Forall conn_ok (ln_accepted l);
}.

(** What no operation touches. *)
Definition ln_identity (l : Listener) :=
  (ln_config l, ln_local_socket_id l, ln_local_initial_seq l, ln_cookie_secret l, ln_start l).

(** One accepted or parked connection attempt is all a datagram can add. *)
Definition per_peer_state (l : Listener) : nat :=
  (length (ln_pending l) + length (ln_accepted l))%nat.

(** ** Small facts *)

Lemma swap_remove_perm {A} i (l : list A) x : l !! i = Some x -> x :: swap_remove i l ≡ₚ l.
Proof.
  intros Hi. unfold swap_remove.
  destruct l as [|z init _] using rev_ind; [done|]. rewrite last_snoc, length_app. simpl.
  replace (Init.Nat.pred (length init + 1)) with (length init) by lia.
  apply lookup_app_Some in Hi as [Hi|[Hge Hi]].
  - rewrite insert_app_l by (by eapply lookup_lt_Some).
    rewrite take_app_length' by (by rewrite length_insert).
    apply list_elem_of_split_length in Hi as (a & b & -> & ->).
    rewrite insert_app_r_alt, Nat.sub_diag by lia. simpl.
    rewrite (Permutation_app_comm a (x :: b)). simpl. constructor.
    rewrite <- Permutation_middle, <- Permutation_cons_append. f_equiv.
    apply Permutation_app_comm.
  - destruct (i - length init)%nat as [|k] eqn:E; [|destruct k; done]. injection Hi as ->.
    replace i with (length init + 0)%nat by lia.
    rewrite insert_app_r. simpl. rewrite take_app_length. apply Permutation_cons_append.
Qed.

Lemma pending_index_some l remote i :
  pending_index remote l = Some i ->
  exists p, ln_pending l !! i = Some p /\ pd_from p = remote.
Proof.
  intros [(p & Hp & Hb) _]%position_spec. exists p. split; [done|]. by apply bool_decide_eq_true in Hb.
Qed.

Lemma position_none {A} (p : A -> bool) l :
  position p l = None <-> Forall (fun x => p x = false) l.
Proof.
  induction l as [|x l IH]; simpl; [done|]. rewrite Forall_cons.
  destruct (p x); [split; [done|by intros []]|]. rewrite fmap_None, IH. tauto.
Qed.

Lemma pending_index_none l remote :
  pending_index remote l = None <-> remote ∉ (pd_from <$> ln_pending l).
Proof.
  unfold pending_index. rewrite position_none, Forall_forall, list_elem_of_fmap. split.
  - intros H (p & -> & Hp). specialize (H p Hp). by rewrite bool_decide_true in H.
  - intros H p Hp. apply bool_decide_false. intros <-. apply H. by exists p.
Qed.

(** ** [mint_socket_id] *)

Lemma lxor_eq_0 a b : Z.lxor a b = 0 -> a = b.
Proof. apply Z.lxor_eq. Qed.

Lemma lxor_self_r a b : Z.lxor a b = a -> b = 0.
Proof.
  intros H. apply (f_equal (Z.lxor a)) in H.
  by rewrite Z.lxor_nilpotent, <- Z.lxor_assoc, Z.lxor_nilpotent, Z.lxor_0_l in H.
Qed.

(** The counter the next mint settles on. *)
Definition next_counter (l : Listener) : Z :=
  let own := socket_id_value (ln_local_socket_id l) in
  let n1 := wrap32 (ln_accept_counter l + 1) in
  if (n1 =? 0) || (n1 =? own) then
    let n2 := wrap32 (n1 + 1) in
    if (n2 =? 0) || (n2 =? own) then wrap32 (n2 + 1) else n2
  else n1.

Lemma mint_test own n :
  negb (Z.lxor own n =? 0) && negb (Z.lxor own n =? own) = negb ((n =? 0) || (n =? own)).
Proof.
  destruct (Z.eqb_spec (Z.lxor own n) 0) as [E|E].
  { apply lxor_eq_0 in E as ->. rewrite Z.eqb_refl, orb_true_r. done. }
  destruct (Z.eqb_spec (Z.lxor own n) own) as [E'|E'].
  { apply lxor_self_r in E' as ->. done. }
  destruct (Z.eqb_spec n 0) as [->|]; [by rewrite Z.lxor_0_r in E'|].
  destruct (Z.eqb_spec n own) as [->|]; [by rewrite Z.lxor_nilpotent in E|done].
Qed.

Lemma mint_own l n :
  ln_local_socket_id (l <| ln_accept_counter := n |>) = ln_local_socket_id l.
Proof. reflexivity. Qed.

Lemma mint_loop_S fuel l :
  mint_loop (S fuel) l =
    let own := socket_id_value (ln_local_socket_id l) in
    let n := wrap32 (ln_accept_counter l + 1) in
    let l' := l <| ln_accept_counter := n |> in
    if (n =? 0) || (n =? own) then mint_loop fuel l'
    else Ret (socket_id_new (Z.lxor own n), l').
Proof.
  cbv zeta. cbn [mint_loop]. destruct l. cbv beta iota zeta.
  match goal with |- (if negb (Z.lxor ?a ?n =? 0) && _ then _ else _) = _ =>
    pose proof (mint_test a n) as H end.
  simpl in *. rewrite H. by destruct (_ || _).
Qed.

Lemma mint_eq l :
  u32_ok (socket_id_value (ln_local_socket_id l)) ->
  mint_socket_id l =
    Ret (socket_id_new (Z.lxor (socket_id_value (ln_local_socket_id l)) (next_counter l)),
         l <| ln_accept_counter := next_counter l |>).
Proof.
  intros Hid. unfold mint_socket_id, next_counter. rewrite mint_loop_S. cbv zeta.
  set (own := socket_id_value _) in *. set (n1 := wrap32 (ln_accept_counter l + 1)).
  destruct ((n1 =? 0) || (n1 =? own)) eqn:E1; [|done].
  rewrite mint_loop_S. cbv zeta. rewrite mint_own. fold own.
  change (ln_accept_counter (l <| ln_accept_counter := n1 |>)) with n1.
  set (n2 := wrap32 (n1 + 1)).
  destruct ((n2 =? 0) || (n2 =? own)) eqn:E2; [|by destruct l].
  rewrite mint_loop_S. cbv zeta. rewrite !mint_own. fold own.
  change (ln_accept_counter (_ <| ln_accept_counter := n2 |>)) with n2.
  set (n3 := wrap32 (n2 + 1)).
  destruct ((n3 =? 0) || (n3 =? own)) eqn:E3; [exfalso|by destruct l].
  rewrite !orb_true_iff, !Z.eqb_eq in *. unfold u32_ok in Hid.
  assert (0 <= n1 < 4294967296) by (apply Z.mod_pos_bound; lia).
  assert (n2 = n1 + 1 \/ n2 = n1 + 1 - 4294967296) by (unfold n2; zmod).
  assert (n3 = n2 + 1 \/ n3 = n2 + 1 - 4294967296) by (unfold n3; zmod).
  lia.
Qed.

Lemma next_counter_ok l :
  u32_ok (socket_id_value (ln_local_socket_id l)) ->
  u32_ok (next_counter l) /\ next_counter l <> 0 /\
  next_counter l <> socket_id_value (ln_local_socket_id l).
Proof.
  intros Hid. unfold next_counter. set (own := socket_id_value _) in *. cbv zeta.
  set (n1 := wrap32 (ln_accept_counter l + 1)). set (n2 := wrap32 (n1 + 1)).
  assert (0 <= n1 < 4294967296) by (apply Z.mod_pos_bound; lia).
  assert (n2 = n1 + 1 \/ n2 = n1 + 1 - 4294967296) by (unfold n2; zmod).
  assert (0 <= n2 < 4294967296) by (apply Z.mod_pos_bound; lia).
  assert (0 <= wrap32 (n2 + 1) < 4294967296) by (apply Z.mod_pos_bound; lia).
  assert (wrap32 (n2 + 1) = n2 + 1 \/ wrap32 (n2 + 1) = n2 + 1 - 4294967296) by zmod.
  unfold u32_ok in *.
  destruct (Z.eqb_spec n1 0), (Z.eqb_spec n1 own), (Z.eqb_spec n2 0), (Z.eqb_spec n2 own);
    cbn [orb]; lia.
Qed.

(** Below the wrap the counter only grows, by one except past the own id. *)
Lemma next_counter_grows l :
  0 <= ln_accept_counter l < 4294967294 ->
  ln_accept_counter l < next_counter l <= ln_accept_counter l + 2 /\
  (next_counter l = ln_accept_counter l + 2 ->
   ln_accept_counter l + 1 = socket_id_value (ln_local_socket_id l)).
Proof.
  intros Hc. unfold next_counter. set (own := socket_id_value _) in *. cbv zeta.
  set (n1 := wrap32 (ln_accept_counter l + 1)). set (n2 := wrap32 (n1 + 1)).
  assert (n1 = ln_accept_counter l + 1) as E1 by (unfold n1; zmod).
  assert (n2 = ln_accept_counter l + 2) as E2 by (unfold n2; zmod).
  destruct (Z.eqb_spec n1 0), (Z.eqb_spec n1 own), (Z.eqb_spec n2 0), (Z.eqb_spec n2 own);
    cbn [orb]; lia.
Qed.

(** ** Preservation *)

(** Changes to the queues that the invariant does not read. *)
Lemma ln_ok_queues l l' :
  ln_identity l' = ln_identity l -> ln_accept_counter l' = ln_accept_counter l ->
  ln_pending l' = ln_pending l -> ln_accepted l' = ln_accepted l -> ln_ok l -> ln_ok l'.
Proof.
  unfold ln_identity. intros [= E1 E2 E3 E4 E5] E6 E7 E8 [].
  constructor; rewrite ?E1, ?E2, ?E3, ?E6, ?E7, ?E8; assumption.
Qed.

Lemma ln_ok_pending l l' ps :
  ln_identity l' = ln_identity l -> ln_accept_counter l' = ln_accept_counter l ->
  ln_accepted l' = ln_accepted l -> ln_pending l' = ps ->
  ln_ok l -> NoDup (pd_from <$> ps) -> Forall (fun p => hs_ok (pd_conclusion p)) ps -> ln_ok l'.
Proof.
  unfold ln_identity. intros [= E1 E2 E3 E4 E5] E6 E7 E8 [] Hn Hf.
  constructor; rewrite ?E1, ?E2, ?E3, ?E6, ?E7, ?E8; assumption.
Qed.

Lemma ln_ok_pending_perm l p ps :
  ln_ok l -> p :: ps ≡ₚ ln_pending l -> ln_ok (l <| ln_pending := ps |>).
Proof.
  intros Hok Hp. pose proof (lo_pending _ Hok) as Hn. pose proof (lo_parked _ Hok) as Hf.
  rewrite <- Hp in Hn, Hf. eapply (ln_ok_pending l); [reflexivity..|done| |].
  - by apply NoDup_cons in Hn as [_ Hn].
  - by apply Forall_cons in Hf as [_ Hf].
Qed.

Lemma expire_pending_ok now l : ln_ok l -> ln_ok (expire_pending now l).
Proof.
  intros Hok. unfold expire_pending.
  assert (sublist (List.filter (fun p => since now (pd_since p) <? PENDING_TTL) (ln_pending l))
                  (ln_pending l)) as Hs.
  { induction (ln_pending l) as [|p ps IH]; simpl; [constructor|].
    destruct (_ <? _); [by apply sublist_skip|by apply sublist_cons]. }
  eapply (ln_ok_pending l); [reflexivity..|done| |].
  - eapply sublist_NoDup; [apply (lo_pending _ Hok)|]. by apply fmap_sublist.
  - pose proof (lo_parked _ Hok) as Hf. rewrite Forall_forall in *. intros p Hp. apply Hf.
    by eapply elem_of_sublist.
Qed.

Section Proofs.
Context {B : BytesApi} {HB : BytesSpec B} {P : CryptoPrims} {HP : CryptoSpec P}.

(** Answering never panics: no listener response has an oversized extension. *)
Lemma push_response_eq dest hs from now l :
  hs_extensions hs = [] ->
  exists bs, encode_control dest (ln_wire_ts l now) (CbHandshake hs) = Ret bs /\
    push_response dest hs from now l = Ret (l <| ln_responses ::= fun rs => rs ++ [(from, bs)] |>).
Proof.
  intros He. destruct (encode_control_total dest (ln_wire_ts l now) (CbHandshake hs)) as (bs & E & _).
  { apply hs_body_encodes. rewrite He. constructor. }
  exists bs. split; [done|]. unfold push_response. by rewrite E.
Qed.

Definition ln_keeps (l l' : Listener) : Prop := ln_ok l' /\ ln_identity l' = ln_identity l.

Lemma push_response_wp dest hs from now l :
  ln_ok l -> hs_extensions hs = [] ->
  wp (push_response dest hs from now l) (fun l' => ln_keeps l l' /\
    ln_pending l' = ln_pending l /\ ln_accepted l' = ln_accepted l /\
    ln_requests l' = ln_requests l).
Proof.
  intros Hok He. destruct (push_response_eq dest hs from now l He) as (bs & _ & ->).
  split_and!; [|done..]. split; [by apply (ln_ok_queues l)|done].
Qed.

Lemma ln_keeps_counter l n : ln_ok l -> u32_ok n -> ln_keeps l (l <| ln_accept_counter := n |>).
Proof. intros [] Hn. split; [by constructor|done]. Qed.

Lemma validate_accept_no_crash cfg hs : hs_ok hs -> validate_accept cfg hs <> Crash.
Proof.
  intros Hhs. unfold validate_accept.
  by destruct (accept_crypto_total (cfg_encryption cfg) hs Hhs) as [(u & km & -> & _)|[x ->]].
Qed.

Lemma park_conclusion_wp hs from now l :
  ln_ok l -> hs_ok hs -> wp (park_conclusion hs from now l) (ln_keeps l).
Proof.
  intros Hok Hhs. unfold park_conclusion.
  pose proof (validate_accept_no_crash (ln_config l) hs Hhs) as Hv.
  destruct (validate_accept _ _); [|eapply wp_mono; [by apply push_response_wp|by intros ? []]|done].
  destruct (pending_index from l) as [i|] eqn:E; cbn [wp].
  - split; [|done]. apply pending_index_some in E as (p & Hp & Hf).
    eapply (ln_ok_pending l _ (alter (fun _ => MkPending from hs now) i (ln_pending l)));
      [reflexivity..|done| |].
    + enough (pd_from <$> alter (fun _ => MkPending from hs now) i (ln_pending l)
              = pd_from <$> ln_pending l) as -> by apply Hok.
      apply list_eq. intros j. rewrite !list_lookup_fmap.
      destruct (decide (i = j)) as [<-|Hne].
      * rewrite list_lookup_alter_eq, Hp. simpl. by rewrite Hf.
      * by rewrite list_lookup_alter_ne.
    + apply Forall_lookup_2. intros j q Hq. destruct (decide (i = j)) as [<-|Hne].
      * rewrite list_lookup_alter_eq, Hp in Hq. by injection Hq as <-.
      * rewrite list_lookup_alter_ne in Hq by done.
        by eapply (Forall_lookup_1 _ _ _ _ (lo_parked _ Hok)).
  - split; [|done]. apply pending_index_none in E.
    eapply (ln_ok_pending l _ (ln_pending l ++ [MkPending from hs now])); [reflexivity..|done| |].
    + rewrite fmap_app. apply NoDup_app. split_and!; [apply Hok| |by apply NoDup_singleton].
      intros a0 Ha ->%list_elem_of_singleton. done.
    + apply Forall_app. split; [apply Hok|]. by constructor.
Qed.

Lemma mint_wp l :
  ln_ok l -> exists id n, mint_socket_id l = Ret (id, l <| ln_accept_counter := n |>) /\ u32_ok n.
Proof.
  intros Hok. rewrite mint_eq by apply Hok. eexists _, _. split; [done|].
  apply next_counter_ok, Hok.
Qed.

Lemma on_conclusion_wp hs from now l :
  ln_ok l -> hs_ok hs -> wp (on_conclusion hs from now l) (ln_keeps l).
Proof.
  intros Hok Hhs. unfold on_conclusion. destruct (negb _); [done|].
  destruct (ln_deferred l); [by apply park_conclusion_wp|].
  destruct (mint_wp l Hok) as (id & n & -> & Hn). cbn [mbind panicky_bind].
  pose proof (ln_keeps_counter l n Hok Hn) as [Hok1 Hid1]. set (l1 := l <| ln_accept_counter := n |>) in *.
  clearbody l1.
  destruct (accept_total (ln_config l1) id (ln_local_initial_seq l1) hs now (lo_config _ Hok1) Hhs)
    as [(c & -> & Hc & _)|[x ->]]; cbn [wp].
  - split; [|exact Hid1]. destruct Hok1 as [K1 K2 K3 K4 K5 K6 K7]. constructor; try assumption.
    apply Forall_app. split; [done|]. by constructor.
  - eapply wp_mono; [by apply push_response_wp|]. intros l' ([H1 H2] & _). split; [done|congruence].
Qed.

Lemma ln_feed_wp datagram from now l :
  ln_ok l -> wp (ln_feed_recv_buf datagram from now l) (ln_keeps l).
Proof.
  intros Hok0. unfold ln_feed_recv_buf.
  pose proof (expire_pending_ok now l Hok0) as Hok.
  assert (ln_identity (expire_pending now l) = ln_identity l) as Hid by reflexivity.
  cbv zeta. set (l1 := expire_pending now l) in *. clearbody l1.
  assert (forall m, wp m (ln_keeps l1) -> wp m (ln_keeps l)) as Hk.
  { intros m Hm. eapply wp_mono; [exact Hm|]. intros l' [H1 H2]. split; [done|congruence]. }
  apply Hk. destruct (packet_decode_total datagram) as [(p & -> & Hp)|[x ->]]; [|done].
  destruct p as [d|[ts dest body]]; [done|]. destruct body; try done.
  destruct Hp as (_ & _ & Hhs). simpl in Hhs.
  destruct (decide _); [eapply wp_mono; [by apply push_response_wp|by intros ? []]|].
  destruct (decide _); [by apply on_conclusion_wp|done].
Qed.

Lemma accept_pending_wp remote now l :
  ln_ok l ->
  wp (accept_pending remote now l) (fun r => ln_keeps l r.2 /\ ln_requests r.2 = ln_requests l /\
    match r.1 with inr c => starts c | inl _ => True end).
Proof.
  intros Hok. unfold accept_pending. destruct (pending_index remote l) as [i|] eqn:E; [|done].
  apply pending_index_some in E as (p & Hp & _). rewrite Hp.
  assert (hs_ok (pd_conclusion p)) as Hhs by (by apply (Forall_lookup_1 _ _ _ _ (lo_parked _ Hok) Hp)).
  pose proof (ln_ok_pending_perm l p _ Hok (swap_remove_perm _ _ _ Hp)) as Hok1.
  cbv zeta. change (l <| ln_pending ::= swap_remove i |>)
    with (l <| ln_pending := swap_remove i (ln_pending l) |>).
  assert (ln_identity (l <| ln_pending := swap_remove i (ln_pending l) |>) = ln_identity l) as Hid
    by reflexivity.
  assert (ln_requests (l <| ln_pending := swap_remove i (ln_pending l) |>) = ln_requests l) as Hrq
    by reflexivity.
  set (l1 := l <| ln_pending := _ |>) in *. clearbody l1.
  destruct (mint_wp l1 Hok1) as (id & n & -> & Hn). cbn [mbind panicky_bind].
  pose proof (ln_keeps_counter l1 n Hok1 Hn) as [Hok2 Hid2].
  assert (ln_requests (l1 <| ln_accept_counter := n |>) = ln_requests l1) as Hrq2 by reflexivity.
  set (l2 := l1 <| ln_accept_counter := n |>) in *. clearbody l2.
  destruct (accept_total (ln_config l2) id (ln_local_initial_seq l2) _ now (lo_config _ Hok2) Hhs)
    as [(c & E' & Hc & _)|[x ->]]; [rewrite E'|]; cbn [wp].
  - split; [split; [done|]; simpl; congruence|]. split; [simpl; congruence|].
    exact (starts_accept _ _ _ _ _ c (lo_config _ Hok2) Hhs E').
  - eapply wp_bind; [by apply push_response_wp|]. intros l' ([H1 H2] & _ & _ & H3). simpl.
    split; [split; [done|simpl; congruence]|]. split; [congruence|done].
Qed.

Lemma reject_pending_wp remote reason now l :
  ln_ok l -> wp (reject_pending remote reason now l) (fun r =>
    ln_keeps l r.2 /\ ln_requests r.2 = ln_requests l).
Proof.
  intros Hok. unfold reject_pending. destruct (pending_index remote l) as [i|] eqn:E; [|done].
  apply pending_index_some in E as (p & Hp & _). rewrite Hp.
  pose proof (ln_ok_pending_perm l p _ Hok (swap_remove_perm _ _ _ Hp)) as Hok1.
  eapply wp_bind; [by apply push_response_wp|]. intros l' ([H1 H2] & _ & _ & H3).
  split; [|exact H3]. split; [done|]. exact H2.
Qed.

Lemma ln_new_ok cfg id isn secret now :
  stream_id_fits_config cfg -> u32_ok (socket_id_value id) -> seq_ok isn ->
  ln_ok (ln_new cfg id isn secret now).
Proof. intros. constructor; try done; try constructor. Qed.
End Proofs.
