(* ===== verification/Session.v ===== *)
(** * Session: the four-packet handshake between a caller and a listener

    [handshake_exchange] wires a [connect]ing caller to a [Listener] and carries
    the four datagrams across; the lemmas follow it packet by packet. *)

From S2P Require Import Prelude Buf Errors Reject Seq Time Timestamp PacketTypes Handshake Control Packet RecvBuffer KeyMaterial Crypto Config Event ConnState Rekey Arq Setup Conn ConnInv ConnStart Listener ListenerInv.

(** The datagrams a connection has queued. *)
Definition datagrams (os : list Output) : list (list byte) :=
  omap (fun o => match o with SendDatagram bs => Some bs | _ => None end) os.

Definition of_panicky {A} (m : panicky A) : option A :=
  match m with Ret a => Some a | Panic => None end.

(** What the embedder must configure for its numbers to fit the wire; a Rust
    [String] is valid UTF-8 by construction. *)
Record party_ok (cfg : Config) (id : SocketId) (isn : SeqNumber) : Prop := {
  po_mtu : u32_ok (cfg_mtu cfg);
  po_window : u32_ok (cfg_flow_window cfg);
  po_latency : 0 <= cfg_latency cfg;
  po_stream : forall s, cfg_stream_id cfg = Some s ->
    utf8_valid s = true /\ no_trailing_nul s /\ words_fit (padded_len (length s));
  po_id : socket_id_ok id;
  po_seq : seq_ok isn;
}.

(** Both sides encrypt with one passphrase, or neither encrypts. *)
Definition same_secret (caller listener : Config) : Prop :=
  es_passphrase <$> cfg_encryption caller = es_passphrase <$> cfg_encryption listener.

Section Exchange.
Context {B : BytesApi} {P : CryptoPrims}.

(** Caller at times [t0 < t2 < t4], listener at [t1 < t3]. *)
Definition handshake_exchange (ccfg : Config) (cid : SocketId) (cisn : SeqNumber)
  (rng : nat -> nat -> list byte) (l : Listener) (from : SocketAddr)
  (t0 t1 t2 t3 t4 : Instant) : option (Connection * Connection * Listener) :=
  c ← of_panicky (connect ccfg cid cisn t0 rng);
  d1 ← last (datagrams (cn_outputs c));
  l ← of_panicky (ln_feed_recv_buf d1 from t1 l);
  '(_, d2) ← last (ln_responses l);
  c ← of_panicky (feed_recv_buf d2 t2 c);
  d3 ← last (datagrams (cn_outputs c));
  l ← of_panicky (ln_feed_recv_buf d3 from t3 l);
  a ← last (ln_accepted l);
  d4 ← last (datagrams (cn_outputs a));
  c ← of_panicky (feed_recv_buf d4 t4 c);
  Some (c, a, l).
End Exchange.

Lemma datagrams_snoc os o :
  datagrams (os ++ [o]) =
  datagrams os ++ match o with SendDatagram bs => [bs] | _ => [] end.
Proof. unfold datagrams. rewrite omap_app. by destruct o. Qed.

Section Proofs.
Context {B : BytesApi} {HB : BytesSpec B} {P : CryptoPrims} {HP : CryptoSpec P}.

(** A well-formed control packet survives the wire. *)
Lemma encode_control_decodes dest ts body :
  socket_id_ok dest -> ts_ok ts -> cb_ok body ->
  exists bs, encode_control dest ts body = Ret bs /\
    packet_decode bs = Ok (PControl (MkControl ts dest body)).
Proof.
  intros Hd Ht Hb. unfold encode_control.
  assert (packet_ok (PControl (MkControl ts dest body))) as Hok by done.
  exists (packet_bytes (PControl (MkControl ts dest body))). split.
  - by rewrite packet_encode_bytes.
  - by apply packet_decode_bytes.
Qed.

Lemma wire_ts_ok c now : ts_ok (wire_ts c now).
Proof. unfold ts_ok, u32_ok, wire_ts. simpl. apply Z.mod_pos_bound. lia. Qed.
Lemma ln_wire_ts_ok l now : ts_ok (ln_wire_ts l now).
Proof. unfold ts_ok, u32_ok, ln_wire_ts. simpl. apply Z.mod_pos_bound. lia. Qed.

(** ** The four handshakes are well formed *)

Lemma millis_u16_ok d : 0 <= d -> u16_ok (millis_u16 d).
Proof.
  intros H. assert (0 <= as_millis d) by (apply Z.div_pos; lia).
  unfold millis_u16, clamp, u16_max, u16_ok. case_match; [apply Z.leb_le in H1|]; lia.
Qed.

Lemma hs_ext_ok d : 0 <= d -> srt_hs_ok (srt_handshake_ext (millis_u16 d)).
Proof.
  intros H. pose proof (millis_u16_ok d H). unfold srt_handshake_ext, srt_hs_ok. simpl.
  split_and!; try done; unfold u32_ok; vm_compute; intuition congruence.
Qed.

Lemma km_ext_ok t km :
  (t = EXT_KMREQ \/ t = EXT_KMRSP) -> km_ok km -> ext_ok (ExtRaw t (km_bytes km)).
Proof.
  intros Ht Hkm. pose proof (km_bytes_fit km Hkm) as Hf.
  assert (length (km_bytes km) mod 4 = 0)%nat as Hm.
  { destruct Hkm as (Hk & Hs & Hw). unfold km_bytes.
    rewrite !length_app, !length_be_bytes, Hs, Hw. unfold SALT_LEN, ICV_LEN.
    destruct (km_key_flags km), Hk as [-> |[-> | ->]]; by vm_compute. }
  cbn [ext_ok]. split_and!; try done; destruct Ht as [-> | ->]; try done;
    unfold u16_ok; vm_compute; intuition congruence.
Qed.

Lemma peer_ip_length from : addr_ok from -> length (peer_ip from) = 16%nat.
Proof.
  unfold addr_ok. destruct from; simpl; intros H; [|done]. by rewrite length_app, H.
Qed.

Lemma syn_cookie_ok s from q : u32_ok (syn_cookie s from q).
Proof. unfold u32_ok, syn_cookie. apply Z.mod_pos_bound. lia. Qed.

(** The caller between the packets. *)
Record calling (c : Connection) (cfg : Config) (id : SocketId) (isn : SeqNumber)
  (keys : option (SessionKeys * KeyMaterial)) : Prop := {
  cl_config : cn_config c = cfg;
  cl_id : cn_local_socket_id c = id;
  cl_isn : cn_initial_seq c = isn;
  cl_next : cn_next_send_seq c = isn;
  cl_crypto : cn_crypto c = (fun k => sc_new_even k.1) <$> keys;
  cl_km : cn_key_material c = (fun k => km_bytes k.2) <$> keys;
  cl_keys : is_Some keys <-> is_Some (cfg_encryption cfg);
  cl_keys_ok : forall k, keys = Some k -> km_ok k.2 /\ sk_ok k.1 /\
    forall enc, cfg_encryption cfg = Some enc ->
      sk_from_key_material k.2 (es_passphrase enc) = Ok (MkUnwrapped (Some k.1) None);
}.

Lemma hs_ok_intro v e x q mtu w t id ck ip exts :
  u32_ok v -> u16_ok x -> seq_ok q -> u32_ok mtu -> u32_ok w -> u32_ok (hst_raw t) ->
  socket_id_ok id -> u32_ok ck -> length ip = 16%nat -> Forall ext_ok exts ->
  hs_ok (MkHandshake v e x q mtu w t id ck ip exts).
Proof. intros. by split_and!. Qed.

Lemma conclusion_hs_ok c cfg id isn keys :
  party_ok cfg id isn -> calling c cfg id isn keys -> u32_ok (cn_syn_cookie c) ->
  hs_ok (conclusion_hs c).
Proof.
  intros [Hm Hw Hl Hst Hid Hq] [E1 E2 E3 E4 E5 E6 E7 E8] Hc. unfold conclusion_hs.
  rewrite E1, E2, E3, E6.
  pose proof (hs_ext_ok (cfg_latency cfg) Hl) as Hx.
  assert (forall k km, keys = Some (k, km) -> ext_ok (ExtRaw EXT_KMREQ (km_bytes km))) as Hkx.
  { intros k km Hk. apply km_ext_ok; [by left|]. by apply (E8 (k, km)). }
  assert (forall s, cfg_stream_id cfg = Some s -> ext_ok (StreamId s)) as Hsx.
  { intros s Hs. by apply Hst. }
  clear E8 Hst. destruct (cfg_stream_id cfg) as [s|]; destruct keys as [[k km]|];
    cbv [fmap option_fmap option_map snd]; destruct (cfg_encryption cfg) as [enc|]; cbn [app];
    (apply hs_ok_intro; [by vm_compute|by vm_compute|assumption|assumption|assumption|
      by vm_compute|assumption|assumption|reflexivity|]);
    repeat (apply Forall_cons; split); try apply Forall_nil_2; try exact Hx;
    first [by apply Hsx | by eapply Hkx].
Qed.

Lemma induction_hs_ok c cfg id isn keys :
  party_ok cfg id isn -> calling c cfg id isn keys -> hs_ok (induction_hs c).
Proof.
  intros [Hm Hw Hl Hst Hid Hq] [E1 E2 E3 E4 E5 E6 E7 E8]. unfold induction_hs.
  rewrite E1, E2, E3.
  apply hs_ok_intro; [by vm_compute|by vm_compute|assumption|assumption|assumption|
    by vm_compute|assumption|by vm_compute|reflexivity|apply Forall_nil_2].
Qed.

Lemma induction_response_ok from now l :
  ln_ok l -> u32_ok (cfg_mtu (ln_config l)) -> u32_ok (cfg_flow_window (ln_config l)) ->
  addr_ok from -> hs_ok (induction_response from now l).
Proof.
  intros Hl Hm Hw Ha. unfold induction_response.
  apply hs_ok_intro; [by vm_compute|by vm_compute|apply Hl|assumption|assumption|
    by vm_compute|apply Hl|apply syn_cookie_ok|by apply peer_ip_length|apply Forall_nil_2].
Qed.

Lemma conclusion_kmreq c cfg id isn keys :
  calling c cfg id isn keys -> find_raw EXT_KMREQ (conclusion_hs c) = (fun k => km_bytes k.2) <$> keys.
Proof.
  intros [E1 E2 E3 E4 E5 E6 E7 E8]. unfold conclusion_hs, find_raw. rewrite E1, E6.
  destruct (cfg_stream_id cfg) as [s|]; destruct keys as [[k km]|];
    cbv [fmap option_fmap option_map snd]; destruct (cfg_encryption cfg) as [enc|]; cbn; try done.
  all: exfalso; destruct E7 as [E7 _]; destruct (E7 ltac:(by eexists)); done.
Qed.

Lemma conclusion_latency c ours :
  ng_latency (negotiate ours (conclusion_hs c)) =
    Z.max ours (dur_from_millis (millis_u16 (cfg_latency (cn_config c)))) /\
  ng_peer_initial_seq (negotiate ours (conclusion_hs c)) = cn_initial_seq c /\
  ng_peer_socket_id (negotiate ours (conclusion_hs c)) = cn_local_socket_id c.
Proof.
  unfold negotiate, conclusion_hs.
  destruct (cfg_stream_id (cn_config c)), (cn_key_material c), (cfg_encryption (cn_config c)); cbn; done.
Qed.

Lemma conclusion_fields c :
  hs_handshake_type (conclusion_hs c) = hst_CONCLUSION /\
  hs_syn_cookie (conclusion_hs c) = cn_syn_cookie c /\
  hs_initial_seq (conclusion_hs c) = cn_initial_seq c /\
  hs_srt_socket_id (conclusion_hs c) = cn_local_socket_id c /\
  find_stream_id (conclusion_hs c) = cfg_stream_id (cn_config c).
Proof.
  unfold conclusion_hs, find_stream_id.
  destruct (cfg_stream_id (cn_config c)), (cn_key_material c), (cfg_encryption (cn_config c)); cbn; done.
Qed.

Lemma accept_response_ok cfg id hs km :
  u32_ok (cfg_mtu cfg) -> u32_ok (cfg_flow_window cfg) -> 0 <= cfg_latency cfg ->
  socket_id_ok id -> hs_ok hs ->
  (forall k, km = Some k -> exists m, k = km_bytes m /\ km_ok m) ->
  hs_ok (accept_response cfg id hs km).
Proof.
  intros Hm Hw Hl Hid Hhs Hk. unfold accept_response.
  assert (ext_ok (HsRsp (srt_handshake_ext (millis_u16 (ng_latency (negotiate (cfg_latency cfg) hs))))))
    as Hx by (apply hs_ext_ok; unfold negotiate; cbn; lia).
  destruct km as [km|]; cbn [app];
    (apply hs_ok_intro; [by vm_compute|by vm_compute|apply Hhs|assumption|assumption|
      by vm_compute|assumption|by vm_compute|reflexivity|]);
    repeat (apply Forall_cons; split); try apply Forall_nil_2; try exact Hx.
  destruct (Hk km eq_refl) as (m & -> & Hmk). apply km_ext_ok; [by right|done].
Qed.

(** ** The caller's first packet *)

Lemma emit_handshake_eq dest hs now c :
  socket_id_ok dest -> hs_ok hs ->
  exists bs, packet_decode bs = Ok (PControl (MkControl (wire_ts c now) dest (CbHandshake hs))) /\
    emit_handshake dest hs now c =
    Ret (push_output (SetTimer TiHandshake SYN_INTERVAL)
           (push_output (SendDatagram bs) (c <| cn_last_handshake := Some bs |>))).
Proof.
  intros Hd Hhs.
  destruct (encode_control_decodes dest (wire_ts c now) (CbHandshake hs) Hd (wire_ts_ok _ _) Hhs)
    as (bs & E & Hdec).
  exists bs. split; [done|]. unfold emit_handshake. by rewrite E.
Qed.

Lemma connect_calls cfg id isn now rng :
  party_ok cfg id isn -> rng_fills rng ->
  exists c ts d keys, connect cfg id isn now rng = Ret c /\
    calling c cfg id isn keys /\ cn_state c = StInduction /\
    last (datagrams (cn_outputs c)) = Some d /\
    packet_decode d = Ok (PControl (MkControl ts (socket_id_new 0) (CbHandshake (induction_hs c)))).
Proof.
  intros Hp Hr. unfold connect.
  set (b := new_base cfg id isn now Caller StInduction).
  assert (forall c1 keys, calling c1 cfg id isn keys -> cn_state c1 = StInduction ->
    exists c ts d keys, send_induction now c1 = Ret c /\
    calling c cfg id isn keys /\ cn_state c = StInduction /\
    last (datagrams (cn_outputs c)) = Some d /\
    packet_decode d = Ok (PControl (MkControl ts (socket_id_new 0) (CbHandshake (induction_hs c)))))
    as Hsend.
  { intros c1 keys Hcl Hst.
    destruct (emit_handshake_eq (socket_id_new 0) (induction_hs c1) now c1) as (bs & Hd & E);
      [by vm_compute|by eapply induction_hs_ok|].
    eexists _, _, bs, keys. split; [exact E|]. split; [by destruct Hcl; constructor|].
    split; [exact Hst|]. split; [|exact Hd].
    unfold push_output. cbn. by rewrite !datagrams_snoc, app_nil_r, last_snoc. }
  change (cn_config b) with cfg. destruct (cfg_encryption cfg) as [enc|] eqn:Ee.
  - destruct (sk_generate_ok (es_passphrase enc) (es_key_size enc) (es_cipher enc) rng Hr)
      as (keys & km & -> & Hk & Hkm & _ & Hfrom). cbn [mbind panicky_bind].
    apply (Hsend _ (Some (keys, km))); [|reflexivity].
    constructor; try reflexivity.
    + change (Some (km_encode km []) = Some (km_bytes km)). by rewrite km_encode_bytes.
    + rewrite Ee. by split; intros _; eexists.
    + intros ? [= <-]. split_and!; [done|done|]. intros enc'. rewrite Ee. by intros [= <-].
  - cbn [mbind panicky_bind]. apply (Hsend _ None); [|reflexivity].
    constructor; try reflexivity; [|done].
    rewrite Ee. done.
Qed.

(** ** The listener's answer *)

Lemma ln_identity_reads l l' from now :
  ln_identity l' = ln_identity l ->
  ln_wire_ts l' now = ln_wire_ts l now /\
  induction_response from now l' = induction_response from now l /\
  forall ck, cookie_valid l' ck from now = cookie_valid l ck from now.
Proof.
  unfold ln_identity, ln_wire_ts, induction_response, cookie_valid, ln_cookie, ln_quantum.
  by intros [= -> -> -> -> ->].
Qed.

Lemma listener_induction d ts dest hs from now l :
  ln_ok l -> u32_ok (cfg_mtu (ln_config l)) -> u32_ok (cfg_flow_window (ln_config l)) ->
  addr_ok from -> hs_ok hs -> hs_handshake_type hs = hst_INDUCTION ->
  packet_decode d = Ok (PControl (MkControl ts dest (CbHandshake hs))) ->
  exists bs, packet_decode bs = Ok (PControl (MkControl (ln_wire_ts l now) (hs_srt_socket_id hs)
                                      (CbHandshake (induction_response from now l)))) /\
    ln_feed_recv_buf d from now l =
    Ret (expire_pending now l <| ln_responses ::= fun rs => rs ++ [(from, bs)] |>).
Proof.
  intros Hl Hm Hw Ha Hhs Ht Hd. unfold ln_feed_recv_buf. rewrite Hd.
  rewrite decide_True by done.
  destruct (encode_control_decodes (hs_srt_socket_id hs) (ln_wire_ts l now)
    (CbHandshake (induction_response from now l))) as (bs & E & Hdec);
    [apply Hhs|apply ln_wire_ts_ok|by apply induction_response_ok|].
  exists bs. split; [done|]. unfold on_induction, push_response.
  destruct (ln_identity_reads l (expire_pending now l) from now eq_refl) as (-> & -> & _).
  by rewrite E.
Qed.

(** ** The caller's conclusion *)

Lemma caller_induction_response d ts dest hs now c cfg id isn keys :
  party_ok cfg id isn -> calling c cfg id isn keys -> cn_state c = StInduction ->
  packet_decode d = Ok (PControl (MkControl ts dest (CbHandshake hs))) -> hs_ok hs ->
  hs_version hs = HS_VERSION_SRT -> hs_extension_field hs = SRT_MAGIC ->
  hs_handshake_type hs = hst_INDUCTION ->
  exists c' ts' d', feed_recv_buf d now c = Ret c' /\ calling c' cfg id isn keys /\
    cn_state c' = StConclusion /\ cn_syn_cookie c' = hs_syn_cookie hs /\
    last (datagrams (cn_outputs c')) = Some d' /\
    packet_decode d' = Ok (PControl (MkControl ts' (socket_id_new 0)
                                       (CbHandshake (conclusion_hs c')))).
Proof.
  intros Hp Hcl Hst Hd Hhs Hv Hx Ht. unfold feed_recv_buf. rewrite Hd, Hst.
  cbn [is_connected]. rewrite Hst. unfold on_handshake_packet. rewrite Ht, Hst.
  change (hst_reject_reason hst_INDUCTION) with (@None RejectReason). cbv iota.
  unfold on_induction_response. rewrite Hv, Hx, Ht. rewrite bool_decide_true by done.
  change (negb (HS_VERSION_SRT =? HS_VERSION_SRT) || negb (SRT_MAGIC =? SRT_MAGIC) || negb true)
    with false. cbv iota zeta.
  set (c1 := c <| cn_peer_socket_id := hs_srt_socket_id hs |>
               <| cn_syn_cookie := hs_syn_cookie hs |> <| cn_state := StConclusion |>).
  assert (calling c1 cfg id isn keys) as Hcl1 by (by destruct Hcl; constructor).
  destruct (emit_handshake_eq (socket_id_new 0) (conclusion_hs c1) now c1) as (bs & Hdec & E);
    [by vm_compute|eapply conclusion_hs_ok; [done..|apply Hhs]|].
  eexists _, _, bs. split; [exact E|]. split; [by destruct Hcl1; constructor|].
  split_and!; [reflexivity..| |exact Hdec].
  unfold push_output. cbn. by rewrite !datagrams_snoc, app_nil_r, last_snoc.
Qed.

(** ** The listener accepts *)

(** Either both sides have the key material, or neither. *)
Lemma accept_crypto_agrees c cfg id isn keys lcfg :
  calling c cfg id isn keys -> same_secret cfg lcfg ->
  accept_crypto (cfg_encryption lcfg) (conclusion_hs c) =
  Ok ((fun k => MkUnwrapped (Some k.1) None) <$> keys, (fun k => km_bytes k.2) <$> keys).
Proof.
  intros Hcl Hs. unfold accept_crypto. rewrite (conclusion_kmreq _ _ _ _ _ Hcl).
  destruct Hcl as [E1 E2 E3 E4 E5 E6 E7 E8]. unfold same_secret in Hs.
  destruct (cfg_encryption cfg) as [e1|], (cfg_encryption lcfg) as [e2|]; simplify_eq/=.
  - destruct (proj2 E7) as [[k km] ->]; [by eexists|]. simpl.
    destruct (E8 _ eq_refl) as (Hkm & _ & Hf). simpl in *.
    rewrite km_decode_bytes by done. cbn [map_err mbind res_bind].
    rewrite <- Hs, (Hf e1 eq_refl). done.
  - destruct keys as [k|]; [|done]. destruct (proj1 E7) as [? ?]; [by eexists|done].
Qed.

(** What the two ends of an established session agree on. *)
Record session (c a : Connection) (keys : option SessionKeys) : Prop := {
  se_caller : cn_state c = StConnected;
  se_acceptor : cn_state a = StConnected;
  se_caller_peer : cn_peer_socket_id c = cn_local_socket_id a;
  se_acceptor_peer : cn_peer_socket_id a = cn_local_socket_id c;
  se_forward : rb_base (cn_recv_buffer a) = cn_next_send_seq c;
  se_backward : rb_base (cn_recv_buffer c) = cn_next_send_seq a;
  se_caller_crypto : cn_crypto c = sc_new_even <$> keys;
  se_acceptor_crypto : cn_crypto a = sc_new_even <$> keys;
}.

Lemma accept_agrees c cfg id isn keys lcfg lid lisn now :
  party_ok cfg id isn -> calling c cfg id isn keys -> u32_ok (cn_syn_cookie c) ->
  party_ok lcfg lid lisn -> same_secret cfg lcfg ->
  exists a ts d, accept lcfg lid lisn (conclusion_hs c) now = Ok a /\
    last (datagrams (cn_outputs a)) = Some d /\
    packet_decode d = Ok (PControl (MkControl ts id (CbHandshake
      (accept_response lcfg lid (conclusion_hs c) ((fun k => km_bytes k.2) <$> keys))))) /\
    cn_state a = StConnected /\ cn_local_socket_id a = lid /\ cn_peer_socket_id a = id /\
    rb_base (cn_recv_buffer a) = isn /\ cn_next_send_seq a = isn /\
    cn_crypto a = (fun k => sc_new_even k.1) <$> keys /\
    cn_latency a = Z.max (cfg_latency lcfg) (dur_from_millis (millis_u16 (cfg_latency cfg))).
Proof.
  intros Hp Hcl Hck Hlp Hsec. unfold accept.
  rewrite (accept_crypto_agrees _ _ _ _ _ _ Hcl Hsec). cbn [mbind res_bind]. cbv zeta.
  destruct (conclusion_fields c) as (_ & _ & Hq & Hid & _).
  destruct (conclusion_latency c (cfg_latency lcfg)) as (Hlat & Hpq & Hpid).
  rewrite (cl_config _ _ _ _ _ Hcl) in Hlat. rewrite (cl_isn _ _ _ _ _ Hcl) in Hpq, Hq.
  rewrite (cl_id _ _ _ _ _ Hcl) in Hpid, Hid.
  set (resp := accept_response lcfg lid (conclusion_hs c) ((fun k => km_bytes k.2) <$> keys)).
  assert (hs_ok resp) as Hr.
  { destruct Hlp. apply accept_response_ok; try done; [by eapply conclusion_hs_ok|].
    intros k Hk. apply fmap_Some in Hk as ([kk km] & -> & ->). exists km. split; [done|].
    by apply (cl_keys_ok _ _ _ _ _ Hcl (kk, km)). }
  match goal with |- context [wire_ts ?c0 now] => set (c1 := c0) end.
  destruct (encode_control_decodes (hs_srt_socket_id (conclusion_hs c)) (wire_ts c1 now)
    (CbHandshake resp)) as (bs & E & Hdec); [rewrite Hid; apply Hp|apply wire_ts_ok|exact Hr|].
  rewrite E. cbn [lift mbind res_bind].
  eexists _, _, bs. split; [reflexivity|]. split_and!.
  - reflexivity.
  - rewrite Hid in Hdec. exact Hdec.
  - reflexivity.
  - reflexivity.
  - exact Hpid.
  - exact Hpq.
  - exact Hq.
  - change (sc_from_initial <$> ((fun k : SessionKeys * KeyMaterial => MkUnwrapped (Some k.1) None) <$> keys)
            = (fun k : SessionKeys * KeyMaterial => sc_new_even k.1) <$> keys).
    by destruct keys.
  - exact Hlat.
Qed.

(** ** The cookie's minute *)

Lemma quantum_window l t t' :
  t <= t' <= t + COOKIE_QUANTUM -> ln_quantum l t <= ln_quantum l t' <= ln_quantum l t + 1.
Proof.
  intros Ht. unfold ln_quantum, as_secs, since.
  change COOKIE_QUANTUM with 60000000000 in *. change (60000000000 / 1000000000) with 60.
  rewrite !Z.div_div by lia. change (1000000000 * 60) with 60000000000.
  set (x := Z.max 0 (t - ln_start l)). set (y := Z.max 0 (t' - ln_start l)).
  assert (x <= y <= x + 1 * 60000000000) as Hxy by lia. split.
  - apply Z.div_le_mono; lia.
  - rewrite <- Z.div_add by lia. apply Z.div_le_mono; lia.
Qed.

Lemma quantum_nonneg l t : 0 <= ln_quantum l t.
Proof.
  unfold ln_quantum. apply Z.div_pos; [|by vm_compute].
  apply Z.div_pos; [apply since_nonneg|lia].
Qed.

Lemma cookie_valid_window l from t t' :
  ln_quantum l t <= ln_quantum l t' <= ln_quantum l t + 1 ->
  cookie_valid l (ln_cookie l from (ln_quantum l t)) from t' = true.
Proof.
  intros Hq. pose proof (quantum_nonneg l t). unfold cookie_valid.
  set (q := ln_quantum l t) in *. set (q' := ln_quantum l t') in *.
  destruct (Z.eq_dec q' q) as [->|]; [by rewrite Z.eqb_refl|].
  replace (q' - 1) with q by lia. rewrite Z.eqb_refl.
  rewrite (proj2 (Z.ltb_lt 0 q')) by lia. apply orb_true_r.
Qed.

(** ** The conclusion is accepted *)

Lemma listener_conclusion d ts dest hs from now l id n a :
  packet_decode d = Ok (PControl (MkControl ts dest (CbHandshake hs))) ->
  hs_handshake_type hs = hst_CONCLUSION -> ln_deferred l = false ->
  cookie_valid l (hs_syn_cookie hs) from now = true ->
  mint_socket_id (expire_pending now l) =
    Ret (id, expire_pending now l <| ln_accept_counter := n |>) ->
  accept (ln_config l) id (ln_local_initial_seq l) hs now = Ok a ->
  ln_feed_recv_buf d from now l =
    Ret (expire_pending now l <| ln_accept_counter := n |>
           <| ln_accepted ::= fun cs => cs ++ [a] |>).
Proof.
  intros Hd Ht Hdef Hck Hm Ha. unfold ln_feed_recv_buf. rewrite Hd, Ht.
  rewrite decide_False by done. rewrite decide_True by done. unfold on_conclusion.
  destruct (ln_identity_reads l (expire_pending now l) from now eq_refl) as (_ & _ & ->).
  rewrite Hck. cbn [negb]. change (ln_deferred (expire_pending now l)) with (ln_deferred l).
  rewrite Hdef, Hm. cbn [mbind panicky_bind].
  change (ln_config (expire_pending now l <| ln_accept_counter := n |>)) with (ln_config l).
  change (ln_local_initial_seq (expire_pending now l <| ln_accept_counter := n |>))
    with (ln_local_initial_seq l).
  by rewrite Ha.
Qed.

(** ** The caller is connected *)

Lemma caller_conclusion_response d ts dest hs now c cfg id isn keys :
  calling c cfg id isn keys -> cn_state c = StConclusion ->
  packet_decode d = Ok (PControl (MkControl ts dest (CbHandshake hs))) ->
  hs_version hs = HS_VERSION_SRT -> hs_handshake_type hs = hst_CONCLUSION ->
  exists c', feed_recv_buf d now c = Ret c' /\ cn_state c' = StConnected /\
    cn_local_socket_id c' = id /\ cn_peer_socket_id c' = hs_srt_socket_id hs /\
    rb_base (cn_recv_buffer c') = hs_initial_seq hs /\ cn_next_send_seq c' = isn /\
    cn_crypto c' = (fun k => sc_new_even k.1) <$> keys /\
    cn_latency c' = ng_latency (negotiate (cfg_latency cfg) hs) /\
    last (cn_events c') = Some (EvConnected (negotiate (cfg_latency cfg) hs)).
Proof.
  intros [E1 E2 E3 E4 E5 E6 E7 E8] Hst Hd Hv Ht. unfold feed_recv_buf. rewrite Hd, Hst.
  cbn [is_connected]. rewrite Hst. unfold on_handshake_packet. rewrite Ht, Hst.
  change (hst_reject_reason hst_CONCLUSION) with (@None RejectReason). cbv iota.
  unfold on_conclusion_response. rewrite bool_decide_true by done. rewrite Hv.
  change (negb true || negb (HS_VERSION_SRT =? HS_VERSION_SRT)) with false. cbv iota zeta.
  rewrite E1. eexists. split; [reflexivity|]. split; [reflexivity|]. split; [exact E2|].
  split; [reflexivity|]. split; [reflexivity|]. split; [exact E4|]. split; [exact E5|].
  split; [reflexivity|]. unfold enter_connected, push_event. cbn [cn_events]. apply last_snoc.
Qed.

Lemma accept_response_fields cfg id hs km :
  hs_version (accept_response cfg id hs km) = HS_VERSION_SRT /\
  hs_handshake_type (accept_response cfg id hs km) = hst_CONCLUSION /\
  hs_srt_socket_id (accept_response cfg id hs km) = id /\
  hs_initial_seq (accept_response cfg id hs km) = hs_initial_seq hs /\
  forall ours, ng_latency (negotiate ours (accept_response cfg id hs km)) =
    Z.max ours (dur_from_millis (millis_u16 (ng_latency (negotiate (cfg_latency cfg) hs)))).
Proof. unfold accept_response, negotiate. by destruct km. Qed.

(** ** The exchange *)

Lemma induction_response_cookie from now l :
  hs_syn_cookie (induction_response from now l) = ln_cookie l from (ln_quantum l now).
Proof. unfold induction_response. cbn [hs_syn_cookie]. reflexivity. Qed.

(** The listener's answer reaches the caller with a fresh cookie in it. *)
Lemma exchange_induction ccfg cid cisn rng l from t0 t1 t2 :
  party_ok ccfg cid cisn -> rng_fills rng -> ln_ok l -> addr_ok from ->
  party_ok (ln_config l) (ln_local_socket_id l) (ln_local_initial_seq l) ->
  exists c0 d1 l1 to d2 c1 d3 keys ts,
    connect ccfg cid cisn t0 rng = Ret c0 /\ last (datagrams (cn_outputs c0)) = Some d1 /\
    ln_feed_recv_buf d1 from t1 l = Ret l1 /\ last (ln_responses l1) = Some (to, d2) /\
    feed_recv_buf d2 t2 c0 = Ret c1 /\ last (datagrams (cn_outputs c1)) = Some d3 /\
    calling c1 ccfg cid cisn keys /\ cn_state c1 = StConclusion /\
    cn_syn_cookie c1 = ln_cookie l from (ln_quantum l t1) /\
    packet_decode d3 = Ok (PControl (MkControl ts (socket_id_new 0) (CbHandshake (conclusion_hs c1)))) /\
    ln_ok l1 /\ ln_identity l1 = ln_identity l /\ ln_deferred l1 = ln_deferred l /\
    ln_accepted l1 = ln_accepted l.
Proof.
  intros Hp Hr Hl Ha Hlp.
  destruct (connect_calls ccfg cid cisn t0 rng Hp Hr) as (c0 & ts0 & d1 & keys & E0 & Hcl & Hst & Ho & Hd1).
  destruct (listener_induction d1 ts0 (socket_id_new 0) (induction_hs c0) from t1 l)
    as (d2 & Hd2 & E1);
    [done|apply (po_mtu _ _ _ Hlp)|apply (po_window _ _ _ Hlp)|done|by apply (induction_hs_ok c0 ccfg cid cisn keys)|done|done|].
  destruct (caller_induction_response d2 _ _ _ t2 c0 ccfg cid cisn keys Hp Hcl Hst Hd2)
    as (c1 & ts1 & d3 & E2 & Hcl1 & Hst1 & Hck1 & Ho1 & Hd3);
    [apply induction_response_ok; [done|apply (po_mtu _ _ _ Hlp)|apply (po_window _ _ _ Hlp)|done]
    |reflexivity..|].
  pose proof (ln_feed_wp d1 from t1 l Hl) as Hw. rewrite E1 in Hw. destruct Hw as [Hok1 Hid1].
  eexists c0, d1, _, from, d2, c1, d3, keys, ts1.
  split; [exact E0|]. split; [exact Ho|]. split; [exact E1|].
  split; [change (last (ln_responses l ++ [(from, d2)]) = Some (from, d2)); apply last_snoc|].
  split; [exact E2|]. split; [exact Ho1|]. split; [exact Hcl1|]. split; [exact Hst1|].
  split; [rewrite Hck1; apply induction_response_cookie|].
  split; [exact Hd3|]. split; [exact Hok1|]. split; [exact Hid1|].
  split; reflexivity.
Qed.

Lemma exchange_conclusion ccfg cid cisn keys c l l1 from t1 t3 t4 ts d3 :
  party_ok ccfg cid cisn -> calling c ccfg cid cisn keys -> cn_state c = StConclusion ->
  party_ok (ln_config l) (ln_local_socket_id l) (ln_local_initial_seq l) ->
  same_secret ccfg (ln_config l) -> ln_ok l1 -> ln_identity l1 = ln_identity l ->
  ln_deferred l1 = false -> cn_syn_cookie c = ln_cookie l from (ln_quantum l t1) ->
  ln_quantum l t1 <= ln_quantum l t3 <= ln_quantum l t1 + 1 ->
  packet_decode d3 = Ok (PControl (MkControl ts (socket_id_new 0) (CbHandshake (conclusion_hs c)))) ->
  exists a l2 d4 c2,
    ln_feed_recv_buf d3 from t3 l1 = Ret l2 /\ last (ln_accepted l2) = Some a /\
    last (datagrams (cn_outputs a)) = Some d4 /\ feed_recv_buf d4 t4 c = Ret c2 /\
    session c2 a (fst <$> keys) /\
    cn_latency a = Z.max (cfg_latency (ln_config l)) (dur_from_millis (millis_u16 (cfg_latency ccfg))) /\
    cn_latency c2 = Z.max (cfg_latency ccfg) (dur_from_millis (millis_u16 (cn_latency a))) /\
    cn_local_socket_id a <> ln_local_socket_id l /\ socket_id_value (cn_local_socket_id a) <> 0.
Proof.
  intros Hp Hcl Hst Hlp Hsec Hok1 Hid1 Hdef Hck Hq Hd3.
  assert (ln_config l1 = ln_config l /\ ln_local_socket_id l1 = ln_local_socket_id l /\
          ln_local_initial_seq l1 = ln_local_initial_seq l) as (Ec & El & Es).
  { unfold ln_identity in Hid1. by injection Hid1. }
  pose proof (expire_pending_ok t3 l1 Hok1) as Hok1'.
  pose proof (mint_eq (expire_pending t3 l1) (lo_id _ Hok1')) as Hm.
  pose proof (next_counter_ok (expire_pending t3 l1) (lo_id _ Hok1')) as (Hn & Hn0 & Hnown).
  set (n := next_counter (expire_pending t3 l1)) in *.
  set (lid := socket_id_new _) in Hm.
  change (ln_local_socket_id (expire_pending t3 l1)) with (ln_local_socket_id l1) in Hnown, lid.
  assert (socket_id_ok lid) as Hlid.
  { unfold lid, socket_id_ok. simpl. apply (lxor_range 32); [lia|apply (lo_id _ Hok1)|exact Hn]. }
  assert (party_ok (ln_config l) lid (ln_local_initial_seq l)) as Hlp' by (by destruct Hlp).
  destruct (accept_agrees c ccfg cid cisn keys (ln_config l) lid (ln_local_initial_seq l) t3 Hp Hcl)
    as (a & ts' & d4 & Ha & Ho & Hd4 & Hsa & Hlida & Hpa & Hrb & Hns & Hcr & Hlat);
    [rewrite Hck; apply syn_cookie_ok|done..|].
  destruct (conclusion_fields c) as (Hct & Hcc & Hcq & _).
  pose proof (listener_conclusion d3 _ _ _ from t3 l1 lid n a Hd3 Hct Hdef) as Hfeed.
  rewrite Hcc, Hck in Hfeed.
  destruct (ln_identity_reads l l1 from t3 Hid1) as (_ & _ & Hcv). rewrite Hcv in Hfeed.
  specialize (Hfeed (cookie_valid_window l from t1 t3 Hq) Hm).
  rewrite Ec, Es in Hfeed. specialize (Hfeed Ha).
  destruct (accept_response_fields (ln_config l) lid (conclusion_hs c) ((fun k => km_bytes k.2) <$> keys))
    as (Hv & Ht & Hri & Hrq & Hrl).
  destruct (caller_conclusion_response d4 _ _ _ t4 c ccfg cid cisn keys Hcl Hst Hd4 Hv Ht)
    as (c2 & E4 & Hs2 & Hi2 & Hp2 & Hrb2 & Hns2 & Hcr2 & Hlat2 & _).
  destruct (conclusion_latency c (cfg_latency (ln_config l))) as (Hnl & _).
  rewrite (cl_config _ _ _ _ _ Hcl) in Hnl.
  eexists a, _, d4, c2. split; [exact Hfeed|]. split_and!; try done.
  - change (last (ln_accepted l1 ++ [a]) = Some a). apply last_snoc.
  - constructor; try done; try congruence.
    + by rewrite Hrb2, Hrq, Hcq, Hns, (cl_isn _ _ _ _ _ Hcl).
    + rewrite Hcr2. by destruct keys.
    + rewrite Hcr. by destruct keys.
  - rewrite Hlat2, Hrl, Hnl, Hlat. done.
  - rewrite Hlida. intros Heq. rewrite <- El in Heq. apply (f_equal socket_id_value) in Heq.
    unfold lid in Heq. simpl in Heq. by apply lxor_self_r in Heq.
  - rewrite Hlida. unfold lid. simpl. intros Heq%lxor_eq_0. by rewrite <- Heq in Hnown.
Qed.
End Proofs.

(** ** A concrete pair of parties, for the witnesses *)

Definition ex_passphrase : list byte := u8_of_Z <$> [115; 114; 116; 45; 115; 101; 99; 114; 101; 116].
Definition ex_stream : list byte := u8_of_Z <$> [108; 105; 118; 101; 47; 49].
Definition ex_enc (k : KeySize) (m : CipherMode) : EncryptionSettings :=
  MkEncSettings ex_passphrase k m.

Definition ex_config (enc : option EncryptionSettings) (latency_ms : Z) : Config :=
  MkConfig (dur_from_millis latency_ms) 1500 8192 (Some ex_stream) enc 0 0 None
    (dur_from_secs 3) (dur_from_secs 5) (dur_from_secs 3).

Definition ex_rng (i n : nat) : list byte := replicate n (u8_of_Z (Z.of_nat (7 * i + 3))).

Definition ex_addr : SocketAddr := AddrV4 (u8_of_Z <$> [192; 0; 2; 7]) 50123.
Definition ex_caller_id : SocketId := socket_id_new 77.
Definition ex_listener_id : SocketId := socket_id_new 0x40000001.

Definition ex_listener (enc : option EncryptionSettings) : Listener :=
  ln_new (ex_config enc 250) ex_listener_id (MkSeq 900) 0x1234567 0.

(** A connected endpoint holding the given keys. *)
Definition ex_keys (m : CipherMode) : SessionKeys :=
  MkKeys (replicate 16 (u8_of_Z 3)) (replicate 16 (u8_of_Z 10)) m.

Definition ex_connected (enc : option EncryptionSettings) (crypto : option SessionCrypto)
  : Connection :=
  (new_base (ex_config enc 120) ex_caller_id (MkSeq 0x7ffffffe) 0 Caller StConnected)
    <| cn_crypto := crypto |>.

Lemma ex_stream_ok :
  utf8_valid ex_stream = true /\ no_trailing_nul ex_stream /\
  words_fit (padded_len (length ex_stream)).
Proof. split_and!; vm_compute; done. Qed.

Lemma ex_config_party enc ms id isn :
  0 <= ms -> socket_id_ok id -> seq_ok isn -> party_ok (ex_config enc ms) id isn.
Proof.
  intros Hms Hid Hq. constructor; try done; try (by vm_compute).
  - simpl. unfold dur_from_millis. lia.
  - intros s [= <-]. apply ex_stream_ok.
Qed.

Lemma ex_keys_ok m : sk_ok (ex_keys m).
Proof. by split. Qed.

Lemma ex_connected_ok enc crypto :
  (forall sc, crypto = Some sc -> sc_ok sc) -> conn_ok (ex_connected enc crypto).
Proof.
  intros Hsc.
  assert (conn_ok (new_base (ex_config enc 120) ex_caller_id (MkSeq 0x7ffffffe) 0 Caller StConnected))
    as [K1 K2 K3 K4 K5 K6 K7 K8 K9].
  { apply new_base_ok; [intros s [= <-]; apply ex_stream_ok|by vm_compute]. }
  constructor; try assumption. intros sc _ [H|[? H]]; done.
Qed.

Lemma ex_rng_fills : rng_fills ex_rng.
Proof. intros i n. apply length_replicate. Qed.

Lemma ex_listener_ok enc : ln_ok (ex_listener enc).
Proof. apply ln_new_ok; [intros s [= <-]; apply ex_stream_ok|by vm_compute..]. Qed.

(** ** The property *)

(** C9 (refinement).  A caller and a listener that share the secret, or use
    none, complete the four-packet handshake for every packet size, stream id,
    address, cipher and key size, at every pacing of the packets that returns
    the cookie within its minute; the listener accepts at once, and the latencies
    are whole milliseconds, 65,535 at most.  Both end up connected and agree: each end
    receives from the sequence number the other sends from, addresses the
    other's socket id, holds the same session key (present exactly when
    encryption is configured), and delays by the larger of the two configured
    latencies.  The accepted socket id is neither zero nor the listener's own. *)
Theorem handshake_establishes_session {B : BytesApi} {HB : BytesSpec B} {P : CryptoPrims}
  {HP : CryptoSpec P} (ccfg : Config) (cid : SocketId) (cisn : SeqNumber)
  (rng : nat -> nat -> list byte) (l : Listener) (from : SocketAddr)
  (t0 t1 t2 t3 t4 : Instant) (ms lms : Z) :
  party_ok ccfg cid cisn -> rng_fills rng -> addr_ok from -> ln_ok l -> ln_deferred l = false ->
  party_ok (ln_config l) (ln_local_socket_id l) (ln_local_initial_seq l) ->
  same_secret ccfg (ln_config l) -> t1 <= t3 <= t1 + COOKIE_QUANTUM ->
  cfg_latency ccfg = dur_from_millis ms -> cfg_latency (ln_config l) = dur_from_millis lms ->
  ms <= u16_max -> lms <= u16_max ->
  exists c a l' keys,
    handshake_exchange ccfg cid cisn rng l from t0 t1 t2 t3 t4 = Some (c, a, l') /\
    session c a keys /\ (is_Some keys <-> is_Some (cfg_encryption ccfg)) /\
    cn_latency c = dur_from_millis (Z.max ms lms) /\
    cn_latency a = dur_from_millis (Z.max ms lms) /\
    socket_id_value (cn_local_socket_id a) <> 0 /\ cn_local_socket_id a <> ln_local_socket_id l.
Proof.
  intros Hp Hr Ha Hl Hdef Hlp Hsec Ht Hms Hlms Hb Hlb.
  destruct (exchange_induction ccfg cid cisn rng l from t0 t1 t2 Hp Hr Hl Ha Hlp)
    as (c0 & d1 & l1 & to & d2 & c1 & d3 & keys & ts & E0 & Eo0 & E1 & Eo1 & E2 & Eo2 & Hcl & Hst &
        Hck & Hd3 & Hok1 & Hid1 & Hdef1 & _).
  rewrite Hdef in Hdef1.
  destruct (exchange_conclusion ccfg cid cisn keys c1 l l1 from t1 t3 t4 ts d3 Hp Hcl Hst Hlp Hsec
    Hok1 Hid1 Hdef1 Hck (quantum_window l t1 t3 Ht) Hd3)
    as (a & l2 & d4 & c2 & E3 & Eo3 & Eo4 & E4 & Hs & Hla & Hlc & Hne & Hn0).
  exists c2, a, l2, (fst <$> keys). split.
  - unfold handshake_exchange. rewrite E0. cbn [of_panicky mbind option_bind]. rewrite Eo0.
    cbn [of_panicky mbind option_bind]. rewrite E1. cbn [of_panicky mbind option_bind].
    rewrite Eo1. cbn [of_panicky mbind option_bind]. rewrite E2.
    cbn [of_panicky mbind option_bind]. rewrite Eo2. cbn [of_panicky mbind option_bind]. rewrite E3.
    cbn [of_panicky mbind option_bind]. rewrite Eo3. cbn [of_panicky mbind option_bind]. rewrite Eo4.
    cbn [of_panicky mbind option_bind]. by rewrite E4.
  - split; [exact Hs|]. split; [rewrite fmap_is_Some; apply Hcl|].
    pose proof (po_latency _ _ _ Hp) as H0. pose proof (po_latency _ _ _ Hlp) as H1.
    rewrite Hms in *. rewrite Hlms in *. unfold dur_from_millis in *.
    unfold millis_u16, clamp, as_millis in *. rewrite Z.div_mul in Hla by lia.
    rewrite (proj2 (Z.leb_le _ _) Hb) in Hla.
    assert (cn_latency a = Z.max ms lms * 1000000) as Ea by lia.
    rewrite Ea, Z.div_mul in Hlc by lia. rewrite (proj2 (Z.leb_le _ _)) in Hlc by lia.
    split_and!; [lia|done..].
Qed.

Lemma handshake_establishes_session_witness :
  let enc := Some (ex_enc Aes256 Gcm) in
  exists c a l' keys,
    @handshake_exchange vec_bytes toy_prims (ex_config enc 120) ex_caller_id (MkSeq 0x7ffffffe)
      ex_rng (ex_listener enc) ex_addr 0 1000 2000 3000 4000 = Some (c, a, l') /\
    session c a keys /\ (is_Some keys <-> True) /\ cn_latency c = dur_from_millis 250.
Proof.
  pose proof toy_spec as HP.
  destruct (@handshake_establishes_session vec_bytes vec_bytes_spec toy_prims HP
    (ex_config (Some (ex_enc Aes256 Gcm)) 120) ex_caller_id (MkSeq 0x7ffffffe) ex_rng
    (ex_listener (Some (ex_enc Aes256 Gcm))) ex_addr 0 1000 2000 3000 4000 120 250)
    as (c & a & l' & keys & E & Hs & Hk & Hc & _).
  - by apply ex_config_party; vm_compute.
  - exact ex_rng_fills.
  - by vm_compute.
  - apply ex_listener_ok.
  - reflexivity.
  - by apply ex_config_party; vm_compute.
  - reflexivity.
  - by vm_compute.
  - reflexivity.
  - reflexivity.
  - by vm_compute.
  - by vm_compute.
  - exists c, a, l', keys. split_and!; [exact E|exact Hs| |exact Hc].
    split; [done|]. intros _. apply Hk. by eexists.
Defined.

(** The acceptor sends from the number it receives from, under the same key and
    salt: the n-th packets of the two directions have the same counter. *)
Lemma directions_share_numbers {B : BytesApi} {P : CryptoPrims} cfg id isn hs now c a keys :
  accept cfg id isn hs now = Ok a -> session c a keys ->
  cn_next_send_seq a = cn_next_send_seq c /\ cn_crypto a = cn_crypto c.
Proof.
  intros E [_ _ _ _ Hf _ Hc Ha]. split; [|congruence]. rewrite <- Hf. unfold accept in E. cbv zeta in E.
  destruct (accept_crypto _ _) as [[crypto km]|x|]; [|done..]. cbn [mbind res_bind] in E.
  destruct (encode_control _ _ _); [|done]. cbn [lift mbind res_bind] in E. by injection E as <-.
Qed.
