(* ===== verification/Delivery.v ===== *)
(** * Delivery: a message from [send] to the peer's reassembler

    Follows one application message: fragmentation, encryption, the wire, the
    peer's decryption and reassembly.  [covers c r] is what the handshake and
    every rekey establish: the receiver holds each key the sender may use. *)

From S2P Require Import Prelude Buf Errors Seq Time Timestamp PacketTypes Packet SendBuffer RecvBuffer Fec KeyMaterial Crypto Config Event Fragment ConnState Rekey Arq Conn ConnInv ConnStart Session.

Definition sc_slot (sc : SessionCrypto) (e : Encryption) : option SessionKeys :=
  match e with EncEven => sc_even sc | EncOdd => sc_odd sc | EncNone => None end.

Definition covers (c r : Connection) : Prop :=
  forall sc, cn_crypto c = Some sc -> exists sc', cn_crypto r = Some sc' /\
    forall e k, sc_slot sc e = Some k -> sc_slot sc' e = Some k.

(** The packets a buffer gained. *)
Definition sent_since (c c' : Connection) : list DataPacket :=
  sent_packet <$> drop (sb_len (cn_send_buffer c)) (sb_packets (cn_send_buffer c')).

Section Proofs.
Context {B : BytesApi} {HB : BytesSpec B} {P : CryptoPrims} {HP : CryptoSpec P}.

Lemma covers_activate sc f e : sc_slot (sc_activate sc f) e = sc_slot sc e.
Proof. by destruct e. Qed.

Lemma covers_slots c1 c2 r :
  (forall sc, cn_crypto c2 = Some sc -> exists sc', cn_crypto c1 = Some sc' /\
     forall e, sc_slot sc e = sc_slot sc' e) -> covers c1 r -> covers c2 r.
Proof.
  intros Hs Hc sc Hsc. destruct (Hs sc Hsc) as (sc1 & Hsc1 & He).
  destruct (Hc sc1 Hsc1) as (sc2 & Hsc2 & Hk). exists sc2. split; [done|].
  intros e k. rewrite He. apply Hk.
Qed.

Lemma account_key_crypto c sc :
  cn_crypto (account_key_and_maybe_rotate c) = Some sc ->
  exists sc', cn_crypto c = Some sc' /\ forall e, sc_slot sc e = sc_slot sc' e.
Proof.
  unfold account_key_and_maybe_rotate. destruct (cn_crypto c) as [sc0|] eqn:E; [|by rewrite E].
  cbv zeta. set (c1 := maybe_switch_key (km_refresh c) c).
  assert (forall s, cn_crypto c1 = Some s -> exists s', cn_crypto c = Some s' /\
            forall e, sc_slot s e = sc_slot s' e) as H1.
  { intros s. unfold c1, maybe_switch_key. destruct (_ && _); [|rewrite E; intros ->; by eexists].
    change (cn_crypto (c <| cn_crypto ::= fmap (fun crypto => sc_activate crypto (sc_next_flags crypto)) |>
      <| cn_packets_on_key := 0 |> <| cn_next_key_ready := false |>))
      with ((fun crypto => sc_activate crypto (sc_next_flags crypto)) <$> cn_crypto c).
    rewrite E. intros [= <-]. exists sc0. split; [done|]. intros e. apply covers_activate. }
  rewrite E in H1. clearbody c1. clear E. intros H. apply H1. revert H. unfold maybe_request_key.
  destruct (_ && _); [|done]. by destruct (cfg_encryption _).
Qed.

(** The packet [build_packet] makes is the fragment, under a key the peer has. *)
Lemma build_packet_opens f now c r p :
  (forall sc, cn_crypto c = Some sc -> sc_ok sc) -> seq_ok (cn_next_send_seq c) -> socket_id_ok (cn_peer_socket_id c) -> covers c r ->
  build_packet f now c = Ret p ->
  data_packet_ok p /\ dp_seq p = cn_next_send_seq c /\ dp_retransmitted p = false /\
  dp_message_number p = msg_new (fg_message f) /\
  forall retransmitted, exists q,
    decrypt_data (if retransmitted : bool then set_retransmitted p else p) r = Ret (Some q) /\
    dp_seq q = cn_next_send_seq c /\ dp_position q = fg_position f /\
    dp_message_number q = msg_new (fg_message f) /\ dp_payload q = fg_payload f.
Proof.
  intros Hok Hq Hid Hcov. unfold build_packet.
  destruct (cn_crypto c) as [sc|] eqn:Esc.
  - cbv zeta. cbn [dp_payload].
    pose proof (Hok _ eq_refl) as Hsc.
    match goal with |- context [sc_encrypt sc ?s ?a ?pt] =>
      destruct (sc_encrypt_total sc s a pt Hsc) as (ct & k & Hk & Hkok & E & _) end.
    rewrite E. cbn [mbind panicky_bind]. intros [= <-].
    destruct (Hcov sc Esc) as (sc' & Er & Hslots).
    assert (sc_slot sc (sc_active sc) = Some k) as Hslot.
    { destruct Hsc as (_ & _ & _ & Ha). unfold sc_active_keys in Hk. by destruct (sc_active sc). }
    apply Hslots in Hslot.
    split; [|split_and!; try done].
    { split_and!; cbn; [done|apply msg_new_ok|apply wire_ts_ok|done]. }
    intros retransmitted.
    assert (exists q, sc_decrypt sc' (seq_value (cn_next_send_seq c)) (sc_active sc) (header_aad
      (MkData (cn_next_send_seq c) (fg_position f) true (sc_active sc) false
         (msg_new (fg_message f)) (wire_ts c now) (cn_peer_socket_id c) (fg_payload f))) ct
        = Ret (Some q) /\ q = fg_payload f) as (q & Hdec & ->).
    { eexists. split; [|reflexivity]. unfold sc_decrypt.
      change (match sc_active sc with EncNone => None | EncEven => sc_even sc' | EncOdd => sc_odd sc' end)
        with (sc_slot sc' (sc_active sc)). rewrite Hslot.
      apply sk_decrypt_encrypt; [done|]. unfold sc_encrypt in E. rewrite Hk in E.
      cbn [expect mbind panicky_bind] in E. destruct (sk_encrypt k _ _ _) as [x|]; [|done].
      by injection E as ->. }
    destruct Hsc as (_ & _ & _ & Ha). unfold decrypt_data, header_aad, word1_without_r in *.
    destruct retransmitted; cbn -[be_bytes] in *; destruct (sc_active sc); try done;
      rewrite Er, Hdec; cbn; eexists; split; try reflexivity; by split_and!.
  - cbn [mbind panicky_bind]. intros [= <-]. split; [|split_and!; try done].
    { split_and!; cbn; [done|apply msg_new_ok|apply wire_ts_ok|done]. }
    intros [|]; unfold decrypt_data; cbn; eexists; split; try reflexivity; by split_and!.
Qed.

Lemma encode_data_decodes p :
  data_packet_ok p -> exists bs, encode_data p = Ret bs /\ packet_decode bs = Ok (PData p).
Proof.
  intros Hp. exists (packet_bytes (PData p)). unfold encode_data.
  rewrite packet_encode_bytes by done. split; [done|]. by apply packet_decode_bytes.
Qed.

(** ** One fragment *)

Definition wire_fields (c : Connection) :=
  (cn_send_buffer c, cn_next_send_seq c, cn_peer_socket_id c).

Lemma account_key_wire c : wire_fields (account_key_and_maybe_rotate c) = wire_fields c.
Proof.
  unfold account_key_and_maybe_rotate. destruct (cn_crypto c); [|done]. cbv zeta.
  unfold maybe_request_key. destruct (_ && _); [destruct (cfg_encryption _)|];
    unfold maybe_switch_key; by destruct (_ && _).
Qed.

(** What one sent fragment leaves behind. *)
Record sent_one (r : Connection) (f : Fragment) (c c' : Connection) (p : DataPacket) : Prop := {
  so_buffer : sb_packets (cn_send_buffer c') = sb_packets (cn_send_buffer c) ++ [MkSent p None];
  so_seq : cn_next_send_seq c' = seq_next (cn_next_send_seq c);
  so_peer : cn_peer_socket_id c' = cn_peer_socket_id c;
  so_emitted : exists bs, SendDatagram bs ∈ cn_outputs c' /\ packet_decode bs = Ok (PData p);
  so_packet : dp_seq p = cn_next_send_seq c /\ dp_message_number p = msg_new (fg_message f);
  so_opens : exists q, decrypt_data p r = Ret (Some q) /\ dp_seq q = cn_next_send_seq c /\
    dp_position q = fg_position f /\ dp_payload q = fg_payload f;
  so_covers : covers c' r;
}.

Lemma next_send_ok c : conn_ok c -> seq_ok (cn_next_send_seq c).
Proof. intros Hok. destruct (ok_send _ Hok) as (s & _ & _ & ->). apply seq_add_ok. Qed.

Lemma send_data_sent f now c r :
  conn_ok c -> socket_id_ok (cn_peer_socket_id c) -> covers c r ->
  wp (send_data f now c) (fun c' => exists p, sent_one r f c c' p).
Proof.
  intros Hok0 Hid Hcov. unfold send_data.
  pose proof (account_key_advance c Hok0) as H0. pose proof (account_key_wire c) as Hw.
  unfold wire_fields in Hw. injection Hw as Ew1 Ew2 Ew3.
  assert (covers (account_key_and_maybe_rotate c) r) as Hcov0.
  { eapply covers_slots; [|exact Hcov]. apply account_key_crypto. }
  set (c0 := account_key_and_maybe_rotate c) in *. clearbody c0.
  match goal with |- wp (build_packet f now ?c ≫= _) _ => set (c1 := c) end.
  assert (advance c0 c1) as H1 by (pose proof (adv_ok _ _ H0); adv).
  pose proof (adv_ok _ _ H1) as Hok1.
  destruct (build_packet_total f now c1 Hok1) as (p & Ep & _). rewrite Ep.
  destruct (build_packet_opens f now c1 r p (ok_crypto _ Hok1) (next_send_ok _ Hok1))
    as (Hp & Hs & _ & Hm & Hop); [by change (cn_peer_socket_id c1) with (cn_peer_socket_id c0); rewrite Ew3
    |exact Hcov0|exact Ep|].
  destruct (encode_data_decodes p Hp) as (bs & Eb & Hdec).
  cbn [mbind panicky_bind]. rewrite Eb. cbn [mbind panicky_bind].
  match goal with |- context [let '(_, _) := ?m in _] => destruct m as [parity fec] end.
  match goal with |- context [emit bs now ?c] => set (c2 := c) end.
  apply (wp_bind _ _ (fun c3 => frame (emit bs now c2) c3 /\ cn_peer_socket_id c3 = cn_peer_socket_id c2)).
  { destruct parity as [parity|]; [|by split; [apply frame_refl|]].
    destruct (emit_fec_parity_emits (cn_next_send_seq c1) parity now (emit bs now c2)) as (d & -> & Hd).
    by split; [apply frame_emit|]. }
  intros c3 [Hf3 Hpeer3]. cbn [wp].
  set (c4 := c3 <| cn_next_send_seq ::= seq_next |> <| cn_live_cc ::= _ |>).
  assert (sent_one r f c c4 p) as Hsent.
  { pose proof (fr_core _ _ Hf3) as Hcore. unfold core in Hcore.
    injection Hcore as E1 _ _ E4 E5 _ _ _ _.
    assert (cn_send_buffer c3 = sb_push (cn_send_buffer c0) p) as E4' by exact E4.
    assert (cn_next_send_seq c3 = cn_next_send_seq c0) as E5' by exact E5.
    assert (cn_crypto c3 = cn_crypto c0) as E1' by exact E1. constructor.
    - change (cn_send_buffer c4) with (cn_send_buffer c3). rewrite E4'.
      unfold sb_push. cbn [sb_packets]. by rewrite Ew1.
    - change (cn_next_send_seq c4) with (seq_next (cn_next_send_seq c3)). by rewrite E5', Ew2.
    - change (cn_peer_socket_id c4) with (cn_peer_socket_id c3). rewrite Hpeer3.
      change (cn_peer_socket_id c2) with (cn_peer_socket_id c0). done.
    - exists bs. split; [|exact Hdec]. change (cn_outputs c4) with (cn_outputs c3).
      destruct (fr_outputs _ _ Hf3) as (k & -> & _). apply elem_of_app. left.
      change (cn_outputs (emit bs now c2)) with (cn_outputs c2 ++ [SendDatagram bs]).
      apply elem_of_app. right. apply list_elem_of_here.
    - split; [|exact Hm]. rewrite Hs. exact Ew2.
    - destruct (Hop false) as (q & Hq & Hq1 & Hq2 & _ & Hq3). exists q.
      split; [exact Hq|]. split; [rewrite Hq1; exact Ew2|done].
    - unfold covers. change (cn_crypto c4) with (cn_crypto c3). rewrite E1'. exact Hcov0. }
  destruct (sb_is_empty _); [|by exists p].
  exists p. destruct Hsent as [K1 K2 K3 K4 K5 K6 K7]. constructor; try assumption.
  destruct K4 as (bs' & Hin & Hd). exists bs'. split; [|done].
  unfold arm_exp, push_output. apply elem_of_app. by left.
Qed.

(** ** A whole message *)

Definition fresh_packets (r : Connection) (s : SeqNumber) (fs : list Fragment)
  (ps : list DataPacket) (c' : Connection) : Prop :=
  Forall2 (fun f p => dp_message_number p = msg_new (fg_message f)) fs ps /\
  Forall (fun p => exists bs, SendDatagram bs ∈ cn_outputs c' /\ packet_decode bs = Ok (PData p)) ps /\
  exists qs, Forall2 (fun p q => decrypt_data p r = Ret (Some q)) ps qs /\ carries s fs qs.

Lemma send_all_sent fs now c r :
  conn_ok c -> socket_id_ok (cn_peer_socket_id c) -> covers c r ->
  wp (send_all fs now c) (fun c' => advance c c' /\ exists ps,
    sb_packets (cn_send_buffer c') = sb_packets (cn_send_buffer c) ++ ((fun p => MkSent p None) <$> ps) /\
    fresh_packets r (cn_next_send_seq c) fs ps c').
Proof.
  revert c. induction fs as [|f fs IH]; intros c Hok Hid Hcov; cbn [send_all].
  { split; [by apply advance_refl|]. exists []. rewrite app_nil_r.
    split; [done|]. split; [done|]. split; [done|]. exists []. split; [done|constructor]. }
  pose proof (send_data_wp f now c Hok) as Hadv. pose proof (send_data_sent f now c r Hok Hid Hcov) as Hs.
  destruct (send_data f now c) as [c1|]; [|done]. simpl in Hadv, Hs. cbn [mbind panicky_bind].
  destruct Hs as (p & [K1 K2 K3 K4 K5 K6 K7]).
  eapply wp_mono; [apply (IH c1 (adv_ok _ _ Hadv)); [by rewrite K3|done]|].
  intros c' (Hadv' & ps & Hps & Hms & Hem & qs & Hqs & Hcar).
  split; [by advs Hadv|]. exists (p :: ps). split; [|split; [|split]].
  - rewrite Hps, K1, <- app_assoc. done.
  - constructor; [apply K5|done].
  - constructor; [|done]. destruct K4 as (bs & Hin & Hd). exists bs. split; [|done].
    destruct (adv_outputs _ _ Hadv') as [k ->]. apply elem_of_app. by left.
  - destruct K6 as (q & Hq & Hq1 & Hq2 & Hq3). exists (q :: qs). split; [by constructor|].
    constructor; try done. by rewrite <- K2.
Qed.
End Proofs.

(** C10 (refinement).  On a connected, unpaced connection a [send] never fails,
    and what it puts on the wire is the message: every packet it adds to the
    retransmission buffer was emitted as a datagram that decodes to that packet,
    none of them has message number 0 (the mark of a parity packet), and a peer holding the sender's keys, decrypting the packets and splicing
    them in order, gets exactly the payload, whatever the cipher, the packet
    size, the FEC settings and whatever the reassembler held before.  A key
    rotation in the middle of the message changes nothing. *)
Theorem message_crosses_the_wire {B : BytesApi} {HB : BytesSpec B} {P : CryptoPrims}
  {HP : CryptoSpec P} (payload : list byte) (now : Instant) (c r : Connection) (ra : Reassembler) :
  conn_ok c -> cn_state c = StConnected -> cn_closing c = false -> cn_live_cc c = None ->
  socket_id_ok (cn_peer_socket_id c) -> covers c r ->
  exists c' qs,
    conn_send payload now c = Ok c' /\ conn_ok c' /\
    Forall (fun p => msg_value (dp_message_number p) <> 0 /\
        exists bs, SendDatagram bs ∈ cn_outputs c' /\ packet_decode bs = Ok (PData p))
      (sent_since c c') /\
    Forall2 (fun p q => decrypt_data p r = Ret (Some q)) (sent_since c c') qs /\
    foldl ra_step ([], ra) qs = ([payload], ra_new).
Proof.
  intros Hok Hst Hcl Hcc Hid Hcov. unfold conn_send. rewrite Hcl, Hst. cbn [is_connected orb negb].
  cbv zeta. set (c1 := c <| cn_next_message := next_message_number (cn_next_message c) |>).
  assert (conn_ok c1) as Hok1.
  { destruct Hok as [K1 K2 K3 K4 K5 K6 K7 K8 K9]. constructor; try assumption.
    by apply (next_message_ok (cn_next_message c)). }
  change (cn_live_cc c1) with (cn_live_cc c). rewrite Hcc.
  match goal with |- context [send_all ?fs now c1] =>
    pose proof (send_all_sent fs now c1 r Hok1 Hid Hcov) as Hw; set (frs := fs) in * end.
  destruct (send_all frs now c1) as [c'|]; [|done].
  destruct Hw as (Hadv & ps & Hps & Hms & Hem & qs & Hqs & Hcar).
  assert (sent_since c c' = ps) as Eps.
  { unfold sent_since, sb_len. rewrite Hps.
    change (cn_send_buffer c1) with (cn_send_buffer c). rewrite drop_app_length.
    rewrite <- list_fmap_compose. apply list_fmap_id. }
  exists c', qs. rewrite Eps. split; [done|]. split; [apply Hadv|].
  split; [|split; [exact Hqs|]].
  { pose proof (fragment_message_number (max_payload c1) payload (cn_next_message c)) as Hn.
    change (Forall (fun f => fg_message f = cn_next_message c) frs) in Hn.
    apply Forall_forall. intros p Hp.
    split; [|by apply (proj1 (Forall_forall _ _) Hem)].
    apply list_elem_of_lookup in Hp as [i Hi].
    destruct (Forall2_lookup_r _ _ _ _ _ Hms Hi) as (f & Hf & ->).
    rewrite (proj1 (Forall_forall _ _) Hn f) by (by eapply list_elem_of_lookup_2). apply (ok_message _ Hok). }
  eapply (reassemble_message (max_payload c1) payload); [|exact Hcar]. unfold max_payload. lia.
Qed.

Lemma message_crosses_the_wire_witness :
  let c := ex_connected None (Some (sc_new_even (ex_keys Gcm))) in
  let payload := replicate 3000 (u8_of_Z 200) in
  exists c' qs,
    @conn_send vec_bytes toy_prims payload 5000 c = Ok c' /\
    Forall2 (fun p q => @decrypt_data toy_prims p c = Ret (Some q)) (sent_since c c') qs /\
    foldl ra_step ([], ra_new) qs = ([payload], ra_new).
Proof.
  cbv zeta. pose proof toy_spec as HP.
  destruct (@message_crosses_the_wire vec_bytes vec_bytes_spec toy_prims HP
    (replicate 3000 (u8_of_Z 200)) 5000 (ex_connected None (Some (sc_new_even (ex_keys Gcm))))
    (ex_connected None (Some (sc_new_even (ex_keys Gcm)))) ra_new)
    as (c' & qs & E & _ & _ & Hd & Hr).
  - apply ex_connected_ok. intros sc [= <-]. apply sc_new_even_ok, ex_keys_ok.
  - reflexivity.
  - reflexivity.
  - reflexivity.
  - by vm_compute.
  - intros sc [= <-]. eexists. split; [reflexivity|done].
  - exists c', qs. split; [exact E|]. split; [exact Hd|exact Hr].
Defined.

(** ** Sizes on the wire *)

Section Sizes.
Context {B : BytesApi} {HB : BytesSpec B} {P : CryptoPrims} {HP : CryptoSpec P}.

Lemma encode_data_length p bs : encode_data p = Ret bs -> length bs = (16 + length (dp_payload p))%nat.
Proof.
  unfold encode_data. cbn [packet_encode]. intros [= <-]. buf_spec.
  rewrite !length_app, !length_be_bytes. simpl. lia.
Qed.

End Sizes.




Lemma feed_all_clip n outs e ds :
  length (clip_payload (fe_clip e)) = n ->
  (forall q, Some q ∈ outs -> length (payload_clip q) = n) ->
  forall q, Some q ∈ fst (foldl (fun '(outs, e) d => let '(o, e) := fe_feed e d in (outs ++ [o], e)) (outs, e) ds) ->
  length (payload_clip q) = n.
Proof.
  revert outs e. induction ds as [|d ds IH]; intros outs e He Ho; [exact Ho|]. cbn [foldl].
  unfold fe_feed. destruct (_ =? _)%nat; apply IH; cbn.
  - by rewrite length_fmap, length_xor_zip.
  - intros q [Hq|Hq%list_elem_of_singleton]%elem_of_app; [by apply Ho|].
    injection Hq as ->. cbn. by rewrite length_xor_zip.
  - by rewrite length_xor_zip.
  - intros q [Hq|Hq%list_elem_of_singleton]%elem_of_app; [by apply Ho|done].
Qed.

(** C23 (bounds).  Parity datagrams do not fit: whatever the group carried, the
    parity datagram of a connection with FEC, a full-size clip behind the 4-byte
    FEC header, is exactly 4 bytes larger than the configured MTU allows. *)
Theorem parity_datagrams_exceed_the_mtu {B : BytesApi} {HB : BytesSpec B} (cfg : Config)
  (id : SocketId) (isn seq : SeqNumber) (start now : Instant) (side : Side) (st : State)
  (e : FecEncoder) (ds : list FecData) (parity : FecParity) (c : Connection) :
  MIN_MTU <= cfg_mtu cfg -> cn_fec_send (new_base cfg id isn start side st) = Some e ->
  Some parity ∈ fst (fe_feed_all e ds) ->
  exists c' bs, emit_fec_parity seq parity now c = Ret c' /\
    cn_outputs c' = cn_outputs c ++ [SendDatagram bs] /\
    Z.of_nat (length bs) + 28 = cfg_mtu cfg + 4.
Proof.
  intros Hm He Hp. unfold MIN_MTU in Hm.
  assert (length (payload_clip parity) = Z.to_nat (cfg_mtu cfg - 44)) as Hl.
  { eapply feed_all_clip; [| |exact Hp]; [|intros q Hq; by apply elem_of_nil in Hq].
    unfold new_base in He. cbn [cn_fec_send] in He. apply fmap_Some in He as (f & _ & ->).
    cbn. rewrite length_replicate. unfold sat_sub. lia. }
  unfold emit_fec_parity. set (p := MkData seq _ _ _ _ _ _ _ _).
  destruct (encode_data_total p) as (bs & Eb & _). rewrite Eb. cbn [mbind panicky_bind].
  exists (emit bs now c), bs. split; [done|]. split; [done|].
  rewrite (encode_data_length _ _ Eb). unfold p, parity_encode. cbn [dp_payload].
  rewrite !length_app, length_be_bytes, Hl. simpl length. lia.
Qed.

Lemma parity_datagrams_exceed_the_mtu_witness :
  let cfg := MkConfig 0 1500 8192 None None 0 0 (Some (MkFecConfig 2)) 0 0 0 in
  let d := MkFecData 1 0 0 [u8_of_Z 7] in
  exists parity c' bs, fst (fe_feed_all (fe_new 2 1456) [d; d]) = [None; Some parity] /\
    @emit_fec_parity vec_bytes (MkSeq 1) parity 0 (ex_connected None None) = Ret c' /\
    cn_outputs c' = [SendDatagram bs] /\ Z.of_nat (length bs) + 28 = 1504.
Proof.
  cbv zeta. set (d := MkFecData 1 0 0 [u8_of_Z 7]).
  destruct (fe_feed_all (fe_new 2 1456) [d; d]) as [outs e'] eqn:E.
  assert (outs = [None; Some (group_parity 1456 [d; d])]) as ->
    by (unfold fe_feed_all, fe_new in E; by injection E as <- _).
  destruct (@parity_datagrams_exceed_the_mtu vec_bytes vec_bytes_spec
    (MkConfig 0 1500 8192 None None 0 0 (Some (MkFecConfig 2)) 0 0 0) ex_caller_id (MkSeq 1) (MkSeq 1)
    0 0 Caller StConnected (fe_new 2 1456) [d; d] (group_parity 1456 [d; d]) (ex_connected None None))
    as (c' & bs & E1 & E2 & E3).
  - by vm_compute.
  - reflexivity.
  - rewrite E. right. left.
  - exists (group_parity 1456 [d; d]), c', bs. split; [reflexivity|]. split; [exact E1|].
    split; [exact E2|exact E3].
Defined.
