(* ===== verification/Safety.v ===== *)
(** * Safety: what holds of every run, whatever the peer sends

    Reachability of the connection ([ConnStart.reaches]) and of the listener
    ([ln_reaches]) by rule induction, and the listener's defence against
    floods. *)

From coqutil Require Import Datatypes.RecordSetters.
From S2P Require Import Prelude Buf Errors Reject Seq Time Timestamp PacketTypes Handshake Control Packet KeyMaterial Crypto Config Event ConnState Rekey Arq Setup Conn ConnInv ConnStart Listener ListenerInv Session.

(** ** The listener's calls *)

Inductive LnCall : Type :=
  | LnFeed (datagram : list byte) (from : SocketAddr) (now : Instant)
  | LnDefer
  | LnAccept (remote : SocketAddr) (now : Instant)
  | LnReject (remote : SocketAddr) (reason : RejectReason) (now : Instant)
  | LnPollRequest | LnPollResponse | LnPollAccept.

Section Steps.
Context {B : BytesApi} {P : CryptoPrims}.

Definition ln_step (call : LnCall) (l : Listener) : panicky Listener :=
  match call with
  | LnFeed datagram from now => ln_feed_recv_buf datagram from now l
  | LnDefer => Ret (defer_accepts l)
  | LnAccept remote now => snd <$> accept_pending remote now l
  | LnReject remote reason now => snd <$> reject_pending remote reason now l
  | LnPollRequest => Ret (snd (poll_request l))
  | LnPollResponse => Ret (snd (poll_response l))
  | LnPollAccept => Ret (snd (poll_accept l))
  end.

Inductive ln_reaches : Listener -> Listener -> Prop :=
  | ln_reaches_refl l : ln_reaches l l
  | ln_reaches_step l1 l2 l3 call :
      ln_reaches l1 l2 -> ln_step call l2 = Ret l3 -> ln_reaches l1 l3.
End Steps.

Section Proofs.
Context {B : BytesApi} {HB : BytesSpec B} {P : CryptoPrims} {HP : CryptoSpec P}.

Lemma wp_fmap {A C} (f : A -> C) (m : panicky A) Q : wp m (fun a => Q (f a)) -> wp (f <$> m) Q.
Proof. by destruct m. Qed.

Lemma ln_step_wp call l : ln_ok l -> wp (ln_step call l) (ln_keeps l).
Proof.
  intros Hok. destruct call; cbn [ln_step].
  - by apply ln_feed_wp.
  - split; [by apply (ln_ok_queues l)|done].
  - apply wp_fmap. eapply wp_mono; [by apply accept_pending_wp|]. by intros r [H _].
  - apply wp_fmap. eapply wp_mono; [by apply reject_pending_wp|]. by intros r [H _].
  - unfold poll_request. destruct (ln_requests l); [done|]. split; [by apply (ln_ok_queues l)|done].
  - unfold poll_response. destruct (ln_responses l); [done|]. split; [by apply (ln_ok_queues l)|done].
  - unfold poll_accept. destruct (ln_accepted l) as [|a rest] eqn:E; [done|].
    split; [|done]. destruct Hok as [K1 K2 K3 K4 K5 K6 K7]. rewrite E in K7.
    apply Forall_cons in K7 as [_ K7]. by constructor.
Qed.

Lemma ln_reaches_ok l l' : ln_ok l -> ln_reaches l l' -> ln_ok l' /\ ln_identity l' = ln_identity l.
Proof.
  intros Hok. induction 1 as [l|l1 l2 l3 call Hr IH Hs]; [done|].
  destruct (IH Hok) as [H1 H2]. pose proof (ln_step_wp call l2 H1) as H. rewrite Hs in H.
  destruct H as [H3 H4]. split; [done|congruence].
Qed.

(** ** What one datagram can add *)

Lemma length_expire now l : (length (ln_pending (expire_pending now l)) <= length (ln_pending l))%nat.
Proof.
  change (ln_pending (expire_pending now l))
    with (List.filter (fun p => since now (pd_since p) <? PENDING_TTL) (ln_pending l)).
  generalize (ln_pending l) as ps. induction ps as [|p ps IH]; simpl; [lia|].
  destruct (_ <? _); simpl; lia.
Qed.

(** At most one response, at most one more attempt remembered. *)
Definition grows_by (k : nat) (l l' : Listener) : Prop :=
  (length (ln_responses l') <= S (length (ln_responses l)))%nat /\
  (per_peer_state l' <= k + per_peer_state l)%nat.

Ltac grow l := clear; unfold grows_by, per_peer_state; destruct l; cbn;
  rewrite ?length_app, ?length_alter; simpl; lia.

Lemma push_response_grows dest hs from now l :
  hs_extensions hs = [] -> wp (push_response dest hs from now l) (grows_by 0 l).
Proof.
  intros He. destruct (push_response_eq dest hs from now l He) as (bs & _ & ->). cbn [wp].
  grow l.
Qed.

Lemma on_conclusion_grows hs from now l :
  ln_ok l -> hs_ok hs -> wp (on_conclusion hs from now l)
    (grows_by (if cookie_valid l (hs_syn_cookie hs) from now then 1 else 0) l).
Proof.
  intros Hok Hhs. unfold on_conclusion. destruct (cookie_valid _ _ _ _); cbn [negb];
    [|by split; [lia|reflexivity]].
  assert (forall m, wp m (grows_by 0 l) -> wp m (grows_by 1 l)) as Hmono.
  { intros m Hm. eapply wp_mono; [exact Hm|]. unfold grows_by. intros l' []. lia. }
  destruct (ln_deferred l).
  - unfold park_conclusion. pose proof (validate_accept_no_crash (ln_config l) hs Hhs) as Hv.
    destruct (validate_accept _ _); [|by apply Hmono, push_response_grows|done].
    destruct (pending_index from l) as [i|]; cbn [wp]; grow l.
  - destruct (mint_wp l Hok) as (id & n & -> & Hn). cbn [mbind panicky_bind].
    pose proof (ln_keeps_counter l n Hok Hn) as [Hok1 _].
    set (l1 := l <| ln_accept_counter := n |>) in *.
    destruct (accept_total (ln_config l1) id (ln_local_initial_seq l1) hs now (lo_config _ Hok1) Hhs)
      as [(c & -> & _)|[x ->]].
    + cbn [wp]. unfold l1. grow l.
    + apply Hmono. unfold ln_reject.
      exact (push_response_grows _ (rejection_response from _ l1) from now l1 eq_refl).
Qed.

Lemma ln_feed_grows datagram from now l :
  ln_ok l -> wp (ln_feed_recv_buf datagram from now l) (fun l' =>
    grows_by 0 l l' \/
    (grows_by 1 l l' /\ exists ts dest hs,
       packet_decode datagram = Ok (PControl (MkControl ts dest (CbHandshake hs))) /\
       hs_handshake_type hs = hst_CONCLUSION /\
       cookie_valid l (hs_syn_cookie hs) from now = true)).
Proof.
  intros Hok0. unfold ln_feed_recv_buf.
  pose proof (expire_pending_ok now l Hok0) as Hok. pose proof (length_expire now l) as Hle.
  assert (ln_identity (expire_pending now l) = ln_identity l) as Hid by reflexivity.
  assert (length (ln_accepted (expire_pending now l)) = length (ln_accepted l)) as Ha by reflexivity.
  assert (length (ln_responses (expire_pending now l)) = length (ln_responses l)) as Hr by reflexivity.
  cbv zeta. set (l1 := expire_pending now l) in *. clearbody l1.
  assert (forall k l', grows_by k l1 l' -> grows_by k l l') as Hg.
  { unfold grows_by, per_peer_state. intros k l'. lia. }
  assert (grows_by 0 l1 l1) as Hrefl by (split; lia).
  destruct (packet_decode_total datagram) as [(p & E & Hp)|[x ->]]; [|by left; apply Hg].
  rewrite E. destruct p as [d|[ts dest body]]; [by left; apply Hg|].
  destruct body; try by left; apply Hg.
  destruct Hp as (_ & _ & Hhs). simpl in Hhs.
  destruct (decide _); [eapply wp_mono; [by apply push_response_grows|]; intros l' H; left; by apply Hg|].
  destruct (decide (hs_handshake_type hs = hst_CONCLUSION)) as [Ht|]; [|by left; apply Hg].
  pose proof (on_conclusion_grows hs from now l1 Hok Hhs) as Hw.
  destruct (ln_identity_reads l l1 from now Hid) as (_ & _ & Hcv). rewrite Hcv in Hw.
  destruct (cookie_valid l (hs_syn_cookie hs) from now) eqn:Ec.
  - eapply wp_mono; [exact Hw|]. intros l' H. right. split; [by apply Hg|].
    by exists ts, dest, hs.
  - eapply wp_mono; [exact Hw|]. intros l' H. left. by apply Hg.
Qed.
End Proofs.

(** ** The properties *)

(** C7 (safety).  No input reaches a panic written in the core.  From any caller or
    acceptor whose stream id fits its handshake extension, and after any sequence of
    calls (datagrams are arbitrary bytes, clocks may run backwards, timers may fire at
    will, a key the embedder provides has an AES size), in every further call no [expect]
    or [unwrap] meets a failure, no slice or index is out of range, no division is
    by zero, and every loop of the handlers ends; the state stays well formed and
    the connection keeps its identity.  Three things are outside this statement, and
    each can stop the real program: memory, which is unbounded here (one datagram
    can make the receive buffer allocate 2^30 slots); sums of [Instant]s and
    [Duration]s, which are exact here (a latency near [Duration::MAX], which
    [validate] accepts, overflows one); and integer overflow checks, since integers
    wrap here as they do in a release build. *)
Theorem no_call_panics {B : BytesApi} {HB : BytesSpec B} {P : CryptoPrims} {HP : CryptoSpec P}
  (c0 c : Connection) (call : ConnCall) :
  starts c0 -> reaches c0 c -> call_ok call ->
  exists c', conn_step call c = Ret c' /\ conn_ok c' /\ identity c' = identity c0.
Proof.
  intros H0 Hr Hc. destruct (reaches_ok c0 c (starts_ok c0 H0) Hr) as (Hok & Hid & _).
  pose proof (conn_step_wp call c Hok Hc) as Hw.
  destruct (conn_step call c) as [c'|]; [|done]. destruct Hw as (H1 & H2 & _).
  exists c'. split_and!; [done|done|congruence].
Qed.

Lemma no_call_panics_witness :
  exists c0 c', @connect vec_bytes toy_prims (ex_config (Some (ex_enc Aes128 Ctr)) 120)
      ex_caller_id (MkSeq 5) 0 ex_rng = Ret c0 /\
    @conn_step vec_bytes toy_prims (CallFeed (replicate 40 (u8_of_Z 0x80)) 17) c0 = Ret c' /\
    conn_ok c'.
Proof.
  pose proof toy_spec as HP.
  destruct (@connect vec_bytes toy_prims (ex_config (Some (ex_enc Aes128 Ctr)) 120)
      ex_caller_id (MkSeq 5) 0 ex_rng) as [c0|] eqn:E; [|by vm_compute in E].
  destruct (@no_call_panics vec_bytes vec_bytes_spec toy_prims HP c0 c0
    (CallFeed (replicate 40 (u8_of_Z 0x80)) 17)) as (c' & H1 & H2 & _).
  - apply (starts_connect (ex_config (Some (ex_enc Aes128 Ctr)) 120) ex_caller_id (MkSeq 5) 0 ex_rng);
      [intros s [= <-]; apply ex_stream_ok|by vm_compute|exact ex_rng_fills|exact E].
  - constructor.
  - done.
  - exists c0, c'. split; [done|]. split; [exact H1|exact H2].
Defined.

(** C8 (safety).  The state machine only moves forward
    (induction, conclusion, connected, failed), and failed is final: whatever is
    called afterwards, the connection stays failed, ignores every datagram
    entirely, refuses every [send] and has nothing left to close. *)
Theorem failed_is_final {B : BytesApi} {HB : BytesSpec B} {P : CryptoPrims} {HP : CryptoSpec P}
  (c c' : Connection) :
  conn_ok c -> reaches c c' ->
  (state_rank (cn_state c) <= state_rank (cn_state c'))%nat /\
  (cn_state c = StFailed ->
   cn_state c' = StFailed /\
   (forall datagram now, feed_recv_buf datagram now c' = Ret c') /\
   (forall payload now, conn_send payload now c' = Err InvalidState) /\
   (forall now, conn_close now c' = Ret c')).
Proof.
  intros Hok Hr. destruct (reaches_ok c c' Hok Hr) as (Hok' & _ & Hrank). split; [done|].
  intros Hf. rewrite Hf in Hrank. assert (cn_state c' = StFailed) as Hf'.
  { destruct (cn_state c'); simpl in Hrank; lia || done. }
  split_and!; [done|..].
  - intros d now. unfold feed_recv_buf.
    destruct (packet_decode_total d) as [(p & -> & _)|[x ->]]; [|done].
    rewrite Hf'. cbn [is_connected]. by rewrite Hf'.
  - intros p now. unfold conn_send. rewrite Hf'. cbn [is_connected negb]. by rewrite orb_true_r.
  - intros now. unfold conn_close. rewrite Hf', bool_decide_true by done. by rewrite orb_true_r.
Qed.

Lemma failed_is_final_witness :
  exists c', cn_state (ex_connected None None) = StConnected /\
    @conn_close vec_bytes 0 (ex_connected None None) = Ret c' /\ cn_state c' = StFailed /\
    (forall datagram now, @feed_recv_buf vec_bytes toy_prims datagram now c' = Ret c').
Proof.
  pose proof toy_spec as HP.
  destruct (@conn_close vec_bytes 0 (ex_connected None None)) as [c'|] eqn:E; [|by vm_compute in E].
  assert (cn_state c' = StFailed) as Hf by (injection E as <-; reflexivity).
  assert (conn_ok c') as Hok.
  { pose proof (@conn_step_wp vec_bytes vec_bytes_spec toy_prims HP (CallClose 0)
      (ex_connected None None) (ex_connected_ok None None ltac:(done)) I) as Hw.
    cbn [conn_step] in Hw. rewrite E in Hw. apply Hw. }
  destruct (@failed_is_final vec_bytes vec_bytes_spec toy_prims HP c' c' Hok (reaches_refl c'))
    as [_ Hd].
  exists c'. split; [done|]. split; [done|]. split; [done|]. apply (Hd Hf).
Defined.

(** C11 (safety).  No flood grows the listener.  After any sequence of calls a
    datagram from any address is handled without panic, draws at most one
    response, and the number of connection attempts the listener remembers
    (parked or accepted) grows, by one at most, only when the datagram is a
    conclusion that returns the cookie of that address and minute.  There is
    never more than one parked attempt per address. *)
Theorem no_state_without_cookie {B : BytesApi} {HB : BytesSpec B} {P : CryptoPrims}
  {HP : CryptoSpec P} (l0 l : Listener) (datagram : list byte) (from : SocketAddr) (now : Instant) :
  ln_ok l0 -> ln_reaches l0 l ->
  exists l', ln_feed_recv_buf datagram from now l = Ret l' /\
    NoDup (pd_from <$> ln_pending l') /\ Forall conn_ok (ln_accepted l') /\
    (length (ln_responses l') <= S (length (ln_responses l)))%nat /\
    (per_peer_state l' <= S (per_peer_state l))%nat /\
    ((per_peer_state l < per_peer_state l')%nat -> exists ts dest hs,
       packet_decode datagram = Ok (PControl (MkControl ts dest (CbHandshake hs))) /\
       hs_handshake_type hs = hst_CONCLUSION /\
       cookie_valid l (hs_syn_cookie hs) from now = true).
Proof.
  intros H0 Hr. destruct (ln_reaches_ok l0 l H0 Hr) as [Hok _].
  pose proof (ln_feed_wp datagram from now l Hok) as Hk.
  pose proof (ln_feed_grows datagram from now l Hok) as Hg.
  destruct (ln_feed_recv_buf datagram from now l) as [l'|]; [|done]. cbn [wp] in Hk, Hg.
  destruct Hk as [Hok' _]. exists l'.
  split_and!; [done|apply Hok'|apply Hok'|..];
    (destruct Hg as [[Hg1 Hg2]|[[Hg1 Hg2] Hd]]; [|]); try lia; done.
Qed.

Lemma no_state_without_cookie_witness :
  exists l', @ln_feed_recv_buf vec_bytes toy_prims (replicate 64 (u8_of_Z 0x80)) ex_addr 5
      (ex_listener None) = Ret l' /\ (per_peer_state l' <= 1)%nat.
Proof.
  pose proof toy_spec as HP.
  destruct (@no_state_without_cookie vec_bytes vec_bytes_spec toy_prims HP (ex_listener None)
    (ex_listener None) (replicate 64 (u8_of_Z 0x80)) ex_addr 5) as (l' & E & _ & _ & _ & H & _).
  - apply ex_listener_ok.
  - constructor.
  - exists l'. split; [exact E|exact H].
Defined.
