(* ===== verification/Sending.v ===== *)
(** * Sending: what the sender's handlers do to the wire

    Retransmission on a loss report, shedding of packets that can no longer
    arrive in time, and pacing. *)

From S2P Require Import Prelude Buf Errors Seq LossList Time Timestamp Rtt LiveCc PacketTypes Control Packet SendBuffer RecvBuffer KeyMaterial Crypto Config Event Fragment ConnState Rekey Arq Conn ConnInv ConnStart Session.

Section Retransmit.
Context {B : BytesApi} {HB : BytesSpec B}.
Context (start stop : SeqNumber) (gate : Duration) (now : Instant).

(** A packet is resent when it is in the reported range and was not resent
    within the last round trip. *)
Definition resend_due (x : Sent) : bool :=
  in_range (sent_seq x) start stop &&
  match sent_last_retransmit x with Some at_ => gate <=? since now at_ | None => true end.

Definition resend_mark (x : Sent) : Sent :=
  if resend_due x then MkSent (sent_packet x) (Some now) else x.

(** The datagram of a retransmission: the stored packet with the [R] bit. *)
Definition resend_datagram (x : Sent) : list byte :=
  match encode_retransmit (sent_packet x) with Ret bs => bs | Panic => [] end.

Definition resent (l : list Sent) : list Output :=
  (fun x => SendDatagram (resend_datagram x)) <$> List.filter resend_due l.

Lemma alter_at {A} (f : A -> A) (pre post : list A) x :
  alter f (length pre) (pre ++ x :: post) = pre ++ f x :: post.
Proof. induction pre as [|y pre IH]; [done|]. simpl. f_equal. exact IH. Qed.

(** Visiting the packet between an already visited prefix and the rest. *)
Lemma retransmit_one_exact c s pre x post :
  sb_packets (cn_send_buffer c) = pre ++ x :: post ->
  sb_window (cn_send_buffer c) s ->
  exists c', retransmit_one (seq_add s (Z.of_nat (length pre))) start stop gate now c = Ret c' /\
    sb_packets (cn_send_buffer c') = pre ++ resend_mark x :: post /\
    cn_outputs c' = cn_outputs c ++ resent [x].
Proof.
  intros Hl Hw. set (q := seq_add s (Z.of_nat (length pre))).
  assert (sb_packets (cn_send_buffer c) !! length pre = Some x) as Hx
    by (by rewrite Hl, list_lookup_middle).
  assert (sent_seq x = q) as Hq by (by apply Hw).
  assert (sb_index_of (cn_send_buffer c) q = Some (length pre)) as Hi.
  { apply (sb_index_of_window _ s); [done|apply seq_add_ok|]. split; [|done].
    by apply lookup_lt_Some in Hx. }
  unfold retransmit_one. unfold sb_last_retransmitted, sb_get. rewrite Hi.
  cbn [mbind option_bind]. rewrite Hx. cbn [mbind option_bind fmap option_fmap option_map].
  unfold resend_mark, resent. cbn [List.filter]. rewrite <- Hq.
  change (in_range (sent_seq x) start stop && _) with (resend_due x).
  destruct (resend_due x).
  - cbn [fmap list_fmap]. unfold resend_datagram, encode_retransmit.
    cbn [packet_encode mbind panicky_bind].
    eexists. split; [reflexivity|]. split; [|reflexivity].
    change (sb_packets (sb_mark_retransmitted (cn_send_buffer c) (sent_seq x) now)
            = pre ++ MkSent (sent_packet x) (Some now) :: post).
    unfold sb_mark_retransmitted. rewrite Hq, Hi. cbn [sb_packets]. rewrite Hl.
    exact (alter_at (fun s => MkSent (sent_packet s) (Some now)) pre post x).
  - exists c. rewrite app_nil_r. done.
Qed.

Lemma window_same_seqs sb sb' s :
  sent_seq <$> sb_packets sb' = sent_seq <$> sb_packets sb -> sb_window sb s -> sb_window sb' s.
Proof.
  intros E (Hs & Hc & Hl).
  assert (length (sb_packets sb') = length (sb_packets sb)) as El
    by (rewrite <- (length_fmap sent_seq), E; apply length_fmap).
  split_and!; [done| |unfold sb_len in *; by rewrite El].
  intros i x Hx. assert ((sent_seq <$> sb_packets sb') !! i = Some (sent_seq x)) as H
    by (by rewrite list_lookup_fmap, Hx).
  rewrite E, list_lookup_fmap in H. destruct (sb_packets sb !! i) as [y|] eqn:Hy; [|done].
  injection H as <-. by apply Hc.
Qed.

Lemma resend_mark_seq x : sent_seq (resend_mark x) = sent_seq x.
Proof. unfold resend_mark. by case_match. Qed.

Lemma resent_app l1 l2 : resent (l1 ++ l2) = resent l1 ++ resent l2.
Proof. unfold resent. by rewrite List.filter_app, fmap_app. Qed.

Lemma retransmit_loop_exact c s pre post :
  sb_packets (cn_send_buffer c) = pre ++ post -> post <> [] -> sb_window (cn_send_buffer c) s ->
  exists c',
    retransmit_loop (length post) (seq_add s (Z.of_nat (length pre)))
      (seq_add s (Z.of_nat (length (pre ++ post)) - 1)) start stop gate now c = Ret c' /\
    sb_packets (cn_send_buffer c') = pre ++ (resend_mark <$> post) /\
    cn_outputs c' = cn_outputs c ++ resent post.
Proof.
  revert c pre. induction post as [|x post IH]; intros c pre Hl Hne Hw; [done|].
  destruct (retransmit_one_exact c s pre x post Hl Hw) as (c1 & E1 & Hl1 & Ho1).
  assert (sb_window (cn_send_buffer c1) s) as Hw1.
  { eapply window_same_seqs; [|exact Hw]. rewrite Hl1, Hl, !fmap_app, !fmap_cons.
    by rewrite resend_mark_seq. }
  cbn [length retransmit_loop]. rewrite E1. cbn [mbind panicky_bind].
  assert (Z.of_nat (length (pre ++ x :: post)) <= SB_MAX) as Hmax.
  { destruct Hw as (_ & _ & Hmax). unfold sb_len in Hmax. by rewrite Hl in Hmax. }
  unfold SB_MAX in Hmax. rewrite length_app in *. cbn [length] in *.
  destruct post as [|y post].
  - rewrite bool_decide_true by (f_equal; simpl; lia). exists c1. by rewrite Hl1, Ho1.
  - rewrite bool_decide_false.
    2: { intros E. apply seq_add_inj in E; simpl in *; lia. }
    destruct (IH c1 (pre ++ [resend_mark x])) as (c' & E' & Hl' & Ho'); [by rewrite Hl1, <- app_assoc|done|done|].
    exists c'. split; [|split].
    + rewrite seq_add_next. rewrite !length_app in E'. cbn [length] in E' |- *.
      replace (Z.of_nat (length pre) + 1) with (Z.of_nat (length pre + 1)) by lia.
      replace (length pre + S (S (length post)))%nat with (length pre + 1 + S (length post))%nat by lia.
      exact E'.
    + rewrite Hl', <- app_assoc. done.
    + rewrite Ho', Ho1, <- app_assoc. f_equal. change (x :: y :: post) with ([x] ++ (y :: post)).
      by rewrite resent_app.
Qed.

Lemma retransmit_range_exact c s :
  sb_window (cn_send_buffer c) s -> gate = rtt_rtt (cn_rtt c) ->
  exists c', retransmit_range start stop now c = Ret c' /\
    sb_packets (cn_send_buffer c') = resend_mark <$> sb_packets (cn_send_buffer c) /\
    cn_outputs c' = cn_outputs c ++ resent (sb_packets (cn_send_buffer c)).
Proof.
  intros Hw Hg. unfold retransmit_range.
  destruct (decide (sb_packets (cn_send_buffer c) = [])) as [E|E].
  { unfold sb_first_seq. rewrite E. exists c. rewrite E. cbn. by rewrite app_nil_r. }
  rewrite (sb_window_first _ s Hw E), (sb_window_last _ s Hw E), <- Hg.
  destruct (retransmit_loop_exact c s [] (sb_packets (cn_send_buffer c)) eq_refl E Hw)
    as (c' & E' & Hl' & Ho'). exists c'. split; [|done].
  cbn [length app Z.of_nat] in E'. rewrite seq_add_0 in E' by apply Hw. exact E'.
Qed.
End Retransmit.

(** The header's authenticated part leaves the retransmission bit out, so whoever
    can decrypt a packet can decrypt it resent. *)
Lemma resent_decrypts {P : CryptoPrims} p r q :
  decrypt_data p r = Ret (Some q) -> decrypt_data (set_retransmitted p) r = Ret (Some (set_retransmitted q)).
Proof.
  unfold decrypt_data. cbn [set_retransmitted dp_encryption dp_seq dp_payload].
  change (header_aad (set_retransmitted p)) with (header_aad p).
  destruct (dp_encryption p); [by intros [= <-]|..];
    (destruct (cn_crypto r) as [sc|]; [|done]); destruct (sc_decrypt _ _ _ _ _) as [[pt|]|]; try done;
    cbn [mbind panicky_bind]; by intros [= <-].
Qed.

(** C16 (functional).  A loss report resends exactly what it should.  For a
    reported range, the sender emits, in sequence order and once each, the stored
    packets that lie in the range and were not resent within the last round
    trip; each datagram decodes to the stored packet, its ciphertext and time stamp
    as they were, with only its retransmission bit set; and every receiver that can
    decrypt the stored packet gets the same plaintext from the resent one, in either
    cipher mode, because the bit is not authenticated.  Exactly those packets are
    marked as resent now, and nothing else in the buffer changes. *)
Theorem retransmission_exact {B : BytesApi} {HB : BytesSpec B} {P : CryptoPrims} (start stop s : SeqNumber)
  (now : Instant) (c : Connection) :
  sb_window (cn_send_buffer c) s ->
  Forall (fun x => data_packet_ok (sent_packet x)) (sb_packets (cn_send_buffer c)) ->
  let gate := rtt_rtt (cn_rtt c) in
  let due := List.filter (resend_due start stop gate now) (sb_packets (cn_send_buffer c)) in
  exists c' datagrams,
    retransmit_range start stop now c = Ret c' /\
    cn_outputs c' = cn_outputs c ++ (SendDatagram <$> datagrams) /\
    Forall2 (fun x d => packet_decode d = Ok (PData (set_retransmitted (sent_packet x))) /\
      forall r q, decrypt_data (sent_packet x) r = Ret (Some q) ->
        decrypt_data (set_retransmitted (sent_packet x)) r = Ret (Some (set_retransmitted q))) due datagrams /\
    sb_packets (cn_send_buffer c') =
      (fun x => if resend_due start stop gate now x then MkSent (sent_packet x) (Some now) else x)
        <$> sb_packets (cn_send_buffer c).
Proof.
  intros Hw Hp gate due.
  destruct (retransmit_range_exact start stop gate now c s Hw eq_refl) as (c' & E & Hl & Ho).
  exists c', (resend_datagram <$> due). split; [exact E|]. split; [|split; [|exact Hl]].
  - rewrite Ho. unfold resent. by rewrite <- list_fmap_compose.
  - assert (Forall (fun x => data_packet_ok (sent_packet x)) due) as Hdue.
    { apply Forall_forall. intros x Hx. rewrite Forall_forall in Hp. apply Hp.
      unfold due in Hx. apply list_elem_of_In, List.filter_In in Hx as [Hx _].
      by apply list_elem_of_In. }
    clear -Hdue HB. induction Hdue as [|x l Hx Hl IH]; [constructor|]. constructor; [|exact IH].
    split; [|intros r q; apply resent_decrypts]. unfold resend_datagram, encode_retransmit. rewrite packet_encode_bytes by exact Hx.
    apply packet_decode_bytes. exact Hx.
Qed.

Definition ex_sending (n : nat) : Connection :=
  (ex_connected None None)
    <| cn_send_buffer := MkSendBuffer (ex_sent (MkSeq 0x7ffffffe) <$> List.seq 0 n) |>.

Lemma retransmission_exact_witness :
  exists c' datagrams,
    @retransmit_range vec_bytes (MkSeq 0x7fffffff) (MkSeq 0) 99 (ex_sending 4) = Ret c' /\
    cn_outputs c' = SendDatagram <$> datagrams /\ length datagrams = 2%nat.
Proof.
  destruct (@retransmission_exact vec_bytes vec_bytes_spec toy_prims (MkSeq 0x7fffffff) (MkSeq 0)
    (MkSeq 0x7ffffffe) 99 (ex_sending 4)) as (c' & ds & E & Ho & Hd & _).
  - apply ex_sent_window; by vm_compute.
  - apply Forall_forall. intros x (i & -> & Hi)%list_elem_of_fmap.
    apply elem_of_seq in Hi as [_ Hi].
    do 4 (destruct i as [|i]; [by split_and!; vm_compute|]). lia.
  - exists c', ds. split; [exact E|]. split; [exact Ho|].
    apply Forall2_length in Hd. rewrite <- Hd. by vm_compute.
Defined.

(** ** Shedding *)

Definition is_stale (budget : Z) (now_ts : Timestamp) (x : Sent) : bool :=
  budget <? wrapping_diff now_ts (dp_timestamp (sent_packet x)).

(** How many leading packets are too late. *)
Fixpoint stale_prefix (budget : Z) (now_ts : Timestamp) (l : list Sent) : nat :=
  match l with
  | x :: l => if is_stale budget now_ts x then S (stale_prefix budget now_ts l) else O
  | [] => O
  end.

(** What the shedding loop remembers of the packets it dropped. *)
Definition shed_acc (acc : option (SeqNumber * SeqNumber * Z)) (l : list Sent)
  : option (SeqNumber * SeqNumber * Z) :=
  foldl (fun acc x => Some (match acc with Some (f, _, _) => f | None => sent_seq x end,
    sent_seq x, msg_value (dp_message_number (sent_packet x)))) acc l.

Section Shed.
Context {B : BytesApi} {HB : BytesSpec B}.

(** Everything but the send buffer and the dropped-packet counter. *)
Definition shed_frame (c : Connection) :=
  (cn_outputs c, cn_events c, cn_peer_socket_id c, cn_start c, cn_state c).

Lemma shed_loop_exact fuel budget now_ts acc c l :
  sb_packets (cn_send_buffer c) = l -> (length l < fuel)%nat ->
  exists c', shed_loop fuel budget now_ts acc c =
      Ret (shed_acc acc (take (stale_prefix budget now_ts l) l), c') /\
    sb_packets (cn_send_buffer c') = drop (stale_prefix budget now_ts l) l /\
    shed_frame c' = shed_frame c /\
    (stale_prefix budget now_ts l = 0%nat -> c' = c).
Proof.
  revert acc c l. induction fuel as [|fuel IH]; intros acc c l Hl Hf; [lia|].
  cbn [shed_loop]. unfold sb_front. rewrite Hl. destruct l as [|x l].
  { exists c. by rewrite Hl. }
  cbn [head fmap option_fmap option_map stale_prefix]. unfold is_stale.
  rewrite Z.ltb_antisym. destruct (_ <=? budget) eqn:Ed; cbn [negb].
  { exists c. by rewrite Hl. }
  match goal with |- context [shed_loop fuel budget now_ts ?a ?c] => set (acc1 := a); set (c1 := c) end.
  assert (sb_packets (cn_send_buffer c1) = l) as Hl1.
  { change (cn_send_buffer c1) with (snd (sb_drop_front (cn_send_buffer c))).
    unfold sb_drop_front. by rewrite Hl. }
  destruct (IH acc1 c1 l Hl1 ltac:(simpl in Hf; lia)) as (c' & E & Hd & Hfr & _).
  exists c'. rewrite E. split_and!; [done|exact Hd|exact Hfr|done].
Qed.

Lemma shed_acc_last acc l x f :
  (match acc with Some (g, _, _) => g | None => match l with y :: _ => sent_seq y | [] => sent_seq x end end) = f ->
  shed_acc acc (l ++ [x]) =
    Some (f, sent_seq x, msg_value (dp_message_number (sent_packet x))).
Proof.
  unfold shed_acc. rewrite foldl_app. cbn [foldl]. revert acc.
  induction l as [|y l IH]; intros acc Hf; cbn [foldl].
  - by rewrite <- Hf; destruct acc as [[[? ?] ?]|].
  - apply IH. rewrite <- Hf. by destruct acc as [[[? ?] ?]|].
Qed.
End Shed.

(** C17 (functional).  Too-late packets are given up together and announced.
    [drop_too_late] removes exactly the leading packets whose age, by wire
    timestamp, exceeds the negotiated latency (at least one second) plus two ACK
    intervals (a sum of [i64]s, which wraps for latencies within 20 ms of 2^63
    microseconds); if there are none it does nothing at all, otherwise it sends one
    datagram, a drop request that names the first and the last of the removed
    packets and the last one's message, and it disarms the retransmission timer
    when nothing is left in flight. *)
Theorem too_late_packets_are_dropped_and_announced {B : BytesApi} {HB : BytesSpec B}
  (now : Instant) (c : Connection) :
  socket_id_ok (cn_peer_socket_id c) ->
  Forall (fun x => data_packet_ok (sent_packet x)) (sb_packets (cn_send_buffer c)) ->
  let l := sb_packets (cn_send_buffer c) in
  let n := stale_prefix (drop_budget c) (wire_ts c now) l in
  exists c', drop_too_late now c = Ret c' /\ sb_packets (cn_send_buffer c') = drop n l /\
    match head l, last (take n l) with
    | Some first, Some stop =>
        exists bs, packet_decode bs = Ok (PControl (MkControl (wire_ts c now) (cn_peer_socket_id c)
            (CbDropReq (msg_value (dp_message_number (sent_packet stop))) (sent_seq first) (sent_seq stop)))) /\
          cn_outputs c' = cn_outputs c ++ [SendDatagram bs] ++
            (if decide (n = length l) then [ClearTimer TiExp] else [])
    | _, _ => c' = c
    end.
Proof.
  intros Hid Hp l n. unfold drop_too_late.
  destruct (shed_loop_exact (S (sb_len (cn_send_buffer c))) (drop_budget c) (wire_ts c now) None c l
    eq_refl ltac:(unfold sb_len; fold l; lia)) as (c1 & E & Hd & Hfr & Hz).
  rewrite E. fold n in Hd, Hz |- *. clear E. cbn [mbind panicky_bind].
  assert (n <= length l)%nat as Hn.
  { unfold n. clear. induction l as [|x l IH]; simpl; [lia|]. destruct (is_stale _ _ _); lia. }
  unfold shed_frame in Hfr. injection Hfr as Fo Fe Fp Fs Fst.
  destruct n as [|k] eqn:En.
  { exists c1. rewrite Hz by done. split; [done|]. split; [done|]. by destruct (head l). }
  destruct (lookup_lt_is_Some_2 l k ltac:(lia)) as [x Hx].
  assert (take (S k) l = take k l ++ [x]) as Et by (by apply take_S_r).
  destruct l as [|y l'] eqn:El; [simpl in Hn; lia|]. cbn [head].
  rewrite Et, last_snoc.
  rewrite (shed_acc_last None _ x (sent_seq y)); [|by destruct k; simplify_eq/=].
  assert (data_packet_ok (sent_packet x) /\ data_packet_ok (sent_packet y)) as [Hpx Hpy].
  { fold l in Hp. rewrite El in Hp. split.
    - by apply (Forall_lookup_1 _ _ k x Hp).
    - by apply (Forall_lookup_1 _ _ 0%nat y Hp). }
  destruct (encode_control_decodes (cn_peer_socket_id c) (wire_ts c now)
    (CbDropReq (msg_value (dp_message_number (sent_packet x))) (sent_seq y) (sent_seq x)))
    as (bs & Eb & Hdec); [done|apply wire_ts_ok| |].
  { split_and!; [|apply Hpy|apply Hpx]. destruct Hpx as (_ & Hm & _). unfold msg_ok, u32_ok in *. lia. }
  rewrite Fp, Eb. cbn [mbind panicky_bind].
  set (c2 := emit bs now c1).
  assert (cn_outputs c2 = cn_outputs c ++ [SendDatagram bs]) as Ho
    by (change (cn_outputs c2) with (cn_outputs c1 ++ [SendDatagram bs]); by rewrite Fo).
  assert (sb_packets (cn_send_buffer c2) = drop (S k) (y :: l')) as Hd2 by exact Hd.
  assert (sb_is_empty (cn_send_buffer c2) = bool_decide (S k = length (y :: l'))) as Hemp.
  { unfold sb_is_empty. rewrite Hd2. destruct (drop (S k) (y :: l')) eqn:Edr.
    - apply (f_equal length) in Edr. rewrite length_drop in Edr. simpl in *.
      rewrite bool_decide_true; [done|lia].
    - apply (f_equal length) in Edr. rewrite length_drop in Edr. simpl in *.
      rewrite bool_decide_false; [done|lia]. }
  rewrite Hemp. destruct (decide (S k = length (y :: l'))) as [Hall|Hsome].
  - rewrite bool_decide_true by done. eexists. split; [reflexivity|]. split; [exact Hd2|].
    exists bs. split; [exact Hdec|].
    change (cn_outputs (push_output (ClearTimer TiExp) c2)) with (cn_outputs c2 ++ [ClearTimer TiExp]).
    by rewrite Ho, <- app_assoc.
  - rewrite bool_decide_false by done. exists c2. split; [reflexivity|]. split; [exact Hd2|].
    exists bs. split; [exact Hdec|]. by rewrite Ho.
Qed.

Lemma too_late_packets_are_dropped_and_announced_witness :
  exists c', @drop_too_late vec_bytes (dur_from_secs 4) (ex_sending 3) = Ret c' /\
    sb_packets (cn_send_buffer c') = [] /\ length (cn_outputs c') = 2%nat.
Proof.
  destruct (@too_late_packets_are_dropped_and_announced vec_bytes vec_bytes_spec (dur_from_secs 4)
    (ex_sending 3)) as (c' & E & Hd & Ho).
  - by vm_compute.
  - apply Forall_forall. intros x (i & -> & Hi)%list_elem_of_fmap.
    apply elem_of_seq in Hi as [_ Hi].
    do 3 (destruct i as [|i]; [by split_and!; vm_compute|]). lia.
  - exists c'. split; [exact E|]. split; [exact Hd|].
    destruct Ho as (bs & _ & Ho). by rewrite Ho.
Defined.

(** ** Pacing *)

Section Pace.
Context {B : BytesApi} {HB : BytesSpec B} {P : CryptoPrims} {HP : CryptoSpec P}.

Definition pace_fields (c : Connection) := (cn_next_send c, cn_send_queue c).

Lemma account_key_pace c : pace_fields (account_key_and_maybe_rotate c) = pace_fields c.
Proof.
  unfold account_key_and_maybe_rotate. destruct (cn_crypto c); [|done]. cbv zeta.
  unfold maybe_request_key. destruct (_ && _); [destruct (cfg_encryption _)|];
    unfold maybe_switch_key; by destruct (_ && _).
Qed.

Lemma send_data_pace f now c :
  conn_ok c -> wp (send_data f now c) (fun c' => pace_fields c' = pace_fields c).
Proof.
  intros Hok0. unfold send_data.
  pose proof (account_key_advance c Hok0) as H0. pose proof (account_key_pace c) as Hp.
  set (c0 := account_key_and_maybe_rotate c) in *. clearbody c0.
  match goal with |- wp (build_packet f now ?c ≫= _) _ => set (c1 := c) end.
  assert (conn_ok c1) as Hok1.
  { assert (advance c0 c1) as H by (pose proof (adv_ok _ _ H0); adv). apply H. }
  destruct (build_packet_total f now c1 Hok1) as (p & -> & _). cbn [mbind panicky_bind].
  destruct (encode_data_total p) as (bs & -> & _). cbn [mbind panicky_bind].
  match goal with |- context [let '(_, _) := ?m in _] => destruct m as [parity fec] end.
  match goal with |- context [emit bs now ?c] => set (c2 := c) end.
  apply (wp_bind _ _ (fun c3 => pace_fields c3 = pace_fields c)).
  { destruct parity as [parity|]; [|exact Hp]. unfold emit_fec_parity. cbn. exact Hp. }
  intros c3 H3. cbn [wp]. destruct (sb_is_empty _); exact H3.
Qed.

Lemma pace_loop_exact budget period now rel c :
  conn_ok c ->
  let t0 := default now (cn_next_send c) in
  exists k c', pace_loop budget period now rel c = Ret ((rel + k)%nat, c') /\ conn_ok c' /\
    (k <= budget)%nat /\ cn_send_queue c' = drop k (cn_send_queue c) /\
    ((k < budget)%nat -> cn_send_queue c' = [] \/ exists t, cn_next_send c' = Some t /\ now < t) /\
    ((1 <= k)%nat -> t0 + (Z.of_nat k - 1) * period <= now) /\
    (cn_send_queue c' <> [] ->
     cn_next_send c' = if decide (k = 0%nat) then cn_next_send c else Some (t0 + Z.of_nat k * period)).
Proof.
  revert rel c. induction budget as [|budget IH]; intros rel c Hok t0; cbn [pace_loop].
  { exists 0%nat, c. rewrite Nat.add_0_r. split_and!; try done; lia. }
  destruct (match cn_next_send c with Some at_ => now <? at_ | None => false end) eqn:Eb.
  { exists 0%nat, c. rewrite Nat.add_0_r. split_and!; try done; try lia. intros _. right.
    destruct (cn_next_send c) as [t|]; [|done]. exists t. split; [done|]. by apply Z.ltb_lt. }
  assert (t0 <= now) as Ht0.
  { unfold t0. destruct (cn_next_send c) as [t|]; simpl; [by apply Z.ltb_ge|lia]. }
  destruct (cn_send_queue c) as [|f rest] eqn:Eq.
  { exists 0%nat. eexists. rewrite Nat.add_0_r. split; [reflexivity|]. split_and!; try done; try lia.
    - assert (advance c (c <| cn_next_send := None |>)) as H by adv. apply H.
    - intros _. by left. }
  assert (advance c (c <| cn_send_queue := rest |>)) as H1 by adv.
  pose proof (send_data_wp f now _ (adv_ok _ _ H1)) as Hw.
  pose proof (send_data_pace f now _ (adv_ok _ _ H1)) as Hp.
  destruct (send_data f now _) as [c2|]; [|done]. cbn [wp] in Hw, Hp. cbn [mbind panicky_bind].
  unfold pace_fields in Hp. apply pair_equal_spec in Hp as [Hp1 Hp2].
  change (cn_next_send (c <| cn_send_queue := rest |>)) with (cn_next_send c) in Hp1.
  change (cn_send_queue (c <| cn_send_queue := rest |>)) with rest in Hp2. rewrite Hp1. fold t0.
  set (c3 := c2 <| cn_next_send := Some (t0 + period) |>).
  assert (conn_ok c3) as Hok3.
  { assert (advance c2 c3) as H3 by (pose proof (adv_ok _ _ Hw); adv). apply H3. }
  destruct (IH (S rel) c3 Hok3) as (k & c' & E & Hok' & Hk & Hq & Hstop & Hrate & Hns).
  change (default now (cn_next_send c3)) with (t0 + period) in Hrate, Hns.
  change (cn_send_queue c3) with (cn_send_queue c2) in Hq. rewrite Hp2 in Hq.
  exists (S k), c'. rewrite E. split; [do 2 f_equal; lia|]. split_and!; try done; try lia.
  - intros Hlt. apply Hstop. lia.
  - intros _. destruct k as [|k]; [lia|]. specialize (Hrate ltac:(lia)). lia.
  - intros Hne. rewrite (Hns Hne), (decide_False (P := S k = 0%nat)) by lia.
    destruct (decide (k = 0%nat)) as [->|];
      [change (cn_next_send c3) with (Some (t0 + period))|]; f_equal; lia.
Qed.
End Pace.

(** C18 (bounds).  Pacing.  One call of [pace] releases the queued packets in
    order, at most 256 of them, and never faster than the bandwidth allows: [k]
    packets go out only if the slot of the last of them, [k - 1] send periods
    after the first slot, has come.  If packets remain, the next slot is exactly
    [k] periods after the first (or one period from now when a full burst still
    left the sender behind), and the pacing timer is armed for it. *)
Theorem pacing_is_bounded {B : BytesApi} {HB : BytesSpec B} {P : CryptoPrims} {HP : CryptoSpec P}
  (now : Instant) (c : Connection) (cc : LiveCc) :
  conn_ok c -> cn_live_cc c = Some cc ->
  let period := cc_snd_period cc in
  let slot := default now (cn_next_send c) in
  exists k c', pace now c = Ret c' /\ (k <= MAX_PACE_BURST)%nat /\
    cn_send_queue c' = drop k (cn_send_queue c) /\
    ((1 <= k)%nat -> slot + (Z.of_nat k - 1) * period <= now) /\
    (cn_send_queue c' <> [] -> exists next,
       next = (let t := slot + Z.of_nat k * period in
               if decide (k = MAX_PACE_BURST /\ t < now) then now + period else t) /\
       cn_next_send c' = Some next /\
       last (cn_outputs c') = Some (SetTimer TiSndPacing (since next now)) /\
       ((k < MAX_PACE_BURST)%nat -> now < next)).
Proof.
  intros Hok Hcc period slot. unfold pace. rewrite Hcc. fold period.
  destruct (pace_loop_exact MAX_PACE_BURST period now 0 c Hok)
    as (k & c1 & E & Hok1 & Hk & Hq & Hstop & Hrate & Hns).
  rewrite E, Nat.add_0_l. cbn [mbind panicky_bind]. fold slot in Hrate, Hns. cbv zeta.
  set (c2 := if (k =? MAX_PACE_BURST)%nat && _ then _ else c1).
  assert (cn_send_queue c2 = cn_send_queue c1) as Hq2 by (unfold c2; by destruct (_ && _)).
  assert (conn_ok c2) as Hok2.
  { unfold c2. destruct (_ && _); [|done].
    assert (advance c1 (c1 <| cn_next_send := Some (now + period) |>)) as H by adv. apply H. }
  rewrite Hq2. destruct (cn_send_queue c1) as [|f rest] eqn:Eq.
  - clearbody c2. pose proof (push_output_advance c2 Hok2 (ClearTimer TiSndPacing)) as H3.
    set (c3 := push_output (ClearTimer TiSndPacing) c2) in *.
    assert (wp (finish_close_if_drained now c3) (fun c' => cn_send_queue c' = [])) as Hw.
    { unfold finish_close_if_drained. destruct (_ && _); [|exact Hq2].
      unfold finalize_shutdown. apply (wp_bind _ _ (fun _ => True)); [|intros bs _; exact Hq2].
      destruct (encode_control_total (cn_peer_socket_id c3) (wire_ts c3 now) CbShutdown I) as (bs & -> & _). done. }
    destruct (finish_close_if_drained now c3) as [c'|]; [|done]. cbn [wp] in Hw.
    exists k, c'. rewrite Hw. split_and!; try done.
  - eexists k, _. split; [reflexivity|].
    change (cn_send_queue (push_output (SetTimer TiSndPacing (since (default now (cn_next_send c2)) now)) c2))
      with (cn_send_queue c2). rewrite Hq2.
    split_and!; [done|done|done|]. intros _.
    specialize (Hns ltac:(done)).
    assert (cn_next_send c1 = Some (slot + Z.of_nat k * period)) as Hn1.
    { rewrite Hns. destruct (decide (k = 0%nat)) as [->|]; [|done].
      destruct (Hstop ltac:(unfold MAX_PACE_BURST; lia)) as [?|(t & Ht & _)]; [done|].
      rewrite Ht in Hns. cbn in Hns. unfold slot. rewrite <- Hns. simpl. f_equal. lia. }
    exists (default now (cn_next_send c2)).
    assert (cn_next_send c2 = Some (let t := slot + Z.of_nat k * period in
               if decide (k = MAX_PACE_BURST /\ t < now) then now + period else t)) as Hn2.
    { clear -Hn1. unfold c2. rewrite Hn1. cbv zeta.
      destruct (Nat.eqb_spec k MAX_PACE_BURST) as [Ek|Ek];
        destruct (Z.ltb_spec (slot + Z.of_nat k * period) now) as [Hl|Hl]; cbn [andb];
        case_decide as Hd; rewrite ?Hn1; try done; exfalso; (tauto || lia). }
    rewrite Hn2. cbn [default from_option]. split; [done|]. split; [exact Hn2|].
    split; [unfold push_output; cbn [cn_outputs]; apply last_snoc|].
    intros Hlt. destruct (Hstop Hlt) as [?|(t & Ht & Hnow)]; [done|].
    rewrite Hn1 in Ht. injection Ht as <-. cbv zeta. rewrite decide_False by lia. exact Hnow.
Qed.

Definition ex_paced (n : nat) : Connection :=
  (ex_connected None None) <| cn_live_cc := Some (cc_new 1000000) |>
    <| cn_send_queue := (fun i => MkFragment [u8_of_Z (Z.of_nat i)] Single 1) <$> List.seq 0 n |>.

Lemma ex_paced_ok n : conn_ok (ex_paced n).
Proof.
  destruct (ex_connected_ok None None ltac:(done)) as [K1 K2 K3 K4 K5 K6 K7 K8 K9].
  constructor; try assumption. by intros cc [= <-].
Qed.

Lemma pacing_is_bounded_witness :
  exists k c', @pace vec_bytes toy_prims 7000 (ex_paced 3) = Ret c' /\ (k <= 256)%nat /\
    cn_send_queue c' = drop k (cn_send_queue (ex_paced 3)).
Proof.
  pose proof toy_spec as HP.
  destruct (@pacing_is_bounded vec_bytes vec_bytes_spec toy_prims HP 7000 (ex_paced 3) (cc_new 1000000))
    as (k & c' & E & Hk & Hq & _).
  - apply ex_paced_ok.
  - reflexivity.
  - exists k, c'. split; [exact E|]. split; [exact Hk|exact Hq].
Defined.
