(* ===== verification/Receiving.v ===== *)
(** * Receiving: timestamp-based delivery and the receiver's clock *)

From S2P Require Import Prelude Buf Errors Seq Time Timestamp Rtt Drift PacketTypes SendBuffer RecvBuffer KeyMaterial Crypto Config Event Fragment ConnState Rekey Arq Conn ConnInv ConnStart Session.

(** ** Popping in sequence order *)

(** The packets held among the first [m] positions, in order. *)
Definition held (rb : RecvBuffer) (m : nat) : list DataPacket := omap (rb_at rb) (List.seq 0 m).

Lemma omap_seq_shift {A} (f : nat -> option A) n m :
  omap f (List.seq n m) = omap (fun i => f (n + i)%nat) (List.seq 0 m).
Proof.
  replace (List.seq n m) with (List.map (Nat.add n) (List.seq 0 m)).
  - induction (List.seq 0 m) as [|i l IH]; [done|]. cbn [List.map omap list_omap]. by rewrite IH.
  - revert n. induction m as [|m IH]; intros n; [done|]. cbn [List.seq List.map].
    rewrite Nat.add_0_r. f_equal. rewrite <- (IH 1%nat), List.map_map, <- (IH (S n)).
    apply List.map_ext. intros. lia.
Qed.

Lemma held_app rb n m :
  held rb (n + m) = held rb n ++ omap (fun i => rb_at rb (n + i)) (List.seq 0 m).
Proof. unfold held. rewrite List.seq_app, omap_app. f_equal. apply omap_seq_shift. Qed.

Lemma held_before_earliest rb pos p : rb_earliest rb pos p -> held rb (S pos) = [p].
Proof.
  intros [Hp Hn]. replace (S pos) with (pos + 1)%nat by lia. rewrite held_app. cbn.
  rewrite Nat.add_0_r, Hp.
  enough (held rb pos = []) as -> by done.
  unfold held. assert (forall i, i ∈ List.seq 0 pos -> rb_at rb i = None) as H.
  { intros i [_ Hi]%elem_of_seq. by apply Hn. }
  revert H. generalize (List.seq 0 pos) as l. induction l as [|i l IH]; intros H; [done|].
  cbn [omap list_omap]. rewrite H by apply list_elem_of_here. apply IH.
  intros j Hj. apply H. by apply list_elem_of_further.
Qed.

(** The buffer once its first [m] positions are gone. *)
Definition past (rb : RecvBuffer) (m : nat) : RecvBuffer :=
  MkRecvBuffer (seq_add (rb_base rb) (Z.of_nat m)) (drop m (rb_slots rb))
    (present_count (drop m (rb_slots rb))).

Lemma past_0 rb : rb_ok rb -> past rb 0 = rb.
Proof.
  intros Hok. unfold past. rewrite drop_0, seq_add_0 by apply Hok.
  rewrite <- (rb_ok_count _ Hok). by destruct rb.
Qed.

Lemma past_past rb n m : past (past rb n) m = past rb (n + m).
Proof.
  unfold past. cbn [rb_base rb_slots]. rewrite drop_drop, seq_add_add.
  do 2 f_equal; lia.
Qed.

Lemma held_past rb pos p m :
  rb_earliest rb pos p -> held rb (S pos + m) = p :: held (past rb (S pos)) m.
Proof.
  intros He. rewrite held_app, (held_before_earliest _ _ _ He). cbn [app]. f_equal.
  unfold held, past. induction (List.seq 0 m) as [|i l IH]; [done|]. cbn [omap list_omap].
  by rewrite rb_at_drop, IH.
Qed.

(** ** Delivery *)

(** What decides when a packet is due. *)
Definition clock_fields (c : Connection) :=
  (cn_tsbpd_base c, cn_ts_wrap c, cn_drift c, cn_latency c).

Lemma play_time_clock c c' ts :
  clock_fields c' = clock_fields c -> tsbpd_play_time c' ts = tsbpd_play_time c ts.
Proof.
  unfold clock_fields, tsbpd_play_time, tsbpd_expected_arrival. by intros [= -> -> -> ->].
Qed.

(** Due at [now]. *)
Definition is_due (c : Connection) (now : Instant) (p : DataPacket) : Prop :=
  exists t, tsbpd_play_time c (dp_timestamp p) = Some t /\ t <= now.

(** The messages a run of packets completes, and the reassembler they leave. *)
Definition delivered (c : Connection) (ps : list DataPacket) : list (list byte) * Reassembler :=
  foldl ra_step ([], cn_reassembler c) ps.

Lemma ra_fold_prefix ms r ps :
  foldl ra_step (ms, r) ps =
    (ms ++ fst (foldl ra_step ([], r) ps), snd (foldl ra_step ([], r) ps)).
Proof.
  revert ms r. induction ps as [|p ps IH]; intros ms r; cbn [foldl]; [by rewrite app_nil_r|].
  unfold ra_step at 2 4 6. destruct (ra_push r p) as [m r'].
  rewrite IH, (IH ([] ++ _)). cbn [fst snd]. by rewrite app_assoc.
Qed.

Lemma deliver_one_exact c pos p :
  conn_ok c -> rb_earliest (cn_recv_buffer c) pos p ->
  cn_recv_buffer (deliver_one c) = past (cn_recv_buffer c) (S pos) /\
  clock_fields (deliver_one c) = clock_fields c /\
  cn_outputs (deliver_one c) = cn_outputs c /\
  cn_events (deliver_one c) = cn_events c ++ (EvDataReceived <$> fst (delivered c [p])) /\
  cn_reassembler (deliver_one c) = snd (delivered c [p]).
Proof.
  intros Hok He. unfold deliver_one, delivered. cbn [foldl]. unfold ra_step.
  rewrite (rb_pop_earliest _ _ _ (ok_recv _ Hok) He). cbv zeta.
  change (cn_reassembler (_ <| cn_stats -> st_packets_dropped ::= _ |>)) with (cn_reassembler c).
  destruct (ra_push (cn_reassembler c) p) as [[m|] ra]; split_and!; try reflexivity.
  symmetry. apply app_nil_r.
Qed.

Lemma deliver_loop_exact fuel now c :
  conn_ok c -> (length (rb_slots (cn_recv_buffer c)) < fuel)%nat ->
  exists m c', let ps := held (cn_recv_buffer c) m in
    deliver_loop fuel now c = Ret c' /\ conn_ok c' /\
    cn_recv_buffer c' = past (cn_recv_buffer c) m /\
    clock_fields c' = clock_fields c /\
    Forall (is_due c now) ps /\
    cn_events c' = cn_events c ++ (EvDataReceived <$> fst (delivered c ps)) /\
    cn_reassembler c' = snd (delivered c ps) /\
    match rb_peek (cn_recv_buffer c') with
    | None => cn_outputs c' = cn_outputs c ++ [ClearTimer TiTsbpd]
    | Some (_, ts) =>
        match tsbpd_play_time c ts with
        | None => cn_outputs c' = cn_outputs c
        | Some t => now < t /\ cn_outputs c' = cn_outputs c ++ [SetTimer TiTsbpd (since t now)]
        end
    end.
Proof.
  revert c. induction fuel as [|fuel IH]; intros c Hok Hf; [lia|]. cbn [deliver_loop].
  pose proof (ok_recv _ Hok) as Hrb.
  assert (forall c', conn_ok c' -> cn_recv_buffer c' = cn_recv_buffer c ->
    cn_events c' = cn_events c -> cn_reassembler c' = cn_reassembler c ->
    clock_fields c' = clock_fields c -> conn_ok c' /\
    cn_recv_buffer c' = past (cn_recv_buffer c) 0 /\ clock_fields c' = clock_fields c /\
    Forall (is_due c now) (held (cn_recv_buffer c) 0) /\
    cn_events c' = cn_events c ++ (EvDataReceived <$> fst (delivered c (held (cn_recv_buffer c) 0))) /\
    cn_reassembler c' = snd (delivered c (held (cn_recv_buffer c) 0))) as Hstop.
  { intros c' H1 H2 H3 H4 H5. rewrite past_0, H2, H3, H4, H5 by done. cbn.
    split_and!; try done. by rewrite app_nil_r. }
  destruct (rb_peek (cn_recv_buffer c)) as [[q ts]|] eqn:E.
  2: { exists 0%nat. eexists. split; [reflexivity|].
       destruct (Hstop (push_output (ClearTimer TiTsbpd) c)) as (? & ? & ? & ? & ? & ?); try reflexivity.
       { eapply adv_ok, push_output_advance; [exact Hok|apply _]. }
       split_and!; try assumption.
       change (cn_recv_buffer (push_output (ClearTimer TiTsbpd) c)) with (cn_recv_buffer c).
       by rewrite E. }
  destruct (tsbpd_play_time c ts) as [t|] eqn:Et.
  2: { exists 0%nat, c. split; [reflexivity|].
       destruct (Hstop c) as (? & ? & ? & ? & ? & ?); try done.
       split_and!; try assumption. by rewrite E, Et. }
  destruct (Z.ltb_spec now t) as [Hlt|Hge].
  { exists 0%nat. eexists. split; [reflexivity|].
    destruct (Hstop (push_output (SetTimer TiTsbpd (since t now)) c)) as (? & ? & ? & ? & ? & ?);
      try reflexivity.
    { eapply adv_ok, push_output_advance; [exact Hok|apply _]. }
    split_and!; try assumption.
    change (cn_recv_buffer (push_output _ c)) with (cn_recv_buffer c). by rewrite E, Et. }
  destruct (rb_peek_earliest _ _ _ Hrb E) as (pos & p & He & <- & <-).
  destruct (deliver_one_advance c pos p Hok He) as [H1 H2].
  destruct (deliver_one_exact c pos p Hok He) as (Er & Ek & Eo & Ee & Ea).
  destruct (IH (deliver_one c) (adv_ok _ _ H1) ltac:(lia))
    as (m & c' & El & Hok' & Hr' & Hk' & Hdue & Hev & Hra & Hend).
  exists (S pos + m)%nat, c'. cbv zeta. rewrite (held_past _ _ _ _ He).
  rewrite Er in *. split; [exact El|]. split; [exact Hok'|].
  split; [by rewrite Hr', past_past|]. split; [congruence|].
  assert (delivered c (p :: held (past (cn_recv_buffer c) (S pos)) m) =
    (fst (delivered c [p]) ++ fst (delivered (deliver_one c) (held (past (cn_recv_buffer c) (S pos)) m)),
     snd (delivered (deliver_one c) (held (past (cn_recv_buffer c) (S pos)) m)))) as Ed.
  { unfold delivered. rewrite Ea. unfold delivered. cbn [foldl].
    destruct (ra_step ([], cn_reassembler c) p) as [ms r]. cbn [fst snd]. apply ra_fold_prefix. }
  rewrite Ed. cbn [fst snd]. split_and!.
  - constructor; [by exists t|]. eapply Forall_impl; [exact Hdue|]. intros x (tx & Hx & Hle).
    exists tx. split; [|done]. by rewrite <- (play_time_clock c (deliver_one c)).
  - by rewrite Hev, Ee, fmap_app, app_assoc.
  - exact Hra.
  - rewrite <- Eo. destruct (rb_peek (cn_recv_buffer c')) as [[q' ts']|]; [|exact Hend].
    by rewrite <- (play_time_clock c (deliver_one c)).
Qed.

(** C19 (functional).  Timestamp-based delivery.  One delivery pass hands over
    exactly the held packets before some position, in sequence order, skipping
    the ones that never came: every delivered packet's play time has come, and
    the pass stops only when the buffer is empty (the timer is then disarmed) or
    the next held packet is not due yet (the timer is then armed for exactly its
    play time).  The application sees the messages these packets complete, in
    order, after whatever it had not read yet. *)
Theorem delivery_hands_over_what_is_due (now : Instant) (c : Connection) :
  conn_ok c ->
  exists m c', let ps := held (cn_recv_buffer c) m in
    deliver_tsbpd now c = Ret c' /\ conn_ok c' /\
    rb_base (cn_recv_buffer c') = seq_add (rb_base (cn_recv_buffer c)) (Z.of_nat m) /\
    (forall i, rb_at (cn_recv_buffer c') i = rb_at (cn_recv_buffer c) (m + i)) /\
    Forall (is_due c now) ps /\
    cn_events c' = cn_events c ++ (EvDataReceived <$> fst (delivered c ps)) /\
    match rb_peek (cn_recv_buffer c') with
    | None => cn_outputs c' = cn_outputs c ++ [ClearTimer TiTsbpd]
    | Some (_, ts) =>
        match tsbpd_play_time c ts with
        | None => cn_outputs c' = cn_outputs c
        | Some t => now < t /\ cn_outputs c' = cn_outputs c ++ [SetTimer TiTsbpd (since t now)]
        end
    end.
Proof.
  intros Hok.
  destruct (deliver_loop_exact (S (length (rb_slots (cn_recv_buffer c)))) now c Hok ltac:(lia))
    as (m & c' & E & Hok' & Hr & _ & Hdue & Hev & _ & Hend).
  exists m, c'. cbv zeta. split; [exact E|]. split; [exact Hok'|].
  split; [by rewrite Hr|]. split; [intros i; rewrite Hr; apply rb_at_drop|]. done.
Qed.

(** A connected receiver that holds packets 0, 1 and 3 of a stream. *)
Definition ex_receiving : Connection :=
  (ex_connected None None)
    <| cn_recv_buffer := rb_insert_all (rb_new (MkSeq 10)) (ex_packet (MkSeq 10) <$> [0; 3; 1]%nat) |>
    <| cn_tsbpd_base := Some (from_micros 0, 0) |> <| cn_ts_wrap := Some (wrap_new (from_micros 0)) |>.

Lemma ex_receiving_ok : conn_ok ex_receiving.
Proof.
  destruct (ex_connected_ok None None ltac:(done)) as [K1 K2 K3 K4 K5 K6 K7 K8 K9].
  constructor; try assumption.
  assert (holds_exactly (rb_insert_all (rb_new (MkSeq 10)) (ex_packet (MkSeq 10) <$> [0; 3; 1]%nat))
    (MkSeq 10) (ex_packet (MkSeq 10)) (reverse [0; 3; 1]%nat ++ [])) as (H & _); [|exact H].
  apply holds_exactly_insert_all; [done| |by apply rb_new_holds]. repeat constructor; lia.
Qed.

Lemma delivery_hands_over_what_is_due_witness :
  exists m c', deliver_tsbpd 120000000 ex_receiving = Ret c' /\
    Forall (is_due ex_receiving 120000000) (held (cn_recv_buffer ex_receiving) m).
Proof.
  destruct (delivery_hands_over_what_is_due 120000000 ex_receiving) as (m & c' & E & _ & _ & _ & H & _).
  - apply ex_receiving_ok.
  - exists m, c'. split; [exact E|exact H].
Defined.

(** ** The play-out clock *)

(** Packets accepted at the given instants, stamped by the sender's clock. *)
Definition anchor_all (arrivals : list (Z * Instant)) (c : Connection) : Connection :=
  foldl (fun c a => anchor_tsbpd (wire_of a.1) a.2 c) c arrivals.

Definition newest (t0 : Z) (arrivals : list (Z * Instant)) : Z :=
  foldl (fun M a => Z.max M a.1) t0 arrivals.

Lemma anchor_all_tracks arrivals c t0 r0 w M :
  cn_tsbpd_base c = Some (wire_of t0, r0) -> cn_ts_wrap c = Some w -> wrap_tracks w M ->
  within_window M (fst <$> arrivals) ->
  cn_tsbpd_base (anchor_all arrivals c) = Some (wire_of t0, r0) /\
  (exists w', cn_ts_wrap (anchor_all arrivals c) = Some w' /\ wrap_tracks w' (newest M arrivals)) /\
  cn_drift (anchor_all arrivals c) = cn_drift c /\ cn_latency (anchor_all arrivals c) = cn_latency c.
Proof.
  revert c w M. induction arrivals as [|[t r] l IH]; intros c w M Hb Hw Ht Hwin; cbn in *.
  { split_and!; try done. by exists w. }
  destruct Hwin as (Ht1 & Ht2 & Hwin).
  assert (cn_tsbpd_base (anchor_tsbpd (wire_of t) r c) = Some (wire_of t0, r0) /\
    cn_ts_wrap (anchor_tsbpd (wire_of t) r c) = Some (wrap_observe w (wire_of t)) /\
    cn_drift (anchor_tsbpd (wire_of t) r c) = cn_drift c /\
    cn_latency (anchor_tsbpd (wire_of t) r c) = cn_latency c) as (E1 & E2 & E3 & E4).
  { unfold anchor_tsbpd. rewrite Hb. split_and!; try done.
    change ((fun w => wrap_observe w (wire_of t)) <$> cn_ts_wrap c = Some (wrap_observe w (wire_of t))).
    by rewrite Hw. }
  destruct (IH _ _ _ E1 E2 (wrap_observe_tracks w M t Ht Ht1 Ht2) Hwin) as (F1 & F2 & F3 & F4).
  split_and!; [done|done|etransitivity; [exact F3|exact E3]|etransitivity; [exact F4|exact E4]].
Qed.

(** C20 (bounds).  The play-out clock follows the sender's clock through any
    number of timestamp wraps.  The wire carries 32 bits (71 minutes) of the
    sender's microsecond clock; if consecutive accepted packets are less than
    half a wrap apart, then after any such run a packet sent at true time [t]
    plays at the first packet's arrival, plus the true time since it was sent
    (corrected by the measured drift), plus the negotiated latency. *)
Theorem play_time_follows_the_sender_clock (c : Connection) (t0 r0 t : Z)
  (arrivals : list (Z * Instant)) :
  cn_tsbpd_base c = None -> 0 <= t0 < 4294967296 -> within_window t0 (fst <$> arrivals) ->
  - 2147483648 <= t - newest t0 arrivals < 2147483648 ->
  tsbpd_play_time (anchor_all ((t0, r0) :: arrivals) c) (wire_of t) =
    Some (apply_signed r0 (t - t0 + drift_correction_us (cn_drift c)) + cn_latency c).
Proof.
  intros Hb Ht0 Hwin Ht. cbn [anchor_all foldl fst snd].
  assert (anchor_tsbpd (wire_of t0) r0 c =
    c <| cn_tsbpd_base := Some (wire_of t0, r0) |> <| cn_ts_wrap := Some (wrap_new (wire_of t0)) |>) as ->
    by (unfold anchor_tsbpd; by rewrite Hb).
  set (c1 := c <| cn_tsbpd_base := _ |> <| cn_ts_wrap := _ |>).
  destruct (anchor_all_tracks arrivals c1 t0 r0 (wrap_new (wire_of t0)) t0 eq_refl eq_refl
    (wrap_new_tracks t0 Ht0) Hwin) as (E1 & (w & E2 & Hw) & E3 & E4).
  fold (anchor_all arrivals c1). unfold tsbpd_play_time, tsbpd_expected_arrival.
  rewrite E1, E2. cbn [mbind option_bind]. rewrite E3, E4.
  rewrite (wrap_offset_tracks w _ t Hw Ht).
  replace (ts_as_micros (wire_of t0)) with t0; [done|].
  unfold ts_as_micros, wire_of, wrap32. cbn. by rewrite Z.mod_small.
Qed.

Lemma play_time_follows_the_sender_clock_witness :
  let arrivals := [(4294967290, 5000); (4294967300, 9000)] in
  tsbpd_play_time (anchor_all ((4294960000, 1000) :: arrivals) (ex_connected None None)) (wire_of 4294968000) =
    Some (apply_signed 1000 8000 + 120000000).
Proof.
  cbv zeta.
  apply (play_time_follows_the_sender_clock (ex_connected None None) 4294960000 1000 4294968000
    [(4294967290, 5000); (4294967300, 9000)]).
  - reflexivity.
  - lia.
  - cbn. lia.
  - cbn. lia.
Defined.
