(* ===== verification/Lifecycle.v ===== *)
(** * Lifecycle: timeouts, acknowledgements and the graceful close *)

From S2P Require Import Prelude Buf Errors Reject Seq Time Timestamp Rtt PacketTypes Control Packet SendBuffer RecvBuffer KeyMaterial Crypto Config Event Fragment ConnState Rekey Arq Setup Conn ConnInv ConnStart Session.

(** [instant at which a timer armed at [now] fires] *)
Definition armed_at (id : TimerId) (now : Instant) (os : list Output) : option Instant :=
  match last os with
  | Some (SetTimer id' after) => if decide (id' = id) then Some (now + after) else None
  | _ => None
  end.

Lemma outputs_push o c : cn_outputs (push_output o c) = cn_outputs c ++ [o].
Proof. reflexivity. Qed.

Lemma clear_arq_outputs c : cn_outputs (clear_arq_timers c) = cn_outputs c ++ (ClearTimer <$> ARQ_TIMERS).
Proof.
  unfold clear_arq_timers. generalize ARQ_TIMERS as ids. intros ids. revert c.
  induction ids as [|id ids IH]; intros c; cbn [foldl fmap list_fmap]; [by rewrite app_nil_r|].
  by rewrite IH, outputs_push, <- app_assoc.
Qed.

(** A silent peer is detected exactly on time.  When the
    peer-idle timer fires on a connected session, the connection fails with
    [Timeout] (and disarms every timer of the session) if and only if nothing
    was received for the configured time; otherwise it only re-arms the timer,
    and for the very instant at which the silence would become too long. *)
Theorem peer_idle_is_exact (now : Instant) (c : Connection) :
  cn_state c = StConnected -> cn_last_recv_any c <= now ->
  let deadline := cn_last_recv_any c + cfg_peer_idle_timeout (cn_config c) in
  let c' := on_peer_idle_timer now c in
  (deadline <= now /\ cn_state c' = StFailed /\
     cn_events c' = cn_events c ++ [EvFailed ConnTimeout] /\
     cn_outputs c' = cn_outputs c ++ (ClearTimer <$> ARQ_TIMERS)) \/
  (now < deadline /\ cn_state c' = StConnected /\ cn_events c' = cn_events c /\
     armed_at TiPeerIdle now (cn_outputs c') = Some deadline).
Proof.
  intros Hs Hr deadline c'. unfold c', on_peer_idle_timer. rewrite Hs. cbn [is_connected negb].
  assert (since now (cn_last_recv_any c) = now - cn_last_recv_any c) as -> by (unfold since; lia).
  destruct (Z.leb_spec (cfg_peer_idle_timeout (cn_config c)) (now - cn_last_recv_any c)) as [Hle|Hgt].
  - left. split; [unfold deadline; lia|]. split_and!; try reflexivity.
    exact (clear_arq_outputs (c <| cn_state := StFailed |>)).
  - right. split; [unfold deadline; lia|]. split_and!; [exact Hs|reflexivity|].
    unfold armed_at. rewrite outputs_push, last_snoc, decide_True by done.
    f_equal. unfold deadline, dur_saturating_sub. lia.
Qed.

Lemma peer_idle_is_exact_witness :
  armed_at TiPeerIdle 1000 (cn_outputs (on_peer_idle_timer 1000 (ex_connected None None))) =
    Some (dur_from_secs 5).
Proof.
  destruct (peer_idle_is_exact 1000 (ex_connected None None)) as [(H & _)|(_ & _ & _ & H)].
  - reflexivity.
  - by vm_compute.
  - exfalso. by vm_compute in H.
  - exact H.
Defined.

(** The handshake timer left to itself: it fires every [SYN_INTERVAL], as it was
    armed, and no answer ever arrives. *)
Fixpoint unanswered (k : nat) (c : Connection) : Connection :=
  match k with
  | O => c
  | S k => on_handshake_timer (cn_start c + Z.of_nat (S k) * SYN_INTERVAL) (unanswered k c)
  end.

Definition retries (bs : list byte) (k : nat) : list Output :=
  concat (replicate k [SendDatagram bs; SetTimer TiHandshake SYN_INTERVAL]).

Lemma retries_snoc bs k :
  retries bs (S k) = retries bs k ++ [SendDatagram bs; SetTimer TiHandshake SYN_INTERVAL].
Proof.
  unfold retries. induction k as [|k IH]; [done|].
  change (replicate (S (S k)) ?x) with (x :: replicate (S k) x). cbn [concat].
  rewrite IH at 1. by rewrite app_assoc.
Qed.

(** What a retry leaves in place. *)
Definition retrying (bs : list byte) (k : nat) (c c' : Connection) : Prop :=
  cn_state c' = cn_state c /\ cn_events c' = cn_events c /\
  cn_outputs c' = cn_outputs c ++ retries bs k /\ cn_start c' = cn_start c /\
  cn_config c' = cn_config c /\ cn_last_handshake c' = Some bs.

Lemma unanswered_retries bs c k :
  cn_last_handshake c = Some bs -> is_handshaking (cn_state c) = true ->
  Z.of_nat k * SYN_INTERVAL < cfg_connect_timeout (cn_config c) ->
  retrying bs k c (unanswered k c).
Proof.
  intros Hb Hs. induction k as [|k IH]; intros Hk.
  { unfold retrying. cbn. by rewrite app_nil_r. }
  assert (0 < SYN_INTERVAL) as Hsyn by (by vm_compute).
  destruct IH as (E1 & E2 & E3 & E4 & E5 & E6); [lia|].
  cbn [unanswered]. unfold on_handshake_timer. rewrite E1, E4, E5, E6, Hs. cbn [negb].
  unfold since. rewrite (proj2 (Z.leb_gt _ _)) by lia.
  split_and!; try assumption. rewrite !outputs_push, E3, retries_snoc, <- !app_assoc. done.
Qed.

(** C24 (termination).  A handshake that nobody answers ends.  With the timer
    firing every 250 ms, as it is armed, the caller resends its last packet,
    unchanged, at each expiry before the connect timeout and at no other time;
    the first expiry at or after the timeout fails the connection, once, with
    [HandshakeTimeout], and later expiries do nothing. *)
Theorem unanswered_handshake_times_out (c : Connection) (bs : list byte) (n : nat) :
  cn_last_handshake c = Some bs -> is_handshaking (cn_state c) = true ->
  Z.of_nat n * SYN_INTERVAL < cfg_connect_timeout (cn_config c) <= Z.of_nat (S n) * SYN_INTERVAL ->
  (forall k, (k <= n)%nat -> cn_state (unanswered k c) = cn_state c /\
     cn_events (unanswered k c) = cn_events c /\
     cn_outputs (unanswered k c) = cn_outputs c ++ retries bs k) /\
  forall m, (n < m)%nat ->
    cn_state (unanswered m c) = StFailed /\
    cn_events (unanswered m c) = cn_events c ++ [EvFailed HandshakeTimeout] /\
    cn_outputs (unanswered m c) = cn_outputs c ++ retries bs n ++ [ClearTimer TiHandshake].
Proof.
  intros Hb Hs [Hlo Hhi]. assert (0 < SYN_INTERVAL) as Hsyn by (by vm_compute).
  split.
  - intros k Hk. destruct (unanswered_retries bs c k Hb Hs) as (E1 & E2 & E3 & _); [nia|done].
  - intros m. induction m as [|m IH]; [lia|]. intros Hm.
    destruct (decide (n = m)) as [<-|Hne].
    + destruct (unanswered_retries bs c n Hb Hs Hlo) as (E1 & E2 & E3 & E4 & E5 & E6).
      cbn [unanswered]. unfold on_handshake_timer. rewrite E1, E4, E5, Hs. cbn [negb].
      unfold since. rewrite (proj2 (Z.leb_le _ _)) by lia.
      split; [reflexivity|]. split; [by rewrite <- E2|].
      rewrite app_assoc, <- E3. reflexivity.
    + destruct IH as (E1 & E2 & E3); [lia|]. cbn [unanswered]. unfold on_handshake_timer.
      by rewrite E1.
Qed.

Lemma unanswered_handshake_times_out_witness :
  let c := (new_base (ex_config None 120) ex_caller_id (MkSeq 5) 0 Caller StInduction)
             <| cn_last_handshake := Some [u8_of_Z 1] |> in
  cn_outputs (unanswered 20 c) = retries [u8_of_Z 1] 11 ++ [ClearTimer TiHandshake].
Proof.
  intros c.
  destruct (unanswered_handshake_times_out c [u8_of_Z 1] 11) as [_ H].
  - reflexivity.
  - reflexivity.
  - vm_compute. split; [reflexivity|intros [=]].
  - destruct (H 20%nat) as (_ & _ & E); [lia|]. exact E.
Defined.

Section Close.
Context {B : BytesApi} {HB : BytesSpec B} {P : CryptoPrims} {HP : CryptoSpec P}.

Definition drained (c : Connection) : bool :=
  sb_is_empty (cn_send_buffer c) && match cn_send_queue c with [] => true | _ => false end.

(** What finalizing does: one SHUTDOWN, every timer disarmed, one event. *)
Record closed_now (now : Instant) (c c' : Connection) : Prop := {
  cw_state : cn_state c' = StFailed;
  cw_events : cn_events c' = cn_events c ++ [EvClosed];
  cw_outputs : exists bs, packet_decode bs =
      Ok (PControl (MkControl (wire_ts c now) (cn_peer_socket_id c) CbShutdown)) /\
    cn_outputs c' = cn_outputs c ++ [SendDatagram bs] ++ (ClearTimer <$> ARQ_TIMERS) ++ [ClearTimer TiLinger];
}.

Lemma finalize_shutdown_exact now c :
  socket_id_ok (cn_peer_socket_id c) ->
  exists c', finalize_shutdown now c = Ret c' /\ closed_now now c c'.
Proof.
  intros Hid. unfold finalize_shutdown.
  destruct (encode_control_decodes (cn_peer_socket_id c) (wire_ts c now) CbShutdown Hid
    (wire_ts_ok _ _) I) as (bs & Eb & Hd).
  rewrite Eb. cbn [mbind panicky_bind]. eexists. split; [reflexivity|]. constructor; try reflexivity.
  exists bs. split; [exact Hd|].
  change (cn_outputs (push_output (ClearTimer TiLinger) (clear_arq_timers (push_output (SendDatagram bs) c)))
    = cn_outputs c ++ [SendDatagram bs] ++ (ClearTimer <$> ARQ_TIMERS) ++ [ClearTimer TiLinger]).
  by rewrite outputs_push, clear_arq_outputs, outputs_push, <- !app_assoc.
Qed.
End Close.

(** An ACK that leaves nothing in flight ends a closing session: the shutdown, and
    after it the ACKACK a full or small ACK is owed. *)
Record closed_by_ack {B : BytesApi} (now : Instant) (c c' : Connection) : Prop := {
  ca_state : cn_state c' = StFailed;
  ca_events : cn_events c' = cn_events c ++ [EvClosed];
  ca_outputs : exists bs answer, packet_decode bs =
      Ok (PControl (MkControl (wire_ts c now) (cn_peer_socket_id c) CbShutdown)) /\
    (length answer <= 1)%nat /\
    cn_outputs c' = cn_outputs c ++ [ClearTimer TiExp; SendDatagram bs] ++ (ClearTimer <$> ARQ_TIMERS) ++
      [ClearTimer TiLinger] ++ (SendDatagram <$> answer);
}.

Lemma on_ack_closes {B : BytesApi} {HB : BytesSpec B} ack now c :
  cn_closing c = true -> cn_send_queue c = [] ->
  sb_packets (sb_ack (cn_send_buffer c) (ack_last_ack_seq ack)).2 = [] -> socket_id_ok (cn_peer_socket_id c) ->
  exists c', on_ack ack now c = Ret c' /\ closed_by_ack now c c'.
Proof.
  intros Hc Hq Hb Hid. unfold on_ack. cbv zeta.
  match goal with |- context [drop_too_late now ?x] => set (c1 := x) end.
  assert (sb_packets (cn_send_buffer c1) = [] /\ cn_closing c1 = true /\ cn_send_queue c1 = [] /\
    (cn_outputs c1, cn_events c1, cn_peer_socket_id c1, cn_start c1) =
    (cn_outputs c, cn_events c, cn_peer_socket_id c, cn_start c)) as (Hb1 & Hc1 & Hq1 & Hs1).
  { unfold c1. destruct (ack_cif ack); split_and!; done. }
  clearbody c1. injection Hs1 as E1 E2 E3 E4.
  assert (drop_too_late now c1 = Ret c1) as ->.
  { unfold drop_too_late. cbv zeta.
    assert (sb_len (cn_send_buffer c1) = 0%nat /\ sb_front (cn_send_buffer c1) = None) as [-> Hf]
      by (unfold sb_len, sb_front; by rewrite Hb1).
    cbn [shed_loop]. by rewrite Hf. }
  cbn [mbind panicky_bind].
  match goal with |- context [sb_is_empty (cn_send_buffer ?x)] =>
    assert (sb_is_empty (cn_send_buffer x) = true) as -> end.
  { change (sb_is_empty (cn_send_buffer c1) = true). unfold sb_is_empty. by rewrite Hb1. }
  match goal with |- context [finish_close_if_drained now ?x] => set (c2 := x) end.
  assert (finish_close_if_drained now c2 = finalize_shutdown now c2) as ->.
  { unfold finish_close_if_drained. change (cn_closing c2) with (cn_closing c1).
    change (cn_send_queue c2) with (cn_send_queue c1).
    change (sb_is_empty (cn_send_buffer c2)) with (sb_is_empty (cn_send_buffer c1)).
    unfold sb_is_empty. by rewrite Hc1, Hq1, Hb1. }
  destruct (finalize_shutdown_exact now c2) as (c3 & -> & [F1 F2 (bs & Fd & F3)]).
  { change (cn_peer_socket_id c2) with (cn_peer_socket_id c1). by rewrite E3. }
  change (wire_ts c2 now) with (wire_ts c1 now) in Fd.
  change (cn_peer_socket_id c2) with (cn_peer_socket_id c1) in Fd.
  assert (wire_ts c1 now = wire_ts c now) as Ew by (unfold wire_ts; by rewrite E4).
  rewrite E3, Ew in Fd. change (cn_events c2) with (cn_events c1) in F2.
  change (cn_outputs c2) with (cn_outputs c1 ++ [ClearTimer TiExp]) in F3. rewrite E2 in F2. rewrite E1 in F3.
  cbn [mbind panicky_bind].
  assert (forall answer c4, cn_state c4 = cn_state c3 -> cn_events c4 = cn_events c3 -> (length answer <= 1)%nat ->
    cn_outputs c4 = cn_outputs c3 ++ (SendDatagram <$> answer) -> closed_by_ack now c c4) as Hdone.
  { intros answer c4 A1 A2 A3 A4. constructor; [congruence|congruence|].
    exists bs, answer. split; [exact Fd|]. split; [exact A3|]. by rewrite A4, F3, <- !app_assoc. }
  assert (forall n, exists c4, emit_control (CbAckAck n) now c3 = Ret c4 /\ closed_by_ack now c c4) as Hack.
  { intros n. unfold emit_control.
    destruct (encode_control_total (cn_peer_socket_id c3) (wire_ts c3 now) (CbAckAck n) I) as (d & -> & _).
    eexists. split; [reflexivity|]. by apply (Hdone [d]). }
  destruct (ack_cif ack); [|apply Hack..]. exists c3. split; [done|].
  apply (Hdone []); [done|done|simpl; lia|by rewrite app_nil_r].
Qed.

(** C25 (functional).  The graceful close.  Closing a connected session with
    nothing in flight shuts it down at once: the peer gets one SHUTDOWN, every
    timer is disarmed and the application one [Closed]. With data in flight it
    only arms the linger timer and refuses new sends.  Then, whichever comes first:
    the linger timer performs the same shutdown; or, in whatever state the closing
    session is by then, the arrival of an ACK that leaves nothing queued or
    unacknowledged does, answering that ACK last (a light ACK gets no answer). *)
Theorem close_is_graceful {B : BytesApi} {HB : BytesSpec B} {P : CryptoPrims} (now later : Instant)
  (c : Connection) :
  cn_state c = StConnected -> cn_closing c = false -> socket_id_ok (cn_peer_socket_id c) ->
  exists c', conn_close now c = Ret c' /\
  if drained c then closed_now now c c'
  else
    cn_state c' = StConnected /\ cn_events c' = cn_events c /\
    armed_at TiLinger now (cn_outputs c') = Some (now + cfg_linger (cn_config c)) /\
    (forall payload, conn_send payload later c' = Err InvalidState) /\
    finish_close_if_drained later c' = Ret c' /\
    (exists c'', on_linger_timer later c' = Ret c'' /\ closed_now later c' c'') /\
    (forall c1 d ts dest ack, packet_decode d = Ok (PControl (MkControl ts dest (CbAck ack))) ->
       cn_state c1 = StConnected -> cn_closing c1 = true -> cn_send_queue c1 = [] ->
       sb_packets (sb_ack (cn_send_buffer c1) (ack_last_ack_seq ack)).2 = [] ->
       socket_id_ok (cn_peer_socket_id c1) ->
       exists c'', feed_recv_buf d later c1 = Ret c'' /\ closed_by_ack later c1 c'').
Proof.
  intros Hs Hc Hid. unfold conn_close. rewrite Hc, Hs, bool_decide_false by done.
  cbn [orb is_connected negb]. fold (drained c). destruct (drained c) eqn:Ed.
  - by apply finalize_shutdown_exact.
  - eexists. split; [reflexivity|].
    set (c' := push_output _ _).
    assert (cn_closing c' = true) as Hc' by reflexivity.
    assert (drained c' = false) as Hd' by exact Ed.
    assert (cn_peer_socket_id c' = cn_peer_socket_id c) as Hp' by reflexivity.
    assert (cn_state c' = StConnected) as Hs' by exact Hs.
    split; [exact Hs'|]. split; [reflexivity|].
    split; [unfold armed_at, c'; by rewrite outputs_push, last_snoc, decide_True|].
    split; [intros p; unfold conn_send; by rewrite Hc'|].
    split; [unfold finish_close_if_drained; rewrite Hc'; cbn [andb]; fold (drained c'); by rewrite Hd'|].
    split.
    + unfold on_linger_timer. rewrite Hc'. apply finalize_shutdown_exact. by rewrite Hp'.
    + intros c1 d ts dest ack Edec K1 K2 K3 K4 K5. unfold feed_recv_buf. rewrite Edec. cbv zeta.
      rewrite K1. cbn [is_connected]. set (c2 := c1 <| cn_last_recv_any := later |>).
      assert (cn_state c2 = StConnected) as -> by exact K1. cbn [on_connected_packet cp_body on_control].
      destruct (on_ack_closes ack later c2 K2 K3 K4 K5) as (c'' & E & [F1 F2 F3]).
      exists c''. split; [exact E|]. by constructor.
Qed.

(** A session with one packet in flight, and the ACK for it. *)
Definition ex_in_flight : Connection :=
  (ex_connected None None) <| cn_send_buffer := MkSendBuffer [ex_sent (MkSeq 0x7ffffffe) 0] |>.
Definition ex_last_ack : list byte :=
  match @encode_control vec_bytes (cn_peer_socket_id ex_in_flight) (MkTs 5)
          (CbAck (MkAck 1 (MkSeq 0x7fffffff) AckLight)) with Ret bs => bs | Panic => [] end.

Lemma ex_last_ack_decodes : packet_decode (B := vec_bytes) ex_last_ack =
  Ok (PControl (MkControl (MkTs 5) (cn_peer_socket_id ex_in_flight) (CbAck (MkAck 1 (MkSeq 0x7fffffff) AckLight)))).
Proof. by vm_compute. Qed.

Lemma close_is_graceful_witness :
  exists c' c'', @conn_close vec_bytes 77 ex_in_flight = Ret c' /\ cn_state c' = StConnected /\
    @feed_recv_buf vec_bytes toy_prims ex_last_ack 88 c' = Ret c'' /\ closed_by_ack 88 c' c''.
Proof.
  destruct (@close_is_graceful vec_bytes vec_bytes_spec toy_prims 77 88 ex_in_flight)
    as (c' & E & H); [reflexivity|reflexivity|by vm_compute|].
  change (drained ex_in_flight) with false in H. cbv iota in H.
  destruct H as (Hst & _ & _ & _ & _ & _ & Hack).
  assert (c' = push_output (SetTimer TiLinger (cfg_linger (cn_config ex_in_flight)))
    (ex_in_flight <| cn_closing := true |>)) as Ec by (injection E as <-; reflexivity).
  destruct (Hack c' ex_last_ack _ _ _ ex_last_ack_decodes Hst) as (c'' & E2 & H2);
    [by rewrite Ec|by rewrite Ec|by rewrite Ec; vm_compute|by rewrite Ec; vm_compute|].
  exists c', c''. split; [exact E|]. split; [exact Hst|]. split; [exact E2|exact H2].
Defined.
