(* ===== verification/Admission.v ===== *)
(** * Admission: which peers the listener lets in ([listener.rs])

    How long a SYN cookie is good for, which socket ids accepted connections
    get, and what becomes of a peer the application turns away. *)

From coqutil Require Import Datatypes.RecordSetters.
From S2P Require Import Prelude Buf Errors Reject Seq Time Timestamp PacketTypes Handshake Control Packet KeyMaterial Crypto Config Event ConnState Rekey Arq Setup Conn ConnInv ConnStart Listener ListenerInv Session.

(** ** The cookie's lifetime *)

Section Cookie.
Context {B : BytesApi} {HB : BytesSpec B} {P : CryptoPrims} {HP : CryptoSpec P}.

Lemma quantum_start l t : ln_start l <= t -> ln_quantum l t = (t - ln_start l) / COOKIE_QUANTUM.
Proof.
  intros Ht. unfold ln_quantum, as_secs, since. rewrite Z.max_r by lia.
  change COOKIE_QUANTUM with 60000000000. change (60000000000 / 1000000000) with 60.
  rewrite Z.div_div by lia. reflexivity.
Qed.

(** A cookie that is accepted was handed out less than two minutes ago. *)
Lemma cookie_valid_recent l ck from now :
  ln_start l <= now -> cookie_valid l ck from now = true ->
  exists t, ln_start l <= t <= now /\ now < t + 2 * COOKIE_QUANTUM /\
            ck = ln_cookie l from (ln_quantum l t).
Proof.
  intros Hn. unfold cookie_valid. rewrite orb_true_iff, andb_true_iff, !Z.eqb_eq, Z.ltb_lt.
  assert (0 < COOKIE_QUANTUM) as Hq by (by vm_compute).
  intros [->|[Hpos ->]].
  - exists now. split_and!; [done|lia|lia|done].
  - exists (now - COOKIE_QUANTUM). rewrite quantum_start in Hpos by done.
    assert (COOKIE_QUANTUM <= now - ln_start l) as Hge.
    { destruct (Z_lt_le_dec (now - ln_start l) COOKIE_QUANTUM) as [Hlt|]; [|done].
      rewrite Z.div_small in Hpos by lia. lia. }
    split_and!; [lia|lia|lia|]. f_equal. rewrite !quantum_start by lia.
    replace (now - COOKIE_QUANTUM - ln_start l) with ((now - ln_start l) + -1 * COOKIE_QUANTUM) by lia.
    rewrite Z.div_add by lia. lia.
Qed.

(** What a conclusion does to a listener that decides at once. *)
Lemma conclusion_counts hs from now l :
  ln_ok l -> hs_ok hs -> ln_deferred l = false ->
  cookie_valid l (hs_syn_cookie hs) from now = true ->
  wp (on_conclusion hs from now l) (fun l' =>
    length (ln_accepted l') + length (ln_responses l') =
    S (length (ln_accepted l) + length (ln_responses l)))%nat.
Proof.
  intros Hok Hhs Hdef Hck. unfold on_conclusion. rewrite Hck, Hdef. cbn [negb].
  destruct (mint_wp l Hok) as (id & n & -> & Hn). cbn [mbind panicky_bind].
  pose proof (ln_keeps_counter l n Hok Hn) as [Hok1 _].
  assert (length (ln_accepted (l <| ln_accept_counter := n |>)) = length (ln_accepted l) /\
          length (ln_responses (l <| ln_accept_counter := n |>)) = length (ln_responses l))
    as [La Lr] by done.
  set (l1 := l <| ln_accept_counter := n |>) in *. clearbody l1.
  destruct (accept_total (ln_config l1) id (ln_local_initial_seq l1) hs now (lo_config _ Hok1) Hhs)
    as [(c & -> & _)|[x ->]].
  - change (length (ln_accepted l1 ++ [c]) + length (ln_responses l1) =
            S (length (ln_accepted l) + length (ln_responses l)))%nat.
    rewrite length_app. simpl. lia.
  - unfold ln_reject.
    destruct (push_response_eq (hs_srt_socket_id hs)
      (rejection_response from (reject_reason (CoCrypto x)) l1) from now l1 eq_refl) as (bs & _ & ->).
    change (length (ln_accepted l1) + length (ln_responses l1 ++ [(from, bs)]) =
            S (length (ln_accepted l) + length (ln_responses l)))%nat.
    rewrite length_app. simpl. lia.
Qed.
End Cookie.

(** The lifetime of a SYN cookie.  A conclusion carrying a
    cookie this listener did not hand to that address within the last two minutes
    is ignored without an answer, whatever the rest of it says; one carrying a
    cookie handed out at most a minute ago is always judged: a listener that does
    not defer accepts the caller or answers with a rejection. *)
Theorem cookie_lifetime {B : BytesApi} {HB : BytesSpec B} {P : CryptoPrims} {HP : CryptoSpec P}
  (l : Listener) (datagram : list byte) (from : SocketAddr) (now : Instant)
  (ts : Timestamp) (dest : SocketId) (hs : Handshake) :
  ln_ok l -> ln_start l <= now ->
  packet_decode datagram = Ok (PControl (MkControl ts dest (CbHandshake hs))) ->
  hs_handshake_type hs = hst_CONCLUSION ->
  let handed_out t := hs_syn_cookie hs = hs_syn_cookie (induction_response from t l) in
  ((forall t, ln_start l <= t <= now -> now < t + dur_from_secs 120 -> ~ handed_out t) ->
   ln_feed_recv_buf datagram from now l = Ret (expire_pending now l)) /\
  ((exists t, t <= now <= t + dur_from_secs 60 /\ handed_out t) -> ln_deferred l = false ->
   exists l', ln_feed_recv_buf datagram from now l = Ret l' /\
     (length (ln_accepted l') + length (ln_responses l') =
      S (length (ln_accepted l) + length (ln_responses l)))%nat).
Proof.
  intros Hok Hn Hd Ht handed_out.
  assert (hs_ok hs) as Hhs.
  { destruct (packet_decode_total datagram) as [(p & E & Hp)|[x E]]; rewrite E in Hd; [|done].
    injection Hd as ->. apply Hp. }
  pose proof (expire_pending_ok now l Hok) as Hok1.
  destruct (ln_identity_reads l (expire_pending now l) from now eq_refl) as (_ & _ & Hcv).
  unfold ln_feed_recv_buf. cbv zeta. rewrite Hd, Ht.
  rewrite decide_False by done. rewrite decide_True by done. split.
  - intros Hnone. unfold on_conclusion. rewrite Hcv.
    destruct (cookie_valid l (hs_syn_cookie hs) from now) eqn:E; [exfalso|done].
    destruct (cookie_valid_recent l _ from now Hn E) as (t & H1 & H2 & H3).
    apply (Hnone t H1 H2). exact H3.
  - intros (t & Hw & Hck) Hdef.
    assert (cookie_valid l (hs_syn_cookie hs) from now = true) as Hcv'.
    { unfold handed_out in Hck. rewrite Hck, induction_response_cookie.
      apply cookie_valid_window. apply quantum_window. exact Hw. }
    pose proof (conclusion_counts hs from now (expire_pending now l) Hok1 Hhs Hdef
      (eq_trans (Hcv _) Hcv')) as Hwp.
    destruct (on_conclusion hs from now (expire_pending now l)) as [l'|]; [|done].
    exists l'. split; [done|exact Hwp].
Qed.

(** A conclusion that returns the cookie of minute zero, and one that makes it up. *)
Definition ex_conclusion (cookie : Z) : Handshake :=
  MkHandshake HS_VERSION_SRT EfNone 5 (MkSeq 7) 1500 8192 hst_CONCLUSION (socket_id_new 3) cookie
    (replicate 16 zero_byte) [].

Lemma ex_conclusion_ok cookie : u32_ok cookie -> hs_ok (ex_conclusion cookie).
Proof.
  intros Hc. unfold ex_conclusion.
  apply hs_ok_intro; [by vm_compute|by vm_compute|by vm_compute|by vm_compute|by vm_compute|
    by vm_compute|by vm_compute|exact Hc|reflexivity|apply Forall_nil_2].
Qed.

Lemma cookie_lifetime_witness :
  exists bs l', packet_encode (B:=vec_bytes) (PControl (MkControl (from_micros 5) (socket_id_new 0)
      (CbHandshake (ex_conclusion (ln_cookie (ex_listener None) ex_addr 0))))) [] = Ret bs /\
    @ln_feed_recv_buf vec_bytes toy_prims bs ex_addr 30 (ex_listener None) = Ret l' /\
    (length (ln_accepted l') + length (ln_responses l') = 1)%nat.
Proof.
  pose proof toy_spec as HP.
  set (hs := ex_conclusion (ln_cookie (ex_listener None) ex_addr 0)).
  assert (u32_ok (ln_cookie (ex_listener None) ex_addr 0)) as Hu.
  { apply Z.mod_pos_bound. lia. }
  set (p := PControl (MkControl (from_micros 5) (socket_id_new 0) (CbHandshake hs))).
  assert (packet_ok p) as Hp.
  { split; [by vm_compute|]. split; [by vm_compute|]. exact (ex_conclusion_ok _ Hu). }
  destruct (@cookie_lifetime vec_bytes vec_bytes_spec toy_prims HP (ex_listener None)
    (packet_bytes p) ex_addr 30 (from_micros 5) (socket_id_new 0) hs) as [_ H].
  - apply ex_listener_ok.
  - vm_compute. intros [=].
  - exact (packet_decode_bytes p Hp).
  - reflexivity.
  - destruct H as (l' & E & Hl).
    + exists 0. split; [vm_compute; split; intros [=]|]. reflexivity.
    + reflexivity.
    + exists (packet_bytes p), l'. split; [exact (packet_encode_bytes p [] Hp)|].
      split; [exact E|exact Hl].
Defined.

(** ** Socket ids *)

(** [n] ids in a row, as [n] admissions draw them. *)
Fixpoint mint_run (n : nat) (l : Listener) : panicky (list SocketId * Listener) :=
  match n with
  | O => Ret ([], l)
  | S n => '(id, l) ← mint_socket_id l; '(ids, l) ← mint_run n l; Ret (id :: ids, l)
  end.

Definition own_id (l : Listener) : Z := socket_id_value (ln_local_socket_id l).

(** The counters behind the ids: increasing, none zero, none the listener's. *)
Lemma mint_run_counters n l :
  u32_ok (own_id l) -> 0 <= ln_accept_counter l ->
  ln_accept_counter l + Z.of_nat n + (if own_id l <=? ln_accept_counter l then 0 else 1)
    < 4294967295 ->
  exists ks, mint_run n l =
      Ret ((fun k => socket_id_new (Z.lxor (own_id l) k)) <$> ks,
           l <| ln_accept_counter := default (ln_accept_counter l) (last ks) |>) /\
    length ks = n /\ NoDup ks /\
    Forall (fun k => ln_accept_counter l < k < 4294967296 /\ k <> own_id l) ks.
Proof.
  revert l. induction n as [|n IH]; intros l Hid Hc Hb.
  - exists []. split; [by destruct l|]. split_and!; [done|constructor|constructor].
  - cbn [mint_run]. rewrite mint_eq by exact Hid. cbn [mbind panicky_bind].
    destruct (next_counter_ok l Hid) as (Hu & H0 & Hne).
    destruct (next_counter_grows l) as [Hg Hskip]; [destruct (own_id l <=? _); lia|].
    fold (own_id l) in *. set (k := next_counter l) in *.
    set (l' := l <| ln_accept_counter := k |>).
    assert (own_id l' = own_id l) as Eo by reflexivity.
    assert (ln_accept_counter l' = k) as Ek by reflexivity.
    destruct (IH l') as (ks & E & Hl & Hnd & Hks); rewrite ?Eo, ?Ek; [exact Hid|lia| |].
    { destruct (Z.leb_spec (own_id l) (ln_accept_counter l)), (Z.leb_spec (own_id l) k); lia. }
    rewrite E. cbn [mbind panicky_bind]. exists (k :: ks). rewrite Eo, Ek in *.
    split; [rewrite last_cons; by destruct (last ks)|].
    split_and!; [by rewrite <- Hl| |].
    + constructor; [|done]. intros Hin. rewrite Forall_forall in Hks.
      destruct (Hks k Hin). lia.
    + constructor; [unfold u32_ok in Hu; lia|]. eapply Forall_impl; [exact Hks|].
      cbn. intros x Hx. lia.
Qed.

(** C30 (safety).  No two connections of a listener share a socket id.  From a
    fresh listener, the first four billion (2^32 - 3) admissions draw pairwise
    different ids, each a nonzero 32-bit value other than the listener's own, so
    an accepted peer is never mistaken for another, nor for a handshake (which is
    addressed to id 0). *)
Theorem minted_ids_are_unique (config : Config) (id : SocketId) (isn : SeqNumber)
  (secret : Z) (start : Instant) (n : nat) :
  u32_ok (socket_id_value id) -> Z.of_nat n <= 4294967293 ->
  exists ids l', mint_run n (ln_new config id isn secret start) = Ret (ids, l') /\
    length ids = n /\ NoDup ids /\
    Forall (fun i => u32_ok (socket_id_value i) /\ socket_id_value i <> 0 /\ i <> id) ids.
Proof.
  intros Hid Hn. set (l := ln_new config id isn secret start).
  destruct (mint_run_counters n l) as (ks & E & Hl & Hnd & Hks);
    [exact Hid|by vm_compute|change (ln_accept_counter l) with 0; destruct (_ <=? _); lia|].
  change (own_id l) with (socket_id_value id) in *. change (ln_accept_counter l) with 0 in Hks.
  eexists _, _. split; [exact E|]. split_and!; [by rewrite length_fmap| |].
  - apply NoDup_fmap; [|done]. intros a b Hab. apply (f_equal socket_id_value) in Hab.
    simpl in Hab. apply (f_equal (Z.lxor (socket_id_value id))) in Hab.
    by rewrite <- !Z.lxor_assoc, Z.lxor_nilpotent, !Z.lxor_0_l in Hab.
  - apply Forall_fmap. eapply Forall_impl; [exact Hks|]. intros k [Hk Hne]. cbn. split_and!.
    + apply (lxor_range 32); [lia|exact Hid|lia].
    + intros H0%lxor_eq_0. lia.
    + intros Hi. apply (f_equal socket_id_value) in Hi. cbn in Hi. apply lxor_self_r in Hi. lia.
Qed.

Lemma minted_ids_are_unique_witness :
  exists ids l', mint_run 3 (ex_listener None) = Ret (ids, l') /\ length ids = 3%nat /\ NoDup ids.
Proof.
  destruct (minted_ids_are_unique (ex_config None 250) ex_listener_id (MkSeq 900) 0x1234567 0 3)
    as (ids & l' & E & Hl & Hnd & _).
  - by vm_compute.
  - lia.
  - exists ids, l'. split; [exact E|]. split; [exact Hl|exact Hnd].
Defined.

(** ** Turning a peer away *)

Section Reject.
Context {B : BytesApi} {HB : BytesSpec B} {P : CryptoPrims} {HP : CryptoSpec P}.

Lemma rejection_response_ok remote reason l :
  u32_ok (cfg_mtu (ln_config l)) -> u32_ok (cfg_flow_window (ln_config l)) ->
  socket_id_ok (ln_local_socket_id l) -> seq_ok (ln_local_initial_seq l) -> addr_ok remote ->
  hs_ok (rejection_response remote reason l).
Proof.
  intros Hm Hw Hid Hq Ha. unfold rejection_response.
  apply hs_ok_intro; [by vm_compute|by vm_compute|exact Hq|exact Hm|exact Hw| |exact Hid|
    by vm_compute| |apply Forall_nil_2].
  - unfold hst_rejection. apply Z.mod_pos_bound. lia.
  - by apply peer_ip_length.
Qed.

(** The caller gives up on the first rejection it sees. *)
Lemma caller_rejected d ts dest hs reason now c :
  packet_decode d = Ok (PControl (MkControl ts dest (CbHandshake hs))) ->
  hst_reject_reason (hs_handshake_type hs) = Some reason ->
  is_handshaking (cn_state c) = true ->
  feed_recv_buf d now c = Ret (on_rejected reason c).
Proof.
  intros Hd Hr Hst. unfold feed_recv_buf. rewrite Hd.
  destruct (cn_state c) eqn:E; try done; cbn [is_connected]; rewrite E;
    unfold on_handshake_packet; by rewrite Hr.
Qed.
End Reject.

(** C31 (functional).  Turning a parked peer away.  [reject_pending] drops
    exactly that peer's attempt (the others stay), draws one response to its
    address, and a caller still in its handshake that receives the response fails
    with exactly the reason the application gave, as long as the reason is written
    canonically and its code is below 2^32 - 1003, so that adding 1000 neither wraps
    nor leaves the range that reads back as a rejection. *)
Theorem rejection_reaches_the_caller {B : BytesApi} {HB : BytesSpec B} {P : CryptoPrims}
  {HP : CryptoSpec P} (l : Listener) (remote : SocketAddr) (reason : RejectReason) (now : Instant) :
  ln_ok l -> party_ok (ln_config l) (ln_local_socket_id l) (ln_local_initial_seq l) ->
  addr_ok remote -> remote ∈ (pd_from <$> ln_pending l) ->
  rej_canonical reason -> 0 <= rej_code reason < 0xFFFFFFFD - 1000 ->
  exists p bs l', reject_pending remote reason now l = Ret (true, l') /\
    pd_from p = remote /\ p :: ln_pending l' ≡ₚ ln_pending l /\
    (remote ∉ (pd_from <$> ln_pending l')) /\
    ln_responses l' = ln_responses l ++ [(remote, bs)] /\
    forall c later, is_handshaking (cn_state c) = true ->
      exists c', feed_recv_buf bs later c = Ret c' /\ cn_state c' = StFailed /\
        cn_events c' = cn_events c ++ [EvFailed (Rejected reason)].
Proof.
  intros Hok [Hm Hw _ _ Hid Hq] Ha Hin Hcan Hcode. unfold reject_pending.
  destruct (pending_index remote l) as [i|] eqn:Ei;
    [|by apply pending_index_none in Ei].
  apply pending_index_some in Ei as (p & Hp & Hf). rewrite Hp.
  pose proof (swap_remove_perm _ _ _ Hp) as Hperm.
  assert (hs_ok (pd_conclusion p)) as Hhs by (by apply (Forall_lookup_1 _ _ _ _ (lo_parked _ Hok) Hp)).
  set (l1 := l <| ln_pending ::= swap_remove i |>).
  unfold ln_reject. rewrite Hf.
  destruct (encode_control_decodes (hs_srt_socket_id (pd_conclusion p)) (ln_wire_ts l1 now)
    (CbHandshake (rejection_response remote reason l1))) as (bs & E & Hdec);
    [apply Hhs|apply ln_wire_ts_ok|by apply rejection_response_ok|].
  unfold push_response. rewrite E. cbn [mbind panicky_bind].
  eexists p, bs, _. split; [reflexivity|]. split; [exact Hf|]. split; [exact Hperm|]. split_and!.
  - pose proof (lo_pending _ Hok) as Hn. rewrite <- Hperm in Hn. rewrite <- Hf.
    by apply NoDup_cons in Hn as [Hn _].
  - reflexivity.
  - intros c later Hst. eexists. split.
    + eapply caller_rejected; [exact Hdec| |exact Hst]. by apply hst_reject_roundtrip.
    + split; reflexivity.
Qed.

Definition ex_parked : Listener :=
  (ex_listener None) <| ln_deferred := true |>
    <| ln_pending := [MkPending ex_addr (ex_conclusion 9) 3] |>.

Lemma ex_parked_ok : ln_ok ex_parked.
Proof.
  constructor.
  - intros s [= <-]. apply ex_stream_ok.
  - by vm_compute.
  - by vm_compute.
  - by vm_compute.
  - apply NoDup_singleton.
  - apply Forall_singleton. apply ex_conclusion_ok. by vm_compute.
  - apply Forall_nil_2.
Qed.

Lemma rejection_reaches_the_caller_witness :
  exists bs l' c', @reject_pending vec_bytes ex_addr RejBadSecret 5 ex_parked = Ret (true, l') /\
    ln_responses l' = [(ex_addr, bs)] /\ ln_pending l' = [] /\
    @feed_recv_buf vec_bytes toy_prims bs 9 (new_base (ex_config None 120) ex_caller_id (MkSeq 1) 0
      Caller StConclusion) = Ret c' /\
    cn_events c' = [EvFailed (Rejected RejBadSecret)].
Proof.
  pose proof toy_spec as HP.
  destruct (@rejection_reaches_the_caller vec_bytes vec_bytes_spec toy_prims HP ex_parked ex_addr
    RejBadSecret 5 ex_parked_ok) as (p & bs & l' & E & Hf & Hp & _ & Hr & Hc).
  - apply (ex_config_party None 250); [lia|by vm_compute|by vm_compute].
  - reflexivity.
  - vm_compute. constructor.
  - exact I.
  - vm_compute. split; [intros [=]|reflexivity].
  - destruct (Hc (new_base (ex_config None 120) ex_caller_id (MkSeq 1) 0 Caller StConclusion) 9
      eq_refl) as (c' & Ec & _ & He).
    exists bs, l', c'. split; [exact E|]. split; [exact Hr|]. split.
    + apply Permutation_length in Hp. cbn in Hp. destruct (ln_pending l'); [reflexivity|].
      cbn in Hp. lia.
    + split; [exact Ec|exact He].
Defined.
