(* ===== verification/Feedback.v ===== *)
(** * Feedback: acknowledgements and the bookkeeping behind them

    The ACK / ACKACK round trip that measures the round-trip time, carried
    between a receiver and a sender, and the bounds on what an endpoint
    remembers about it. *)

From S2P Require Import Prelude Buf Errors Seq Time Timestamp Rtt Rate PacketTypes Control Packet SendBuffer RecvBuffer KeyMaterial Crypto Config Event ConnState Rekey Arq Conn ConnInv ConnStart Session Receiving.

Section Feedback.
Context {B : BytesApi} {HB : BytesSpec B} {P : CryptoPrims} {HP : CryptoSpec P}.

Lemma be_bytes_wrap32 v : be_bytes 4 v = be_bytes 4 (wrap32 v).
Proof. symmetry. apply (be_bytes_mod 4 v). Qed.

(** Writing a full ACK's figures truncates them to 32 bits. *)
Lemma encode_full_ack dest ts n s a b c d e f :
  encode_control dest ts (CbAck (MkAck n s (AckFull a b c d e f))) =
  encode_control dest ts (CbAck (MkAck n s (AckFull (wrap32 a) (wrap32 b) (wrap32 c) (wrap32 d)
    (wrap32 e) (wrap32 f)))).
Proof.
  unfold encode_control. cbn [packet_encode cp_body to_wire encode_cif ack_cif ack_last_ack_seq
    ack_ack_number]. rewrite !put_u32_spec.
  rewrite (be_bytes_wrap32 a), (be_bytes_wrap32 b), (be_bytes_wrap32 c), (be_bytes_wrap32 d),
    (be_bytes_wrap32 e), (be_bytes_wrap32 f). reflexivity.
Qed.

Lemma bool_decide_and_false (P1 P2 : Prop) `{Decision P1, Decision P2} :
  ~ (P1 /\ P2) -> bool_decide P1 && bool_decide P2 = false.
Proof. intros Hn. destruct (bool_decide_reflect P1), (bool_decide_reflect P2); try reflexivity; tauto.
Qed.

Lemma wrap32_ok v : u32_ok (wrap32 v).
Proof. apply Z.mod_pos_bound. lia. Qed.

(** The sender of an ACKACK: the last thing [on_ack] queues. *)
Lemma on_ack_ackacks ack now b :
  conn_ok b -> u32_ok (ack_ack_number ack) -> ack_cif ack <> AckLight ->
  wp (on_ack ack now b) (fun b' => advance b b' /\ exists d ts dest,
    last (datagrams (cn_outputs b')) = Some d /\
    packet_decode d = Ok (PControl (MkControl ts dest (CbAckAck (ack_ack_number ack))))).
Proof.
  intros Hok Hn Hc. apply on_ack_answers; [done|]. intros c' H'. pose proof (adv_ok _ _ H') as Hok'.
  destruct (encode_control_decodes (cn_peer_socket_id c') (wire_ts c' now)
    (CbAckAck (ack_ack_number ack))) as (bs & E & Hd);
    [apply (ok_book _ Hok')|apply wire_ts_ok|exact Hn|].
  destruct (ack_cif ack); [done|..]; unfold emit_control; rewrite E; cbn [mbind panicky_bind wp];
    (split; [advs H'; apply emit_advance; [done|by eapply packet_decode_length]|]); exists bs, (wire_ts c' now), (cn_peer_socket_id c');
    (split; [|exact Hd]); unfold emit, push_output; cbn; by rewrite datagrams_snoc, last_snoc.
Qed.

(** The receiver's ACKACK lookup finds the entry of that number. *)
Lemma on_ackack_finds c n at_ now :
  conn_ok c -> (n, at_) ∈ cn_pending_acks c ->
  exists older newer, cn_pending_acks c = older ++ (n, at_) :: newer /\
    on_ackack n now c = c <| cn_rtt ::= fun r => rtt_sample r (since now at_) |>
                          <| cn_pending_acks := newer |>.
Proof.
  intros Hok (i & Hi)%list_elem_of_lookup.
  pose proof (acks_position _ _ _ _ (proj1 (ok_book _ Hok)) Hi) as Hpos. cbn [fst] in Hpos.
  exists (take i (cn_pending_acks c)), (drop (S i) (cn_pending_acks c)).
  split; [by rewrite take_drop_middle|].
  unfold on_ackack. change (bookkeeping c).1.1.1.2 with (cn_pending_acks c) in Hpos.
  rewrite Hpos, Hi. reflexivity.
Qed.

(** A due ACK: what is queued and what is remembered. *)
Lemma on_ack_timer_sends now c :
  conn_ok c -> cn_state c = StConnected ->
  let pt := rb_received_ack_point (cn_recv_buffer c) in
  ~ (cn_last_acked_point c = Some pt /\ cn_last_acked_avail c = Some (available_recv_buffer c)) ->
  exists c' d ts dest cif, on_ack_timer now c = Ret c' /\
    cn_outputs c' = cn_outputs c ++ [SetTimer TiAck ACK_INTERVAL; SendDatagram d] /\
    packet_decode d = Ok (PControl (MkControl ts dest (CbAck (MkAck (cn_next_ack_number c) pt cif))))
    /\ cif <> AckLight /\ (cn_next_ack_number c, now) ∈ cn_pending_acks c' /\
    cn_last_acked_point c' = Some pt.
Proof.
  intros Hok Hst pt Hdue. unfold on_ack_timer. rewrite Hst. cbn [is_connected negb]. cbv zeta.
  set (c1 := push_output (SetTimer TiAck ACK_INTERVAL) c).
  change (rb_received_ack_point (cn_recv_buffer c1)) with pt.
  change (available_recv_buffer c1) with (available_recv_buffer c).
  change (cn_last_acked_point c1) with (cn_last_acked_point c).
  change (cn_last_acked_avail c1) with (cn_last_acked_avail c).
  change (cn_next_ack_number c1) with (cn_next_ack_number c).
  rewrite (bool_decide_and_false _ _ Hdue).
  match goal with |- context [(MAX_PENDING_ACKS <? length (cn_pending_acks ?x))%nat] =>
    set (c2 := x) end.
  set (c3 := if (_ <? _)%nat then _ else c2).
  assert (cn_outputs c3 = cn_outputs c ++ [SetTimer TiAck ACK_INTERVAL] /\
          cn_peer_socket_id c3 = cn_peer_socket_id c /\
          (cn_next_ack_number c, now) ∈ cn_pending_acks c3) as (Ho & Hp & Hin).
  { unfold c3. destruct (Nat.ltb_spec MAX_PENDING_ACKS (length (cn_pending_acks c2)));
      (split; [reflexivity|]); (split; [reflexivity|]);
      change (cn_pending_acks c2) with (cn_pending_acks c ++ [(cn_next_ack_number c, now)]) in *.
    - change ((cn_next_ack_number c, now) ∈ drop 1 (cn_pending_acks c ++ [(cn_next_ack_number c, now)])).
      destruct (cn_pending_acks c) as [|a l]; [simpl in *; unfold MAX_PENDING_ACKS in *; lia|].
      cbn [app drop]. apply elem_of_app. right. apply list_elem_of_here.
    - change ((cn_next_ack_number c, now) ∈ cn_pending_acks c ++ [(cn_next_ack_number c, now)]).
      apply elem_of_app. right. apply list_elem_of_here. }
  clearbody c3. destruct (delivery_rate _) as [rate bps]. unfold emit_control.
  rewrite encode_full_ack. match goal with |- context [encode_control ?dest ?ts ?body] =>
    destruct (encode_control_decodes dest ts body) as (bs & E & Hd) end.
  - change (socket_id_ok (cn_peer_socket_id c3)). rewrite Hp. apply (ok_book _ Hok).
  - apply wire_ts_ok.
  - split; [apply (ok_book _ Hok)|]. split; [apply seq_add_ok|].
    cbn. repeat (apply Forall_cons; split; [apply wrap32_ok|]). apply Forall_nil_2.
  - rewrite E. eexists _, bs, _, _, _. split; [reflexivity|]. split.
    + transitivity (cn_outputs c3 ++ [SendDatagram bs]); [reflexivity|].
      rewrite Ho, <- app_assoc. reflexivity.
    + split; [exact Hd|]. split; [done|]. split; [exact Hin|reflexivity].
Qed.
End Feedback.

(** C32 (functional).  The ACK / ACKACK round trip.  When the receive side has
    moved since the last full ACK, the ACK timer sends one that acknowledges
    exactly up to the first missing packet; a sender that gets it answers with the
    ACKACK of its number, as the last datagram it queues; and when that comes
    back, in any state that still remembers the ACK, the receiver takes one
    round-trip sample, the time since that very ACK, and forgets it together with
    the older ones only. *)
Theorem ack_round_trip_measures_rtt {B : BytesApi} {HB : BytesSpec B} {P : CryptoPrims}
  {HP : CryptoSpec P} (receiver sender : Connection) (t1 t2 : Instant) :
  conn_ok receiver -> cn_state receiver = StConnected ->
  conn_ok sender -> cn_state sender = StConnected ->
  ~ (cn_last_acked_point receiver = Some (rb_received_ack_point (cn_recv_buffer receiver)) /\
     cn_last_acked_avail receiver = Some (available_recv_buffer receiver)) ->
  exists r1 ack s1 ackack ack_ts ack_dest cif,
    handle_timer TiAck t1 receiver = Ret r1 /\
    cn_outputs r1 = cn_outputs receiver ++ [SetTimer TiAck ACK_INTERVAL; SendDatagram ack] /\
    packet_decode ack = Ok (PControl (MkControl ack_ts ack_dest
      (CbAck (MkAck (cn_next_ack_number receiver)
                (rb_received_ack_point (cn_recv_buffer receiver)) cif)))) /\
    feed_recv_buf ack t2 sender = Ret s1 /\
    last (datagrams (cn_outputs s1)) = Some ackack /\
    ((cn_next_ack_number receiver, t1) ∈ cn_pending_acks r1) /\
    forall r2 t3, conn_ok r2 -> cn_state r2 = StConnected ->
      (cn_next_ack_number receiver, t1) ∈ cn_pending_acks r2 ->
      exists r3 older, feed_recv_buf ackack t3 r2 = Ret r3 /\
        cn_rtt r3 = rtt_sample (cn_rtt r2) (since t3 t1) /\
        cn_pending_acks r2 = older ++ (cn_next_ack_number receiver, t1) :: cn_pending_acks r3.
Proof.
  intros Hr Hrs Hs Hss Hdue.
  destruct (on_ack_timer_sends t1 receiver Hr Hrs Hdue)
    as (r1 & ack & ts & dest & cif & E1 & Ho & Hd & Hcif & Hin & _).
  assert (wp (feed_recv_buf ack t2 sender) (fun b' => exists d ts dest,
    last (datagrams (cn_outputs b')) = Some d /\
    packet_decode d = Ok (PControl (MkControl ts dest (CbAckAck (cn_next_ack_number receiver))))))
    as Hsend.
  { unfold feed_recv_buf. rewrite Hd, Hss. cbn [is_connected]. cbv zeta.
    change (cn_state (sender <| cn_last_recv_any := t2 |>)) with (cn_state sender). rewrite Hss.
    assert (advance sender (sender <| cn_last_recv_any := t2 |>)) as Hadv by adv.
    eapply wp_mono; [apply (on_ack_ackacks (MkAck (cn_next_ack_number receiver) _ cif));
      [apply Hadv|apply (ok_book _ Hr)|exact Hcif]|].
    intros b' (_ & H). exact H. }
  destruct (feed_recv_buf ack t2 sender) as [s1|] eqn:E2; [|done].
  destruct Hsend as (d & ts' & dest' & Hl & Hdd).
  exists r1, ack, s1, d, ts, dest, cif. split; [exact E1|]. split; [exact Ho|]. split; [exact Hd|].
  split; [exact E2|]. split; [exact Hl|]. split; [exact Hin|].
  intros r2 t3 Hr2 Hr2s Hin2. unfold feed_recv_buf. rewrite Hdd, Hr2s. cbn [is_connected]. cbv zeta.
  set (r2' := r2 <| cn_last_recv_any := t3 |>).
  assert (advance r2 r2') as Hadv by (unfold r2'; adv).
  change (cn_state r2') with (cn_state r2). rewrite Hr2s.
  destruct (on_ackack_finds r2' _ t1 t3 (adv_ok _ _ Hadv) Hin2) as (older & newer & Hp & He).
  eexists _, older. split; [cbn [on_connected_packet cp_body on_control]; rewrite He; reflexivity|].
  split; [reflexivity|exact Hp].
Qed.

Lemma ack_round_trip_measures_rtt_witness :
  exists r1 ack s1 ackack r3,
    @handle_timer vec_bytes toy_prims TiAck 1000 ex_receiving = Ret r1 /\
    @feed_recv_buf vec_bytes toy_prims ack 20001000 (ex_connected None None) = Ret s1 /\
    last (datagrams (cn_outputs s1)) = Some ackack /\
    @feed_recv_buf vec_bytes toy_prims ackack 40001000 r1 = Ret r3 /\
    cn_rtt r3 = rtt_sample (cn_rtt r1) 40000000.
Proof.
  pose proof toy_spec as HP.
  destruct (@ack_round_trip_measures_rtt vec_bytes vec_bytes_spec toy_prims HP ex_receiving
    (ex_connected None None) 1000 20001000) as (r1 & ack & s1 & ackack & ts & dest & cif & E1 & Ho & _ & E2 & Hl & Hin & H).
  - apply ex_receiving_ok.
  - reflexivity.
  - apply ex_connected_ok. done.
  - reflexivity.
  - intros [[=] _].
  - destruct (H r1 40001000) as (r3 & older & E3 & Hr & _).
    + pose proof (handle_timer_wp (B:=vec_bytes) (P:=toy_prims) (HP:=HP) TiAck 1000
        ex_receiving ex_receiving_ok) as Hw. rewrite E1 in Hw. apply Hw.
    + assert (@handle_timer vec_bytes toy_prims TiAck 1000 ex_receiving = Ret r1) as E by exact E1.
      vm_compute in E. injection E as <-. reflexivity.
    + exact Hin.
    + exists r1, ack, s1, ackack, r3. split; [exact E1|]. split; [exact E2|]. split; [exact Hl|].
      split; [exact E3|exact Hr].
Defined.

(** C33 (invariant).  What an endpoint remembers stays bounded.  Whatever has
    happened to a connection since it started (any datagrams, any timers, any
    clock), at most 16 full ACKs wait for their ACKACK and their numbers are
    pairwise different, the reorder tolerance lies in 0..32 packets, and the
    retransmission backoff multiplies the timeout by 8 at most. *)
Theorem bookkeeping_stays_bounded {B : BytesApi} {HB : BytesSpec B} {P : CryptoPrims}
  {HP : CryptoSpec P} (c0 c : Connection) :
  starts c0 -> reaches c0 c ->
  (length (cn_pending_acks c) <= 16)%nat /\ NoDup (fst <$> cn_pending_acks c) /\
  0 <= cn_reorder_tolerance c <= 32 /\
  exists k, 1 <= k <= 8 /\
    cn_outputs (arm_exp c) = cn_outputs c ++
      [SetTimer TiExp (Z.max (rtt_rto (cn_rtt c) * k) (dur_from_millis 300))].
Proof.
  intros H0 Hr. destruct (reaches_ok c0 c (starts_ok c0 H0) Hr) as (Hok & _ & _).
  destruct (ok_book _ Hok) as (Ha & Ht & He & _). split; [apply Ha|]. split.
  - apply NoDup_alt. intros i j n Hi Hj. rewrite list_lookup_fmap in Hi, Hj.
    apply fmap_Some in Hi as (a & Hi & ->). apply fmap_Some in Hj as (b & Hj & Hb).
    pose proof (acks_position _ _ _ _ Ha Hi) as Hpi. pose proof (acks_position _ _ _ _ Ha Hj) as Hpj.
    rewrite Hb in Hpi. congruence.
  - split; [exact Ht|]. exists (cn_exp_count c). split; [exact He|]. reflexivity.
Qed.

Lemma bookkeeping_stays_bounded_witness :
  exists c0, @connect vec_bytes toy_prims (ex_config (Some (ex_enc Aes128 Ctr)) 120)
      ex_caller_id (MkSeq 5) 0 ex_rng = Ret c0 /\ (length (cn_pending_acks c0) <= 16)%nat.
Proof.
  pose proof toy_spec as HP.
  destruct (@connect vec_bytes toy_prims (ex_config (Some (ex_enc Aes128 Ctr)) 120)
      ex_caller_id (MkSeq 5) 0 ex_rng) as [c0|] eqn:E; [|by vm_compute in E].
  destruct (@bookkeeping_stays_bounded vec_bytes vec_bytes_spec toy_prims HP c0 c0) as [H _].
  - apply (starts_connect (ex_config (Some (ex_enc Aes128 Ctr)) 120) ex_caller_id (MkSeq 5) 0 ex_rng);
      [intros s [= <-]; apply ex_stream_ok|by vm_compute|exact ex_rng_fills|exact E].
  - constructor.
  - exists c0. split; [reflexivity|exact H].
Defined.
