(* ===== verification/Batch.v ===== *)
(** * Batch: grouping datagrams for segmentation offload ([crates/srt/src/batch.rs])

    [gso_batches] groups consecutive datagrams of one length into runs that one
    GSO send can carry; [gro_split] cuts a coalesced receive back into datagrams.
    An iterator over slices is the list of the slices it yields; the cursor
    [start] is the part of the input still to group. *)

From S2P Require Import Prelude.

(** The inner [while]: how far the run of datagrams of length [seg_len] reaches,
    [room] datagrams at most. *)
Fixpoint gso_run (room seg_len : nat) (datagrams : list (list byte))
  : list (list byte) * list (list byte) :=
  match room, datagrams with
  | S room, d :: rest =>
      if (length d =? seg_len)%nat
      then let '(run, tail) := gso_run room seg_len rest in (d :: run, tail)
      else ([], datagrams)
  | _, _ => ([], datagrams)
  end.

Fixpoint gso_loop (fuel cap : nat) (datagrams : list (list byte)) : list (list (list byte)) :=
  match fuel, datagrams with
  | S fuel, d :: rest =>
      let '(run, tail) := gso_run (cap - 1) (length d) rest in
      (d :: run) :: gso_loop fuel cap tail
  | _, _ => []
  end.

Definition gso_batches (datagrams : list (list byte)) (max_segments : nat)
  : list (list (list byte)) :=
  gso_loop (length datagrams) (Nat.max max_segments 1) datagrams.

(** [&buf[start..end]] for [start = 0, step, 2 * step, ...]. *)
Fixpoint gro_loop (fuel step : nat) (rest : list byte) : list (list byte) :=
  match fuel, rest with
  | S fuel, _ :: _ => take step rest :: gro_loop fuel step (drop step rest)
  | _, _ => []
  end.

Definition gro_split (buf : list byte) (total stride : nat) : list (list byte) :=
  let total := Nat.min total (length buf) in
  let step := if (stride =? 0)%nat || (total <? stride)%nat then total else stride in
  gro_loop total step (take total buf).

(** ** Grouping *)

Lemma gso_run_spec room n ds :
  let '(run, tail) := gso_run room n ds in
  ds = run ++ tail /\ (length run <= room)%nat /\ Forall (fun d => length d = n) run /\
  (length run = room \/ match tail with [] => True | d :: _ => length d <> n end).
Proof.
  revert ds. induction room as [|room IH]; intros [|d ds]; cbn [gso_run];
    [by split_and!; try left..|split_and!; [done|simpl; lia|constructor|by right]|].
  destruct (Nat.eqb_spec (length d) n) as [E|E].
  - specialize (IH ds). destruct (gso_run room n ds) as [run tail].
    destruct IH as (-> & Hl & Hf & Hm). split_and!; [done|simpl; lia|by constructor|].
    destruct Hm as [<-|Hm]; [by left|by right].
  - split_and!; [done|simpl; lia|constructor|by right].
Qed.

(** A batch: between one and [cap] datagrams, all of the first one's length. *)
Definition batch_ok (cap : nat) (batch : list (list byte)) : Prop :=
  match batch with
  | [] => False
  | d :: rest => (length rest < cap)%nat /\ Forall (fun x => length x = length d) rest
  end.

Lemma gso_loop_spec fuel cap ds :
  (1 <= cap)%nat -> (length ds <= fuel)%nat ->
  concat (gso_loop fuel cap ds) = ds /\ Forall (batch_ok cap) (gso_loop fuel cap ds).
Proof.
  intros Hc. revert ds. induction fuel as [|fuel IH]; intros [|d ds] Hf; simpl in Hf;
    [by split|lia|by split|]. cbn [gso_loop].
  pose proof (gso_run_spec (cap - 1) (length d) ds) as H.
  destruct (gso_run (cap - 1) (length d) ds) as [run tail]. destruct H as (-> & Hl & Hr & _).
  rewrite length_app in Hf. destruct (IH tail ltac:(lia)) as [H1 H2].
  split; [simpl; by rewrite H1|]. constructor; [|exact H2]. split; [lia|exact Hr].
Qed.

Lemma gso_batches_concat ds max : concat (gso_batches ds max) = ds.
Proof. apply gso_loop_spec; lia. Qed.

Lemma gso_batches_ok ds max : Forall (batch_ok (Nat.max max 1)) (gso_batches ds max).
Proof. apply gso_loop_spec; lia. Qed.

(** ** Splitting *)

(** What a segmented send puts on the wire: full segments and a shorter tail. *)
Definition segments (step : nat) (buf : list byte) : list (list byte) :=
  gro_loop (length buf) step buf.

Lemma gro_loop_fuel fuel fuel' step buf :
  (1 <= step)%nat -> (length buf <= fuel)%nat -> (length buf <= fuel')%nat ->
  gro_loop fuel step buf = gro_loop fuel' step buf.
Proof.
  intros Hs. revert fuel' buf. induction fuel as [|fuel IH]; intros [|fuel'] [|b buf] H H';
    simpl in H, H'; try done; try lia. cbn [gro_loop]. f_equal.
  apply IH; rewrite length_drop; simpl; lia.
Qed.

Lemma gro_loop_concat fuel step buf :
  (1 <= step)%nat -> (length buf <= fuel)%nat -> concat (gro_loop fuel step buf) = buf.
Proof.
  intros Hs. revert buf. induction fuel as [|fuel IH]; intros [|b buf] Hf; simpl in Hf;
    [done|lia|done|]. cbn [gro_loop concat]. rewrite IH; [apply take_drop|].
  rewrite length_drop. simpl. lia.
Qed.

Lemma segments_cons step d rest :
  (1 <= step)%nat -> length d = step -> segments step (d ++ rest) = d :: segments step rest.
Proof.
  intros Hs Hd. unfold segments. destruct d as [|b d]; [simpl in Hd; lia|].
  rewrite length_app. cbn [app length plus gro_loop].
  change (b :: d ++ rest) with ((b :: d) ++ rest).
  rewrite take_app_length', drop_app_length' by done. f_equal.
  apply gro_loop_fuel; [done|lia..].
Qed.

(** Segmenting the concatenation of equal-sized datagrams gives them back. *)
Lemma segments_concat step batch :
  (1 <= step)%nat -> Forall (fun d => length d = step) batch ->
  segments step (concat batch) = batch.
Proof.
  intros Hs. induction 1 as [|d batch Hd Hb IH]; [done|].
  cbn [concat]. rewrite segments_cons by done. by rewrite IH.
Qed.

(** Also when the last one is shorter, as a coalesced receive may have it. *)
Lemma segments_tail step batch last :
  (1 <= step)%nat -> Forall (fun d => length d = step) batch ->
  (1 <= length last <= step)%nat -> segments step (concat batch ++ last) = batch ++ [last].
Proof.
  intros Hs Hb Hl. induction Hb as [|d batch Hd Hb IH].
  - cbn [concat app]. unfold segments. destruct last as [|b l]; [simpl in Hl; lia|].
    cbn [length gro_loop]. rewrite take_ge, drop_ge by (simpl in *; lia). by destruct (length l).
  - cbn [concat]. rewrite <- app_assoc, segments_cons, IH by done. done.
Qed.

(** Within the buffer, [gro_split] is that segmentation. *)
Lemma gro_split_segments buf total stride :
  (total <= length buf)%nat -> (1 <= stride <= total)%nat ->
  gro_split buf total stride = segments stride (take total buf).
Proof.
  intros Ht Hs. unfold gro_split, segments. rewrite Nat.min_l by lia.
  rewrite (proj2 (Nat.eqb_neq stride 0)), (proj2 (Nat.ltb_ge total stride)) by lia.
  cbn [orb]. by rewrite length_take, Nat.min_l by lia.
Qed.

(** A stride of 0 or beyond the data is one datagram; nothing received is none. *)
Lemma gro_split_single buf total stride :
  (1 <= total <= length buf)%nat -> (stride = 0 \/ total <= stride)%nat ->
  gro_split buf total stride = [take total buf].
Proof.
  intros Ht Hs. unfold gro_split. rewrite Nat.min_l by lia.
  replace (if (stride =? 0)%nat || (total <? stride)%nat then total else stride) with total.
  2: { destruct (Nat.eqb_spec stride 0), (Nat.ltb_spec total stride); simpl; lia. }
  destruct total as [|total]; [lia|]. destruct buf as [|b buf]; [simpl in Ht; lia|].
  cbn [take gro_loop]. rewrite take_ge, drop_ge by (simpl; rewrite length_take; lia).
  by destruct total.
Qed.

Lemma gro_split_empty buf stride : gro_split buf 0 stride = [].
Proof. done. Qed.

(** The pieces are the received bytes, in order, whatever the stride. *)
Lemma gro_split_concat buf total stride :
  concat (gro_split buf total stride) = take (Nat.min total (length buf)) buf.
Proof.
  unfold gro_split. set (t := Nat.min total (length buf)).
  destruct (decide (t = 0%nat)) as [->|Ht]; [done|].
  apply gro_loop_concat; [|rewrite length_take; lia].
  destruct (Nat.eqb_spec stride 0), (Nat.ltb_spec t stride); simpl; lia.
Qed.
