(* ===== verification/Runtime.v ===== *)
(** * Runtime: what the I/O layer runs on ([crates/srt/src/runtime.rs])

    [AsyncUdpSocket] is the source's trait, [UdpSpec] what a send is documented
    to do, in terms of the datagrams its sends were reported successful for.  [Mpsc] is the
    part of [tokio::sync::mpsc] the drivers call; its documented behaviour is
    written down on the abstract channel [ChanState] (a bounded FIFO with two
    drop flags), and [MpscSpec] says that an implementation behaves like that.
    Awaiting is left out: an operation stands for its completion, and an
    operation that may not be ready yet returns a [Poll]. *)

From S2P Require Import Prelude Time Listener Batch.

(** [std::io::Error]: the drivers only look at whether there is one, the socket
    itself at whether its kind is [WouldBlock]. *)
Inductive ErrorKind : Type := WouldBlock | OtherKind.
Record IoError : Type := MkIoError { io_code : Z; io_kind : ErrorKind }.
Definition IoResult (A : Type) : Type := IoError + A.

Inductive Poll (A : Type) : Type := Ready (a : A) | Pending.
Arguments Ready {A} a.
Arguments Pending {A}.

(** ** UDP sockets *)

Class AsyncUdpSocket (K : Type) : Type := {
  poll_send : list byte -> SocketAddr -> K -> IoResult unit * K;
  poll_send_gso : list byte -> nat -> SocketAddr -> K -> IoResult unit * K;
  max_gso_segments : K -> nat;
  local_addr : K -> IoResult SocketAddr;
}.

(** The trait's default methods, for a socket without offloads. *)
Definition default_max_gso_segments {K} (_ : K) : nat := 1.
Definition default_poll_send_gso {K}
  (send : list byte -> SocketAddr -> K -> IoResult unit * K)
  (buf : list byte) (segment_size : nat) (dest : SocketAddr) (k : K) : IoResult unit * K :=
  send buf dest k.
Definition default_poll_recv_gro (received : IoResult (nat * SocketAddr))
  : IoResult (nat * nat * SocketAddr) :=
  match received with inr (len, from) => inr (len, len, from) | inl e => inl e end.

(** The [Runtime] trait: its clock, and a socket bound to an address.  A spawned
    task is a value here, and a sleep ends when its round comes. *)
Class Runtime (R K : Type) : Type := {
  rt_now : R -> Instant;
  rt_bind : SocketAddr -> R -> IoResult K * R;
}.

(** A send that is reported successful puts its datagram on the [wire], in order;
    what the host and the network do with it is not the socket's business.  A segmented send cuts its buffer, and
    may have sent some of the segments when it fails.  A socket may lower what
    [max_gso_segments] reports after an error, so the number of segments it takes
    is a limit of its own, which stays. *)
Class UdpSpec (K : Type) `{AsyncUdpSocket K} : Type := {
  wire : K -> list (SocketAddr * list byte);
  gso_limit : K -> nat;
  poll_send_wire buf dest k :
    wire (poll_send buf dest k).2 =
    wire k ++ match (poll_send buf dest k).1 with inr _ => [(dest, buf)] | inl _ => [] end;
  poll_send_gso_wire buf size dest k :
    (1 < gso_limit k)%nat -> (1 <= size)%nat ->
    (length (segments size buf) <= gso_limit k)%nat ->
    exists n, wire (poll_send_gso buf size dest k).2 =
      wire k ++ (pair dest <$> take n (segments size buf)) /\
      forall u, (poll_send_gso buf size dest k).1 = inr u -> (length (segments size buf) <= n)%nat;
  max_within_limit k : (max_gso_segments k <= gso_limit k)%nat;
  poll_send_limit buf dest k : gso_limit (poll_send buf dest k).2 = gso_limit k;
  poll_send_gso_limit buf size dest k : gso_limit (poll_send_gso buf size dest k).2 = gso_limit k;
}.

(** A socket that records what it sends and fails after [lg_budget] sends. *)
Record LogSocket : Type := MkLog {
  lg_addr : SocketAddr; lg_max : nat; lg_budget : nat; lg_wire : list (SocketAddr * list byte) }.

Definition log_send (sent : list (SocketAddr * list byte)) (k : LogSocket)
  : IoResult unit * LogSocket :=
  match lg_budget k with
  | O => (inl (MkIoError 5 OtherKind), k)
  | S n => (inr tt, MkLog (lg_addr k) (lg_max k) n (lg_wire k ++ sent))
  end.

#[export] Instance log_socket : AsyncUdpSocket LogSocket := {
  poll_send buf dest := log_send [(dest, buf)];
  poll_send_gso buf size dest := log_send (pair dest <$> segments size buf);
  max_gso_segments := lg_max;
  local_addr k := inr (lg_addr k);
}.

#[export] Instance log_socket_spec : UdpSpec LogSocket.
Proof.
  refine {| wire := lg_wire; gso_limit := lg_max |}.
  - intros buf dest [a m [|n] w]; cbn; [by rewrite app_nil_r|done].
  - intros buf size dest [a m [|n] w] _ _ _; cbn.
    + exists 0%nat. split; [by rewrite app_nil_r|]. intros u. discriminate.
    + exists (length (segments size buf)). split; [by rewrite take_ge|done].
  - done.
  - by intros buf dest [a m [|n] w].
  - by intros buf size dest [a m [|n] w].
Defined.

(** ** [tokio::sync::mpsc] *)

Inductive TrySend (A : Type) : Type := TsOk | TsFull (a : A) | TsClosed (a : A).
Arguments TsOk {A}.
Arguments TsFull {A} a.
Arguments TsClosed {A} a.

(** The abstract channel: its messages, its capacity, whether the receiver and
    whether some sender still exist. *)
Record ChanState (A : Type) : Type := MkChan {
  ch_contents : list A; ch_capacity : nat; ch_rx : bool; ch_tx : bool }.
Arguments MkChan {A} ch_contents ch_capacity ch_rx ch_tx.
Arguments ch_contents {A}.
Arguments ch_capacity {A}.
Arguments ch_rx {A}.
Arguments ch_tx {A}.

Section Abstract.
Context {A : Type}.
Implicit Types c : ChanState A.

Definition st_room c : bool := (length (ch_contents c) <? ch_capacity c)%nat.

Definition st_push (a : A) c : ChanState A :=
  MkChan (ch_contents c ++ [a]) (ch_capacity c) (ch_rx c) (ch_tx c).

Definition st_try_send (a : A) c : TrySend A * ChanState A :=
  if ch_rx c then if st_room c then (TsOk, st_push a c) else (TsFull a, c)
  else (TsClosed a, c).

Definition st_try_reserve c : TrySend unit :=
  if ch_rx c then if st_room c then TsOk else TsFull tt else TsClosed tt.

Definition st_reserve c : Poll bool :=
  if ch_rx c then if st_room c then Ready true else Pending else Ready false.

Definition st_try_recv c : option A * ChanState A :=
  match ch_contents c with
  | [] => (None, c)
  | a :: rest => (Some a, MkChan rest (ch_capacity c) (ch_rx c) (ch_tx c))
  end.

Definition st_recv c : Poll (option A) * ChanState A :=
  match ch_contents c with
  | [] => (if ch_tx c then Pending else Ready None, c)
  | a :: rest => (Ready (Some a), MkChan rest (ch_capacity c) (ch_rx c) (ch_tx c))
  end.

(** Dropping the receiver drops what is queued; dropping the last sender does not. *)
Definition st_drop_receiver c : ChanState A := MkChan [] (ch_capacity c) false (ch_tx c).
Definition st_drop_senders c : ChanState A :=
  MkChan (ch_contents c) (ch_capacity c) (ch_rx c) false.
End Abstract.

Class Mpsc (Chan : Type -> Type) : Type := {
  mpsc_channel {A} : nat -> Chan A;
  mpsc_try_send {A} : A -> Chan A -> TrySend A * Chan A;
  mpsc_try_reserve {A} : Chan A -> TrySend unit;
  mpsc_reserve {A} : Chan A -> Poll bool;
  mpsc_permit_send {A} : A -> Chan A -> Chan A;
  mpsc_try_recv {A} : Chan A -> option A * Chan A;
  mpsc_recv {A} : Chan A -> Poll (option A) * Chan A;
  mpsc_is_closed {A} : Chan A -> bool;
  mpsc_drop_receiver {A} : Chan A -> Chan A;
  mpsc_drop_senders {A} : Chan A -> Chan A;
}.

Class MpscSpec (Chan : Type -> Type) `{Mpsc Chan} : Type := {
  view {A} : Chan A -> ChanState A;
  channel_view {A} n : view (A := A) (mpsc_channel n) = MkChan [] n true true;
  try_send_view {A} a (c : Chan A) :
    st_try_send a (view c) = ((mpsc_try_send a c).1, view (mpsc_try_send a c).2);
  try_reserve_view {A} (c : Chan A) : mpsc_try_reserve c = st_try_reserve (view c);
  reserve_view {A} (c : Chan A) : mpsc_reserve c = st_reserve (view c);
  permit_send_view {A} a (c : Chan A) : view (mpsc_permit_send a c) = st_push a (view c);
  try_recv_view {A} (c : Chan A) :
    st_try_recv (view c) = ((mpsc_try_recv c).1, view (mpsc_try_recv c).2);
  recv_view {A} (c : Chan A) : st_recv (view c) = ((mpsc_recv c).1, view (mpsc_recv c).2);
  is_closed_view {A} (c : Chan A) : mpsc_is_closed c = negb (ch_rx (view c));
  drop_receiver_view {A} (c : Chan A) : view (mpsc_drop_receiver c) = st_drop_receiver (view c);
  drop_senders_view {A} (c : Chan A) : view (mpsc_drop_senders c) = st_drop_senders (view c);
}.

(** The abstract channel is one. *)
#[export] Instance chan_state_mpsc : Mpsc ChanState := {
  mpsc_channel A n := MkChan [] n true true;
  mpsc_try_send A := st_try_send;
  mpsc_try_reserve A := st_try_reserve;
  mpsc_reserve A := st_reserve;
  mpsc_permit_send A := st_push;
  mpsc_try_recv A := st_try_recv;
  mpsc_recv A := st_recv;
  mpsc_is_closed A c := negb (ch_rx c);
  mpsc_drop_receiver A := st_drop_receiver;
  mpsc_drop_senders A := st_drop_senders;
}.

#[export] Instance chan_state_spec : MpscSpec ChanState.
Proof.
  refine {| view A c := c |}; try done; intros; by apply surjective_pairing.
Defined.

(** ** What the drivers need of a channel *)

Section Channels.
Context {Chan : Type -> Type} {HMp : Mpsc Chan} {HM : MpscSpec Chan}.
Context {A : Type}.
Implicit Types c : Chan A.

Definition queued c : list A := ch_contents (view c).
Definition receiving c : bool := ch_rx (view c).
(** How many more messages fit. *)
Definition room c : nat := ch_capacity (view c) - length (ch_contents (view c)).

(** A failed send gives the message back and leaves the channel alone. *)
Lemma try_send_cases a c :
  receiving (mpsc_try_send a c).2 = receiving c /\
  match (mpsc_try_send a c).1 with
  | TsOk => receiving c = true /\ queued (mpsc_try_send a c).2 = queued c ++ [a]
  | TsFull b => receiving c = true /\ b = a /\ queued (mpsc_try_send a c).2 = queued c
  | TsClosed b => receiving c = false /\ b = a /\ queued (mpsc_try_send a c).2 = queued c
  end.
Proof.
  pose proof (try_send_view a c) as H. unfold st_try_send, receiving, queued in *.
  destruct (ch_rx (view c)) eqn:E; [destruct (st_room (view c))|];
    injection H as H1 H2; rewrite <- H1, <- H2; cbn; by rewrite ?E.
Qed.

Lemma permit_send_queued a c :
  queued (mpsc_permit_send a c) = queued c ++ [a] /\
  receiving (mpsc_permit_send a c) = receiving c.
Proof. unfold queued, receiving. by rewrite permit_send_view. Qed.

Lemma permit_send_room a c : room (mpsc_permit_send a c) = (room c - 1)%nat.
Proof. unfold room. rewrite permit_send_view. cbn. rewrite length_app. cbn. lia. Qed.

Lemma try_reserve_cases c :
  match mpsc_try_reserve c with
  | TsOk => receiving c = true /\ (0 < room c)%nat
  | TsFull _ => receiving c = true /\ room c = 0%nat
  | TsClosed _ => receiving c = false
  end.
Proof.
  rewrite try_reserve_view. unfold st_try_reserve, st_room, receiving, room.
  destruct (ch_rx (view c)); [|done].
  destruct (Nat.ltb_spec (length (ch_contents (view c))) (ch_capacity (view c))); split; [done|lia|done|lia].
Qed.

Lemma try_recv_queued c :
  receiving (mpsc_try_recv c).2 = receiving c /\
  queued c = option_list (mpsc_try_recv c).1 ++ queued (mpsc_try_recv c).2 /\
  ((mpsc_try_recv c).1 = None -> queued c = []).
Proof.
  pose proof (try_recv_view c) as H. unfold st_try_recv, receiving, queued in *.
  destruct (ch_contents (view c)) eqn:E; injection H as H1 H2; rewrite <- H1, <- H2; cbn;
    by rewrite ?E.
Qed.

Lemma recv_queued c :
  receiving (mpsc_recv c).2 = receiving c /\
  match (mpsc_recv c).1 with
  | Ready (Some a) => queued c = a :: queued (mpsc_recv c).2
  | _ => queued c = [] /\ queued (mpsc_recv c).2 = []
  end.
Proof.
  pose proof (recv_view c) as H. unfold st_recv, receiving, queued in *.
  destruct (ch_contents (view c)) eqn:E; injection H as H1 H2; rewrite <- H1, <- H2; cbn.
  - rewrite E. destruct (ch_tx (view c)); by split.
  - by split.
Qed.

Lemma reserve_ready c b : mpsc_reserve c = Ready b -> b = receiving c.
Proof.
  rewrite reserve_view. unfold st_reserve, receiving.
  destruct (ch_rx (view c)); [destruct (st_room _)|]; congruence.
Qed.
End Channels.
