(* ===== verification/TokioUdp.v ===== *)
(** * TokioUdp: the default runtime's socket ([crates/srt/src/runtime.rs])

    [TokioUdpSocket] pairs a Tokio socket, which knows when the descriptor is
    ready, with [quinn-udp]'s socket state, which makes the system calls.  Its four
    [poll_*] methods are one loop: wait for readiness, attempt the call, and go
    round again when the readiness turned out to be stale.

    Tokio and [quinn-udp] are parameters; [TokioUdpSpec] states what their
    documentation promises.  The theorem says that every poll returns, and that
    awaiting these polls, whatever happens in between, is the socket [UdpSpec]
    describes. *)

From S2P Require Import Prelude Time Listener Batch Runtime.

Inductive Interest : Type := READABLE | WRITABLE.

#[export] Instance interest_eq_dec : EqDecision Interest.
Proof. solve_decision. Defined.

Record Transmit : Type := MkTransmit {
  tr_destination : SocketAddr; tr_ecn : option Z; tr_contents : list byte;
  tr_segment_size : option nat; tr_src_ip : option (list byte) }.

(** What the source reads of [quinn_udp::RecvMeta]. *)
Record RecvMeta : Type := MkMeta { rm_len : nat; rm_stride : nat; rm_addr : SocketAddr }.

(** [tokio::net::UdpSocket].  [try_io]'s closure has its captured variables in
    front of the socket. *)
Class TokioSocket (I : Type) : Type := {
  poll_send_ready : I -> Poll (IoResult unit) * I;
  poll_recv_ready : I -> Poll (IoResult unit) * I;
  try_io {A S : Type} : Interest -> (S * I -> IoResult A * (S * I)) -> S * I -> IoResult A * (S * I);
  inner_local_addr : I -> IoResult SocketAddr;
}.

(** [quinn_udp::UdpSocketState]; the arrays of buffers and of metadata that
    [recv] takes have one element here. *)
Class QuinnUdp (Q I : Type) : Type := {
  state_send : Transmit -> Q * I -> IoResult unit * (Q * I);
  state_recv : list byte -> RecvMeta -> Q * I -> IoResult nat * (list byte * RecvMeta) * (Q * I);
  state_max_gso_segments : Q -> nat;
  recv_meta_default : RecvMeta;
}.

Record TokioUdpSocket (Q I : Type) : Type := MkTokioUdp { inner : I; state : Q }.
Arguments MkTokioUdp {Q I} inner state.
Arguments inner {Q I}.
Arguments state {Q I}.

Definition would_block (e : IoError) : bool :=
  match io_kind e with WouldBlock => true | OtherKind => false end.

Section Polls.
Context {Q I : Type} {HT : TokioSocket I} {HQ : QuinnUdp Q I}.

(** The [loop] the four methods share. *)
Fixpoint io_loop {A S : Type} (fuel : nat) (poll_ready : I -> Poll (IoResult unit) * I)
  (interest : Interest) (attempt : S * I -> IoResult A * (S * I)) (s : S) (i : I)
  : option (Poll (IoResult A) * (S * I)) :=
  match fuel with
  | O => None
  | Datatypes.S fuel =>
      match poll_ready i with
      | (Pending, i) => Some (Pending, (s, i))
      | (Ready (inl e), i) => Some (Ready (inl e), (s, i))
      | (Ready (inr _), i) =>
          match try_io interest attempt (s, i) with
          | (inr a, si) => Some (Ready (inr a), si)
          | (inl e, (s, i)) =>
              if would_block e then io_loop fuel poll_ready interest attempt s i
              else Some (Ready (inl e), (s, i))
          end
      end
  end.

Definition tk_poll_send (buf : list byte) (dest : SocketAddr) (fuel : nat) (k : TokioUdpSocket Q I)
  : option (Poll (IoResult unit) * TokioUdpSocket Q I) :=
  match io_loop fuel poll_send_ready WRITABLE (state_send (MkTransmit dest None buf None None))
          (state k) (inner k) with
  | Some (r, (q, i)) => Some (r, MkTokioUdp i q)
  | None => None
  end.

Definition tk_poll_send_gso (buf : list byte) (segment_size : nat) (dest : SocketAddr) (fuel : nat)
  (k : TokioUdpSocket Q I) : option (Poll (IoResult unit) * TokioUdpSocket Q I) :=
  match io_loop fuel poll_send_ready WRITABLE
          (state_send (MkTransmit dest None buf (Some segment_size) None)) (state k) (inner k) with
  | Some (r, (q, i)) => Some (r, MkTokioUdp i q)
  | None => None
  end.

(** The closure of [poll_recv_gro] has the state and the buffer in hand. *)
Definition recv_gro_attempt (si : (Q * list byte) * I)
  : IoResult (nat * nat * SocketAddr) * ((Q * list byte) * I) :=
  let '((q, buf), i) := si in
  match state_recv buf recv_meta_default (q, i) with
  | (inl e, (buf, _), (q, i)) => (inl e, ((q, buf), i))
  | (inr _, (buf, meta), (q, i)) => (inr (rm_len meta, rm_stride meta, rm_addr meta), ((q, buf), i))
  end.

Definition recv_attempt (si : (Q * list byte) * I)
  : IoResult (nat * SocketAddr) * ((Q * list byte) * I) :=
  let '((q, buf), i) := si in
  match state_recv buf recv_meta_default (q, i) with
  | (inl e, (buf, _), (q, i)) => (inl e, ((q, buf), i))
  | (inr _, (buf, meta), (q, i)) => (inr (rm_len meta, rm_addr meta), ((q, buf), i))
  end.

(** A receive also changes the caller's buffer. *)
Definition tk_poll_recv (fuel : nat) (kb : TokioUdpSocket Q I * list byte)
  : option (Poll (IoResult (nat * SocketAddr)) * (TokioUdpSocket Q I * list byte)) :=
  match io_loop fuel poll_recv_ready READABLE recv_attempt (state kb.1, kb.2) (inner kb.1) with
  | Some (r, ((q, buf), i)) => Some (r, (MkTokioUdp i q, buf))
  | None => None
  end.

Definition tk_poll_recv_gro (fuel : nat) (kb : TokioUdpSocket Q I * list byte)
  : option (Poll (IoResult (nat * nat * SocketAddr)) * (TokioUdpSocket Q I * list byte)) :=
  match io_loop fuel poll_recv_ready READABLE recv_gro_attempt (state kb.1, kb.2) (inner kb.1) with
  | Some (r, ((q, buf), i)) => Some (r, (MkTokioUdp i q, buf))
  | None => None
  end.

Definition tk_local_addr (k : TokioUdpSocket Q I) : IoResult SocketAddr := inner_local_addr (inner k).
Definition tk_max_gso_segments (k : TokioUdpSocket Q I) : nat := state_max_gso_segments (state k).
End Polls.

(** ** What the libraries promise *)

(** A coalesced receive: its bytes, the size of one datagram, the source. *)
Definition Arrival : Type := list byte * nat * SocketAddr.

(** [taken] is what this task's sends were reported successful for, [left] what of
    it left the host: [quinn-udp] logs every error of a send but [WouldBlock] and
    reports success, so a datagram can be taken and go no further.  [inbox] is what
    the kernel holds for the socket; only this task receives, while the network may
    add to the inbox at any time.  [wakeups] counts the readiness events that have
    reached the reactor and no poll has consumed; [armed] says that the waker
    registered for a direction is this task's.  Tokio keeps one waker per direction,
    the last poller's: a poll of another task on the same socket takes its place. *)
Class TokioUdpSpec (Q I : Type) `{TokioSocket I} `{QuinnUdp Q I} : Type := {
  taken : I -> list (SocketAddr * list byte);
  left : I -> list (SocketAddr * list byte);
  left_law i : sublist (left i) (taken i);
  inbox : I -> list Arrival;
  is_ready : Interest -> I -> bool;
  wakeups : I -> nat;
  armed : Interest -> I -> bool;
  clear_ready : Interest -> I -> I;
  segment_limit : Q -> nat;
  keeps i i' : Prop := taken i' = taken i /\ inbox i `prefix_of` inbox i';
  awaited interest i (r : Poll (IoResult unit) * I) : Prop :=
    keeps i r.2 /\ (wakeups r.2 <= wakeups i)%nat /\
    match r.1 with
    | Ready (inr _) => is_ready interest r.2 = true /\
        (is_ready interest i = false -> (wakeups r.2 < wakeups i)%nat)
    | Pending => armed interest r.2 = true
    | Ready (inl _) => True
    end;
  poll_send_ready_law i : awaited WRITABLE i (poll_send_ready i);
  poll_recv_ready_law i : awaited READABLE i (poll_recv_ready i);
  clear_ready_law interest i : keeps i (clear_ready interest i) /\
    wakeups (clear_ready interest i) = wakeups i /\ is_ready interest (clear_ready interest i) = false;
  (** Not ready: the closure is not called.  Otherwise it is, and a [WouldBlock]
      from it clears the readiness. *)
  try_io_unready {A S} interest (f : S * I -> IoResult A * (S * I)) s i :
    is_ready interest i = false ->
    exists e, io_kind e = WouldBlock /\ try_io interest f (s, i) = (inl e, (s, i));
  try_io_ready {A S} interest (f : S * I -> IoResult A * (S * I)) s i :
    is_ready interest i = true ->
    try_io interest f (s, i) =
      match f (s, i) with
      | (inl e, (s', i')) => (inl e, (s', if would_block e then clear_ready interest i' else i'))
      | r => r
      end;
  (** A send that would block has taken nothing; one that reports success has taken
      everything, whether or not it left.  Errors may lower the reported segment
      count, never raise it over the platform's limit. *)
  state_send_law tr q i :
    let r := state_send tr (q, i) in
    inbox i `prefix_of` inbox r.2.2 /\ (wakeups r.2.2 <= wakeups i)%nat /\
    segment_limit r.2.1 = segment_limit q /\
    (forall e, r.1 = inl e -> would_block e = true -> taken r.2.2 = taken i) /\
    match tr_segment_size tr with
    | None => taken r.2.2 = taken i ++
        match r.1 with inr _ => [(tr_destination tr, tr_contents tr)] | inl _ => [] end
    | Some size =>
        (1 < segment_limit q)%nat -> (1 <= size)%nat ->
        (length (segments size (tr_contents tr)) <= segment_limit q)%nat ->
        exists n, taken r.2.2 =
          taken i ++ (pair (tr_destination tr) <$> take n (segments size (tr_contents tr))) /\
          forall u, r.1 = inr u -> (length (segments size (tr_contents tr)) <= n)%nat
    end;
  state_max_law q : (state_max_gso_segments q <= segment_limit q)%nat;
  (** A receive takes the oldest arrival, cut to the buffer; a failed one takes
      nothing. *)
  state_recv_law buf meta q i :
    let r := state_recv buf meta (q, i) in
    taken r.2.2 = taken i /\ (wakeups r.2.2 <= wakeups i)%nat /\
    segment_limit r.2.1 = segment_limit q /\ length r.1.2.1 = length buf /\
    match r.1.1 with
    | inl _ => inbox i `prefix_of` inbox r.2.2
    | inr _ => exists data stride from rest,
        inbox i = (data, stride, from) :: rest /\ rest `prefix_of` inbox r.2.2 /\
        rm_len r.1.2.2 = Nat.min (length data) (length buf) /\
        rm_stride r.1.2.2 = stride /\ rm_addr r.1.2.2 = from /\
        take (rm_len r.1.2.2) r.1.2.1 = take (length buf) data
    end;
}.

(** ** One poll *)

Section Loop.
Context {Q I : Type} {HT : TokioSocket I} {HQ : QuinnUdp Q I} {HS : TokioUdpSpec Q I}.

#[export] Instance keeps_preorder : PreOrder keeps.
Proof.
  split; [by intros i; split|]. intros i j k [H1 H2] [H3 H4].
  split; [congruence|by etrans].
Qed.

Context {A S : Type} (poll_ready : I -> Poll (IoResult unit) * I) (interest : Interest).
Context (attempt : S * I -> IoResult A * (S * I)).
Context (Hready : forall i, awaited interest i (poll_ready i)).

(** With one unit of fuel per pending wake-up and two to spare the loop returns:
    stale readiness is cleared, so going round again uses up a wake-up. *)
Lemma io_loop_total fuel s i :
  (forall s i, (wakeups (attempt (s, i)).2.2 <= wakeups i)%nat) ->
  (wakeups i + (if is_ready interest i then 1 else 0) < fuel)%nat ->
  is_Some (io_loop fuel poll_ready interest attempt s i).
Proof.
  intros Hatt. revert s i. induction fuel as [|fuel IH]; intros s i Hf; [lia|]. cbn [io_loop].
  pose proof (Hready i) as (_ & Hw & Hr). destruct (poll_ready i) as [[[e|u]|] i1]; [by eexists| |by eexists].
  cbn [fst snd] in *. destruct Hr as [Hr Hlt]. rewrite (try_io_ready _ _ _ _ Hr).
  pose proof (Hatt s i1) as Ha. destruct (attempt (s, i1)) as [[e|a] [s2 i2]]; [|by eexists].
  destruct (would_block e); [|by eexists]. cbn [fst snd] in *.
  destruct (clear_ready_law interest i2) as (_ & Hc & Hu). apply IH. rewrite Hc, Hu.
  destruct (is_ready interest i); [|specialize (Hlt eq_refl)]; lia.
Qed.

(** A poll that is pending has left its waker behind. *)
Lemma io_loop_armed fuel s i s' i' :
  io_loop fuel poll_ready interest attempt s i = Some (Pending, (s', i')) -> armed interest i' = true.
Proof.
  revert s i. induction fuel as [|fuel IH]; intros s i; [done|]. cbn [io_loop].
  pose proof (Hready i) as (_ & _ & Hr). destruct (poll_ready i) as [[[e|u]|] i1]; cbn [fst snd] in *; [done| |].
  - destruct (try_io interest attempt (s, i1)) as [[e|a] [s2 i2]]; [|done].
    destruct (would_block e); [apply IH|done].
  - by intros [= <- <-].
Qed.

(** What a poll does: steps that change nothing the caller sees, then at most one
    attempt that does not block. *)
Lemma io_loop_spec (calm : S * I -> S * I -> Prop) fuel s i r si' :
  PreOrder calm -> (forall s i i', keeps i i' -> calm (s, i) (s, i')) ->
  (forall si e si', attempt si = (inl e, si') -> would_block e = true -> calm si si') ->
  io_loop fuel poll_ready interest attempt s i = Some (r, si') ->
  exists si1, calm (s, i) si1 /\
    match r with
    | Pending => si' = si1
    | Ready (inl e) => si' = si1 \/ attempt si1 = (inl e, si') /\ would_block e = false
    | Ready (inr a) => attempt si1 = (inr a, si')
    end.
Proof.
  intros Hpre Hk Hblock. revert s i. induction fuel as [|fuel IH]; intros s i; [done|]. cbn [io_loop].
  pose proof (Hready i) as (Hkeep & _ & Hr). destruct (poll_ready i) as [[[e|u]|] i1]; cbn [fst snd] in *.
  - intros [= <- <-]. exists (s, i1). eauto.
  - destruct Hr as [Hr _]. rewrite (try_io_ready _ _ _ _ Hr).
    destruct (attempt (s, i1)) as [[e|a] [s2 i2]] eqn:Ea.
    + destruct (would_block e) eqn:Ee.
      * intros H. destruct (IH _ _ H) as (si1 & Hc & H1). exists si1. split; [|exact H1].
        trans (s, i1); [by apply Hk|]. trans (s2, i2); [by eapply Hblock|].
        trans (s2, clear_ready interest i2); [apply Hk, clear_ready_law|exact Hc].
      * intros [= <- <-]. exists (s, i1). eauto.
    + intros [= <- <-]. exists (s, i1). eauto.
  - intros [= <- <-]. exists (s, i1). eauto.
Qed.
End Loop.

(** ** Awaiting *)

(** [poll_fn(..).await]: polls until one is ready, the surroundings taking a step
    [between] two of them. *)
Inductive awaits {A T : Type} (poll : nat -> T -> option (Poll A * T)) (between : T -> T -> Prop)
  : T -> A -> T -> Prop :=
  | awaits_now fuel t a t' : poll fuel t = Some (Ready a, t') -> awaits poll between t a t'
  | awaits_later fuel t t1 t2 a t' :
      poll fuel t = Some (Pending, t1) -> between t1 t2 -> awaits poll between t2 a t' ->
      awaits poll between t a t'.

Lemma awaits_spec {A T} (poll : nat -> T -> option (Poll A * T)) (calm : T -> T -> Prop)
  (fin : T -> A -> T -> Prop) t a t' :
  PreOrder calm ->
  (forall fuel t r t', poll fuel t = Some (r, t') ->
     exists t1, calm t t1 /\ match r with Pending => t' = t1 | Ready a => fin t1 a t' end) ->
  awaits poll calm t a t' -> exists t1, calm t t1 /\ fin t1 a t'.
Proof.
  intros Hpre Hpoll. induction 1 as [fuel t a t' H|fuel t t1 t2 a t' H Hb _ (t3 & H3 & Hf)].
  - apply (Hpoll _ _ _ _ H).
  - destruct (Hpoll _ _ _ _ H) as (? & Hc & ->). exists t3. split; [|exact Hf].
    etrans; [exact Hc|]. by etrans.
Qed.

Section Refinement.
Context {Q I : Type} {HT : TokioSocket I} {HQ : QuinnUdp Q I} {HS : TokioUdpSpec Q I}.
Notation K := (TokioUdpSocket Q I).
Implicit Types k : K.

(** What may happen around this task's calls: datagrams arrive, readiness comes
    and goes, another task's errors lower the segment count. *)
Definition calm (s s' : Q * I) : Prop :=
  keeps s.2 s'.2 /\ segment_limit s'.1 = segment_limit s.1.
Definition around k k' : Prop := calm (state k, inner k) (state k', inner k').
Definition around_buf (s s' : K * list byte) : Prop :=
  around s.1 s'.1 /\ length s'.2 = length s.2.

#[export] Instance calm_preorder : PreOrder calm.
Proof.
  split; [by intros s; split|]. intros s t u [H1 H2] [H3 H4]. split; [by etrans|congruence].
Qed.
#[export] Instance around_preorder : PreOrder around.
Proof. unfold around. split; [intros k; done|]. intros k l m. apply transitivity. Qed.
#[export] Instance around_buf_preorder : PreOrder around_buf.
Proof.
  split; [by intros s; split|]. intros s t u [H1 H2] [H3 H4]. split; [by etrans|congruence].
Qed.

(** A completed send: either the wait itself failed, or it is one attempt. *)
Definition sent_once tr k (r : IoResult unit) k' : Prop :=
  (exists e, r = inl e) /\ k' = k \/ state_send tr (state k, inner k) = (r, (state k', inner k')).

Lemma send_loop_spec tr fuel q i r q' i' :
  io_loop fuel poll_send_ready WRITABLE (state_send tr) q i = Some (r, (q', i')) ->
  exists k1, around (MkTokioUdp i q) k1 /\
    match r with Pending => MkTokioUdp i' q' = k1 | Ready a => sent_once tr k1 a (MkTokioUdp i' q') end.
Proof.
  intros H. apply (io_loop_spec _ _ _ poll_send_ready_law calm) in H as ([q1 i1] & Hc & Hr).
  - exists (MkTokioUdp i1 q1). split; [exact Hc|]. unfold sent_once.
    destruct r as [[e|[]]|]; [|by right|by injection Hr as -> ->].
    destruct Hr as [[= -> ->]|[Hr _]]; [left; eauto|by right].
  - apply _.
  - by intros s j j'.
  - intros [s j] e [s' j'] Ha He. destruct (state_send_law tr s j) as (H1 & _ & H2 & H3 & _).
    rewrite Ha in *. cbn in *. by split; [split; [apply (H3 e)|]|].
Qed.

Lemma tk_poll_send_spec buf dest fuel k r k' :
  tk_poll_send buf dest fuel k = Some (r, k') ->
  exists k1, around k k1 /\ match r with
    Pending => k' = k1 | Ready a => sent_once (MkTransmit dest None buf None None) k1 a k' end.
Proof.
  unfold tk_poll_send. destruct (io_loop _ _ _ _ _ _) as [[r1 [q i]]|] eqn:E; [|done].
  intros [= <- <-]. apply send_loop_spec in E. by destruct k.
Qed.

Lemma tk_poll_send_gso_spec buf size dest fuel k r k' :
  tk_poll_send_gso buf size dest fuel k = Some (r, k') ->
  exists k1, around k k1 /\ match r with
    Pending => k' = k1 | Ready a => sent_once (MkTransmit dest None buf (Some size) None) k1 a k' end.
Proof.
  unfold tk_poll_send_gso. destruct (io_loop _ _ _ _ _ _) as [[r1 [q i]]|] eqn:E; [|done].
  intros [= <- <-]. apply send_loop_spec in E. by destruct k.
Qed.

Lemma awaited_send tr poll k r k' :
  (forall fuel k r k', poll fuel k = Some (r, k') ->
     exists k1, around k k1 /\ match r with Pending => k' = k1 | Ready a => sent_once tr k1 a k' end) ->
  awaits poll around k r k' ->
  exists k1, taken (inner k1) = taken (inner k) /\
    segment_limit (state k1) = segment_limit (state k) /\
    segment_limit (state k') = segment_limit (state k) /\ sent_once tr k1 r k'.
Proof.
  intros Hpoll Ha. destruct (awaits_spec poll around (sent_once tr) _ _ _ _ Hpoll Ha) as (k1 & [[Hh _] Hl] & Hs).
  cbn [fst snd] in *. exists k1. split_and!; [done..| |exact Hs]. destruct Hs as [[_ ->]|Hs]; [done|].
  destruct (state_send_law tr (state k1) (inner k1)) as (_ & _ & H & _). rewrite Hs in H. cbn in H. congruence.
Qed.

Lemma awaited_send_taken buf dest k r k' :
  awaits (tk_poll_send buf dest) around k r k' ->
  segment_limit (state k') = segment_limit (state k) /\
  taken (inner k') = taken (inner k) ++ match r with inr _ => [(dest, buf)] | inl _ => [] end.
Proof.
  intros H. eapply awaited_send in H as (k1 & Hh & _ & Hl & Hs); [|apply tk_poll_send_spec].
  split; [exact Hl|]. destruct Hs as [[[e ->] ->]|Hs]; [by rewrite app_nil_r|].
  destruct (state_send_law (MkTransmit dest None buf None None) (state k1) (inner k1)) as (_ & _ & _ & _ & H).
  rewrite Hs in H. cbn in H. by rewrite H, Hh.
Qed.

Lemma awaited_gso_taken buf size dest k r k' :
  awaits (tk_poll_send_gso buf size dest) around k r k' ->
  segment_limit (state k') = segment_limit (state k) /\
  ((1 < segment_limit (state k))%nat -> (1 <= size)%nat ->
   (length (segments size buf) <= segment_limit (state k))%nat ->
   exists n, taken (inner k') = taken (inner k) ++ (pair dest <$> take n (segments size buf)) /\
     forall u, r = inr u -> (length (segments size buf) <= n)%nat).
Proof.
  intros H. eapply awaited_send in H as (k1 & Hh & Hl1 & Hl & Hs); [|apply tk_poll_send_gso_spec].
  split; [exact Hl|]. rewrite <- Hl1. intros H1 H2 H3. destruct Hs as [[[e ->] ->]|Hs].
  { exists 0%nat. by rewrite app_nil_r. }
  destruct (state_send_law (MkTransmit dest None buf (Some size) None) (state k1) (inner k1))
    as (_ & _ & _ & _ & H).
  rewrite Hs in H. cbn in H. destruct (H H1 H2 H3) as (n & Hn & Hr). exists n. by rewrite Hn, Hh.
Qed.

(** *** Receiving *)

Definition calm_buf (s s' : (Q * list byte) * I) : Prop :=
  calm (s.1.1, s.2) (s'.1.1, s'.2) /\ length s'.1.2 = length s.1.2.

#[export] Instance calm_buf_preorder : PreOrder calm_buf.
Proof.
  split; [by intros s; split|]. intros s t u [H1 H2] [H3 H4]. split; [by etrans|congruence].
Qed.

(** A completed receive: the wait failed, or one attempt, reported through [g]. *)
Definition received_once {A} (g : RecvMeta -> A) (s : K * list byte) (r : IoResult A)
  (s' : K * list byte) : Prop :=
  (exists e, r = inl e) /\ s' = s \/
  exists x, state_recv s.2 recv_meta_default (state s.1, inner s.1) = x /\
    s' = (MkTokioUdp x.2.2 x.2.1, x.1.2.1) /\
    r = match x.1.1 with inl e => inl e | inr _ => inr (g x.1.2.2) end.

(** What both closures are. *)
Definition attempt_of {A} (g : RecvMeta -> A) (attempt : (Q * list byte) * I -> IoResult A * ((Q * list byte) * I))
  : Prop :=
  forall q buf i, attempt ((q, buf), i) =
    let x := state_recv buf recv_meta_default (q, i) in
    (match x.1.1 with inl e => inl e | inr _ => inr (g x.1.2.2) end, ((x.2.1, x.1.2.1), x.2.2)).

Lemma recv_gro_attempt_of : attempt_of (fun m => (rm_len m, rm_stride m, rm_addr m)) recv_gro_attempt.
Proof.
  intros q buf i. unfold recv_gro_attempt.
  by destruct (state_recv buf recv_meta_default (q, i)) as [[[e|n] [b m]] [q' i']].
Qed.
Lemma recv_attempt_of : attempt_of (fun m => (rm_len m, rm_addr m)) recv_attempt.
Proof.
  intros q buf i. unfold recv_attempt.
  by destruct (state_recv buf recv_meta_default (q, i)) as [[[e|n] [b m]] [q' i']].
Qed.

Lemma recv_loop_spec {A} (g : RecvMeta -> A) attempt fuel q buf i r q' buf' i' :
  attempt_of g attempt ->
  io_loop fuel poll_recv_ready READABLE attempt (q, buf) i = Some (r, ((q', buf'), i')) ->
  exists s1, around_buf (MkTokioUdp i q, buf) s1 /\
    match r with
    | Pending => (MkTokioUdp i' q', buf') = s1
    | Ready a => received_once g s1 a (MkTokioUdp i' q', buf')
    end.
Proof.
  intros Hatt H.
  apply (io_loop_spec _ _ _ poll_recv_ready_law calm_buf) in H as ([[q1 b1] i1] & Hc & Hr); [|apply _|..].
  - exists (MkTokioUdp i1 q1, b1). split; [exact Hc|]. rewrite Hatt in Hr. cbn in Hr.
    destruct r as [[e|a]|]; [|right|by injection Hr as -> -> ->].
    + destruct Hr as [[= -> -> ->]|[Hr _]]; [left; eauto|right].
      injection Hr as H1 H2 H3 H4. subst. by eexists.
    + injection Hr as H1 H2 H3 H4. subst. by eexists.
  - by intros s j j'.
  - intros [[s b] j] e [[s' b'] j'] Ha He. rewrite Hatt in Ha. cbn in Ha.
    destruct (state_recv_law b recv_meta_default s j) as (H1 & _ & H2 & H3 & H4).
    destruct (state_recv b recv_meta_default (s, j)) as [[[e0|n] [b0 m]] [s0 j0]]; [|done].
    injection Ha as -> -> -> ->. by split; [split; [split|]|].
Qed.

Lemma tk_poll_recv_gro_spec fuel s r s' :
  tk_poll_recv_gro fuel s = Some (r, s') ->
  exists s1, around_buf s s1 /\ match r with
    Pending => s' = s1
  | Ready a => received_once (fun m => (rm_len m, rm_stride m, rm_addr m)) s1 a s' end.
Proof.
  unfold tk_poll_recv_gro. destruct (io_loop _ _ _ _ _ _) as [[r1 [[q b] i]]|] eqn:E; [|done].
  intros [= <- <-]. apply (recv_loop_spec _ _ _ _ _ _ _ _ _ _ recv_gro_attempt_of) in E. by destruct s as [[]].
Qed.

Lemma tk_poll_recv_spec fuel s r s' :
  tk_poll_recv fuel s = Some (r, s') ->
  exists s1, around_buf s s1 /\ match r with
    Pending => s' = s1 | Ready a => received_once (fun m => (rm_len m, rm_addr m)) s1 a s' end.
Proof.
  unfold tk_poll_recv. destruct (io_loop _ _ _ _ _ _) as [[r1 [[q b] i]]|] eqn:E; [|done].
  intros [= <- <-]. apply (recv_loop_spec _ _ _ _ _ _ _ _ _ _ recv_attempt_of) in E. by destruct s as [[]].
Qed.

(** The oldest arrival, into the buffer, and none lost. *)
Definition takes_oldest {A} (g : RecvMeta -> A) (s : K * list byte) (r : IoResult A) (s' : K * list byte) : Prop :=
  taken (inner s'.1) = taken (inner s.1) /\
  match r with
  | inl _ => inbox (inner s.1) `prefix_of` inbox (inner s'.1)
  | inr a => exists data m rest, a = g m /\
      inbox (inner s.1) `prefix_of` (data, rm_stride m, rm_addr m) :: rest /\
      rest `prefix_of` inbox (inner s'.1) /\
      rm_len m = Nat.min (length data) (length s.2) /\
      gro_split s'.2 (rm_len m) (rm_stride m) = gro_split (take (length s.2) data) (rm_len m) (rm_stride m)
  end.

Lemma gro_split_same buf data n stride :
  take n buf = data -> (n <= length buf)%nat -> gro_split buf n stride = gro_split data n stride.
Proof.
  intros <- Hn. unfold gro_split. rewrite length_take, !Nat.min_l by lia. by rewrite take_idemp.
Qed.

Lemma awaited_recv {A} (g : RecvMeta -> A) poll s r s' :
  (forall fuel s r s', poll fuel s = Some (r, s') ->
     exists s1, around_buf s s1 /\ match r with Pending => s' = s1 | Ready a => received_once g s1 a s' end) ->
  awaits poll around_buf s r s' -> takes_oldest g s r s'.
Proof.
  intros Hpoll Ha.
  destruct (awaits_spec poll around_buf (received_once g) _ _ _ _ Hpoll Ha) as ([k1 b1] & [[[Hh Hi] _] Hb] & Hr).
  cbn [fst snd] in *. destruct Hr as [[[e ->] ->]|(x & Hx & -> & ->)]; [by split|]. cbn [fst snd] in *.
  destruct (state_recv_law b1 recv_meta_default (state k1) (inner k1)) as (H1 & _ & _ & Hl & H2).
  rewrite Hx in *. clear Hx. unfold takes_oldest. cbn [fst snd inner].
  split; [by rewrite H1|]. destruct x as [[[e|n] [b2 m]] [q2 i2]]; cbn [fst snd] in *; [by etrans|].
  destruct H2 as (data & stride & from & rest & Hin & Hrest & Hlen & <- & <- & Htake).
  exists data, m, rest. rewrite <- Hb. split_and!; [done|by rewrite <- Hin|done|done|].
  apply gro_split_same; [done|lia].
Qed.

(** *** Every poll returns *)

Lemma send_attempt_wakeups tr q i : (wakeups (state_send tr (q, i)).2.2 <= wakeups i)%nat.
Proof. apply (state_send_law tr q i). Qed.

Lemma recv_attempt_wakeups {A} (g : RecvMeta -> A) attempt s i :
  attempt_of g attempt -> (wakeups (attempt (s, i)).2.2 <= wakeups i)%nat.
Proof. intros Ha. destruct s as [q b]. rewrite Ha. apply (state_recv_law b recv_meta_default q i). Qed.

Lemma send_loop_total tr fuel q i :
  (wakeups i + 1 < fuel)%nat -> is_Some (io_loop fuel poll_send_ready WRITABLE (state_send tr) q i).
Proof.
  intros Hf. apply io_loop_total; [apply poll_send_ready_law|apply send_attempt_wakeups|]. case_match; lia.
Qed.

Lemma recv_loop_total {A} (g : RecvMeta -> A) attempt fuel s i :
  attempt_of g attempt -> (wakeups i + 1 < fuel)%nat ->
  is_Some (io_loop fuel poll_recv_ready READABLE attempt s i).
Proof.
  intros Ha Hf. apply io_loop_total; [apply poll_recv_ready_law| |case_match; lia].
  intros s' i'. by apply (recv_attempt_wakeups g).
Qed.

Definition polls_return fuel k : Prop :=
  (forall buf dest, is_Some (tk_poll_send buf dest fuel k)) /\
  (forall buf size dest, is_Some (tk_poll_send_gso buf size dest fuel k)) /\
  (forall buf, is_Some (tk_poll_recv fuel (k, buf))) /\
  (forall buf, is_Some (tk_poll_recv_gro fuel (k, buf))).

Definition pending_is_armed : Prop :=
  (forall buf dest fuel k k', tk_poll_send buf dest fuel k = Some (Pending, k') ->
     armed WRITABLE (inner k') = true) /\
  (forall buf size dest fuel k k', tk_poll_send_gso buf size dest fuel k = Some (Pending, k') ->
     armed WRITABLE (inner k') = true) /\
  (forall fuel s s', tk_poll_recv fuel s = Some (Pending, s') -> armed READABLE (inner s'.1) = true) /\
  (forall fuel s s', tk_poll_recv_gro fuel s = Some (Pending, s') -> armed READABLE (inner s'.1) = true).

Lemma pending_armed : pending_is_armed.
Proof.
  assert (forall A S (attempt : S * I -> IoResult A * (S * I)) fuel s i s' i',
    io_loop fuel poll_send_ready WRITABLE attempt s i = Some (Pending, (s', i')) ->
    armed WRITABLE i' = true) as Hw.
  { intros A S attempt fuel s i s' i'. by apply io_loop_armed, poll_send_ready_law. }
  assert (forall A S (attempt : S * I -> IoResult A * (S * I)) fuel s i s' i',
    io_loop fuel poll_recv_ready READABLE attempt s i = Some (Pending, (s', i')) ->
    armed READABLE i' = true) as Hr.
  { intros A S attempt fuel s i s' i'. by apply io_loop_armed, poll_recv_ready_law. }
  split; [|split; [|split]]; intros *; unfold tk_poll_send, tk_poll_send_gso, tk_poll_recv, tk_poll_recv_gro;
    match goal with |- context [io_loop ?f ?p ?i ?a ?s ?k] => destruct (io_loop f p i a s k) as [[r1 [q i1]]|] eqn:E end;
    try done.
  - intros [= -> <-]. by eapply Hw.
  - intros [= -> <-]. by eapply Hw.
  - destruct q. intros [= -> <-]. by eapply Hr.
  - destruct q. intros [= -> <-]. by eapply Hr.
Qed.

Lemma enough_fuel fuel k : (wakeups (inner k) + 1 < fuel)%nat -> polls_return fuel k.
Proof.
  intros Hf. split_and!; intros.
  - unfold tk_poll_send. by destruct (send_loop_total (MkTransmit dest None buf None None) _ (state k) _ Hf)
      as [[r [q i]] ->].
  - unfold tk_poll_send_gso.
    by destruct (send_loop_total (MkTransmit dest None buf (Some size) None) _ (state k) _ Hf) as [[r [q i]] ->].
  - unfold tk_poll_recv. cbn [fst snd].
    by destruct (recv_loop_total _ _ _ (state k, buf) _ recv_attempt_of Hf) as [[r [[q b] i]] ->].
  - unfold tk_poll_recv_gro. cbn [fst snd].
    by destruct (recv_loop_total _ _ _ (state k, buf) _ recv_gro_attempt_of Hf) as [[r [[q b] i]] ->].
Qed.
End Refinement.

(** C34 (refinement).  The Tokio socket is the socket the drivers were verified
    against.  Take any socket interface whose sends are what awaiting
    [poll_send] and [poll_send_gso] comes to, however readiness, other tasks and
    the network behave in between: it satisfies [UdpSpec], with the datagrams its
    sends were reported successful for on its wire, so every theorem about the
    drivers holds for it (stale readiness neither repeats nor loses a datagram).
    What leaves the host is a subsequence of that wire, no more, since [quinn-udp]
    hides a failing send; the network may lose it as well.  An awaited receive,
    coalesced or not, takes exactly the oldest arrival, as much as the buffer holds,
    and cuts it into the datagrams that arrived; a failed one takes nothing.  Every
    single poll returns (a loop goes round once per wake-up that is pending, and
    once more), and at the moment it returns pending its task's waker is the one
    registered.  That the task is then woken is not claimed: on a socket several
    tasks send on, another task's poll may replace the waker first. *)
Theorem tokio_socket_is_a_udp_socket {Q I : Type} {HT : TokioSocket I} {HQ : QuinnUdp Q I}
  {HS : TokioUdpSpec Q I} (HK : AsyncUdpSocket (TokioUdpSocket Q I)) :
  (forall buf dest k, awaits (tk_poll_send buf dest) around k
     (poll_send buf dest k).1 (poll_send buf dest k).2) ->
  (forall buf size dest k, awaits (tk_poll_send_gso buf size dest) around k
     (poll_send_gso buf size dest k).1 (poll_send_gso buf size dest k).2) ->
  (forall k, max_gso_segments k = tk_max_gso_segments k) ->
  (exists U : UdpSpec (TokioUdpSocket Q I),
     (forall k, wire k = taken (inner k)) /\ (forall k, sublist (left (inner k)) (wire k)) /\
     forall k, gso_limit k = segment_limit (state k)) /\
  (forall s r s', awaits tk_poll_recv_gro around_buf s r s' ->
     takes_oldest (fun m => (rm_len m, rm_stride m, rm_addr m)) s r s') /\
  (forall s r s', awaits tk_poll_recv around_buf s r s' ->
     takes_oldest (fun m => (rm_len m, rm_addr m)) s r s') /\
  (forall k fuel, (wakeups (inner k) + 1 < fuel)%nat -> polls_return fuel k) /\
  pending_is_armed (Q := Q) (I := I).
Proof.
  intros Hsend Hgso Hmax. split; [|split; [|split; [|split]]].
  - unshelve eexists {| wire k := taken (inner k); gso_limit k := segment_limit (state k) |}; [..|split; [done|split; [intros k; apply left_law|done]]].
    + intros buf dest k. by apply awaited_send_taken.
    + intros buf size dest k. by eapply awaited_gso_taken.
    + intros k. rewrite Hmax. apply state_max_law.
    + intros buf dest k. by eapply awaited_send_taken.
    + intros buf size dest k. by eapply awaited_gso_taken.
  - intros s r s'. apply awaited_recv, tk_poll_recv_gro_spec.
  - intros s r s'. apply awaited_recv, tk_poll_recv_spec.
  - intros k fuel. apply enough_fuel.
  - apply pending_armed.
Qed.

(** ** A small kernel *)

(** Datagrams over 1472 bytes are taken and lost.  Room for [ty_room] sends, two readiness flags, [ty_events] wake-ups on their
    way, and the interests a waker is registered for; the socket state is the number of segments a send may have. *)
Record ToyNet : Type := MkToy {
  ty_taken : list (SocketAddr * list byte); ty_inbox : list Arrival;
  ty_send : bool; ty_recv : bool; ty_events : nat; ty_room : nat; ty_armed : list Interest }.

Definition ty_flag (interest : Interest) (n : ToyNet) : bool :=
  match interest with WRITABLE => ty_send n | READABLE => ty_recv n end.
Definition ty_set_flag (interest : Interest) (b : bool) (events : nat) (n : ToyNet) : ToyNet :=
  match interest with
  | WRITABLE => MkToy (ty_taken n) (ty_inbox n) b (ty_recv n) events (ty_room n) (ty_armed n)
  | READABLE => MkToy (ty_taken n) (ty_inbox n) (ty_send n) b events (ty_room n) (ty_armed n)
  end.
Definition ty_poll (interest : Interest) (n : ToyNet) : Poll (IoResult unit) * ToyNet :=
  if ty_flag interest n then (Ready (inr tt), n) else
  match ty_events n with
  | O => (Pending, MkToy (ty_taken n) (ty_inbox n) (ty_send n) (ty_recv n) 0 (ty_room n)
                     (interest :: ty_armed n))
  | S events => (Ready (inr tt), ty_set_flag interest true events n)
  end.
Definition ty_blocked : IoError := MkIoError 11 WouldBlock.

Definition ty_try_io {A S} (interest : Interest) (f : S * ToyNet -> IoResult A * (S * ToyNet))
  (si : S * ToyNet) : IoResult A * (S * ToyNet) :=
  if ty_flag interest si.2 then
    match f si with
    | (inl e, (s', i')) =>
        (inl e, (s', if would_block e then ty_set_flag interest false (ty_events i') i' else i'))
    | r => r
    end
  else (inl ty_blocked, si).

Definition ty_state_send (tr : Transmit) (qi : nat * ToyNet) : IoResult unit * (nat * ToyNet) :=
  let '(q, n) := qi in
  match ty_room n with
  | O => (inl ty_blocked, (q, n))
  | S room =>
      let sent := match tr_segment_size tr with
        | None => [tr_contents tr] | Some size => segments size (tr_contents tr) end in
      (inr tt, (q, MkToy (ty_taken n ++ (pair (tr_destination tr) <$> sent)) (ty_inbox n)
                     (ty_send n) (ty_recv n) (ty_events n) room (ty_armed n)))
  end.

Definition ty_state_recv (buf : list byte) (meta : RecvMeta) (qi : nat * ToyNet)
  : IoResult nat * (list byte * RecvMeta) * (nat * ToyNet) :=
  let '(q, n) := qi in
  match ty_inbox n with
  | [] => (inl ty_blocked, (buf, meta), (q, n))
  | (data, stride, from) :: rest =>
      (inr 1%nat, (take (length buf) data ++ drop (length data) buf,
                   MkMeta (Nat.min (length data) (length buf)) stride from),
       (q, MkToy (ty_taken n) rest (ty_send n) (ty_recv n) (ty_events n) (ty_room n) (ty_armed n)))
  end.

#[export] Instance toy_tokio : TokioSocket ToyNet := {
  poll_send_ready := ty_poll WRITABLE;
  poll_recv_ready := ty_poll READABLE;
  try_io A S := ty_try_io;
  inner_local_addr _ := inr (AddrV4 (repeat Byte.x00 4) 9000);
}.

#[export] Instance toy_quinn : QuinnUdp nat ToyNet := {
  state_send := ty_state_send;
  state_recv := ty_state_recv;
  state_max_gso_segments q := q;
  recv_meta_default := MkMeta 0 0 (AddrV6 (repeat Byte.x00 16) 0 0 0);
}.

#[export] Instance toy_tokio_spec : TokioUdpSpec nat ToyNet.
Proof.
  unshelve refine {|
    taken := ty_taken; left n := filter (fun d => (length d.2 <= 1472)%nat) (ty_taken n); inbox := ty_inbox; is_ready := ty_flag; wakeups := ty_events;
    armed interest n := bool_decide (interest ∈ ty_armed n);
    clear_ready interest n := ty_set_flag interest false (ty_events n) n; segment_limit q := q |}.
  - intros n. apply sublist_filter.
  - intros [h b [] r [|e] room w]; cbn; split_and!; by (done || lia).
  - intros [h b s [] [|e] room w]; cbn; split_and!; by (done || lia).
  - intros [] [h b s r e room w]; by cbn.
  - intros A S interest f s i Hi. exists ty_blocked. split; [done|].
    unfold try_io, toy_tokio, ty_try_io. cbn [snd]. by rewrite Hi.
  - intros A S interest f s i Hi.
    unfold try_io, toy_tokio, ty_try_io. cbn [snd]. by rewrite Hi.
  - intros [dest ecn contents [size|] src] q [h b s r e [|room] w]; cbn; split_and!; try done.
    + intros _ _ _. exists 0%nat. by rewrite app_nil_r.
    + intros _ _ _. exists (length (segments size contents)). by rewrite take_ge.
    + by rewrite app_nil_r.
  - done.
  - intros buf meta q [h [|[[data stride] from] rest] s r e room w]; cbn; split_and!; try done.
    + rewrite length_app, length_take, length_drop. lia.
    + exists data, stride, from, rest. split_and!; [done..|].
      apply take_app_length'. rewrite length_take. lia.
Defined.

(** Awaiting on this kernel: when a poll is pending, a wake-up with room arrives. *)
Definition ty_refill (k : TokioUdpSocket nat ToyNet) : TokioUdpSocket nat ToyNet :=
  let n := inner k in
  MkTokioUdp (MkToy (ty_taken n) (ty_inbox n) false (ty_recv n) 1 1 []) (state k).

Definition ty_await (poll : nat -> TokioUdpSocket nat ToyNet ->
    option (Poll (IoResult unit) * TokioUdpSocket nat ToyNet)) (k : TokioUdpSocket nat ToyNet)
  : IoResult unit * TokioUdpSocket nat ToyNet :=
  match poll (ty_events (inner k) + 2)%nat k with
  | Some (Ready r, k) => (r, k)
  | Some (Pending, k) =>
      match poll 2%nat (ty_refill k) with Some (Ready r, k) => (r, k) | _ => (inl ty_blocked, k) end
  | None => (inl ty_blocked, k)
  end.

Definition ty_socket : AsyncUdpSocket (TokioUdpSocket nat ToyNet) := {|
  poll_send buf dest := ty_await (tk_poll_send buf dest);
  poll_send_gso buf size dest := ty_await (tk_poll_send_gso buf size dest);
  max_gso_segments := tk_max_gso_segments;
  local_addr := tk_local_addr;
|}.

Lemma ty_await_awaits poll k :
  (forall k, is_Some (poll (ty_events (inner k) + 2)%nat k)) ->
  (forall k, exists r k', poll 2%nat (ty_refill k) = Some (Ready r, k')) ->
  awaits poll around k (ty_await poll k).1 (ty_await poll k).2.
Proof.
  intros Htot Hrefill. unfold ty_await. destruct (Htot k) as [[[r|] k1] E]; rewrite E.
  - by eapply awaits_now.
  - destruct (Hrefill k1) as (r & k2 & E2). rewrite E2.
    eapply awaits_later; [exact E| |by eapply awaits_now]. by split; [split|].
Qed.

Lemma ty_send_awaits buf dest k :
  awaits (tk_poll_send buf dest) around k
    (ty_await (tk_poll_send buf dest) k).1 (ty_await (tk_poll_send buf dest) k).2.
Proof.
  apply ty_await_awaits.
  - intros k'. apply (enough_fuel _ k'). cbn. lia.
  - intros k'. by eexists _, _.
Qed.

Lemma ty_send_gso_awaits buf size dest k :
  awaits (tk_poll_send_gso buf size dest) around k
    (ty_await (tk_poll_send_gso buf size dest) k).1 (ty_await (tk_poll_send_gso buf size dest) k).2.
Proof.
  apply ty_await_awaits.
  - intros k'. apply (enough_fuel _ k'). cbn. lia.
  - intros k'. by eexists _, _.
Qed.

(** Stale readiness, two stale wake-ups, no room: the datagram still goes out once. *)
Definition ty_busy : TokioUdpSocket nat ToyNet :=
  MkTokioUdp (MkToy [] [([Byte.x01; Byte.x02; Byte.x03], 2%nat, AddrV4 (repeat Byte.x0a 4) 7)] true false 2 0 []) 4%nat.

Example ty_busy_sends :
  ty_taken (inner (ty_await (tk_poll_send [Byte.x2a] (AddrV4 (repeat Byte.x0a 4) 7)) ty_busy).2) =
    [(AddrV4 (repeat Byte.x0a 4) 7, [Byte.x2a])].
Proof. reflexivity. Qed.

Lemma tokio_socket_is_a_udp_socket_witness :
  (exists U : @UdpSpec _ ty_socket, (forall k, @wire _ _ U k = ty_taken (inner k)) /\
     (forall k, sublist (left (inner k)) (@wire _ _ U k)) /\ forall k, @gso_limit _ _ U k = state k) /\
  exists s', awaits (T := _ * list byte) tk_poll_recv_gro around_buf (ty_busy, repeat Byte.x00 8)
      (inr (3%nat, 2%nat, AddrV4 (repeat Byte.x0a 4) 7)) s' /\
    takes_oldest (fun m => (rm_len m, rm_stride m, rm_addr m)) (ty_busy, repeat Byte.x00 8)
      (inr (3%nat, 2%nat, AddrV4 (repeat Byte.x0a 4) 7)) s' /\
    gro_split s'.2 3 2 = [[Byte.x01; Byte.x02]; [Byte.x03]].
Proof.
  destruct (tokio_socket_is_a_udp_socket ty_socket ty_send_awaits ty_send_gso_awaits (fun _ => eq_refl))
    as (HU & Hrecv & _).
  split; [exact HU|]. eexists. split; [|split; [apply Hrecv|]].
  - eapply (awaits_now _ _ 4). reflexivity.
  - eapply (awaits_now _ _ 4). reflexivity.
  - reflexivity.
Defined.
