(* ===== verification/TokioBind.v ===== *)
(** * TokioBind: the default runtime ([crates/srt/src/runtime.rs])

    [TokioRuntime]'s clock and [bind], which opens a datagram socket of the
    address's family, asks for large buffers, binds it and hands it to Tokio.
    [socket2], the conversions and the clock are parameters; [Socket2Spec] states
    what their documentation promises.  The theorem says that [bind] returns one
    configured socket or leaves no descriptor behind. *)

From S2P Require Import Prelude Time Listener Batch Runtime TokioUdp.

Inductive Domain : Type := IPV4 | IPV6.
Inductive SocketType : Type := DGRAM | STREAM.
Inductive Protocol : Type := UDP | TCP.

Definition SOCKET_BUFFER : nat := Z.to_nat (4 * 1024 * 1024).

(** [socket2], the operating system's clock, and the two conversions. *)
Class Socket2 (W Sock Q I : Type) : Type := {
  instant_now : W -> Instant;
  socket_new : Domain -> SocketType -> option Protocol -> W -> IoResult Sock * W;
  set_recv_buffer_size : nat -> Sock -> W -> IoResult unit * W;
  set_send_buffer_size : nat -> Sock -> W -> IoResult unit * W;
  socket_bind : SocketAddr -> Sock -> W -> IoResult unit * W;
  set_nonblocking : bool -> Sock -> W -> IoResult unit * W;
  socket_state_new : Sock -> W -> IoResult Q * W;
  socket_from_std : Sock -> W -> IoResult I * W;
  socket_drop : Sock -> W -> W;
}.

Section Bind.
Context {W Sock Q I : Type} {HS : Socket2 W Sock Q I}.

(** A [?] that returns early drops the socket; [from_std] consumes it. *)
Definition tk_bind (addr : SocketAddr) (w : W) : IoResult (TokioUdpSocket Q I) * W :=
  let domain := match addr with AddrV4 _ _ => IPV4 | AddrV6 _ _ _ _ => IPV6 end in
  match socket_new domain DGRAM (Some UDP) w with
  | (inl e, w) => (inl e, w)
  | (inr socket, w) =>
      let w := (set_recv_buffer_size SOCKET_BUFFER socket w).2 in
      let w := (set_send_buffer_size SOCKET_BUFFER socket w).2 in
      match socket_bind addr socket w with
      | (inl e, w) => (inl e, socket_drop socket w)
      | (inr _, w) =>
          match set_nonblocking true socket w with
          | (inl e, w) => (inl e, socket_drop socket w)
          | (inr _, w) =>
              match socket_state_new socket w with
              | (inl e, w) => (inl e, socket_drop socket w)
              | (inr state, w) =>
                  match socket_from_std socket w with
                  | (inl e, w) => (inl e, w)
                  | (inr inner, w) => (inr (MkTokioUdp inner state), w)
                  end
              end
          end
      end
  end.

Definition tokio_runtime : Runtime W (TokioUdpSocket Q I) := {|
  rt_now := instant_now;
  rt_bind := tk_bind;
|}.
End Bind.

(** ** One socket or none *)

(** What the kernel knows of a socket; [si_bound] is the address as requested (port
    0 leaves the port to the kernel). *)
Record SockInfo : Type := MkInfo {
  si_domain : Domain; si_bound : option SocketAddr; si_nonblocking : bool }.

(** Buffer sizes are requests and change nothing here; [from_std] wants a
    nonblocking socket and, when it fails, has dropped it. *)
Class Socket2Spec (W Sock Q I : Type) `{Socket2 W Sock Q I} : Type := {
  sock_info : Sock -> W -> option SockInfo;
  open_sockets : W -> nat;
  inner_socket : I -> Sock;
  untouched s (w w' : W) : Prop := sock_info s w' = sock_info s w /\ open_sockets w' = open_sockets w;
  socket_new_law d w :
    match socket_new d DGRAM (Some UDP) w with
    | (inl _, w') => open_sockets w' = open_sockets w
    | (inr s, w') => open_sockets w' = S (open_sockets w) /\ sock_info s w' = Some (MkInfo d None false)
    end;
  set_recv_buffer_law n s w : untouched s w (set_recv_buffer_size n s w).2;
  set_send_buffer_law n s w : untouched s w (set_send_buffer_size n s w).2;
  socket_bind_law addr s w info :
    sock_info s w = Some info -> si_bound info = None ->
    match socket_bind addr s w with
    | (inl _, w') => untouched s w w'
    | (inr _, w') => open_sockets w' = open_sockets w /\
        sock_info s w' = Some (MkInfo (si_domain info) (Some addr) (si_nonblocking info))
    end;
  set_nonblocking_law b s w info :
    sock_info s w = Some info ->
    match set_nonblocking b s w with
    | (inl _, w') => untouched s w w'
    | (inr _, w') => open_sockets w' = open_sockets w /\
        sock_info s w' = Some (MkInfo (si_domain info) (si_bound info) b)
    end;
  socket_state_law s w : untouched s w (socket_state_new s w).2;
  socket_from_std_law s w info :
    sock_info s w = Some info -> si_nonblocking info = true ->
    match socket_from_std s w with
    | (inl _, w') => S (open_sockets w') = open_sockets w
    | (inr i, w') => untouched s w w' /\ inner_socket i = s
    end;
  socket_drop_law s w info :
    sock_info s w = Some info -> S (open_sockets (socket_drop s w)) = open_sockets w;
}.

(** [bind] gives one open, nonblocking datagram socket of the address's family,
    bound to it, whatever became of the buffer sizes; when any other call fails,
    no descriptor is left behind. *)
Theorem bind_opens_one_socket_or_none {W Sock Q I : Type} {HS : Socket2 W Sock Q I}
  {HL : Socket2Spec W Sock Q I} (addr : SocketAddr) (w : W) :
  match tk_bind addr w with
  | (inl _, w') => open_sockets w' = open_sockets w
  | (inr k, w') => open_sockets w' = S (open_sockets w) /\
      sock_info (inner_socket (inner k)) w' =
        Some (MkInfo (match addr with AddrV4 _ _ => IPV4 | AddrV6 _ _ _ _ => IPV6 end) (Some addr) true)
  end.
Proof.
  unfold tk_bind. set (d := match addr with AddrV4 _ _ => IPV4 | AddrV6 _ _ _ _ => IPV6 end).
  pose proof (socket_new_law d w) as Hnew. destruct (socket_new d DGRAM (Some UDP) w) as [[e|s] w1]; [done|].
  destruct Hnew as [Ho1 Hi1]. destruct (set_recv_buffer_law SOCKET_BUFFER s w1) as [Hi2 Ho2].
  set (w2 := (set_recv_buffer_size SOCKET_BUFFER s w1).2) in *.
  destruct (set_send_buffer_law SOCKET_BUFFER s w2) as [Hi3 Ho3].
  set (w3 := (set_send_buffer_size SOCKET_BUFFER s w2).2) in *.
  rewrite Hi1 in Hi2. rewrite Hi2 in Hi3.
  pose proof (socket_bind_law addr s w3 _ Hi3 eq_refl) as H4. destruct (socket_bind addr s w3) as [[e|u] w4].
  { destruct H4 as [Hi4 Ho4]. rewrite Hi3 in Hi4. pose proof (socket_drop_law s w4 _ Hi4). lia. }
  destruct H4 as [Ho4 Hi4]. cbn [si_domain si_nonblocking] in Hi4.
  pose proof (set_nonblocking_law true s w4 _ Hi4) as H5. destruct (set_nonblocking true s w4) as [[e|u5] w5].
  { destruct H5 as [Hi5 Ho5]. rewrite Hi4 in Hi5. pose proof (socket_drop_law s w5 _ Hi5). lia. }
  destruct H5 as [Ho5 Hi5]. cbn [si_domain si_bound] in Hi5.
  pose proof (socket_state_law s w5) as [Hi6 Ho6]. rewrite Hi5 in Hi6.
  destruct (socket_state_new s w5) as [[e|q] w6]; cbn [snd] in *.
  { pose proof (socket_drop_law s w6 _ Hi6). lia. }
  pose proof (socket_from_std_law s w6 _ Hi6 eq_refl) as H7.
  destruct (socket_from_std s w6) as [[e|i] w7]; [lia|].
  destruct H7 as [[Hi7 Ho7] Hs]. cbn [inner]. split; [lia|]. by rewrite Hs, Hi7.
Qed.

Lemma size_alter (f : SockInfo -> SockInfo) (s : nat) (m : gmap nat SockInfo) :
  size (alter f s m) = size m.
Proof. by rewrite <- !(size_dom (D := gset nat)), dom_alter_L. Qed.

(** A kernel whose calls fail as a script says. *)
Record ToyKernel : Type := MkKernel { kn_socks : gmap nat SockInfo; kn_faults : list bool }.

Definition kn_call {A} (a : A) (f : gmap nat SockInfo -> gmap nat SockInfo) (w : ToyKernel)
  : IoResult A * ToyKernel :=
  match kn_faults w with
  | true :: faults => (inl (MkIoError 24 OtherKind), MkKernel (kn_socks w) faults)
  | faults => (inr a, MkKernel (f (kn_socks w)) (tail faults))
  end.

#[export] Instance toy_socket2 : Socket2 ToyKernel nat unit nat := {
  instant_now _ := 1000;
  socket_new d _ _ w :=
    let s := fresh (dom (kn_socks w)) in kn_call s (<[s := MkInfo d None false]>) w;
  set_recv_buffer_size _ _ := kn_call tt id;
  set_send_buffer_size _ _ := kn_call tt id;
  socket_bind addr s :=
    kn_call tt (alter (fun i => MkInfo (si_domain i) (Some addr) (si_nonblocking i)) s);
  set_nonblocking b s := kn_call tt (alter (fun i => MkInfo (si_domain i) (si_bound i) b) s);
  socket_state_new _ := kn_call tt id;
  socket_from_std s w :=
    match kn_call s id w with
    | (inl e, w) => (inl e, MkKernel (delete s (kn_socks w)) (kn_faults w))
    | r => r
    end;
  socket_drop s w := MkKernel (delete s (kn_socks w)) (kn_faults w);
}.

Lemma kn_delete_size (s : nat) (m : gmap nat SockInfo) i :
  m !! s = Some i -> S (size (delete s m)) = size m.
Proof.
  intros Hs. rewrite map_size_delete_Some by by eexists.
  destruct (size m) eqn:E; [|done]. apply map_size_empty_inv in E. by rewrite E in Hs.
Qed.

#[export] Instance toy_socket2_spec : Socket2Spec ToyKernel nat unit nat.
Proof.
  unshelve refine {| sock_info s w := kn_socks w !! s; open_sockets w := size (kn_socks w);
                     inner_socket i := i |}.
  - intros d [m [|[] f]]; cbn; [|done|]; (split; [apply map_size_insert_None|apply lookup_insert_eq]);
      apply not_elem_of_dom, is_fresh.
  - by intros n s [m [|[] f]].
  - by intros n s [m [|[] f]].
  - intros addr s [m [|[] f]] info Hi _; cbn in *; [|done|];
      (split; [apply size_alter|]; by rewrite lookup_alter_eq, Hi).
  - intros b s [m [|[] f]] info Hi; cbn in *; [|done|];
      (split; [apply size_alter|]; by rewrite lookup_alter_eq, Hi).
  - by intros s [m [|[] f]].
  - intros s [m [|[] f]] info Hi _; cbn in *; [done|by eapply kn_delete_size|done].
  - intros s [m f] info Hi. by eapply kn_delete_size.
Defined.

(** Refused buffers do not matter; a refused [bind] closes what was opened. *)
Example bind_without_buffers :
  exists k w, tk_bind (AddrV4 (repeat Byte.x00 4) 9000) (MkKernel ∅ [false; true; true]) = (inr k, w) /\
    size (kn_socks w) = 1%nat.
Proof. eexists _, _. split; [reflexivity|]. vm_compute. reflexivity. Qed.

Example bind_refused :
  exists e w, tk_bind (I := nat) (AddrV4 (repeat Byte.x00 4) 9000) (MkKernel ∅ [false; true; true; true]) =
    (inl e, w) /\ size (kn_socks w) = 0%nat.
Proof. eexists _, _. split; [reflexivity|]. vm_compute. reflexivity. Qed.
