(* ===== verification/Driver.v ===== *)
(** * Driver: the task that drives one connection ([crates/srt/src/driver.rs])

    [drive_connection] owns a connection of the core, a timer wheel, its ends of
    the channels to the application and, for a caller, the socket.  One round of
    its loop is [loop_head] (fire due timers, send what the core queued, hand
    over events) followed by one arm of the [select!], [on_wake].  What the task
    waits for, the clock and the random source are arguments. *)

From coqutil Require Import Datatypes.RecordSetters.
From S2P Require Import Prelude Buf Errors Seq Time Timestamp PacketTypes Handshake Control Packet KeyMaterial Crypto Config Event ConnState Rekey Arq Setup Conn ConnStart Listener Batch Runtime.

Definition RECV_BUF : nat := Z.to_nat 65536.
Definition COMMAND_CAPACITY : nat := 64.
Definition DATA_CAPACITY : nat := 256.
Definition INBOUND_CAPACITY : nat := Z.to_nat 4096.

(** [TimerId] keys the wheel. *)
Definition timer_index (id : TimerId) : nat :=
  match id with
  | TiHandshake => 0 | TiAck => 1 | TiNak => 2 | TiExp => 3 | TiTsbpd => 4
  | TiSndPacing => 5 | TiLinger => 6 | TiKeepalive => 7 | TiPeerIdle => 8
  end.
Definition timer_of_index (n : nat) : option TimerId :=
  [TiHandshake; TiAck; TiNak; TiExp; TiTsbpd; TiSndPacing; TiLinger; TiKeepalive; TiPeerIdle] !! n.
#[export] Instance timer_countable : Countable TimerId.
Proof. apply (inj_countable timer_index timer_of_index). by intros []. Defined.

Definition Timers : Type := gmap TimerId Instant.

(** ** The application's side *)

(** [crate::Error] *)
Inductive Error : Type :=
  | ErrIo (e : IoError)
  | ErrConfig (e : ConfigError)
  | ErrProtocol (e : ConnectionError)
  | ErrClosed.

(** A oneshot sender is known by the number of its receiver. *)
Definition Oneshot : Type := nat.

Inductive Command : Type :=
  | CmdSend (payload : list byte)
  | CmdClose
  | CmdStats (reply : Oneshot).

Inductive Reply : Type :=
  | RpConnected (outcome : Error + unit)
  | RpStats (stats : Stats).

Record StreamChannels (Chan : Type -> Type) : Type := MkChannels {
  sh_commands : Chan Command;
  sh_data : Chan (list byte);
  sh_connected : option Oneshot;
}.
Arguments MkChannels {Chan} sh_commands sh_data sh_connected.
Arguments sh_commands {Chan}.
Arguments sh_data {Chan}.
Arguments sh_connected {Chan}.

Inductive Inbound (Chan : Type -> Type) : Type :=
  | Owned
  | Demuxed (rx : Chan (Instant * list byte)%type).
Arguments Owned {Chan}.
Arguments Demuxed {Chan} rx.

Definition owned {Chan} (i : Inbound Chan) : bool :=
  match i with Owned => true | Demuxed _ => false end.

(** The task's locals.  [dr_draws] numbers the draws from the random source;
    [dr_replies] lists what was sent on oneshot channels. *)
Record Driver (K : Type) (Chan : Type -> Type) : Type := MkDriver {
  dr_socket : K;
  dr_conn : Connection;
  dr_channels : StreamChannels Chan;
  dr_inbound : Inbound Chan;
  dr_timers : Timers;
  dr_closing : bool;
  dr_pending_data : option (list byte);
  dr_draws : nat;
  dr_replies : list (Oneshot * Reply);
}.
Arguments MkDriver {K Chan}.
Arguments dr_socket {K Chan}.
Arguments dr_conn {K Chan}.
Arguments dr_channels {K Chan}.
Arguments dr_inbound {K Chan}.
Arguments dr_timers {K Chan}.
Arguments dr_closing {K Chan}.
Arguments dr_pending_data {K Chan}.
Arguments dr_draws {K Chan}.
Arguments dr_replies {K Chan}.

Section Setters.
Context {K : Type} {Chan : Type -> Type}.

#[export] Instance set_dr_socket : Setter (@dr_socket K Chan).
Proof. mk_setter (@dr_socket K Chan). Defined.
#[export] Instance set_dr_conn : Setter (@dr_conn K Chan).
Proof. mk_setter (@dr_conn K Chan). Defined.
#[export] Instance set_dr_channels : Setter (@dr_channels K Chan).
Proof. mk_setter (@dr_channels K Chan). Defined.
#[export] Instance set_dr_inbound : Setter (@dr_inbound K Chan).
Proof. mk_setter (@dr_inbound K Chan). Defined.
#[export] Instance set_dr_timers : Setter (@dr_timers K Chan).
Proof. mk_setter (@dr_timers K Chan). Defined.
#[export] Instance set_dr_closing : Setter (@dr_closing K Chan).
Proof. mk_setter (@dr_closing K Chan). Defined.
#[export] Instance set_dr_pending_data : Setter (@dr_pending_data K Chan).
Proof. mk_setter (@dr_pending_data K Chan). Defined.
#[export] Instance set_dr_draws : Setter (@dr_draws K Chan).
Proof. mk_setter (@dr_draws K Chan). Defined.
#[export] Instance set_dr_replies : Setter (@dr_replies K Chan).
Proof. mk_setter (@dr_replies K Chan). Defined.
End Setters.

(** ** Timers *)

(** [HashMap::iter] goes through the entries in an order of its own. *)
Class HashOrder : Type := hash_iter : Timers -> list (TimerId * Instant).
Class HashOrderSpec (HO : HashOrder) : Prop :=
  hash_iter_perm : forall timers, hash_iter timers ≡ₚ map_to_list timers.

#[export] Instance key_order : HashOrder := map_to_list.
#[export] Instance key_order_spec : HashOrderSpec key_order.
Proof. intros timers. reflexivity. Defined.

Definition collect_due_timers {HO : HashOrder} (timers : Timers) (now : Instant) : list TimerId :=
  fst <$> filter (fun e => e.2 <= now) (hash_iter timers).

(** [timers.values().copied().min()], or an hour from now. *)
Definition next_deadline {HO : HashOrder} (timers : Timers) (now : Instant) : Instant :=
  match snd <$> hash_iter timers with
  | [] => now + dur_from_secs 3600
  | t :: ts => foldl Z.min t ts
  end.

(** ** Sending *)

Section Sends.
Context {K : Type} {HK : AsyncUdpSocket K}.

Fixpoint send_each (peer : SocketAddr) (sends : list (list byte)) (socket : K)
  : IoResult unit * K :=
  match sends with
  | [] => (inr tt, socket)
  | datagram :: rest =>
      match poll_send datagram peer socket with
      | (inr _, socket) => send_each peer rest socket
      | (inl e, socket) => (inl e, socket)
      end
  end.

(** One batch; [gso_batches] yields no empty one. *)
Definition send_batch (peer : SocketAddr) (batch : list (list byte)) (socket : K)
  : IoResult unit * K :=
  match batch with
  | [single] => poll_send single peer socket
  | first :: _ => poll_send_gso (concat batch) (length first) peer socket
  | [] => (inr tt, socket)
  end.

Fixpoint send_batches (peer : SocketAddr) (batches : list (list (list byte))) (socket : K)
  : IoResult unit * K :=
  match batches with
  | [] => (inr tt, socket)
  | batch :: rest =>
      match send_batch peer batch socket with
      | (inr _, socket) => send_batches peer rest socket
      | (inl e, socket) => (inl e, socket)
      end
  end.

Definition flush_sends (peer : SocketAddr) (sends : list (list byte)) (socket : K)
  : IoResult unit * K :=
  let max := max_gso_segments socket in
  if (max <=? 1)%nat then send_each peer sends socket
  else send_batches peer (gso_batches sends max) socket.
End Sends.

(** [while let Some(output) = conn.poll_output()] *)
Fixpoint collect_outputs (fuel : nat) (now : Instant) (c : Connection) (timers : Timers)
  (sends : list (list byte)) : panicky (Connection * Timers * list (list byte)) :=
  match fuel with
  | O => Panic
  | S fuel =>
      match poll_output c with
      | (None, c) => Ret (c, timers, sends)
      | (Some (SendDatagram datagram), c) =>
          collect_outputs fuel now c timers (sends ++ [datagram])
      | (Some (SetTimer id after), c) =>
          collect_outputs fuel now c (<[id := now + after]> timers) sends
      | (Some (ClearTimer id), c) => collect_outputs fuel now c (delete id timers) sends
      end
  end.

(** ** The task *)

Inductive Wake : Type :=
  | WkSocket (received : IoResult (list byte * nat * nat * SocketAddr)) (now : Instant)
  | WkInbound
  | WkTimer
  | WkReserve
  | WkCommand (now : Instant).

Section Task.
Context {B : BytesApi} {P : CryptoPrims} {K : Type} {HK : AsyncUdpSocket K}.
Context {Chan : Type -> Type} {HMp : Mpsc Chan} {HO : HashOrder}.
Context (rng : nat -> nat -> list byte).
Implicit Types d : Driver K Chan.

Definition set_data data d : Driver K Chan :=
  d <| dr_channels ::= fun s => MkChannels (sh_commands s) data (sh_connected s) |>.
Definition set_commands commands d : Driver K Chan :=
  d <| dr_channels ::= fun s => MkChannels commands (sh_data s) (sh_connected s) |>.

Definition drain_outputs (peer : SocketAddr) (now : Instant) d
  : panicky (IoResult unit * Driver K Chan) :=
  '(conn, timers, sends) ←
    collect_outputs (S (length (cn_outputs (dr_conn d)))) now (dr_conn d) (dr_timers d) [];
  let '(result, socket) := flush_sends peer sends (dr_socket d) in
  Ret (result, d <| dr_conn := conn |> <| dr_timers := timers |> <| dr_socket := socket |>).

(** [channels.data.try_send(payload)]: [true] when it is parked instead. *)
Definition offer_data (payload : list byte) d : bool * Driver K Chan :=
  match mpsc_try_send payload (sh_data (dr_channels d)) with
  | (TsFull payload, data) => (true, (set_data data d) <| dr_pending_data := Some payload |>)
  | (_, data) => (false, set_data data d)
  end.

(** [channels.connected.take()] and send the outcome. *)
Definition signal_connected (outcome : Error + unit) d : Driver K Chan :=
  match sh_connected (dr_channels d) with
  | Some tx =>
      d <| dr_channels ::= fun s => MkChannels (sh_commands s) (sh_data s) None |>
        <| dr_replies ::= fun l => l ++ [(tx, RpConnected outcome)] |>
  | None => d
  end.

(** One event: [Some b] returns [b], [None] goes on. *)
Definition handle_event (event : Event) (now : Instant) d
  : panicky (option bool * Driver K Chan) :=
  match event with
  | EvConnected _ => Ret (None, signal_connected (inr tt) d)
  | EvKeyRefreshNeeded key_size =>
      let sek := rng (dr_draws d) key_size in
      conn ← provide_rekey sek now (dr_conn d);
      Ret (None, d <| dr_draws ::= S |> <| dr_conn := conn |>)
  | EvDataReceived payload =>
      match offer_data payload d with
      | (true, d) => Ret (Some false, d)
      | (false, d) => Ret (None, d)
      end
  | EvFailed reason => Ret (Some true, signal_connected (inl (ErrProtocol reason)) d)
  | EvClosed => Ret (Some true, d)
  end.

Fixpoint events_loop (fuel : nat) (now : Instant) d : panicky (bool * Driver K Chan) :=
  match fuel with
  | O => Panic
  | S fuel =>
      match poll_event (dr_conn d) with
      | (None, conn) => Ret (false, d <| dr_conn := conn |>)
      | (Some event, conn) =>
          '(stop, d) ← handle_event event now (d <| dr_conn := conn |>);
          match stop with
          | Some b => Ret (b, d)
          | None => events_loop fuel now d
          end
      end
  end.

(** [true]: the driver should stop. *)
Definition drain_events (now : Instant) d : panicky (bool * Driver K Chan) :=
  let fuel := S (length (cn_events (dr_conn d))) in
  match dr_pending_data d with
  | Some payload =>
      match offer_data payload (d <| dr_pending_data := None |>) with
      | (true, d) => Ret (false, d)
      | (false, d) => events_loop fuel now d
      end
  | None => events_loop fuel now d
  end.

Fixpoint fire_timers (due : list TimerId) (now : Instant) d : panicky (Driver K Chan) :=
  match due with
  | [] => Ret d
  | id :: due =>
      conn ← handle_timer id now (dr_conn d);
      fire_timers due now (d <| dr_timers ::= delete id |> <| dr_conn := conn |>)
  end.

(** The loop body up to the [select!]; [true]: leave the loop. *)
Definition loop_head (peer : SocketAddr) (now : Instant) d : panicky (bool * Driver K Chan) :=
  d ← fire_timers (collect_due_timers (dr_timers d) now) now d;
  '(result, d) ← drain_outputs peer now d;
  match result with
  | inl _ => Ret (true, d)
  | inr _ => drain_events now d
  end.

(** ** The arms of the [select!] *)

(** The guard of an arm, and that what it awaits is there; [deadline] is what
    the timer was set to. *)
Definition enabled (deadline now : Instant) (w : Wake) d : bool :=
  match w with
  | WkSocket _ _ => owned (dr_inbound d)
  | WkInbound =>
      match dr_inbound d with
      | Owned => false
      | Demuxed rx => match (mpsc_recv rx).1 with Ready _ => true | Pending => false end
      end
  | WkTimer => deadline <=? now
  | WkReserve =>
      match dr_pending_data d, mpsc_reserve (sh_data (dr_channels d)) with
      | Some _, Ready _ => true
      | _, _ => false
      end
  | WkCommand _ =>
      negb (dr_closing d) && send_window_available (dr_conn d)
      && match (mpsc_recv (sh_commands (dr_channels d))).1 with
         | Ready _ => true | Pending => false end
  end.

Fixpoint feed_segments (segments : list (list byte)) (now : Instant) (c : Connection)
  : panicky Connection :=
  match segments with
  | [] => Ret c
  | segment :: rest => c ← feed_recv_buf segment now c; feed_segments rest now c
  end.

(** One command: [true] ends the batch. *)
Definition handle_command (next : option Command) (now : Instant) d
  : panicky (bool * Driver K Chan) :=
  match next with
  | Some (CmdSend payload) =>
      conn ← sent_or (dr_conn d) (conn_send payload now (dr_conn d));
      Ret (false, d <| dr_conn := conn |>)
  | Some (CmdStats reply) =>
      Ret (false, d <| dr_replies ::= fun l => l ++ [(reply, RpStats (conn_stats (dr_conn d)))] |>)
  | Some CmdClose | None =>
      conn ← conn_close now (dr_conn d);
      Ret (true, d <| dr_conn := conn |> <| dr_closing := true |>)
  end.

Fixpoint command_loop (fuel : nat) (next : option Command) (now : Instant) d
  : panicky (Driver K Chan) :=
  match fuel with
  | O => Panic
  | S fuel =>
      '(stop, d) ← handle_command next now d;
      if (stop : bool) then Ret d else
      match mpsc_try_recv (sh_commands (dr_channels d)) with
      | (Some more, commands) => command_loop fuel (Some more) now (set_commands commands d)
      | (None, commands) => Ret (set_commands commands d)
      end
  end.

(** [true]: leave the loop. *)
Definition on_wake (w : Wake) d : panicky (bool * Driver K Chan) :=
  match w with
  | WkSocket (inr (recv_buf, len, stride, from)) now =>
      conn ← feed_segments (gro_split recv_buf len stride) now (dr_conn d);
      Ret (false, d <| dr_conn := conn |>)
  | WkSocket (inl _) _ => Ret (true, d)
  | WkInbound =>
      match dr_inbound d with
      | Owned => Ret (false, d)
      | Demuxed rx =>
          match mpsc_recv rx with
          | (Ready (Some (arrival, bytes)), rx) =>
              conn ← feed_recv_buf bytes arrival (dr_conn d);
              Ret (false, d <| dr_inbound := Demuxed rx |> <| dr_conn := conn |>)
          | (Ready None, rx) => Ret (true, d <| dr_inbound := Demuxed rx |>)
          | (Pending, rx) => Ret (false, d <| dr_inbound := Demuxed rx |>)
          end
      end
  | WkTimer => Ret (false, d)
  | WkReserve =>
      match mpsc_reserve (sh_data (dr_channels d)) with
      | Ready true =>
          payload ← expect (dr_pending_data d);
          Ret (false, (set_data (mpsc_permit_send payload (sh_data (dr_channels d))) d)
                        <| dr_pending_data := None |>)
      | Ready false => Ret (false, d <| dr_pending_data := None |>)
      | Pending => Ret (false, d)
      end
  | WkCommand now =>
      match mpsc_recv (sh_commands (dr_channels d)) with
      | (Ready command, commands) =>
          d ← command_loop (S COMMAND_CAPACITY) command now (set_commands commands d);
          Ret (false, d)
      | (Pending, commands) => Ret (false, set_commands commands d)
      end
  end.
End Task.

(** A task fresh from [tokio::spawn]. *)
Definition spawn_driver {K : Type} {Chan : Type -> Type} (socket : K) (conn : Connection)
  (channels : StreamChannels Chan) (inbound : Inbound Chan) : Driver K Chan :=
  MkDriver socket conn channels inbound ∅ false None 0 [].
