(* ===== verification/Stream.v ===== *)
(** * Stream: the handles of an established connection
    ([crates/srt/src/stream.rs], [error.rs])

    A stream is two channel ends into its driver's task and the connection's
    metadata.  A handle names its task by [st_task]; the operations act on the
    channels of that task.  An operation that waits returns a [Poll]. *)

From S2P Require Import Prelude Event Listener Runtime Driver.

Record StreamMeta : Type := MkMeta {
  sm_local_addr : SocketAddr;
  sm_peer_addr : SocketAddr;
  sm_stream_id : option (list byte);
}.

(** [SrtStream], and its halves after [into_split]: the send half keeps the
    command sender, the receive half the data receiver. *)
Record SrtStream : Type := MkStream { st_task : nat; st_meta : StreamMeta }.
Record SrtSendHalf : Type := MkSendHalf { sh_task : nat; sh_meta : StreamMeta }.
Record SrtRecvHalf : Type := MkRecvHalf { rh_task : nat; rh_meta : StreamMeta }.

Definition into_split (s : SrtStream) : SrtSendHalf * SrtRecvHalf :=
  (MkSendHalf (st_task s) (st_meta s), MkRecvHalf (st_task s) (st_meta s)).

Definition stream_local_addr (s : SrtStream) : SocketAddr := sm_local_addr (st_meta s).
Definition stream_peer_addr (s : SrtStream) : SocketAddr := sm_peer_addr (st_meta s).
Definition stream_id (s : SrtStream) : option (list byte) := sm_stream_id (st_meta s).

Section Handles.
Context {Chan : Type -> Type} {HMp : Mpsc Chan}.

(** [sender.send(message).await.map_err(|_| Error::Closed)] *)
Definition send_or_closed {A : Type} (message : A) (sender : Chan A)
  : Poll (Error + unit) * Chan A :=
  match mpsc_reserve sender with
  | Ready true => (Ready (inr tt), mpsc_permit_send message sender)
  | Ready false => (Ready (inl ErrClosed), sender)
  | Pending => (Pending, sender)
  end.

Definition send_command (command : Command) : Chan Command -> Poll (Error + unit) * Chan Command :=
  send_or_closed command.
Definition stream_send (payload : list byte) : Chan Command -> Poll (Error + unit) * Chan Command :=
  send_command (CmdSend payload).
Definition stream_close : Chan Command -> Poll (Error + unit) * Chan Command :=
  send_command CmdClose.
Definition stream_recv (data : Chan (list byte)) : Poll (option (list byte)) * Chan (list byte) :=
  mpsc_recv data.

(** [fetch_stats]: the request, and what the oneshot brings back ([None] when the
    driver dropped it). *)
Definition request_stats (reply : Oneshot) : Chan Command -> Poll (Error + unit) * Chan Command :=
  send_command (CmdStats reply).
Definition stats_response (response : option Stats) : Error + Stats :=
  match response with Some s => inr s | None => inl ErrClosed end.

(** The halves after [into_split]: the same calls on the channel end each keeps. *)
Definition send_half_send : list byte -> Chan Command -> Poll (Error + unit) * Chan Command :=
  stream_send.
Definition send_half_close : Chan Command -> Poll (Error + unit) * Chan Command := stream_close.
Definition send_half_stats : Oneshot -> Chan Command -> Poll (Error + unit) * Chan Command :=
  request_stats.
Definition recv_half_recv : Chan (list byte) -> Poll (option (list byte)) * Chan (list byte) :=
  stream_recv.

(** [futures_core::Stream]: polling is receiving. *)
Definition stream_poll_next (data : Chan (list byte))
  : Poll (option (list byte)) * Chan (list byte) := mpsc_recv data.
End Handles.

Definition send_half_local_addr (s : SrtSendHalf) : SocketAddr := sm_local_addr (sh_meta s).
Definition send_half_peer_addr (s : SrtSendHalf) : SocketAddr := sm_peer_addr (sh_meta s).
Definition send_half_stream_id (s : SrtSendHalf) : option (list byte) := sm_stream_id (sh_meta s).
Definition recv_half_local_addr (s : SrtRecvHalf) : SocketAddr := sm_local_addr (rh_meta s).
Definition recv_half_peer_addr (s : SrtRecvHalf) : SocketAddr := sm_peer_addr (rh_meta s).
Definition recv_half_stream_id (s : SrtRecvHalf) : option (list byte) := sm_stream_id (rh_meta s).

(** ** The [Sink] adapter

    [tokio_util::sync::PollSender], which keeps a reservation across calls:
    both operations report whether they succeeded. *)
Class PollSender (S : Type) : Type := {
  ps_poll_reserve : S -> Poll bool * S;
  ps_send_item : Command -> S -> bool * S;
}.

Section Sink.
Context {S : Type} {HS : PollSender S}.

Definition closed_unless (ok : bool) : Error + unit := if ok then inr tt else inl ErrClosed.

Definition sink_poll_ready (sink : S) : Poll (Error + unit) * S :=
  match ps_poll_reserve sink with
  | (Ready ok, sink) => (Ready (closed_unless ok), sink)
  | (Pending, sink) => (Pending, sink)
  end.

Definition sink_start_send (payload : list byte) (sink : S) : (Error + unit) * S :=
  let '(ok, sink) := ps_send_item (CmdSend payload) sink in (closed_unless ok, sink).

Definition sink_poll_flush : Poll (Error + unit) := Ready (inr tt).

(** A driver that hung up is a success here. *)
Definition sink_poll_close (sink : S) : Poll (Error + unit) * S :=
  match ps_poll_reserve sink with
  | (Ready true, sink) => (Ready (inr tt), (ps_send_item CmdClose sink).2)
  | (Ready false, sink) => (Ready (inr tt), sink)
  | (Pending, sink) => (Pending, sink)
  end.
End Sink.

Section Proofs.
Context {Chan : Type -> Type} {HMp : Mpsc Chan} {HM : MpscSpec Chan} {A : Type}.
Implicit Types ch : Chan A.

(** A send waits exactly while the receiver lives and its queue is full, fails
    exactly when the receiver is gone, and otherwise queues the message last. *)
Lemma send_or_closed_cases a ch :
  match (send_or_closed a ch).1 with
  | Pending => receiving ch = true /\ (ch_capacity (view ch) <= length (queued ch))%nat /\
               (send_or_closed a ch).2 = ch
  | Ready (inl e) => e = ErrClosed /\ receiving ch = false /\ (send_or_closed a ch).2 = ch
  | Ready (inr _) => receiving ch = true /\ (length (queued ch) < ch_capacity (view ch))%nat /\
                     queued (send_or_closed a ch).2 = queued ch ++ [a]
  end.
Proof.
  unfold send_or_closed. rewrite reserve_view. unfold st_reserve, st_room, receiving, queued.
  destruct (ch_rx (view ch)); [|done].
  destruct (Nat.ltb_spec (length (ch_contents (view ch))) (ch_capacity (view ch))); cbn [fst snd];
    split_and!; try done; by rewrite permit_send_view.
Qed.
End Proofs.
