(* ===== verification/Endpoint.v ===== *)
(** * Endpoint: the task behind a listener ([crates/srt/src/driver.rs])

    [drive_endpoint] owns the shared socket and the core listener, and forwards
    every datagram of an established connection to its driver.  Senders are
    cloned into two maps and a [PeerAddr] is shared with the driver it belongs
    to, so channels and peer addresses are cells of a store, named by the number
    of the task they were made for; [ep_spawned] lists the tasks. *)

From coqutil Require Import Datatypes.RecordSetters.
From S2P Require Import Prelude Buf Errors Reject Seq Time PacketTypes Handshake Control Packet KeyMaterial Crypto Config Event ConnState Conn Listener Batch Runtime Driver Stream.

(** ** [SocketAddr] and socket ids as keys *)

#[export] Instance byte_countable : Countable byte.
Proof. apply (inj_countable u8_to_Z (fun z => Some (u8_of_Z z))). intros b. by rewrite u8_of_to. Defined.

Definition addr_code (a : SocketAddr) : (list byte * Z) + (list byte * Z * Z * Z) :=
  match a with AddrV4 o p => inl (o, p) | AddrV6 o p f s => inr (o, p, f, s) end.
Definition addr_decode (c : (list byte * Z) + (list byte * Z * Z * Z)) : option SocketAddr :=
  Some (match c with inl (o, p) => AddrV4 o p | inr (o, p, f, s) => AddrV6 o p f s end).
#[export] Instance socket_addr_countable : Countable SocketAddr.
Proof. apply (inj_countable addr_code addr_decode). by intros []. Defined.

(** The fourth 32-bit word of a header; [None] for runts. *)
Definition dest_socket_id (datagram : list byte) : option Z :=
  if (length datagram <? 16)%nat then None else Some (be_val (take 4 (drop 12 datagram))).

(** ** Messages between the listener's handle and its task *)

(** [crate::ConnRequest], less the decision sender every one of them holds. *)
Record SrtRequest : Type := MkSrtRequest {
  sq_stream_id : option (list byte); sq_remote_addr : SocketAddr; sq_local_addr : SocketAddr }.

Inductive Incoming : Type :=
  | InStream (s : SrtStream)
  | InRequest (r : SrtRequest).

Inductive Decision : Type :=
  | DcAccept (addr : SocketAddr) (reply : Oneshot)
  | DcReject (addr : SocketAddr) (reason : RejectReason).

(** A reply holds the accepted connection's channel ends, named by its task. *)
Definition AcceptReply : Type := Error + nat.

(** ** The state *)

Record IdEntry : Type := MkIdEntry { ie_tx : nat; ie_addr : SocketAddr; ie_peer : nat }.

Record Endpoint (K : Type) (Chan : Type -> Type) : Type := MkEndpoint {
  ep_socket : K;
  ep_listener : Listener;
  ep_local_addr : SocketAddr;
  ep_auto_accept : bool;
  ep_connections : gmap SocketAddr nat;
  ep_by_id : gmap Z IdEntry;
  ep_incoming : Chan Incoming;
  ep_decisions : Chan Decision;
  ep_channels : gmap nat (Chan (Instant * list byte)%type);
  ep_peers : gmap nat SocketAddr;
  ep_spawned : list Connection;
  ep_replies : list (Oneshot * AcceptReply);
}.
Arguments MkEndpoint {K Chan}.
Arguments ep_socket {K Chan}.
Arguments ep_listener {K Chan}.
Arguments ep_local_addr {K Chan}.
Arguments ep_auto_accept {K Chan}.
Arguments ep_connections {K Chan}.
Arguments ep_by_id {K Chan}.
Arguments ep_incoming {K Chan}.
Arguments ep_decisions {K Chan}.
Arguments ep_channels {K Chan}.
Arguments ep_peers {K Chan}.
Arguments ep_spawned {K Chan}.
Arguments ep_replies {K Chan}.

Section Setters.
Context {K : Type} {Chan : Type -> Type}.

#[export] Instance set_ep_socket : Setter (@ep_socket K Chan).
Proof. mk_setter (@ep_socket K Chan). Defined.
#[export] Instance set_ep_listener : Setter (@ep_listener K Chan).
Proof. mk_setter (@ep_listener K Chan). Defined.
#[export] Instance set_ep_connections : Setter (@ep_connections K Chan).
Proof. mk_setter (@ep_connections K Chan). Defined.
#[export] Instance set_ep_by_id : Setter (@ep_by_id K Chan).
Proof. mk_setter (@ep_by_id K Chan). Defined.
#[export] Instance set_ep_incoming : Setter (@ep_incoming K Chan).
Proof. mk_setter (@ep_incoming K Chan). Defined.
#[export] Instance set_ep_decisions : Setter (@ep_decisions K Chan).
Proof. mk_setter (@ep_decisions K Chan). Defined.
#[export] Instance set_ep_channels : Setter (@ep_channels K Chan).
Proof. mk_setter (@ep_channels K Chan). Defined.
#[export] Instance set_ep_peers : Setter (@ep_peers K Chan).
Proof. mk_setter (@ep_peers K Chan). Defined.
#[export] Instance set_ep_spawned : Setter (@ep_spawned K Chan).
Proof. mk_setter (@ep_spawned K Chan). Defined.
#[export] Instance set_ep_replies : Setter (@ep_replies K Chan).
Proof. mk_setter (@ep_replies K Chan). Defined.
End Setters.

Section Task.
Context {B : BytesApi} {P : CryptoPrims} {K : Type} {HK : AsyncUdpSocket K}.
Context {Chan : Type -> Type} {HMp : Mpsc Chan}.
Implicit Types e : Endpoint K Chan.

(** [tx.is_closed()] through the store. *)
Definition tx_closed e (tx : nat) : bool :=
  match ep_channels e !! tx with Some ch => mpsc_is_closed ch | None => true end.

(** ** Forwarding *)

(** [false]: the driver is gone. *)
Fixpoint forward_loop (segments : list (list byte)) (now : Instant)
  (tx : Chan (Instant * list byte)) : bool * Chan (Instant * list byte) :=
  match segments with
  | [] => (true, tx)
  | segment :: rest =>
      match mpsc_try_send (now, segment) tx with
      | (TsClosed _, tx) => (false, tx)
      | (_, tx) => forward_loop rest now tx
      end
  end.

Definition forward_segments (tx : nat) (recv_buf : list byte) (len stride : nat)
  (now : Instant) e : bool * Endpoint K Chan :=
  match ep_channels e !! tx with
  | Some ch =>
      let '(alive, ch) := forward_loop (gro_split recv_buf len stride) now ch in
      (alive, e <| ep_channels ::= <[tx := ch]> |>)
  | None => (false, e)
  end.

(** ** Accepting *)

(** Evict the entries of drivers that have ended. *)
Definition sweep e : Endpoint K Chan :=
  e <| ep_connections ::= filter (fun en => tx_closed e en.2 = false) |>
    <| ep_by_id ::= filter (fun en => tx_closed e (ie_tx en.2) = false) |>.

(** Register an accepted connection and spawn its task. *)
Definition register (conn : Connection) (addr : SocketAddr) e : nat * Endpoint K Chan :=
  let task := length (ep_spawned e) in
  (task,
   e <| ep_channels ::= <[task := mpsc_channel INBOUND_CAPACITY]> |>
     <| ep_peers ::= <[task := addr]> |>
     <| ep_connections ::= <[addr := task]> |>
     <| ep_by_id ::= <[socket_id_value (cn_local_socket_id conn) := MkIdEntry task addr task]> |>
     <| ep_spawned ::= fun l => l ++ [conn] |>).

Definition spawn_accepted (addr : SocketAddr) (now : Instant) e
  : panicky ((ConnectionError + nat) * Endpoint K Chan) :=
  '(result, listener) ← accept_pending addr now (ep_listener e);
  let e := e <| ep_listener := listener |> in
  match result with
  | inl error => Ret (inl error, e)
  | inr conn => let '(task, e) := register conn addr (sweep e) in Ret (inr task, e)
  end.

(** [while let Some(..) = listener.poll_response()]; [false]: the socket died. *)
Fixpoint flush_listener_responses (fuel : nat) e : panicky (bool * Endpoint K Chan) :=
  match fuel with
  | O => Panic
  | S fuel =>
      match poll_response (ep_listener e) with
      | (None, listener) => Ret (true, e <| ep_listener := listener |>)
      | (Some (addr, datagram), listener) =>
          let e := e <| ep_listener := listener |> in
          match poll_send datagram addr (ep_socket e) with
          | (inr _, socket) => flush_listener_responses fuel (e <| ep_socket := socket |>)
          | (inl _, socket) => Ret (false, e <| ep_socket := socket |>)
          end
      end
  end.

Definition flush_responses e : panicky (bool * Endpoint K Chan) :=
  flush_listener_responses (S (length (ln_responses (ep_listener e)))) e.

Definition apply_decision (decision : Decision) (now : Instant) e
  : panicky (bool * Endpoint K Chan) :=
  e ← match decision with
      | DcAccept addr reply =>
          '(result, e) ← spawn_accepted addr now e;
          let result : AcceptReply :=
            match result with inl error => inl (ErrProtocol error) | inr task => inr task end in
          Ret (e <| ep_replies ::= fun l => l ++ [(reply, result)] |>)
      | DcReject addr reason =>
          '(_, listener) ← reject_pending addr reason now (ep_listener e);
          Ret (e <| ep_listener := listener |>)
      end;
  flush_responses e.

(** One surfaced request: a reserved slot first, then the decision. *)
Definition surface_request (request : ConnRequest) (now : Instant) e
  : panicky (bool * Endpoint K Chan) :=
  let addr := rq_remote request in
  match mpsc_try_reserve (ep_incoming e) with
  | TsFull _ =>
      '(_, listener) ← reject_pending addr RejBacklog now (ep_listener e);
      Ret (true, e <| ep_listener := listener |>)
  | TsClosed _ => Ret (false, e)
  | TsOk =>
      if ep_auto_accept e then
        '(result, e) ← spawn_accepted addr now e;
        match result with
        | inr task =>
            let stream := MkStream task (MkMeta (ep_local_addr e) addr (rq_stream_id request)) in
            Ret (true, e <| ep_incoming ::= mpsc_permit_send (InStream stream) |>)
        | inl _ => Ret (true, e)
        end
      else
        let request := MkSrtRequest (rq_stream_id request) addr (ep_local_addr e) in
        Ret (true, e <| ep_incoming ::= mpsc_permit_send (InRequest request) |>)
  end.

(** [false]: the application dropped its handle. *)
Fixpoint surface_requests (fuel : nat) (now : Instant) e : panicky (bool * Endpoint K Chan) :=
  match fuel with
  | O => Panic
  | S fuel =>
      match poll_request (ep_listener e) with
      | (None, listener) => Ret (true, e <| ep_listener := listener |>)
      | (Some request, listener) =>
          '(continue, e) ← surface_request request now (e <| ep_listener := listener |>);
          if (continue : bool) then surface_requests fuel now e else Ret (false, e)
      end
  end.

(** ** One read of the socket *)

Fixpoint feed_listener (segments : list (list byte)) (from : SocketAddr) (now : Instant)
  (l : Listener) : panicky Listener :=
  match segments with
  | [] => Ret l
  | segment :: rest => l ← ln_feed_recv_buf segment from now l; feed_listener rest from now l
  end.

(** The connection a datagram from an unknown address belongs to. *)
Definition claimed_by (recv_buf : list byte) (len stride : nat) e : option (Z * IdEntry) :=
  segment ← head (gro_split recv_buf len stride);
  id ← dest_socket_id segment;
  entry ← ep_by_id e !! id;
  Some (id, entry).

(** Move the connection to its new address, on both sides. *)
Definition repin (id : Z) (entry : IdEntry) (from : SocketAddr) e : Endpoint K Chan :=
  e <| ep_connections ::= fun m => <[from := ie_tx entry]> (delete (ie_addr entry) m) |>
    <| ep_by_id ::= <[id := MkIdEntry (ie_tx entry) from (ie_peer entry)]> |>
    <| ep_peers ::= <[ie_peer entry := from]> |>.

(** A datagram of no connection's goes to the listener; [false]: the endpoint stops. *)
Definition on_strangers (segments : list (list byte)) (from : SocketAddr) (now : Instant) e
  : panicky (bool * Endpoint K Chan) :=
  listener ← feed_listener segments from now (ep_listener e);
  let e := e <| ep_listener := listener |> in
  '(continue, e) ← surface_requests (S (length (ln_requests (ep_listener e)))) now e;
  if (continue : bool) then flush_responses e else Ret (false, e).

(** [false]: the endpoint stops. *)
Definition on_datagrams (recv_buf : list byte) (len stride : nat) (from : SocketAddr)
  (now : Instant) e : panicky (bool * Endpoint K Chan) :=
  match ep_connections e !! from with
  | Some tx =>
      let '(alive, e) := forward_segments tx recv_buf len stride now e in
      Ret (true, if alive then e else e <| ep_connections ::= delete from |>)
  | None =>
      match claimed_by recv_buf len stride e with
      | Some (id, entry) =>
          let '(alive, e) :=
            forward_segments (ie_tx entry) recv_buf len stride now (repin id entry from e) in
          Ret (true, if alive then e
                     else e <| ep_connections ::= delete from |> <| ep_by_id ::= delete id |>)
      | None => on_strangers (gro_split recv_buf len stride) from now e
      end
  end.

(** The arms of the [select!]: a socket read, a decision, the handle's drop. *)
Inductive EpWake : Type :=
  | EwSocket (received : IoResult (list byte * nat * nat * SocketAddr)) (now : Instant)
  | EwDecision (now : Instant)
  | EwShutdown.

(** One round of the loop; [false]: it returned. *)
Definition endpoint_round (w : EpWake) e : panicky (bool * Endpoint K Chan) :=
  match w with
  | EwSocket (inl _) _ => Ret (false, e)
  | EwSocket (inr (recv_buf, len, stride, from)) now => on_datagrams recv_buf len stride from now e
  | EwDecision now =>
      match mpsc_recv (ep_decisions e) with
      | (Ready (Some decision), ch) => apply_decision decision now (e <| ep_decisions := ch |>)
      | (_, ch) => Ret (true, e <| ep_decisions := ch |>)
      end
  | EwShutdown => Ret (false, e)
  end.
End Task.

(** A task fresh from [bind]: the core listener parks every conclusion. *)
Definition endpoint_new {K : Type} {Chan : Type -> Type} {HMp : Mpsc Chan} (socket : K)
  (listener : Listener) (local_addr : SocketAddr) (auto_accept : bool) (incoming : Chan Incoming)
  : Endpoint K Chan :=
  MkEndpoint socket listener local_addr auto_accept ∅ ∅ incoming (mpsc_channel COMMAND_CAPACITY)
    ∅ ∅ [] [].
