(* ===== verification/Api.v ===== *)
(** * Api: connecting, binding and accepting ([crates/srt/src/lib.rs])

    The public entry points.  Spawning a task hands its initial state back;
    where a function waits for a reply, the part before and the part after are
    two definitions.  Random bytes come from the draws of [rng]. *)

From coqutil Require Import Datatypes.RecordSetters.
From S2P Require Import Prelude Buf Errors Reject Seq Time PacketTypes Handshake Crypto Config Event ConnState Conn ConnInv ConnStart Listener ListenerInv Runtime Driver Stream Endpoint.

(** ** Randomness

    [from_ne_bytes] reads in the target's byte order. *)

Definition ne_val (big_endian : bool) (bytes : list byte) : Z :=
  be_val (if big_endian then bytes else reverse bytes).

Section Random.
Context (big_endian : bool) (rng : nat -> nat -> list byte).

Definition random_u32 (draw : nat) : Z := ne_val big_endian (rng draw 4%nat).
Definition random_u64 (draw : nat) : Z := ne_val big_endian (rng draw 8%nat).
End Random.

(** The address a socket binds to when the caller names none. *)
Definition unspecified_for (remote : SocketAddr) : SocketAddr :=
  match remote with
  | AddrV4 _ _ => AddrV4 (replicate 4 zero_byte) 0
  | AddrV6 _ _ _ _ => AddrV6 (replicate 16 zero_byte) 0 0 0
  end.

(** [SrtListener]; its channel is the endpoint's [ep_incoming]. *)
Record SrtListener : Type := MkSrtListener { li_deferred : bool; li_local_addr : SocketAddr }.

Section EntryPoints.
Context {B : BytesApi} {P : CryptoPrims} {K : Type} {HK : AsyncUdpSocket K}.
Context {R : Type} {HR : Runtime R K} {Chan : Type -> Type} {HMp : Mpsc Chan}.
Context (big_endian : bool) (rng : nat -> nat -> list byte).

(** ** Callers *)

Definition connect_with (local remote : SocketAddr) (config : Config) (connected : Oneshot) (rt : R)
  : panicky ((Error + (StreamMeta * Driver K Chan)) * R) :=
  match config_validate config with
  | Crash => Panic
  | Err error => Ret (inl (ErrConfig error), rt)
  | Ok _ =>
      match rt_bind local rt with
      | (inl error, rt) => Ret (inl (ErrIo error), rt)
      | (inr socket, rt) =>
          match local_addr socket with
          | inl error => Ret (inl (ErrIo error), rt)
          | inr addr =>
              let meta := MkMeta addr remote (cfg_stream_id config) in
              conn ← connect config (socket_id_new (random_u32 big_endian rng 0))
                       (seq_new (random_u32 big_endian rng 1)) (rt_now rt) (fun n => rng (2 + n)%nat);
              let channels := MkChannels (mpsc_channel COMMAND_CAPACITY)
                                (mpsc_channel DATA_CAPACITY) (Some connected) in
              Ret (inr (meta, spawn_driver socket conn channels Owned), rt)
          end
      end
  end.

(** What the driver's reply makes of it; [None]: the driver stopped first. *)
Definition connect_outcome (reply : option (Error + unit)) (task : nat) (meta : StreamMeta)
  : Error + SrtStream :=
  match reply with
  | Some (inr _) => inr (MkStream task meta)
  | Some (inl error) => inl error
  | None => inl ErrClosed
  end.

(** [resolved]: what the name lookup gives. *)
Definition connect_resolved (resolved : IoResult (list SocketAddr)) (not_found : IoError)
  (config : Config) (connected : Oneshot) (rt : R)
  : panicky ((Error + (StreamMeta * Driver K Chan)) * R) :=
  match resolved with
  | inl error => Ret (inl (ErrIo error), rt)
  | inr [] => Ret (inl (ErrIo not_found), rt)
  | inr (remote :: _) => connect_with (unspecified_for remote) remote config connected rt
  end.

(** ** Listeners *)

Definition bind_inner (addr : SocketAddr) (config : Config) (deferred : bool) (rt : R)
  : panicky ((Error + (SrtListener * Endpoint K Chan)) * R) :=
  match config_validate config with
  | Crash => Panic
  | Err error => Ret (inl (ErrConfig error), rt)
  | Ok _ =>
      match rt_bind addr rt with
      | (inl error, rt) => Ret (inl (ErrIo error), rt)
      | (inr socket, rt) =>
          match local_addr socket with
          | inl error => Ret (inl (ErrIo error), rt)
          | inr local =>
              let listener := ln_new config (socket_id_new (random_u32 big_endian rng 0))
                (seq_new (random_u32 big_endian rng 1)) (random_u64 big_endian rng 2) (rt_now rt) in
              Ret (inr (MkSrtListener deferred local,
                        endpoint_new socket (defer_accepts listener) local (negb deferred)
                          (mpsc_channel COMMAND_CAPACITY)), rt)
          end
      end
  end.

Definition bind (addr : SocketAddr) (config : Config)
  : R -> panicky ((Error + (SrtListener * Endpoint K Chan)) * R) := bind_inner addr config false.
Definition bind_deferred (addr : SocketAddr) (config : Config)
  : R -> panicky ((Error + (SrtListener * Endpoint K Chan)) * R) := bind_inner addr config true.
End EntryPoints.

Section Accepting.
Context {Chan : Type -> Type} {HMp : Mpsc Chan}.

Definition incoming (handle : SrtListener) (incoming_rx : Chan Incoming)
  : panicky (Poll (Error + SrtRequest) * Chan Incoming) :=
  if negb (li_deferred handle) then Panic else
  match mpsc_recv incoming_rx with
  | (Pending, rx) => Ret (Pending, rx)
  | (Ready None, rx) => Ret (Ready (inl ErrClosed), rx)
  | (Ready (Some (InRequest request)), rx) => Ret (Ready (inr request), rx)
  | (Ready (Some (InStream _)), rx) => Panic
  end.

(** A request is then accepted like any other: [request_accept]. *)
Definition listener_accept (incoming_rx : Chan Incoming)
  : Poll (Error + (SrtStream + SrtRequest)) * Chan Incoming :=
  match mpsc_recv incoming_rx with
  | (Pending, rx) => (Pending, rx)
  | (Ready None, rx) => (Ready (inl ErrClosed), rx)
  | (Ready (Some (InStream stream)), rx) => (Ready (inr (inl stream)), rx)
  | (Ready (Some (InRequest request)), rx) => (Ready (inr (inr request)), rx)
  end.

Definition request_accept (request : SrtRequest) (reply : Oneshot)
  : Chan Decision -> Poll (Error + unit) * Chan Decision :=
  send_or_closed (DcAccept (sq_remote_addr request) reply).

(** [None]: the endpoint ended without an answer. *)
Definition request_accepted (request : SrtRequest) (response : option AcceptReply) : Error + SrtStream :=
  match response with
  | None => inl ErrClosed
  | Some (inl error) => inl error
  | Some (inr task) =>
      inr (MkStream task (MkMeta (sq_local_addr request) (sq_remote_addr request)
                            (sq_stream_id request)))
  end.

Definition request_reject (request : SrtRequest) (reason : RejectReason)
  : Chan Decision -> Poll (Error + unit) * Chan Decision :=
  send_or_closed (DcReject (sq_remote_addr request) reason).
End Accepting.

(** ** What the entry points promise *)

Section Promises.
Context {B : BytesApi} {HB : BytesSpec B} {P : CryptoPrims} {HP : CryptoSpec P}.
Context {K : Type} {HK : AsyncUdpSocket K} {R : Type} {HR : Runtime R K}.
Context {Chan : Type -> Type} {HMp : Mpsc Chan}.
Context (big_endian : bool) (rng : nat -> nat -> list byte) (Hrng : rng_fills rng).

(** A broken rule is reported before anything is bound, a socket's error as it
    is; otherwise the configuration is valid and [good] holds of the result. *)
Definition entry_post {A} (good : A -> Prop) (addr : SocketAddr) (config : Config) (rt : R)
  (r : (Error + A) * R) : Prop :=
  match r.1 with
  | inl (ErrConfig e) => violates config e /\ r.2 = rt
  | inl (ErrIo e) => config_valid config /\ r.2 = (rt_bind (K := K) addr rt).2 /\
      ((rt_bind (K := K) addr rt).1 = inl e \/
       exists socket, (rt_bind addr rt).1 = inr socket /\ local_addr socket = inl e)
  | inl _ => False
  | inr a => config_valid config /\ r.2 = (rt_bind (K := K) addr rt).2 /\ good a
  end.

Lemma ne_val_range bytes : 0 <= ne_val big_endian bytes < 256 ^ Z.of_nat (length bytes).
Proof using.
  unfold ne_val. destruct big_endian; [apply be_val_range|].
  rewrite <- (length_reverse bytes). apply be_val_range.
Qed.

Lemma connect_with_post local remote config connected rt :
  stream_id_fits_config config ->
  wp (connect_with (Chan := Chan) big_endian rng local remote config connected rt)
    (entry_post (fun md => starts (dr_conn md.2) /\
       exists socket addr, (rt_bind (K := K) local rt).1 = inr socket /\ local_addr socket = inr addr /\
       md.1 = MkMeta addr remote (cfg_stream_id config) /\
       md.2 = spawn_driver socket (dr_conn md.2)
         (MkChannels (mpsc_channel COMMAND_CAPACITY) (mpsc_channel DATA_CAPACITY) (Some connected))
         Owned) local config rt).
Proof using HB HP Hrng.
  intros Hs. unfold connect_with, entry_post.
  destruct (config_validate_cases config) as [(e & -> & Hv)|[-> Hv]]; [done|].
  destruct (rt_bind local rt) as [[e|socket] rt'] eqn:Eb; cbn [fst snd].
  { split_and!; [done..|by left]. }
  destruct (local_addr socket) as [e|addr] eqn:Ea.
  { split_and!; [done..|]. right. by exists socket. }
  set (rng' := fun n => rng (2 + n)%nat). assert (rng_fills rng') as Hr' by (intros i n; apply Hrng).
  pose proof (connect_wp config (socket_id_new (random_u32 big_endian rng 0))
    (seq_new (random_u32 big_endian rng 1)) (rt_now rt') rng' Hs (seq_new_ok _) Hr') as Hw.
  apply wp_ret in Hw as (conn & Ec & _). change (fun n => rng (2 + n)%nat) with rng'. rewrite Ec.
  cbn [mbind panicky_bind wp fst snd]. split_and!; [done..| |].
  - by eapply starts_connect; [..|exact Ec]; [done|apply seq_new_ok|].
  - by exists socket, addr.
Qed.

Lemma bind_inner_post addr config deferred rt :
  stream_id_fits_config config ->
  wp (bind_inner (Chan := Chan) big_endian rng addr config deferred rt)
    (entry_post (fun le => exists socket local l, (rt_bind (K := K) addr rt).1 = inr socket /\
       local_addr socket = inr local /\ le.1 = MkSrtListener deferred local /\
       ln_ok l /\ ln_deferred l = true /\ ln_config l = config /\
       le.2 = endpoint_new socket l local (negb deferred) (mpsc_channel COMMAND_CAPACITY))
     addr config rt).
Proof using Hrng.
  intros Hs. unfold bind_inner, entry_post.
  destruct (config_validate_cases config) as [(e & -> & Hv)|[-> Hv]]; [done|].
  destruct (rt_bind addr rt) as [[e|socket] rt'] eqn:Eb; cbn [fst snd].
  { split_and!; [done..|by left]. }
  destruct (local_addr socket) as [e|local] eqn:Ea.
  { split_and!; [done..|]. right. by exists socket. }
  split_and!; [done..|]. exists socket, local. eexists. split_and!; [done..| | | |].
  4: reflexivity. 2-3: done.
  constructor; cbn; try done.
  - pose proof (ne_val_range (rng 0%nat 4%nat)) as H. rewrite Hrng in H. exact H.
  - apply seq_new_ok.
  - constructor.
Qed.
End Promises.

(** ** The property *)

(** C35 (error).  Configuration errors are exact and come first.  [validate]
    accepts a configuration if and only if latency, MTU, flow window, passphrase
    length and both timeouts are in their ranges; otherwise connecting and
    binding return an error that names a rule that is really broken, with the
    value or bound it carries, before any socket is bound.  A socket's error is
    reported as it is.  In the remaining case both return: connecting has spawned
    a driver on a fresh caller, binding an endpoint on a sound listener that parks
    every attempt.  Nothing else can come out, a panic included. *)
Theorem entry_points_check_the_configuration {B : BytesApi} {HB : BytesSpec B} {P : CryptoPrims}
  {HP : CryptoSpec P} {K : Type} {HK : AsyncUdpSocket K} {R : Type} {HR : Runtime R K}
  {Chan : Type -> Type} {HMp : Mpsc Chan} (big_endian : bool) (rng : nat -> nat -> list byte)
  (local remote : SocketAddr) (config : Config) (connected : Oneshot) (deferred : bool) (rt : R) :
  rng_fills rng -> stream_id_fits_config config ->
  (config_validate config = Ok tt <-> config_valid config) /\
  wp (connect_with (Chan := Chan) big_endian rng local remote config connected rt)
    (entry_post (fun md => starts (dr_conn md.2) /\
       exists socket addr, (rt_bind (K := K) local rt).1 = inr socket /\ local_addr socket = inr addr /\
       md.1 = MkMeta addr remote (cfg_stream_id config) /\
       md.2 = spawn_driver socket (dr_conn md.2)
         (MkChannels (mpsc_channel COMMAND_CAPACITY) (mpsc_channel DATA_CAPACITY) (Some connected))
         Owned) local config rt) /\
  wp (bind_inner (Chan := Chan) big_endian rng local config deferred rt)
    (entry_post (fun le => exists socket addr l, (rt_bind (K := K) local rt).1 = inr socket /\
       local_addr socket = inr addr /\ le.1 = MkSrtListener deferred addr /\
       ln_ok l /\ ln_deferred l = true /\ ln_config l = config /\
       le.2 = endpoint_new socket l addr (negb deferred) (mpsc_channel COMMAND_CAPACITY))
     local config rt) /\
  (~ config_valid config -> exists e, violates config e /\
     connect_with (Chan := Chan) big_endian rng local remote config connected rt =
       Ret (inl (ErrConfig e), rt) /\
     bind_inner (Chan := Chan) big_endian rng local config deferred rt =
       Ret (inl (ErrConfig e), rt)).
Proof.
  intros Hrng Hs. split_and!.
  - apply config_validate_ok.
  - by apply connect_with_post.
  - by apply bind_inner_post.
  - intros Hn. destruct (config_validate_cases config) as [(e & E & Hv)|[_ Hv]]; [|done].
    exists e. unfold connect_with, bind_inner. by rewrite E.
Qed.

(** A runtime with one socket to give, whose clock stands at 1000. *)
#[export] Instance log_runtime : Runtime LogSocket LogSocket := {
  rt_now _ := 1000;
  rt_bind addr rt := (inr rt, rt);
}.
Definition zero_rng (draw n : nat) : list byte := replicate n zero_byte.
Definition ex_local : SocketAddr := AddrV4 (replicate 4 zero_byte) 4000.
Definition ex_runtime : LogSocket := MkLog ex_local 8 100 [].

Lemma entry_points_check_the_configuration_witness :
  exists d, @connect_with vec_bytes toy_prims _ _ _ _ ChanState _ false zero_rng ex_local ex_local
      config_default 3%nat ex_runtime = Ret (inr (MkMeta ex_local ex_local None, d), ex_runtime) /\
    @starts vec_bytes toy_prims (dr_conn d) /\
  @connect_with vec_bytes toy_prims _ _ _ _ ChanState _ false zero_rng ex_local ex_local
      (with_mtu 10 config_default) 3%nat ex_runtime = Ret (inl (ErrConfig (MtuOutOfRange 10)), ex_runtime).
Proof.
  assert (rng_fills zero_rng) as Hrng by (intros i n; apply length_replicate).
  destruct (@entry_points_check_the_configuration vec_bytes vec_bytes_spec toy_prims toy_spec _ _ _ log_runtime
    ChanState _ false zero_rng ex_local ex_local config_default 3%nat false ex_runtime Hrng ltac:(done))
    as (_ & Hc & _).
  destruct (@entry_points_check_the_configuration vec_bytes vec_bytes_spec toy_prims toy_spec _ _ _ log_runtime
    ChanState _ false zero_rng ex_local ex_local (with_mtu 10 config_default) 3%nat false ex_runtime Hrng
    ltac:(done)) as (_ & _ & _ & Hn).
  apply wp_ret in Hc as ([[x|[m d]] rt] & Ec & Hp).
  - by vm_compute in Ec.
  - destruct Hp as (_ & Hrt & Hst & socket & addr & Hb & Ha & Hm & _). cbn in Hrt, Hst, Hb, Ha, Hm.
    injection Hb as <-. cbn in Ha. injection Ha as <-. subst m rt. exists d. split; [exact Ec|].
    split; [exact Hst|]. destruct Hn as (e & He & -> & _).
    + intros [_ [H _] _ _ _ _]. by vm_compute in H.
    + destruct e as [ms|mtu|min|len| |]; cbn in He; try (by vm_compute in He).
      * destruct He as [_ He]. by vm_compute in He.
      * by destruct He as [-> _].
      * destruct He as [-> He]. by vm_compute in He.
      * by destruct He as (enc & Henc & _).
Defined.
