(* ===== verification/EndpointInv.v ===== *)
(** * EndpointInv: the demultiplexing tables stay consistent

    [ep_ok] ties the two maps, the channel store and the peer cells together;
    [ep_reaches] is what rounds of the endpoint, and anything its surroundings do
    to the shared channels in between, can lead to. *)

From coqutil Require Import Datatypes.RecordSetters.
From S2P Require Import Prelude Buf Errors Reject Seq Time PacketTypes Handshake Control Packet KeyMaterial Crypto Config Event ConnState Conn ConnInv ConnStart Listener ListenerInv Session Batch Runtime Driver Stream Endpoint.

Section Invariant.
Context {B : BytesApi} {P : CryptoPrims} {K : Type} {Chan : Type -> Type}.
Implicit Types e : Endpoint K Chan.

Definition conn_id (c : Connection) : Z := socket_id_value (cn_local_socket_id c).

Record ep_ok e : Prop := {
  eo_listener : ln_ok (ep_listener e);
  (** Every task's connection is a fresh acceptor. *)
  eo_starts : Forall starts (ep_spawned e);
  eo_channels : forall t, is_Some (ep_channels e !! t) <-> (t < length (ep_spawned e))%nat;
  (** An address leads to a task, an id to the task whose connection has it. *)
  eo_address : forall a t, ep_connections e !! a = Some t -> (t < length (ep_spawned e))%nat;
  eo_id : forall id en, ep_by_id e !! id = Some en ->
    exists c, ep_spawned e !! ie_tx en = Some c /\ conn_id c = id;
  (** The address the demultiplexer has for it is the one its driver sends to. *)
  eo_peer : forall id en, ep_by_id e !! id = Some en ->
    ie_peer en = ie_tx en /\ ep_peers e !! ie_tx en = Some (ie_addr en);
  (** The two maps agree on a connection's address. *)
  eo_agree : forall a t c en, ep_connections e !! a = Some t -> ep_spawned e !! t = Some c ->
    ep_by_id e !! conn_id c = Some en -> ie_tx en = t -> ie_addr en = a;
}.

(** Fields the invariant does not read. *)
Definition tables e :=
  (ep_connections e, ep_by_id e, ep_peers e, ep_spawned e).

Lemma ep_ok_tables e e' :
  ep_ok e -> tables e' = tables e -> ln_ok (ep_listener e') ->
  (forall t, is_Some (ep_channels e' !! t) <-> is_Some (ep_channels e !! t)) -> ep_ok e'.
Proof.
  intros [H1 H2 H3 H4 H5 H6 H7] [= E1 E2 E3 E4] Hl Hch.
  constructor; rewrite ?E1, ?E2, ?E3, ?E4; try done. intros t. by rewrite Hch.
Qed.

(** Forgetting entries is always fine. *)
Lemma ep_ok_forget e e' :
  ep_ok e -> ep_listener e' = ep_listener e -> ep_channels e' = ep_channels e ->
  ep_peers e' = ep_peers e -> ep_spawned e' = ep_spawned e ->
  (forall a t, ep_connections e' !! a = Some t -> ep_connections e !! a = Some t) ->
  (forall id en, ep_by_id e' !! id = Some en -> ep_by_id e !! id = Some en) -> ep_ok e'.
Proof.
  intros [H1 H2 H3 H4 H5 H6 H7] E1 E2 E3 E4 Hc Hi.
  constructor; rewrite ?E1, ?E2, ?E3, ?E4; eauto.
Qed.

(** Two ids of one task are one id. *)
Lemma ep_id_unique e id id' en en' :
  ep_ok e -> ep_by_id e !! id = Some en -> ep_by_id e !! id' = Some en' ->
  ie_tx en = ie_tx en' -> id = id'.
Proof.
  intros H Hi Hi' Ht. destruct (eo_id _ H _ _ Hi) as (c & Hc & <-).
  destruct (eo_id _ H _ _ Hi') as (c' & Hc' & <-). rewrite Ht in Hc. congruence.
Qed.
End Invariant.

Section Leaves.
Context {B : BytesApi} {P : CryptoPrims} {K : Type} {Chan : Type -> Type}.
Context {HMp : Mpsc Chan} {HM : MpscSpec Chan}.
Implicit Types e : Endpoint K Chan.

(** An accepting endpoint surfaces streams, a deferred one requests. *)
Definition surfaces (auto : bool) (i : Incoming) : Prop :=
  match i with InStream _ => auto = true | InRequest _ => auto = false end.
Definition surfaced e : Prop := Forall (surfaces (ep_auto_accept e)) (queued (ep_incoming e)).

(** What the listener's side of a round does to the tasks already running:
    nothing; and the application's queue keeps its kind. *)
Record leaves e e' : Prop := {
  lv_spawned : ep_spawned e `prefix_of` ep_spawned e';
  lv_channels : forall t ch, ep_channels e !! t = Some ch -> ep_channels e' !! t = Some ch;
  lv_auto : ep_auto_accept e' = ep_auto_accept e;
  lv_incoming : surfaced e -> surfaced e';
}.

#[export] Instance leaves_preorder : PreOrder leaves.
Proof.
  split; [by constructor|]. intros e1 e2 e3 [H1 H2 H3 H4] [K1 K2 K3 K4].
  constructor; [by etransitivity|by eauto|congruence|by eauto].
Qed.

Lemma surfaced_same e e' :
  ep_auto_accept e' = ep_auto_accept e -> ep_incoming e' = ep_incoming e -> surfaced e -> surfaced e'.
Proof. intros E1 E2. unfold surfaced. by rewrite E1, E2. Qed.

Lemma leaves_same e e' :
  ep_spawned e' = ep_spawned e -> ep_channels e' = ep_channels e ->
  ep_auto_accept e' = ep_auto_accept e -> ep_incoming e' = ep_incoming e -> leaves e e'.
Proof.
  intros E1 E2 E3 E4. constructor; [by rewrite E1|by rewrite E2|done|by apply surfaced_same].
Qed.

(** Putting an item of the endpoint's kind on the queue. *)
Lemma leaves_permit i e :
  surfaces (ep_auto_accept e) i -> leaves e (e <| ep_incoming ::= mpsc_permit_send i |>).
Proof.
  intros Hi. destruct (permit_send_queued i (ep_incoming e)) as [Hq _].
  destruct e as [sk l la aa cs ids inc dec chs ps sp rp]. constructor; try done.
  intros He. unfold surfaced in *. cbn in *. rewrite Hq.
  apply Forall_app. split; [done|]. by constructor.
Qed.
End Leaves.

Section Preserved.
Context {B : BytesApi} {HB : BytesSpec B} {P : CryptoPrims} {HP : CryptoSpec P}.
Context {K : Type} {HK : AsyncUdpSocket K} {Chan : Type -> Type} {HMp : Mpsc Chan} {HM : MpscSpec Chan}.
Implicit Types e : Endpoint K Chan.

Lemma ep_ok_listener l e : ep_ok e -> ln_ok l -> ep_ok (e <| ep_listener := l |>).
Proof using. intros H Hl. by apply (ep_ok_tables e). Qed.

(** ** Accepting *)

Lemma sweep_ok e : ep_ok e -> ep_ok (sweep e).
Proof using.
  intros H. apply (ep_ok_forget e); try done.
  - intros a t Ht. cbn in Ht. by apply map_lookup_filter_Some in Ht as [Ht _].
  - intros id en Ht. cbn in Ht. by apply map_lookup_filter_Some in Ht as [Ht _].
Qed.

Lemma register_ok c addr e : ep_ok e -> starts c -> ep_ok (register c addr e).2.
Proof using.
  destruct e as [sk l la aa cs ids inc dec chs ps sp rp]. intros [H1 H2 H3 H4 H5 H6 H7] Hc.
  cbn in H1, H2, H3, H4, H5, H6, H7. set (n := length sp) in *.
  assert (forall t, is_Some (sp !! t) -> t <> n) as Hfresh.
  { intros t Ht%lookup_lt_is_Some_1. unfold n. lia. }
  assert (forall t x, sp !! t = Some x -> (sp ++ [c]) !! t = Some x) as Hold.
  { intros t x Hx. by apply lookup_app_l_Some. }
  assert ((sp ++ [c]) !! n = Some c) as Hnew by (by apply list_lookup_middle).
  constructor; cbn; fold n.
  - exact H1.
  - apply Forall_app. split; [exact H2|by constructor].
  - intros t. rewrite length_app, lookup_insert_is_Some, H3. cbn. fold n.
    destruct (decide (n = t)); lia.
  - intros a t Ht. rewrite length_app. cbn. fold n.
    apply lookup_insert_Some in Ht as [[_ <-]|[_ Ht%H4]]; lia.
  - intros id en Hen.
    apply lookup_insert_Some in Hen as [[<- <-]|[_ Hen]]; [by exists c|].
    destruct (H5 _ _ Hen) as (x & Hx & Hid). exists x. split; [by apply Hold|done].
  - intros id en Hen.
    apply lookup_insert_Some in Hen as [[_ <-]|[_ Hen]]; [by rewrite lookup_insert_eq|].
    destruct (H6 _ _ Hen) as [Hp Ha]. split; [done|].
    rewrite lookup_insert_ne; [done|]. destruct (H5 _ _ Hen) as (x & Hx & _).
    intros E. by eapply (Hfresh (ie_tx en)).
  - intros a t x en Ha Hx Hen Ht.
    apply lookup_insert_Some in Hen as [[Hid <-]|[Hid Hen]].
    + cbn in Ht. subst t. apply lookup_insert_Some in Ha as [[-> _]|[_ Ha%H4]]; [done|]. lia.
    + destruct (H5 _ _ Hen) as (y & Hy & Hyid). rewrite Ht in Hy.
      apply lookup_insert_Some in Ha as [[_ <-]|[_ Ha]].
      * exfalso. by apply (Hfresh n); [by eexists|].
      * rewrite (Hold _ _ Hy) in Hx. injection Hx as <-. by eapply H7.
Qed.

Lemma register_leaves c addr e : ep_ok e -> leaves e (register c addr e).2.
Proof using.
  intros H. constructor; cbn; [by eexists| |done|done]. intros t ch Ht. rewrite lookup_insert_ne; [done|].
  pose proof (proj1 (eo_channels _ H t) (mk_is_Some _ _ Ht)) as Hlt. lia.
Qed.

(** The listener's side of a round: consistent, and other tasks left alone. *)
Definition tends e e' : Prop := ep_ok e' /\ leaves e e'.

Lemma tends_refl e : ep_ok e -> tends e e.
Proof using. by split. Qed.

Lemma tends_trans e1 e2 e3 : tends e1 e2 -> tends e2 e3 -> tends e1 e3.
Proof using. intros [_ H1] [H2 H3]. split; [done|by etransitivity]. Qed.

(** A change of the fields beside the tables. *)
Lemma tends_tables e e' :
  ep_ok e -> tables e' = tables e -> ep_channels e' = ep_channels e ->
  ep_auto_accept e' = ep_auto_accept e -> ep_incoming e' = ep_incoming e -> ln_ok (ep_listener e') ->
  tends e e'.
Proof using.
  intros H E1 E2 E3 E4 Hl. split; [apply (ep_ok_tables e); [done..|]; by rewrite E2|].
  injection E1 as _ _ _ E1. by apply leaves_same.
Qed.

Lemma tends_permit i e :
  ep_ok e -> surfaces (ep_auto_accept e) i -> tends e (e <| ep_incoming ::= mpsc_permit_send i |>).
Proof using.
  intros H Hi. split; [|by apply leaves_permit]. by apply (ep_ok_tables e); [..|apply H|].
Qed.

(** The post of the operations that also give a result. *)
Definition tending {A} e (r : A * Endpoint K Chan) : Prop := tends e r.2.
Definition tending_queue {A} e (r : A * Endpoint K Chan) : Prop :=
  tends e r.2 /\ ln_requests (ep_listener r.2) = ln_requests (ep_listener e).

Lemma wp_tending {A} e1 e2 (m : panicky (A * Endpoint K Chan)) :
  tends e1 e2 -> wp m (tending e2) -> wp m (tending e1).
Proof using.
  intros H Hw. eapply wp_mono; [exact Hw|]. intros r Hr. by eapply tends_trans.
Qed.

Lemma spawn_accepted_wp addr now e :
  ep_ok e -> wp (spawn_accepted addr now e) (tending_queue e).
Proof using HB HP HM.
  intros H. unfold spawn_accepted. eapply wp_bind; [apply accept_pending_wp, H|].
  intros [[x|c] l] ([Hl _] & Hr & Hc); cbn [fst snd] in *; cbv zeta.
  - split; [by apply tends_tables|exact Hr].
  - pose proof (sweep_ok _ (ep_ok_listener l e H Hl)) as H1.
    pose proof (register_ok c addr _ H1 Hc) as H2. split; [|exact Hr]. split; [exact H2|].
    etransitivity; [|apply register_leaves, H1]. by apply leaves_same.
Qed.

(** ** Responses *)

Lemma flush_responses_wp fuel e :
  ep_ok e -> (length (ln_responses (ep_listener e)) < fuel)%nat ->
  wp (flush_listener_responses fuel e) (tending e).
Proof using.
  revert e. induction fuel as [|fuel IH]; intros e H Hf; [lia|]. cbn [flush_listener_responses].
  unfold poll_response. destruct (ln_responses (ep_listener e)) as [|[addr d] rest] eqn:E.
  - apply tends_tables; try done. apply H.
  - set (l := (ep_listener e) <| ln_responses := rest |>).
    assert (ln_ok l) as Hl by (apply (ln_ok_queues (ep_listener e)); [..|apply H]; done).
    cbv zeta. destruct (poll_send _ _ _) as [[x|u] k].
    + by apply tends_tables.
    + assert (tends e ((e <| ep_listener := l |>) <| ep_socket := k |>)) as Ht by (by apply tends_tables).
      apply (wp_tending _ _ _ Ht), IH; [apply Ht|].
      simpl in Hf. exact (proj2 (Nat.succ_lt_mono _ _) Hf).
Qed.

Lemma flush_wp e : ep_ok e -> wp (flush_responses e) (tending e).
Proof using. intros H. apply flush_responses_wp; [done|lia]. Qed.

Lemma reject_pending_tends addr reason now e :
  ep_ok e -> wp (reject_pending addr reason now (ep_listener e))
    (fun r => tends e (e <| ep_listener := r.2 |>) /\ ln_requests r.2 = ln_requests (ep_listener e)).
Proof using HB HP HM.
  intros H. eapply wp_mono; [apply reject_pending_wp, H|]. intros [u l] [[Hl _] Hr].
  split; [by apply tends_tables|exact Hr].
Qed.

Lemma apply_decision_wp decision now e :
  ep_ok e -> wp (apply_decision decision now e) (tending e).
Proof using HB HP HM.
  intros H. unfold apply_decision. eapply (wp_bind _ _ (tends e)).
  2: { intros e1 He1. apply (wp_tending _ _ _ He1), flush_wp, He1. }
  destruct decision as [addr reply|addr reason].
  - eapply wp_bind; [by apply spawn_accepted_wp|]. intros [result e1] [H1 _]. cbn [wp snd] in *.
    apply (tends_trans _ _ _ H1), tends_tables; try done; apply H1.
  - eapply wp_bind; [by apply reject_pending_tends|]. by intros [u l] [Ht _].
Qed.

Lemma surface_request_wp request now e :
  ep_ok e -> wp (surface_request request now e) (tending_queue e).
Proof using HB HP HM.
  intros H. unfold surface_request. cbv zeta. destruct (mpsc_try_reserve (ep_incoming e)).
  - destruct (ep_auto_accept e) eqn:Ea.
    + eapply wp_bind; [by apply spawn_accepted_wp|]. intros [[x|task] e1] [H1 Hr]; cbn [snd] in *.
      * by split.
      * split; [|exact Hr]. apply (tends_trans _ _ _ H1), tends_permit; [apply H1|].
        cbn. by rewrite (lv_auto _ _ (proj2 H1)).
    + split; [|done]. by apply tends_permit.
  - eapply wp_bind; [by apply reject_pending_tends|]. intros [u l] Ht. exact Ht.
  - split; [by apply tends_refl|done].
Qed.

(** Each round takes a request off the listener's queue. *)
Lemma surface_requests_wp fuel now e :
  ep_ok e -> (length (ln_requests (ep_listener e)) < fuel)%nat ->
  wp (surface_requests fuel now e) (tending e).
Proof using HB HP HM.
  revert e. induction fuel as [|fuel IH]; intros e H Hf; [lia|]. cbn [surface_requests].
  unfold poll_request. destruct (ln_requests (ep_listener e)) as [|request rest] eqn:E.
  - apply tends_tables; try done. apply H.
  - set (l := (ep_listener e) <| ln_requests := rest |>).
    assert (tends e (e <| ep_listener := l |>)) as H1.
    { apply tends_tables; try done. apply (ln_ok_queues (ep_listener e)); [..|apply H]; done. }
    apply (wp_tending _ _ _ H1). eapply wp_bind; [apply surface_request_wp, H1|].
    intros [continue e2] [H2 Hr]. cbn [snd] in *.
    destruct continue; [|exact H2]. apply (wp_tending _ _ _ H2), IH; [apply H2|]. rewrite Hr.
    change (length rest < fuel)%nat. simpl in Hf. lia.
Qed.

(** ** Datagrams *)

Lemma feed_listener_wp segments from now l :
  ln_ok l -> wp (feed_listener segments from now l) ln_ok.
Proof using HB HP HM.
  revert l. induction segments as [|s segments IH]; intros l H; cbn [feed_listener]; [done|].
  eapply wp_bind; [by apply ln_feed_wp|]. intros l' [Hl _]. by apply IH.
Qed.

Lemma forward_segments_ok tx buf len stride now e :
  ep_ok e -> ep_ok (forward_segments tx buf len stride now e).2.
Proof using.
  intros H. unfold forward_segments. destruct (ep_channels e !! tx) as [ch|] eqn:E; [|done].
  destruct (forward_loop _ now ch) as [alive ch'].
  apply (ep_ok_tables e); [done..|apply H|]. intros t. cbn. rewrite lookup_insert_is_Some.
  destruct (decide (tx = t)) as [->|Hne]; [|naive_solver]. rewrite E. split; [by eexists|by left].
Qed.

Lemma repin_ok id entry from e :
  ep_ok e -> ep_by_id e !! id = Some entry -> ep_ok (repin id entry from e).
Proof using.
  destruct e as [sk l la aa cs ids inc dec chs ps sp rp]. intros [H1 H2 H3 H4 H5 H6 H7] Hid.
  cbn in H1, H2, H3, H4, H5, H6, H7, Hid.
  destruct (H5 _ _ Hid) as (c & Hc & Hcid). destruct (H6 _ _ Hid) as [Hp Ha].
  assert (forall id' en, ids !! id' = Some en -> ie_tx en = ie_tx entry -> id' = id) as Huniq.
  { intros id' en Hen Ht. destruct (H5 _ _ Hen) as (c' & Hc' & <-). rewrite Ht in Hc'. congruence. }
  constructor; cbn.
  - exact H1.
  - exact H2.
  - exact H3.
  - intros a t [[_ <-]|[_ [_ Ht]%lookup_delete_Some]]%lookup_insert_Some; [|by eapply H4].
    by eapply lookup_lt_Some.
  - intros id' en [[<- <-]|[_ Hen]]%lookup_insert_Some; [by exists c|by apply H5].
  - intros id' en [[_ <-]|[Hne Hen]]%lookup_insert_Some; cbn.
    + split; [done|]. rewrite Hp. by rewrite lookup_insert_eq.
    + destruct (H6 _ _ Hen) as [Hp' Ha']. split; [done|]. rewrite Hp, lookup_insert_ne; [done|].
      intros Ht. by apply Hne, eq_sym, (Huniq _ en).
  - intros a t x en [[<- <-]|[Hna [Hnd Hcs]%lookup_delete_Some]]%lookup_insert_Some Hx Hen Ht.
    + rewrite Hc in Hx. injection Hx as <-. rewrite Hcid, lookup_insert_eq in Hen. by injection Hen as <-.
    + apply lookup_insert_Some in Hen as [[Hi <-]|[Hi Hen]]; [|by eapply H7].
      cbn in Ht. subst t. exfalso. apply Hnd. rewrite Hi in Hid. by eapply H7.
Qed.

Lemma on_strangers_wp segments from now e :
  ep_ok e -> wp (on_strangers segments from now e) (tending e).
Proof using HB HP HM.
  intros H. unfold on_strangers. eapply wp_bind; [apply feed_listener_wp, H|]. intros l Hl. cbv zeta.
  assert (tends e (e <| ep_listener := l |>)) as H1 by (by apply tends_tables).
  apply (wp_tending _ _ _ H1).
  eapply wp_bind; [apply surface_requests_wp; [apply H1|lia]|]. intros [continue e2] H2.
  destruct continue; [|exact H2]. apply (wp_tending _ _ _ H2), flush_wp, H2.
Qed.

Lemma claimed_by_entry buf len stride e id entry :
  claimed_by buf len stride e = Some (id, entry) -> ep_by_id e !! id = Some entry.
Proof using.
  unfold claimed_by. intros (s & _ & (id' & _ & (en & Hen & E)%bind_Some)%bind_Some)%bind_Some.
  by injection E as -> ->.
Qed.

Lemma forward_segments_app tx buf len stride now e :
  ep_auto_accept (forward_segments tx buf len stride now e).2 = ep_auto_accept e /\
  ep_incoming (forward_segments tx buf len stride now e).2 = ep_incoming e.
Proof using.
  unfold forward_segments. destruct (ep_channels e !! tx); [|done]. by destruct (forward_loop _ _ _).
Qed.

(** A round keeps the tables and the kind of the application's queue. *)
Definition keeps e e' : Prop :=
  ep_ok e' /\ ep_auto_accept e' = ep_auto_accept e /\ (surfaced e -> surfaced e').

Lemma tends_keeps e e' : tends e e' -> keeps e e'.
Proof using. intros [H Hl]. split_and!; [done|apply Hl..]. Qed.

Lemma keeps_same e e' :
  ep_ok e' -> ep_auto_accept e' = ep_auto_accept e -> ep_incoming e' = ep_incoming e -> keeps e e'.
Proof using. intros H E1 E2. split_and!; [done..|]. by apply surfaced_same. Qed.

Lemma on_datagrams_wp buf len stride from now e :
  ep_ok e -> wp (on_datagrams buf len stride from now e) (fun r => keeps e r.2).
Proof using HB HP HM.
  intros H. unfold on_datagrams. destruct (ep_connections e !! from) as [tx|].
  { pose proof (forward_segments_ok tx buf len stride now e H) as H1.
    pose proof (forward_segments_app tx buf len stride now e) as [E1 E2].
    destruct (forward_segments _ _ _ _ _ _) as [alive e1]. cbn [wp snd] in *.
    destruct alive; [by apply keeps_same|]. apply keeps_same; [|done..]. apply (ep_ok_forget e1); try done.
    intros a t Ht. cbn in Ht. by apply lookup_delete_Some in Ht as [_ Ht]. }
  destruct (claimed_by buf len stride e) as [[id entry]|] eqn:E.
  { pose proof (forward_segments_ok (ie_tx entry) buf len stride now _
      (repin_ok id entry from e H (claimed_by_entry _ _ _ _ _ _ E))) as H1.
    pose proof (forward_segments_app (ie_tx entry) buf len stride now (repin id entry from e)) as [E1 E2].
    destruct (forward_segments _ _ _ _ _ _) as [alive e1]. cbn [wp snd] in *.
    destruct alive; [by apply keeps_same|]. apply keeps_same; [|done..]. apply (ep_ok_forget e1); try done.
    - intros a t Ht. cbn in Ht. by apply lookup_delete_Some in Ht as [_ Ht].
    - intros i en Ht. cbn in Ht. by apply lookup_delete_Some in Ht as [_ Ht]. }
  eapply wp_mono; [by apply on_strangers_wp|]. intros r. apply tends_keeps.
Qed.

Lemma endpoint_round_wp w e : ep_ok e -> wp (endpoint_round w e) (fun r => keeps e r.2).
Proof using HB HP HM.
  intros H. assert (keeps e e) as Hrefl by (by apply keeps_same).
  destruct w as [[x|[[[buf len] stride] from]] now|now|]; cbn [endpoint_round]; try exact Hrefl.
  - by apply on_datagrams_wp.
  - assert (forall ch, tends e (e <| ep_decisions := ch |>)) as Hd
      by (intros ch; apply tends_tables; try done; apply H).
    destruct (mpsc_recv (ep_decisions e)) as [[[decision|]|] ch]; [|apply tends_keeps, Hd..].
    eapply wp_mono; [apply apply_decision_wp, Hd|]. intros r Hr.
    eapply tends_keeps, tends_trans; [apply Hd|exact Hr].
Qed.

(** ** Reachability *)

(** Drivers read their channels or end; handles queue decisions, read what
    surfaced or are dropped.  The channels to the drivers and the decisions may
    change in any way; what surfaced may only be taken. *)
Inductive ep_step : Endpoint K Chan -> Endpoint K Chan -> Prop :=
  | ep_step_round e w continue e' : endpoint_round w e = Ret (continue, e') -> ep_step e e'
  | ep_step_channels e chs :
      (forall t, is_Some (chs !! t) <-> is_Some (ep_channels e !! t)) ->
      ep_step e (e <| ep_channels := chs |>)
  | ep_step_handles e incoming decisions :
      sublist (queued incoming) (queued (ep_incoming e)) ->
      ep_step e (e <| ep_incoming := incoming |> <| ep_decisions := decisions |>).

Lemma ep_step_keeps e e' : ep_ok e -> ep_step e e' -> keeps e e'.
Proof using HB HP HM.
  intros H Hs. destruct Hs as [e w continue e1 E|e chs Hch|e i d Hi].
  - pose proof (endpoint_round_wp w e H) as Hw. by rewrite E in Hw.
  - apply keeps_same; [|done..]. by apply (ep_ok_tables e); [..|apply H|].
  - split_and!; [by apply (ep_ok_tables e); [..|apply H|]|done|].
    unfold surfaced. destruct e as [sk l la aa cs ids inc dec chs ps sp rp]. cbn in *.
    rewrite !Forall_forall. intros Hf x Hx. eapply Hf, elem_of_sublist; [exact Hx|done].
Qed.

Lemma endpoint_new_ok (socket : K) l local auto (incoming : Chan Incoming) :
  ln_ok l -> ep_ok (endpoint_new socket l local auto incoming).
Proof using.
  intros Hl. constructor; cbn; try done.
  - intros t. rewrite lookup_empty. split; [by intros [? ?]|lia].
Qed.

Lemma ep_reaches_keeps e e' : ep_ok e -> rtc ep_step e e' -> keeps e e'.
Proof using HB HP HM.
  intros H Hr. induction Hr as [e|e1 e2 e3 Hs Hr IH]; [by apply keeps_same|].
  destruct (ep_step_keeps _ _ H Hs) as (H2 & E2 & S2). destruct (IH H2) as (H3 & E3 & S3).
  split_and!; [done|congruence|by eauto].
Qed.
End Preserved.
