(* ===== verification/Strangers.v ===== *)
(** * Strangers: what becomes of datagrams that belong to no connection

    The core listener parks and answers; the endpoint then surfaces its requests
    ([settled]) and flushes its responses ([flushed]).  The file says what each
    leaves behind, for [EndpointRuns]. *)

From coqutil Require Import Datatypes.RecordSetters.
From S2P Require Import Prelude Buf Errors Reject Seq Time PacketTypes Handshake Control Packet KeyMaterial Crypto Config Event ConnState Conn ConnInv ConnStart Listener ListenerInv Session Batch Runtime Driver Stream Endpoint EndpointInv.

(** ** One parked attempt taken out *)

Definition parked_from (l : Listener) : list SocketAddr := pd_from <$> ln_pending l.

(** [remote]'s attempt is gone, no other appeared, and what was to be sent still
    comes first. *)
Definition taken_out (remote : SocketAddr) (l l' : Listener) : Prop :=
  ln_responses l `prefix_of` ln_responses l' /\ (remote ∉ parked_from l') /\
  (forall a, a ∈ parked_from l' -> a ∈ parked_from l).

Section TakenOut.
Context {B : BytesApi} {HB : BytesSpec B} {P : CryptoPrims} {HP : CryptoSpec P}.

Lemma taken_out_swap remote l i p :
  ln_ok l -> ln_pending l !! i = Some p -> pd_from p = remote ->
  taken_out remote l (l <| ln_pending ::= swap_remove i |>).
Proof using.
  intros Hok Hp <-. pose proof (swap_remove_perm _ _ _ Hp) as Hperm.
  pose proof (lo_pending _ Hok) as Hn. rewrite <- Hperm in Hn. apply NoDup_cons in Hn as [Hn _].
  split_and!; [by simpl|exact Hn|]. intros a Ha. unfold parked_from. rewrite <- Hperm. by right.
Qed.

Lemma taken_out_more remote l l1 l2 :
  taken_out remote l l1 -> ln_pending l2 = ln_pending l1 ->
  ln_responses l1 `prefix_of` ln_responses l2 -> taken_out remote l l2.
Proof using.
  intros (H1 & H2 & H3) E H. unfold taken_out, parked_from in *. rewrite E.
  split_and!; [by etransitivity|done..].
Qed.

(** A refusal answers the peer whose attempt it takes out. *)
Lemma ln_reject_takes remote l l1 hs from reason now :
  taken_out remote l l1 -> wp (ln_reject hs from reason now l1) (taken_out remote l).
Proof using HB.
  intros H. unfold ln_reject.
  destruct (push_response_eq (hs_srt_socket_id hs) (rejection_response from reason l1) from now l1)
    as (bs & _ & ->); [done|]. cbn [wp]. eapply taken_out_more; [exact H|done|].
  by apply prefix_app_r.
Qed.

Lemma absent_taken_out remote l : pending_index remote l = None -> taken_out remote l l.
Proof using. intros H%pending_index_none. by split_and!. Qed.

Lemma reject_pending_takes remote reason now l :
  ln_ok l -> wp (reject_pending remote reason now l) (fun r => taken_out remote l r.2).
Proof using HB.
  intros Hok. unfold reject_pending.
  destruct (pending_index remote l) as [i|] eqn:E; [|by apply absent_taken_out].
  apply pending_index_some in E as (p & Hp & Hf). rewrite Hp.
  eapply wp_bind; [by eapply ln_reject_takes, taken_out_swap|]. by intros l' H.
Qed.

Lemma accept_pending_takes remote now l :
  ln_ok l -> wp (accept_pending remote now l) (fun r => taken_out remote l r.2).
Proof using HB HP.
  intros Hok. unfold accept_pending.
  destruct (pending_index remote l) as [i|] eqn:E; [|by apply absent_taken_out].
  apply pending_index_some in E as (p & Hp & Hf). rewrite Hp. cbv zeta.
  pose proof (taken_out_swap remote l i p Hok Hp Hf) as H1.
  assert (hs_ok (pd_conclusion p)) as Hhs by (by apply (Forall_lookup_1 _ _ _ _ (lo_parked _ Hok) Hp)).
  pose proof (ln_ok_pending_perm l p _ Hok (swap_remove_perm _ _ _ Hp)) as Hok1.
  change (l <| ln_pending := swap_remove i (ln_pending l) |>)
    with (l <| ln_pending ::= swap_remove i |>) in Hok1.
  set (l1 := l <| ln_pending ::= swap_remove i |>) in *. clearbody l1.
  destruct (mint_wp l1 Hok1) as (id & n & -> & Hn). cbn [mbind panicky_bind].
  assert (taken_out remote l (l1 <| ln_accept_counter := n |>)) as H2
    by (by eapply taken_out_more; [exact H1|done|]).
  pose proof (ln_keeps_counter l1 n Hok1 Hn) as [Hok2 _].
  set (l2 := l1 <| ln_accept_counter := n |>) in *. clearbody l2.
  destruct (accept_total (ln_config l2) id (ln_local_initial_seq l2) _ now (lo_config _ Hok2) Hhs)
    as [(c & -> & _)|[x ->]]; cbn [wp]; [exact H2|].
  eapply wp_bind; [by eapply ln_reject_takes|]. by intros l' H.
Qed.
End TakenOut.

(** ** Surfacing *)

Section Surfacing.
Context {B : BytesApi} {HB : BytesSpec B} {P : CryptoPrims} {HP : CryptoSpec P}.
Context {K : Type} {HK : AsyncUdpSocket K} {Chan : Type -> Type} {HMp : Mpsc Chan} {HM : MpscSpec Chan}.
Implicit Types e : Endpoint K Chan.

(** What the application finds for the requests [accepted]: streams of the tasks
    from number [first] on, or the requests themselves. *)
Definition stream_for e (task : nat) (r : ConnRequest) : Incoming :=
  InStream (MkStream task (MkMeta (ep_local_addr e) (rq_remote r) (rq_stream_id r))).
Definition request_for e (r : ConnRequest) : Incoming :=
  InRequest (MkSrtRequest (rq_stream_id r) (rq_remote r) (ep_local_addr e)).
Definition found e (accepted : list ConnRequest) : list Incoming :=
  if ep_auto_accept e
  then zip_with (stream_for e) (seq (length (ep_spawned e)) (length accepted)) accepted
  else request_for e <$> accepted.

(** The requests [rs] were surfaced.  Those [accepted] went to the application, in
    order, as far as its queue had room: a deferred endpoint queues all that fit, an
    accepting one starts one task for each that the core accepts.  The attempts that
    did not go there are no longer parked: a refusal took them out. *)
Record settled (rs accepted : list ConnRequest) e e' : Prop := {
  se_accepted : sublist accepted rs;
  se_deferred : ep_auto_accept e = false -> accepted = take (room (ep_incoming e)) rs;
  se_queue : queued (ep_incoming e') = queued (ep_incoming e) ++ found e accepted;
  se_room : room (ep_incoming e') = (room (ep_incoming e) - length accepted)%nat;
  se_spawned : length (ep_spawned e') =
    (length (ep_spawned e) + if ep_auto_accept e then length accepted else 0)%nat;
  se_refused : forall r, r ∈ rs -> (r ∉ accepted) ->
    rq_remote r ∉ parked_from (ep_listener e');
  se_parked : forall a, a ∈ parked_from (ep_listener e') -> a ∈ parked_from (ep_listener e);
  se_responses : ln_responses (ep_listener e) `prefix_of` ln_responses (ep_listener e');
  se_receiving : receiving (ep_incoming e') = receiving (ep_incoming e);
  se_kept : ep_socket e' = ep_socket e /\ ep_local_addr e' = ep_local_addr e /\
    ep_auto_accept e' = ep_auto_accept e;
}.

Lemma found_kept e e' accepted :
  ep_local_addr e' = ep_local_addr e -> ep_auto_accept e' = ep_auto_accept e ->
  length (ep_spawned e') = length (ep_spawned e) -> found e' accepted = found e accepted.
Proof using. intros E1 E2 E3. unfold found, stream_for, request_for. by rewrite E1, E2, E3. Qed.

Lemma found_app e e' acc1 acc2 :
  ep_local_addr e' = ep_local_addr e -> ep_auto_accept e' = ep_auto_accept e ->
  length (ep_spawned e') =
    (length (ep_spawned e) + if ep_auto_accept e then length acc1 else 0)%nat ->
  found e (acc1 ++ acc2) = found e acc1 ++ found e' acc2.
Proof using.
  intros E1 E2 E3. unfold found, stream_for, request_for. rewrite E1, E2, E3.
  destruct (ep_auto_accept e); [|by rewrite fmap_app].
  rewrite length_app, seq_app, zip_with_app; [done|by rewrite length_seq].
Qed.

Lemma settled_nil e e' :
  ep_socket e' = ep_socket e -> ep_local_addr e' = ep_local_addr e ->
  ep_auto_accept e' = ep_auto_accept e -> ep_incoming e' = ep_incoming e ->
  ep_spawned e' = ep_spawned e -> ln_pending (ep_listener e') = ln_pending (ep_listener e) ->
  ln_responses (ep_listener e') = ln_responses (ep_listener e) -> settled [] [] e e'.
Proof using.
  intros E1 E2 E3 E4 E5 E6 E7. constructor; rewrite ?E4, ?E5, ?E7; try done.
  - intros _. by rewrite take_nil.
  - unfold found. by destruct (ep_auto_accept e); rewrite app_nil_r.
  - cbn. lia.
  - cbn. destruct (ep_auto_accept e); lia.
  - unfold parked_from. by rewrite E6.
Qed.

Lemma settled_trans rs1 acc1 rs2 acc2 e1 e2 e3 :
  settled rs1 acc1 e1 e2 -> settled rs2 acc2 e2 e3 -> settled (rs1 ++ rs2) (acc1 ++ acc2) e1 e3.
Proof using.
  intros [A1 A2 A3 A4 A5 A6 A7 A8 A9 (A10 & A11 & A12)] [B1 B2 B3 B4 B5 B6 B7 B8 B9 (B10 & B11 & B12)].
  constructor.
  - by apply sublist_app.
  - intros E. rewrite (A2 E), B2, A4, (A2 E), take_app by congruence. f_equal. f_equal.
    rewrite length_take. lia.
  - rewrite B3, A3, <- app_assoc. f_equal. symmetry. by apply found_app.
  - rewrite B4, A4, length_app. lia.
  - rewrite B5, A5, A12, length_app. destruct (ep_auto_accept e1); lia.
  - intros r [Hr|Hr]%elem_of_app Hn; rewrite not_elem_of_app in Hn.
    + intros H. by apply (A6 r Hr (proj1 Hn)), B7.
    + apply B6; [done|apply Hn].
  - intros a Ha. by apply A7, B7.
  - by etransitivity.
  - congruence.
  - split_and!; congruence.
Qed.

(** What [spawn_accepted] does, as far as the application can tell. *)
Lemma spawn_accepted_takes addr now e :
  ep_ok e -> wp (spawn_accepted addr now e) (fun r =>
    taken_out addr (ep_listener e) (ep_listener r.2) /\
    ep_incoming r.2 = ep_incoming e /\ ep_socket r.2 = ep_socket e /\
    ep_local_addr r.2 = ep_local_addr e /\ ep_auto_accept r.2 = ep_auto_accept e /\
    match r.1 with
    | inl _ => ep_spawned r.2 = ep_spawned e
    | inr task => task = length (ep_spawned e) /\ length (ep_spawned r.2) = S (length (ep_spawned e))
    end).
Proof using HB HP.
  intros H. unfold spawn_accepted. eapply wp_bind; [apply accept_pending_takes, H|].
  intros [[x|c] l] Hl; cbn [fst snd] in *; cbv zeta; [by split_and!|].
  unfold register. cbv zeta. cbn [wp fst snd]. split_and!; try done.
  change (length (ep_spawned e ++ [c]) = S (length (ep_spawned e))). rewrite length_app. simpl. lia.
Qed.

Lemma settled_accepted r e e' :
  (0 < room (ep_incoming e))%nat ->
  queued (ep_incoming e') = queued (ep_incoming e) ++ found e [r] ->
  room (ep_incoming e') = (room (ep_incoming e) - 1)%nat ->
  length (ep_spawned e') = (length (ep_spawned e) + if ep_auto_accept e then 1 else 0)%nat ->
  (forall a, a ∈ parked_from (ep_listener e') -> a ∈ parked_from (ep_listener e)) ->
  ln_responses (ep_listener e) `prefix_of` ln_responses (ep_listener e') ->
  receiving (ep_incoming e') = receiving (ep_incoming e) ->
  ep_socket e' = ep_socket e -> ep_local_addr e' = ep_local_addr e ->
  ep_auto_accept e' = ep_auto_accept e -> settled [r] [r] e e'.
Proof using.
  intros Hroom Hq Hr Hs Hp Hl Hrc E1 E2 E3. constructor; try done.
  intros _. rewrite take_ge; [done|simpl; lia].
Qed.

(** A request that is turned away, with the queue as it was. *)
Lemma settled_refused r e e' :
  (ep_auto_accept e = false -> room (ep_incoming e) = 0%nat) ->
  taken_out (rq_remote r) (ep_listener e) (ep_listener e') ->
  ep_incoming e' = ep_incoming e -> ep_spawned e' = ep_spawned e -> ep_socket e' = ep_socket e ->
  ep_local_addr e' = ep_local_addr e -> ep_auto_accept e' = ep_auto_accept e -> settled [r] [] e e'.
Proof using.
  intros Hroom (Hl & Hr & Hp) E1 E2 E3 E4 E5. constructor; rewrite ?E1, ?E2; try done.
  - apply sublist_nil_l.
  - intros E. by rewrite (Hroom E).
  - unfold found. by destruct (ep_auto_accept e); rewrite app_nil_r.
  - cbn. lia.
  - cbn. destruct (ep_auto_accept e); lia.
  - by intros r' ->%list_elem_of_singleton _.
Qed.

Lemma surface_request_settles r now e :
  ep_ok e -> wp (surface_request r now e) (fun res =>
    if res.1 then exists accepted, settled [r] accepted e res.2
    else receiving (ep_incoming e) = false /\ res.2 = e).
Proof using HB HP HM.
  intros H. unfold surface_request. cbv zeta. pose proof (try_reserve_cases (ep_incoming e)) as Hc.
  destruct (mpsc_try_reserve (ep_incoming e)); [destruct Hc as [Hrc Hroom]|destruct Hc as [Hrc Hroom]|done].
  - destruct (ep_auto_accept e) eqn:Ea.
    + eapply wp_bind; [by apply spawn_accepted_takes|].
      intros [[x|task] e1] (Ht & E1 & E2 & E3 & E4 & E5); cbn [wp fst snd] in *.
      * exists []. apply settled_refused; try done. congruence.
      * destruct E5 as [-> E5]. exists [r].
        destruct (permit_send_queued (stream_for e (length (ep_spawned e)) r) (ep_incoming e)) as [Q1 Q2].
        pose proof (permit_send_room (stream_for e (length (ep_spawned e)) r) (ep_incoming e)) as Q3.
        destruct e1 as [sk l la aa cs ids inc dec chs ps sp rp]. cbn in E1, E2, E3, E4, E5, Ht. subst inc la.
        apply settled_accepted; try done.
        -- unfold found. by rewrite Ea.
        -- rewrite Ea. cbn. lia.
        -- apply Ht.
        -- apply Ht.
    + exists [r]. set (i := InRequest _).
      destruct (permit_send_queued i (ep_incoming e)) as [Q1 Q2].
      pose proof (permit_send_room i (ep_incoming e)) as Q3.
      destruct e as [sk l la aa cs ids inc dec chs ps sp rp]. cbn [ep_auto_accept] in Ea.
      apply settled_accepted; try done.
      * unfold found. cbn [ep_auto_accept]. by rewrite Ea.
      * cbn [ep_auto_accept ep_spawned set_ep_incoming]. rewrite Ea. simpl. lia.
  - eapply wp_bind; [apply reject_pending_takes, H|]. intros [u l] Ht. exists [].
    by apply settled_refused.
Qed.

(** Surfacing ends early only when the application dropped its handle. *)
Lemma surface_requests_settles fuel now e :
  ep_ok e -> (length (ln_requests (ep_listener e)) < fuel)%nat ->
  wp (surface_requests fuel now e) (fun res =>
    if res.1 then ln_requests (ep_listener res.2) = [] /\
      exists accepted, settled (ln_requests (ep_listener e)) accepted e res.2
    else receiving (ep_incoming e) = false).
Proof using HB HP HM.
  revert e. induction fuel as [|fuel IH]; intros e H Hf; [lia|]. cbn [surface_requests].
  unfold poll_request. destruct (ln_requests (ep_listener e)) as [|request rest] eqn:E.
  - split; [exact E|]. exists []. by apply settled_nil.
  - set (e1 := e <| ep_listener := (ep_listener e) <| ln_requests := rest |> |>).
    assert (ep_ok e1) as H1.
    { apply ep_ok_listener; [done|]. apply (ln_ok_queues (ep_listener e)); [..|apply H]; done. }
    assert (settled [] [] e e1) as S1 by (by apply settled_nil).
    pose proof (surface_request_settles request now e1 H1) as Hs.
    pose proof (surface_request_wp request now e1 H1) as Hk.
    apply wp_ret in Hs as ([continue e2] & Er & Hs). rewrite Er in *. cbn [mbind panicky_bind wp fst snd] in *.
    destruct Hk as [Hk Hq]. cbn [snd] in Hk, Hq.
    destruct continue; [|apply Hs]. destruct Hs as (acc & Hs).
    change (ln_requests (ep_listener e1)) with rest in Hq.
    assert (length (ln_requests (ep_listener e2)) < fuel)%nat as Hf2 by (rewrite Hq; simpl in Hf; lia).
    eapply wp_mono; [exact (IH e2 (proj1 Hk) Hf2)|]. intros [[] e3]; cbn [fst snd].
    + rewrite Hq. intros (E3 & acc' & Hs'). split; [exact E3|]. exists (acc ++ acc').
      change (request :: rest) with (([] ++ [request]) ++ rest).
      change acc with ([] ++ acc). eapply settled_trans; [|exact Hs']. by eapply settled_trans.
    + intros Hr. rewrite <- Hr. symmetry. apply (se_receiving _ _ _ _ Hs).
Qed.
End Surfacing.

(** ** Flushing *)

Section Flushing.
Context {B : BytesApi} {HB : BytesSpec B} {P : CryptoPrims} {HP : CryptoSpec P}.
Context {K : Type} {HK : AsyncUdpSocket K} {HU : UdpSpec K}.
Context {Chan : Type -> Type} {HMp : Mpsc Chan} {HM : MpscSpec Chan}.
Implicit Types e : Endpoint K Chan.

(** Every response of [e] is on the wire, in order; nothing else changed. *)
Definition flushed e e' : Prop :=
  exists k, wire k = wire (ep_socket e) ++ ln_responses (ep_listener e) /\
    e' = e <| ep_listener := (ep_listener e) <| ln_responses := [] |> |> <| ep_socket := k |>.

(** The socket refused one of [responses], after those before it were sent. *)
Definition send_failed (responses : list (SocketAddr * list byte)) (k k' : K) : Prop :=
  exists sent a d rest k1 error, responses = sent ++ (a, d) :: rest /\
    wire k1 = wire k ++ sent /\ poll_send d a k1 = (inl error, k').

Lemma flush_listener_responses_sends fuel e :
  (length (ln_responses (ep_listener e)) < fuel)%nat ->
  wp (flush_listener_responses fuel e) (fun r =>
    if r.1 then flushed e r.2
    else send_failed (ln_responses (ep_listener e)) (ep_socket e) (ep_socket r.2)).
Proof using.
  revert e. induction fuel as [|fuel IH]; intros e Hf; [lia|]. cbn [flush_listener_responses].
  unfold poll_response. destruct (ln_responses (ep_listener e)) as [|[a d] rest] eqn:E.
  - exists (ep_socket e). rewrite E, app_nil_r. split; [done|].
    destruct e as [sk [] la aa cs ids inc dec chs ps sp rp]. cbn in E. by subst.
  - cbv zeta. set (l := (ep_listener e) <| ln_responses := rest |>).
    change (ep_socket (e <| ep_listener := l |>)) with (ep_socket e).
    pose proof (poll_send_wire d a (ep_socket e)) as Hw.
    destruct (poll_send d a (ep_socket e)) as [[x|u] k] eqn:Es; cbn [fst snd] in Hw.
    + exists [], a, d, rest, (ep_socket e), x. by rewrite app_nil_r.
    + set (e1 := e <| ep_listener := l |> <| ep_socket := k |>).
      eapply wp_mono; [exact (IH e1 (proj2 (Nat.succ_lt_mono _ _) Hf))|].
      change (ln_responses (ep_listener e1)) with rest. change (ep_socket e1) with k.
      intros [[] e2]; cbn [fst snd].
      * intros (k2 & H1 & ->). exists k2. split; [|by destruct e as [sk [] la aa cs ids inc dec chs ps sp rp]].
        change (ln_responses (ep_listener e1)) with rest in H1. change (ep_socket e1) with k in H1.
        by rewrite H1, Hw, E, <- app_assoc.
      * intros (sent & a' & d' & rest' & k1 & x & -> & H1 & H2).
        exists ((a, d) :: sent), a', d', rest', k1, x. split; [done|]. split; [|exact H2].
        by rewrite H1, Hw, <- app_assoc.
Qed.

(** What one read from a stranger leads to.  The core listener takes every
    segment; the requests it holds then are settled; the responses it holds then are
    sent.  The endpoint stops only when the application dropped its handle or the
    socket refused a response. *)
Definition heard (segments : list (list byte)) (from : SocketAddr) (now : Instant) e
  (continue : bool) e' : Prop :=
  exists l, feed_listener segments from now (ep_listener e) = Ret l /\
    if continue then exists accepted e1,
      settled (ln_requests l) accepted (e <| ep_listener := l |>) e1 /\
      ln_requests (ep_listener e1) = [] /\ flushed e1 e'
    else receiving (ep_incoming e) = false \/
      exists responses, ln_responses l `prefix_of` responses /\
        send_failed responses (ep_socket e) (ep_socket e').

Lemma on_strangers_hears segments from now e :
  ep_ok e -> wp (on_strangers segments from now e) (fun r => heard segments from now e r.1 r.2).
Proof using HB HP HM.
  intros H. unfold on_strangers.
  destruct (proj1 (wp_ret _ _) (feed_listener_wp segments from now _ (eo_listener _ H))) as (l & El & Hl).
  rewrite El. cbn [mbind panicky_bind]. cbv zeta.
  pose proof (ep_ok_listener l e H Hl) as H1. set (e1 := e <| ep_listener := l |>) in *.
  change (ln_requests (ep_listener e1)) with (ln_requests l).
  eapply wp_bind; [by apply surface_requests_settles; [|change (ep_listener e1) with l; lia]|].
  change (ep_listener e1) with l. intros [[] e2]; cbn [fst snd].
  - intros (Hq & acc & Hs). unfold flush_responses.
    eapply wp_mono; [apply flush_listener_responses_sends; lia|].
    intros [[] e3] Hf; cbn [fst snd] in *; exists l; (split; [exact El|]).
    + exists acc, e2. by split_and!.
    + right. exists (ln_responses (ep_listener e2)). split; [exact (se_responses _ _ _ _ Hs)|].
      destruct (se_kept _ _ _ _ Hs) as (E & _). by rewrite E in Hf.
  - intros Hr. exists l. split; [exact El|]. by left.
Qed.
End Flushing.
