(* ===== verification/EndpointRuns.v ===== *)
(** * EndpointRuns: the properties of the demultiplexer

    What forwarding does to a channel, and the properties of every state the
    endpoint reaches from [endpoint_new]. *)

From coqutil Require Import Datatypes.RecordSetters.
From S2P Require Import Prelude Buf Errors Reject Seq Time Timestamp PacketTypes Handshake Control Packet KeyMaterial Crypto Config Event ConnState Conn ConnInv ConnStart Listener ListenerInv Session Admission Batch Runtime Driver Stream Endpoint Api EndpointInv Strangers.

(** ** Forwarding *)

Section Forward.
Context {Chan : Type -> Type} {HMp : Mpsc Chan} {HM : MpscSpec Chan}.
Implicit Types tx : Chan (Instant * list byte).

(** What a channel holds after a forward: what fits, unless the driver is gone. *)
Definition forwarded (segments : list (list byte)) (now : Instant) tx : list (Instant * list byte) :=
  if receiving tx then queued tx ++ take (room tx) (pair now <$> segments) else queued tx.

Lemma try_send_room {A} (a : A) (c : Chan A) :
  receiving c = true ->
  queued (mpsc_try_send a c).2 = queued c ++ take (room c) [a] /\
  room (mpsc_try_send a c).2 = (room c - 1)%nat /\
  receiving (mpsc_try_send a c).2 = true /\
  (forall b, (mpsc_try_send a c).1 <> TsClosed b).
Proof using.
  intros Hr. pose proof (try_send_view a c) as H. unfold receiving, queued, room in *.
  unfold st_try_send, st_room in H. rewrite Hr in H.
  destruct (Nat.ltb_spec (length (ch_contents (view c))) (ch_capacity (view c))) as [Hlt|Hge];
    injection H as H1 H2; rewrite <- H1, <- H2; cbn [st_push ch_contents ch_capacity ch_rx].
  - split_and!; [|rewrite length_app; simpl; lia|done|done].
    destruct (ch_capacity (view c) - length (ch_contents (view c)))%nat eqn:E; [lia|].
    simpl. by rewrite take_nil.
  - assert (ch_capacity (view c) - length (ch_contents (view c)) = 0)%nat as -> by lia.
    split_and!; [by rewrite app_nil_r|done|done|done].
Qed.

(** A full channel drops what does not fit, and the loop goes on; a closed one
    ends it at its first segment. *)
Lemma forward_loop_spec segments now tx :
  (forward_loop segments now tx).1 = (receiving tx || (length segments =? 0)%nat) /\
  queued (forward_loop segments now tx).2 = forwarded segments now tx.
Proof using.
  unfold forwarded. revert tx. induction segments as [|s segments IH]; intros tx; cbn [forward_loop].
  - cbn. rewrite orb_true_r, take_nil, app_nil_r. by destruct (receiving tx).
  - destruct (receiving tx) eqn:Hr.
    + destruct (try_send_room (now, s) tx Hr) as (Hq & Hm & Hrc & Hn).
      destruct (mpsc_try_send (now, s) tx) as [r tx'] eqn:E. cbn [fst snd] in *.
      specialize (IH tx'). rewrite Hrc, Hq, Hm in IH.
      assert (queued tx ++ take (room tx) [(now, s)] ++ take (room tx - 1) (pair now <$> segments) =
        queued tx ++ take (room tx) (pair now <$> s :: segments)) as Hgoal.
      { f_equal. cbn. destruct (room tx) as [|n]; [done|]. simpl. by rewrite Nat.sub_0_r, take_nil. }
      rewrite <- Hgoal, app_assoc. destruct r as [| |b]; [exact IH..|by destruct (Hn b)].
    + destruct (try_send_cases (now, s) tx) as [_ Hc].
      destruct (mpsc_try_send (now, s) tx) as [[| |b] tx']; cbn [fst snd] in *;
        destruct Hc as [Hc Hq]; try congruence. split; [done|apply Hq].
Qed.
End Forward.

(** ** One read of the socket *)

Section Routing.
Context {B : BytesApi} {HB : BytesSpec B} {P : CryptoPrims} {HP : CryptoSpec P}.
Context {K : Type} {HK : AsyncUdpSocket K} {HU : UdpSpec K}.
Context {Chan : Type -> Type} {HMp : Mpsc Chan} {HM : MpscSpec Chan}.
Implicit Types e : Endpoint K Chan.

(** [e'] is [e] with the segments handed to task [tx], and nothing else changed
    but that [evict] removes the entries of a driver that is gone. *)
Definition handed (tx : nat) (segments : list (list byte)) (now : Instant)
  (evict : Endpoint K Chan -> Endpoint K Chan) e e' : Prop :=
  exists ch ch', ep_channels e !! tx = Some ch /\
    queued ch' = forwarded segments now ch /\
    e' = (if receiving ch || (length segments =? 0)%nat then id else evict)
           (e <| ep_channels ::= <[tx := ch']> |>).

Lemma forward_segments_handed tx buf len stride now evict e :
  is_Some (ep_channels e !! tx) ->
  handed tx (gro_split buf len stride) now evict e
    (let '(alive, e') := forward_segments tx buf len stride now e in if alive then e' else evict e').
Proof using HM.
  intros [ch Hch]. unfold forward_segments. rewrite Hch.
  pose proof (forward_loop_spec (gro_split buf len stride) now ch) as [H1 H2].
  destruct (forward_loop _ now ch) as [alive ch']. cbn [fst snd] in *.
  exists ch, ch'. split_and!; [done..|]. rewrite <- H1. by destruct alive.
Qed.

Definition forget_address (from : SocketAddr) e : Endpoint K Chan :=
  e <| ep_connections ::= delete from |>.
Definition forget_both (from : SocketAddr) (id : Z) e : Endpoint K Chan :=
  e <| ep_connections ::= delete from |> <| ep_by_id ::= delete id |>.

Lemma on_datagrams_known buf len stride from now e tx :
  ep_ok e -> ep_connections e !! from = Some tx ->
  exists e', on_datagrams buf len stride from now e = Ret (true, e') /\
    handed tx (gro_split buf len stride) now (forget_address from) e e'.
Proof using HM.
  intros H Hc. unfold on_datagrams. rewrite Hc.
  pose proof (forward_segments_handed tx buf len stride now (forget_address from) e) as Hf.
  destruct (forward_segments _ _ _ _ _ _) as [alive e1]. eexists. split; [done|].
  apply Hf, (eo_channels _ H), (eo_address _ H _ _ Hc).
Qed.

Lemma on_datagrams_claimed buf len stride from now e id entry :
  ep_ok e -> ep_connections e !! from = None -> claimed_by buf len stride e = Some (id, entry) ->
  exists e', on_datagrams buf len stride from now e = Ret (true, e') /\
    handed (ie_tx entry) (gro_split buf len stride) now (forget_both from id) (repin id entry from e) e'.
Proof using HM.
  intros H Hn Hid. unfold on_datagrams. rewrite Hn, Hid.
  pose proof (forward_segments_handed (ie_tx entry) buf len stride now (forget_both from id)
    (repin id entry from e)) as Hf.
  destruct (forward_segments _ _ _ _ _ _) as [alive e1]. eexists. split; [done|]. apply Hf.
  destruct (eo_id _ H _ _ (claimed_by_entry _ _ _ _ _ _ Hid)) as (c & Hc & _).
  apply (eo_channels _ H). by eapply lookup_lt_Some.
Qed.

Lemma on_datagrams_stranger buf len stride from now e :
  ep_ok e -> ep_connections e !! from = None -> claimed_by buf len stride e = None ->
  exists continue e', on_datagrams buf len stride from now e = Ret (continue, e') /\ leaves e e' /\
    heard (gro_split buf len stride) from now e continue e'.
Proof using HB HP HM.
  intros H Hn Hid. unfold on_datagrams. rewrite Hn, Hid.
  pose proof (on_strangers_wp (gro_split buf len stride) from now e H) as Hw.
  pose proof (on_strangers_hears (gro_split buf len stride) from now e H) as Hh.
  apply wp_ret in Hw as ([continue e'] & E & _ & Hl). rewrite E in Hh. exists continue, e'. by split_and!.
Qed.

(** What a re-pinning does to the tables: the driver itself sends to [from] now. *)
Lemma repin_moves id entry from e :
  ep_ok e -> ep_by_id e !! id = Some entry -> ep_connections e !! from = None ->
  ep_peers (repin id entry from e) !! ie_tx entry = Some from /\
  ep_connections (repin id entry from e) !! from = Some (ie_tx entry) /\
  (ie_addr entry <> from -> ep_connections (repin id entry from e) !! ie_addr entry = None) /\
  ep_by_id (repin id entry from e) !! id = Some (MkIdEntry (ie_tx entry) from (ie_tx entry)).
Proof using.
  intros H Hid Hn. destruct (eo_peer _ H _ _ Hid) as [Hp _].
  assert (ep_peers (repin id entry from e) = <[ie_peer entry := from]> (ep_peers e)) as -> by done.
  assert (ep_connections (repin id entry from e) =
    <[from := ie_tx entry]> (delete (ie_addr entry) (ep_connections e))) as -> by done.
  assert (ep_by_id (repin id entry from e) =
    <[id := MkIdEntry (ie_tx entry) from (ie_peer entry)]> (ep_by_id e)) as -> by done.
  rewrite Hp, !lookup_insert_eq. split_and!; try done.
  intros Hne. rewrite lookup_insert_ne by done. apply lookup_delete_eq.
Qed.
End Routing.

(** The word the demultiplexer reads is the field the core decodes. *)
Definition packet_dest (p : Packet) : SocketId :=
  match p with PData d => dp_dest_socket_id d | PControl c => cp_dest_socket_id c end.

Lemma dest_socket_id_decode {B : BytesApi} {HB : BytesSpec B} buf p :
  packet_decode buf = Ok p -> dest_socket_id buf = Some (socket_id_value (packet_dest p)).
Proof.
  unfold packet_decode, dest_socket_id, HEADER_LEN.
  destruct (Nat.ltb_spec (length buf) 16) as [Hs|Hl]; [done|].
  buf_take 4%nat buf w0 r H0. buf_take 4%nat r w1 r1 H1.
  buf_take 4%nat r1 ts r2 H2. buf_take 4%nat r2 dest r3 H3.
  replace (take 4 _) with (be_bytes 4 dest).
  2: { rewrite 2!app_assoc, drop_app_length' by (rewrite !length_app, !length_be_bytes; lia).
       by rewrite take_app_length' by (by rewrite length_be_bytes). }
  rewrite be_val_bytes, Z.mod_small by done. destruct (negb _); intros H.
  - destruct (cb_decode _ _ _ _) as [b|x|]; [|done..]. by injection H as <-.
  - destruct (enc_from_bits _) as [b|x|]; [|done..]. by injection H as <-.
Qed.

(** ** The properties *)

(** What every state reached from [bind] has. *)
Lemma bound_keeps {B : BytesApi} {HB : BytesSpec B} {P : CryptoPrims} {HP : CryptoSpec P}
  {K : Type} {HK : AsyncUdpSocket K} {R : Type} {HR : Runtime R K}
  {Chan : Type -> Type} {HMp : Mpsc Chan} {HM : MpscSpec Chan}
  (big_endian : bool) (rng : nat -> nat -> list byte) addr config deferred (rt rt' : R)
  (handle : SrtListener) (e0 e : Endpoint K Chan) :
  rng_fills rng -> stream_id_fits_config config ->
  bind_inner big_endian rng addr config deferred rt = Ret (inr (handle, e0), rt') ->
  rtc ep_step e0 e ->
  ep_ok e /\ ep_auto_accept e = negb deferred /\ li_deferred handle = deferred /\ surfaced e.
Proof.
  intros Hrng Hs E Hr.
  pose proof (bind_inner_post (Chan := Chan) big_endian rng Hrng addr config deferred rt Hs) as Hw.
  rewrite E in Hw.
  destruct Hw as (_ & _ & socket & local & l & _ & _ & Hh & Hl & _ & _ & He). cbn in Hh, He. subst.
  destruct (ep_reaches_keeps _ _ (endpoint_new_ok socket l local (negb deferred)
    (mpsc_channel COMMAND_CAPACITY) Hl) Hr) as (H & Ha & Hsf).
  split_and!; [done..|]. apply Hsf. unfold surfaced, queued. cbn. rewrite channel_view. constructor.
Qed.

(** A deferred listener, a caller's conclusion with the cookie it was given, and
    the application's decision. *)
Definition ex_bind : panicky ((Error + (SrtListener * Endpoint LogSocket ChanState)) * LogSocket) :=
  bind_deferred false zero_rng ex_local config_default ex_runtime.
Definition ex_concluding : panicky (list byte) :=
  let l := ln_new config_default (socket_id_new 0) (MkSeq 0) 0 1000 in
  @packet_encode vec_bytes (PControl (MkControl (from_micros 5) (socket_id_new 0)
    (CbHandshake (ex_conclusion (ln_cookie l ex_addr 0))))) [].
Definition ex_asking : panicky (bool * Endpoint LogSocket ChanState) :=
  r ← ex_bind; bs ← ex_concluding;
  match r with
  | (inr (_, e), _) => @endpoint_round vec_bytes toy_prims _ _ _ _
      (EwSocket (inr (bs, length bs, length bs, ex_addr)) 2000) e
  | _ => Panic
  end.
Definition ex_decided (e : Endpoint LogSocket ChanState) : Endpoint LogSocket ChanState :=
  e <| ep_incoming := mpsc_channel 64 |>
    <| ep_decisions := MkChan [DcAccept ex_addr 7%nat] 64 true true |>.
Definition ex_accepting : panicky (bool * Endpoint LogSocket ChanState) :=
  '(_, e) ← ex_asking;
  @endpoint_round vec_bytes toy_prims _ _ _ _ (EwDecision 3000) (ex_decided e).

Definition ex_rebound : SocketAddr := AddrV4 [Byte.x0a; Byte.x00; Byte.x00; Byte.x01] 4000.
(** The caller's next datagram, which names the accepted connection. *)
Definition ex_moved : list byte :=
  replicate 15 zero_byte ++ [Byte.x01; Byte.xff].

Lemma ex_accepting_state :
  wp ex_accepting (fun r => r.1 = true /\ ep_connections r.2 !! ex_addr = Some 0%nat /\
    ep_replies r.2 = [(7%nat, inr 0%nat)] /\ ep_peers r.2 !! 0%nat = Some ex_addr /\
    ep_channels r.2 !! 0%nat = Some (MkChan [] INBOUND_CAPACITY true true) /\
    ep_connections r.2 !! ex_rebound = None /\
    claimed_by ex_moved 17 17 r.2 = Some (1, MkIdEntry 0 ex_addr 0)).
Proof. vm_compute. repeat split. Qed.

(** The run up to the accepted connection. *)
Lemma ex_accepting_reached :
  wp ex_accepting (fun r => exists handle e0, ex_bind = Ret (inr (handle, e0), ex_runtime) /\
    rtc (@ep_step vec_bytes toy_prims _ _ _ _ _) e0 r.2).
Proof.
  unfold ex_accepting, ex_asking.
  destruct ex_bind as [[[x|[handle e0]] rt]|] eqn:Eb; [by vm_compute in Eb| |by vm_compute in Eb].
  assert (rt = ex_runtime) as -> by (vm_compute in Eb; by injection Eb as <- <- <-).
  destruct ex_concluding as [bs|] eqn:Ec; [|by vm_compute in Ec]. cbn [mbind panicky_bind].
  destruct (endpoint_round (EwSocket _ _) e0) as [[continue e1]|] eqn:E1.
  2: { vm_compute in Eb. injection Eb as <- <-. vm_compute in Ec. injection Ec as <-. by vm_compute in E1. }
  cbn [mbind panicky_bind]. destruct (endpoint_round (EwDecision 3000) (ex_decided e1)) as [[continue' e2]|] eqn:E2.
  - exists handle, e0. split; [done|]. eapply rtc_l; [by eapply ep_step_round|].
    eapply rtc_l; [apply (ep_step_handles e1 (mpsc_channel 64)), sublist_nil_l|].
    apply rtc_once. by eapply ep_step_round.
  - vm_compute in Eb. injection Eb as <- <-. vm_compute in Ec. injection Ec as <-.
    vm_compute in E1. injection E1 as <- <-. by vm_compute in E2.
Qed.

(** C39 (type).  The demultiplexer's tables are well-formed in every state a
    bound endpoint reaches, whatever datagrams, decisions and drops it meets and
    whatever the drivers do to their channels meanwhile.  Every address leads to the
    channel of a task that was spawned (one that has ended stays in the table until
    a datagram finds its channel closed or the next accept sweeps it out); every id
    leads to the task whose connection has that
    id, and to at most one; the address kept with the id, the driver's own peer
    address and the address table agree; every task was started on a fresh
    acceptor (what the driver's theorems ask for); the core listener keeps its own
    invariant; no panic written in the task or the core listener stops the next round (integers
    wrap, as in a release build: with overflow checks the reason code of a
    rejection near 2^32 would panic, see [hst_rejection]); and the handle of a
    deferred listener gets requests only, so [incoming] never meets its
    [unreachable!], as one of an accepting listener gets streams only. *)
Theorem demultiplexer_is_consistent {B : BytesApi} {HB : BytesSpec B} {P : CryptoPrims}
  {HP : CryptoSpec P} {K : Type} {HK : AsyncUdpSocket K} {R : Type} {HR : Runtime R K}
  {Chan : Type -> Type} {HMp : Mpsc Chan} {HM : MpscSpec Chan}
  (big_endian : bool) (rng : nat -> nat -> list byte) (addr : SocketAddr) (config : Config)
  (deferred : bool) (rt rt' : R) (handle : SrtListener) (e0 e : Endpoint K Chan) :
  rng_fills rng -> stream_id_fits_config config ->
  bind_inner big_endian rng addr config deferred rt = Ret (inr (handle, e0), rt') ->
  rtc ep_step e0 e ->
  ep_ok e /\ (forall w, exists r, endpoint_round w e = Ret r) /\
  (forall id id' en en', ep_by_id e !! id = Some en -> ep_by_id e !! id' = Some en' ->
     ie_tx en = ie_tx en' -> id = id') /\
  (if deferred then exists r, incoming handle (ep_incoming e) = Ret r
   else forall r request, (listener_accept (ep_incoming e)).1 = Ready r -> r <> inr (inr request)).
Proof.
  intros Hrng Hs E Hr. destruct (bound_keeps _ _ _ _ _ _ _ _ _ _ Hrng Hs E Hr) as (H & Ha & Hd & Hf).
  split_and!; [exact H| | |].
  - intros w. pose proof (endpoint_round_wp w e H) as Hw. apply wp_ret in Hw as (r & Hw & _). by exists r.
  - intros id id' en en'. by apply ep_id_unique.
  - pose proof (recv_queued (ep_incoming e)) as [_ Hq]. unfold surfaced in Hf. rewrite Ha in Hf.
    unfold incoming, listener_accept. rewrite Hd.
    destruct (mpsc_recv (ep_incoming e)) as [[[i|]|] rx]; cbn [fst snd] in Hq;
      destruct deferred; cbn [negb]; try (by eexists); try (by intros r request [= <-]).
    + rewrite Hq in Hf. apply Forall_cons in Hf as [Hi _]. destruct i as [s|q]; [done|by eexists].
    + rewrite Hq in Hf. apply Forall_cons in Hf as [Hi _]. by destruct i as [s|q]; [intros r request [= <-]|].
Qed.

Lemma demultiplexer_is_consistent_witness :
  exists e, ex_accepting = Ret (true, e) /\ @ep_ok vec_bytes toy_prims _ _ e /\
    ep_connections e !! ex_addr = Some 0%nat /\ ep_replies e = [(7%nat, inr 0%nat)].
Proof.
  assert (rng_fills zero_rng) as Hrng by (intros i n; apply length_replicate).
  pose proof ex_accepting_reached as Hr. pose proof ex_accepting_state as Hs.
  destruct ex_accepting as [[continue e]|]; [|done]. cbn [wp fst snd] in Hr, Hs.
  destruct Hr as (handle & e0 & Hb & Hr).
  destruct (@demultiplexer_is_consistent vec_bytes vec_bytes_spec toy_prims toy_spec _ _ _ log_runtime _ _
    chan_state_spec false zero_rng ex_local config_default true ex_runtime ex_runtime handle e0 e
    Hrng ltac:(done) Hb Hr) as [H _].
  destruct Hs as (-> & Hc & Hrep & _).
  exists e. split; [done|]. split; [exact H|]. by split.
Defined.

(** C40 (functional).  Where one read of the socket goes, in every reachable
    state.  From a known address: every segment, stamped with the arrival time,
    goes to that address's driver and nothing else changes; what does not fit
    the driver's channel is dropped, and a driver that is gone is forgotten.  From
    an unknown address, when the first segment's destination id is in the
    table: that connection moves to the new address, the driver's own
    sends included, on the word of that one unauthenticated datagram, and the
    segments follow.  Otherwise the core listener is fed every segment.  A
    deferred endpoint then queues for the application as many of the connection
    requests as its queue has room for, in order, and turns the others away; an
    accepting one starts one task and queues one stream for each request it
    accepts, in order.  A request that did not reach the application is no longer parked.
    Every response waiting is then sent, in order.
    The endpoint stops there only when the application dropped its handle or the
    socket refused one of those responses, and no existing task's channel is
    touched.  The id read is the one the core decodes. *)
Theorem datagrams_are_routed {B : BytesApi} {HB : BytesSpec B} {P : CryptoPrims}
  {HP : CryptoSpec P} {K : Type} {HK : AsyncUdpSocket K} {HU : UdpSpec K}
  {R : Type} {HR : Runtime R K} {Chan : Type -> Type} {HMp : Mpsc Chan} {HM : MpscSpec Chan}
  (big_endian : bool) (rng : nat -> nat -> list byte) (addr : SocketAddr) (config : Config)
  (deferred : bool) (rt rt' : R) (handle : SrtListener) (e0 e : Endpoint K Chan)
  (buf : list byte) (len stride : nat) (from : SocketAddr) (now : Instant) :
  rng_fills rng -> stream_id_fits_config config ->
  bind_inner big_endian rng addr config deferred rt = Ret (inr (handle, e0), rt') ->
  rtc ep_step e0 e ->
  (forall d p, packet_decode d = Ok p -> dest_socket_id d = Some (socket_id_value (packet_dest p))) /\
  match ep_connections e !! from, claimed_by buf len stride e with
  | Some tx, _ => exists e', on_datagrams buf len stride from now e = Ret (true, e') /\
      handed tx (gro_split buf len stride) now (forget_address from) e e'
  | None, Some (id, en) =>
      exists e', on_datagrams buf len stride from now e = Ret (true, e') /\
      handed (ie_tx en) (gro_split buf len stride) now (forget_both from id) (repin id en from e) e' /\
      ep_peers (repin id en from e) !! ie_tx en = Some from /\
      ep_connections (repin id en from e) !! from = Some (ie_tx en) /\
      (ie_addr en <> from -> ep_connections (repin id en from e) !! ie_addr en = None) /\
      ep_by_id (repin id en from e) !! id = Some (MkIdEntry (ie_tx en) from (ie_tx en))
  | None, None =>
      exists continue e', on_datagrams buf len stride from now e = Ret (continue, e') /\ leaves e e' /\
      heard (gro_split buf len stride) from now e continue e'
  end.
Proof.
  intros Hrng Hs E Hr. split; [intros d p; apply dest_socket_id_decode|].
  destruct (bound_keeps _ _ _ _ _ _ _ _ _ _ Hrng Hs E Hr) as [H _].
  destruct (ep_connections e !! from) as [tx|] eqn:Hc; [by apply on_datagrams_known|].
  destruct (claimed_by buf len stride e) as [[id en]|] eqn:Hid.
  - destruct (on_datagrams_claimed buf len stride from now e id en H Hc Hid) as (e' & E' & Hh).
    exists e'. split; [exact E'|]. split; [exact Hh|]. apply (repin_moves id en from e H); [|done].
    by eapply claimed_by_entry.
  - by apply on_datagrams_stranger.
Qed.

(** The caller's datagram comes from another port: the connection follows. *)
Lemma datagrams_are_routed_witness :
  exists e e', ex_accepting = Ret (true, e) /\ ep_peers e !! 0%nat = Some ex_addr /\
    @on_datagrams vec_bytes toy_prims _ _ _ _ ex_moved 17 17 ex_rebound 9 e = Ret (true, e') /\
    ep_peers e' !! 0%nat = Some ex_rebound /\
    queued <$> ep_channels e' !! 0%nat = Some [(9, ex_moved)].
Proof.
  assert (rng_fills zero_rng) as Hrng by (intros i n; apply length_replicate).
  pose proof ex_accepting_reached as Hr. pose proof ex_accepting_state as Hs.
  destruct ex_accepting as [[continue e]|]; [|done]. cbn [wp fst snd] in Hr, Hs.
  destruct Hr as (handle & e0 & Hb & Hr).
  destruct (@datagrams_are_routed vec_bytes vec_bytes_spec toy_prims toy_spec _ _ log_socket_spec _ log_runtime _ _
    chan_state_spec false zero_rng ex_local config_default true ex_runtime ex_runtime handle e0 e
    ex_moved 17 17 ex_rebound 9 Hrng ltac:(done) Hb Hr) as [_ H].
  destruct Hs as (-> & _ & _ & Hp & Hch & Hc & Hid). cbn [snd] in *.
  rewrite Hc, Hid in H. destruct H as (e' & He & (ch & ch' & Hch' & Hq & Ee) & Hp' & _).
  change (ep_channels e !! 0%nat = Some ch) in Hch'. rewrite Hch in Hch'. injection Hch' as <-.
  exists e, e'. split; [done|]. split; [exact Hp|]. split; [exact He|].
  destruct e as [sk l la aa cs ids inc dec chs ps sp rp]. subst e'. split; [exact Hp'|].
  change (queued <$> (<[0%nat := ch']> chs) !! 0%nat = Some [(9, ex_moved)]).
  rewrite lookup_insert_eq. cbn. by rewrite Hq.
Defined.
