(* ===== verification/DriverInv.v ===== *)
(** * DriverInv: what each part of the driver does to the core and the channels

    [run c calls es os c'] is a sequence of public calls with the events and
    outputs its polls returned.  [piece] says that a part of the driver is such
    a run, and accounts for everything it moved: payloads to the application,
    commands from it, demultiplexed datagrams in, datagrams out. *)

From coqutil Require Import Datatypes.RecordSetters.
From S2P Require Import Prelude Buf Errors Seq Time Timestamp PacketTypes Handshake Control Packet KeyMaterial Crypto Config Event ConnState Rekey Arq Setup Conn ConnInv ConnStart Listener Session Batch Runtime Driver.

(** ** Runs of the core *)

Definition polled_event (call : ConnCall) (c : Connection) : list Event :=
  match call with CallPollEvent => option_list (poll_event c).1 | _ => [] end.
Definition polled_output (call : ConnCall) (c : Connection) : list Output :=
  match call with CallPollOutput => option_list (poll_output c).1 | _ => [] end.

Section Runs.
Context {B : BytesApi} {P : CryptoPrims}.

Inductive run : Connection -> list ConnCall -> list Event -> list Output -> Connection -> Prop :=
  | run_nil c : run c [] [] [] c
  | run_cons c call c1 calls es os c2 :
      call_ok call -> conn_step call c = Ret c1 -> run c1 calls es os c2 ->
      run c (call :: calls) (polled_event call c ++ es) (polled_output call c ++ os) c2.

Lemma run_app c1 calls es os c2 calls' es' os' c3 :
  run c1 calls es os c2 -> run c2 calls' es' os' c3 ->
  run c1 (calls ++ calls') (es ++ es') (os ++ os') c3.
Proof.
  induction 1 as [c|c call c1 calls es os c2 Hc Hs Hr IH]; [done|]. intros H.
  rewrite <- !app_assoc. cbn [app]. econstructor; [done|exact Hs|by apply IH].
Qed.

Lemma run_one c call c1 :
  call_ok call -> conn_step call c = Ret c1 ->
  run c [call] (polled_event call c) (polled_output call c) c1.
Proof.
  intros Hc Hs. rewrite <- (app_nil_r (polled_event _ _)), <- (app_nil_r (polled_output _ _)).
  econstructor; [done|exact Hs|constructor].
Qed.

(** A call that is no poll. *)
Lemma run_call c call c1 :
  call_ok call -> is_poll call = false -> conn_step call c = Ret c1 -> run c [call] [] [] c1.
Proof. intros Hc Hp Hs. pose proof (run_one c call c1 Hc Hs) as H. by destruct call. Qed.

(** The run of a list of calls. *)
Fixpoint run_calls (calls : list ConnCall) (c : Connection)
  : panicky (list Event * list Output * Connection) :=
  match calls with
  | [] => Ret ([], [], c)
  | call :: calls =>
      c1 ← conn_step call c;
      '(es, os, c2) ← run_calls calls c1;
      Ret (polled_event call c ++ es, polled_output call c ++ os, c2)
  end.

Lemma run_calls_run calls c :
  Forall call_ok calls -> wlp (run_calls calls c) (fun r => run c calls r.1.1 r.1.2 r.2).
Proof.
  intros H. revert c. induction H as [|call calls Hc _ IH]; intros c; cbn [run_calls]; [constructor|].
  destruct (conn_step call c) as [c1|] eqn:E; [|done]. cbn [mbind panicky_bind].
  eapply wlp_bind; [apply IH|]. intros [[es os] c2] Hr. cbn [fst snd wlp] in *. by econstructor.
Qed.

Lemma run_calls_total calls c Q :
  Forall call_ok calls -> wp (run_calls calls c) Q ->
  exists es os c', run c calls es os c' /\ Q (es, os, c').
Proof.
  intros Hc. pose proof (run_calls_run calls c Hc) as Hr.
  destruct (run_calls calls c) as [[[es os] c']|]; [|done]. intros HQ. by exists es, os, c'.
Qed.

Lemma run_reaches c calls es os c' : run c calls es os c' -> reaches c c'.
Proof.
  induction 1 as [c|c call c1 calls es os c2 Hc Hs Hr IH]; [constructor|].
  eapply reaches_trans; [|exact IH]. eapply reaches_step; [constructor|done|exact Hs].
Qed.
End Runs.

Section RunsOk.
Context {B : BytesApi} {HB : BytesSpec B} {P : CryptoPrims} {HP : CryptoSpec P}.

Lemma run_ok c calls es os c' :
  run c calls es os c' -> conn_ok c /\ queues_ok c -> conn_ok c' /\ queues_ok c'.
Proof.
  induction 1 as [c|c call c1 calls es os c2 Hc Hs Hr IH]; [done|]. intros [Hok Hq].
  apply IH. split; [|by eapply conn_step_queues].
  pose proof (conn_step_wp call c Hok Hc) as H. rewrite Hs in H. apply H.
Qed.

Lemma run_outputs_ok c calls es os c' :
  run c calls es os c' -> conn_ok c /\ queues_ok c -> Forall output_ok os.
Proof.
  induction 1 as [c|c call c1 calls es os c2 Hc Hs Hr IH]; [constructor|]. intros [Hok Hq].
  apply Forall_app. split.
  - destruct call; try constructor. cbn. unfold poll_output. destruct Hq as [_ Hq].
    destruct (cn_outputs c); cbn; constructor; [by apply Forall_cons in Hq as [? _]|constructor].
  - apply IH. split; [|by eapply conn_step_queues].
    pose proof (conn_step_wp call c Hok Hc) as H. rewrite Hs in H. apply H.
Qed.
End RunsOk.

(** ** What the calls and events carry *)

Definition payloads (es : list Event) : list (list byte) :=
  omap (fun e => match e with EvDataReceived m => Some m | _ => None end) es.
Definition sent_by (calls : list ConnCall) : list (list byte) :=
  omap (fun call => match call with CallSend m _ => Some m | _ => None end) calls.
Definition fed_by (calls : list ConnCall) : list (Instant * list byte) :=
  omap (fun call => match call with CallFeed d at_ => Some (at_, d) | _ => None end) calls.
Definition messages (cmds : list Command) : list (list byte) :=
  omap (fun cmd => match cmd with CmdSend m => Some m | _ => None end) cmds.

(** ** Sends *)

Lemma snd_pair {A C} (a : A) (l : list C) : snd <$> (pair a <$> l) = l.
Proof. induction l as [|x l IH]; [done|]. by rewrite !fmap_cons, IH. Qed.

Section Sends.
Context {K : Type} {HK : AsyncUdpSocket K} {HU : UdpSpec K}.

(** A send loop put the first [n] of [ds] on the wire, all of them if it succeeded. *)
Definition sends_of (peer : SocketAddr) (ds : list (list byte)) (k : K)
  (r : IoResult unit * K) : Prop :=
  gso_limit r.2 = gso_limit k /\
  exists n, wire r.2 = wire k ++ (pair peer <$> take n ds) /\
    forall u, r.1 = inr u -> (length ds <= n)%nat.

Lemma sends_of_all peer ds k u k' :
  sends_of peer ds k (inr u, k') -> wire k' = wire k ++ (pair peer <$> ds).
Proof.
  intros (_ & n & Hw & Hn). cbn [fst snd] in *. specialize (Hn u eq_refl). by rewrite Hw, take_ge.
Qed.

(** Sequencing: the second loop only runs when the first succeeded. *)
Lemma sends_of_seq peer ds ds' k r f :
  sends_of peer ds k r ->
  (forall k', gso_limit k' = gso_limit k -> sends_of peer ds' k' (f k')) ->
  sends_of peer (ds ++ ds') k
    (match r with (inr _, k') => f k' | (inl e, k') => (inl e, k') end).
Proof.
  destruct r as [[e|u] k1]; intros (Hm & n & Hw & Hn) Hf; cbn [fst snd] in *.
  - split; [done|]. exists (Nat.min n (length ds)). split; [|done]. cbn [snd]. rewrite Hw.
    rewrite take_app_le by lia. do 2 f_equal. destruct (Nat.le_ge_cases n (length ds)).
    + by rewrite Nat.min_l.
    + by rewrite Nat.min_r, !take_ge by lia.
  - specialize (Hn u eq_refl). rewrite take_ge in Hw by lia.
    destruct (Hf k1 Hm) as (Hm' & n' & Hw' & Hn'). split; [congruence|].
    exists (length ds + n')%nat. split.
    + rewrite Hw', Hw, take_app_add, fmap_app. by rewrite <- app_assoc.
    + intros v Hv. specialize (Hn' v Hv). rewrite length_app. lia.
Qed.

Lemma poll_send_of peer d k : sends_of peer [d] k (poll_send d peer k).
Proof.
  split; [apply poll_send_limit|]. rewrite poll_send_wire.
  destruct (poll_send d peer k).1 as [e|u].
  - exists 0%nat. split; [done|]. intros u. discriminate.
  - exists 1%nat. by split.
Qed.

Lemma send_each_of peer ds k : sends_of peer ds k (send_each peer ds k).
Proof.
  revert k. induction ds as [|d ds IH]; intros k; cbn [send_each].
  - split; [done|]. exists 0%nat. split; [by rewrite app_nil_r|done].
  - pose proof (sends_of_seq peer [d] ds k _ (send_each peer ds) (poll_send_of peer d k)
      (fun k' _ => IH k')) as H.
    by destruct (poll_send d peer k) as [[e|u] k1].
Qed.

Lemma send_batch_of peer batch k :
  (1 < gso_limit k)%nat -> batch_ok (gso_limit k) batch ->
  Forall (fun d => (1 <= length d)%nat) batch -> sends_of peer batch k (send_batch peer batch k).
Proof.
  intros Hmax Hb Hne. destruct batch as [|first rest]; [done|]. destruct Hb as [Hl Heq].
  apply Forall_cons in Hne as [Hf Hne]. destruct rest as [|second rest]; [apply poll_send_of|].
  change (send_batch peer (first :: second :: rest) k)
    with (poll_send_gso (concat (first :: second :: rest)) (length first) peer k).
  assert (segments (length first) (concat (first :: second :: rest)) = first :: second :: rest) as Hs.
  { apply segments_concat; [done|]. by constructor. }
  destruct (poll_send_gso_wire (concat (first :: second :: rest)) (length first) peer k) as (n & Hw & Hn);
    [done|done|rewrite Hs; simpl in *; lia|].
  rewrite Hs in Hw, Hn. split; [apply poll_send_gso_limit|]. by exists n.
Qed.

Lemma send_batches_of peer batches k :
  (1 < gso_limit k)%nat -> Forall (batch_ok (gso_limit k)) batches ->
  Forall (fun d => (1 <= length d)%nat) (concat batches) ->
  sends_of peer (concat batches) k (send_batches peer batches k).
Proof.
  intros Hmax Hb. remember (gso_limit k) as m eqn:Em. revert k Em.
  induction Hb as [|batch batches Hb Hbs IH]; intros k -> Hne; cbn [send_batches concat].
  - split; [done|]. exists 0%nat. split; [by rewrite app_nil_r|done].
  - cbn [concat] in Hne. apply Forall_app in Hne as [Hne1 Hne2].
    pose proof (sends_of_seq peer batch (concat batches) k _ (send_batches peer batches)
      (send_batch_of peer batch k Hmax Hb Hne1)) as H.
    destruct (send_batch peer batch k) as [[e|u] k1]; apply H; intros k' Hk';
      (apply IH; [by rewrite Hk'|done]).
Qed.

(** The whole flush, batched or not. *)
Lemma flush_sends_of peer ds k :
  Forall (fun d => (1 <= length d)%nat) ds -> sends_of peer ds k (flush_sends peer ds k).
Proof.
  intros Hne. unfold flush_sends. destruct (Nat.leb_spec (max_gso_segments k) 1) as [Hm|Hm];
    [apply send_each_of|].
  rewrite <- (gso_batches_concat ds (max_gso_segments k)) at 1. apply send_batches_of.
  - pose proof (max_within_limit k). lia.
  - eapply Forall_impl; [apply gso_batches_ok|]. intros [|first rest]; [done|].
    pose proof (max_within_limit k). intros [Hl Heq]. split; [lia|done].
  - by rewrite gso_batches_concat.
Qed.
End Sends.

Section Pieces.
Context {B : BytesApi} {HB : BytesSpec B} {P : CryptoPrims} {HP : CryptoSpec P}.
Context {K : Type} {HK : AsyncUdpSocket K} {HU : UdpSpec K}.
Context {Chan : Type -> Type} {HMp : Mpsc Chan} {HM : MpscSpec Chan}.
Implicit Types d : Driver K Chan.

(** Payloads on their way to the application. *)
Definition stream d : list (list byte) :=
  queued (sh_data (dr_channels d)) ++ option_list (dr_pending_data d).
Definition app_reads d : bool := receiving (sh_data (dr_channels d)).
Definition commands d : list Command := queued (sh_commands (dr_channels d)).
Definition arrivals d : list (Instant * list byte) :=
  match dr_inbound d with Owned => [] | Demuxed rx => queued rx end.
Definition sent_wire d : list (list byte) := snd <$> wire (dr_socket d).

(** What a part of the driver did, apart from the wire; [heard] is what it read
    off its own socket. *)
Record piece (heard : list (Instant * list byte)) (calls : list ConnCall) (es : list Event)
  (os : list Output) d d' : Prop := {
  pc_run : run (dr_conn d) calls es os (dr_conn d');
  pc_reads : app_reads d' = app_reads d;
  pc_data : app_reads d = true -> stream d' = stream d ++ payloads es;
  pc_sent : messages (commands d) = sent_by calls ++ messages (commands d');
  pc_commands : (length (commands d') <= length (commands d))%nat;
  pc_owned : owned (dr_inbound d') = owned (dr_inbound d);
  pc_fed : arrivals d ++ heard = fed_by calls ++ arrivals d';
}.

Lemma piece_refl d : piece [] [] [] [] d d.
Proof. constructor; rewrite ?app_nil_r; try done. constructor. Qed.

Lemma piece_trans heard calls es os heard' calls' es' os' d1 d2 d3 :
  piece heard calls es os d1 d2 -> piece heard' calls' es' os' d2 d3 ->
  piece (heard ++ heard') (calls ++ calls') (es ++ es') (os ++ os') d1 d3.
Proof.
  intros [A1 A2 A3 A4 A5 A6 A7] [B1 B2 B3 B4 B5 B6 B7]. constructor.
  - by eapply run_app.
  - congruence.
  - intros H. rewrite B3 by congruence. rewrite A3 by done.
    unfold payloads. by rewrite omap_app, app_assoc.
  - rewrite A4, B4. unfold sent_by. by rewrite omap_app, app_assoc.
  - lia.
  - congruence.
  - rewrite app_assoc, A7, <- app_assoc, B7. unfold fed_by. by rewrite omap_app, app_assoc.
Qed.

(** A part that is some piece and leaves the socket alone. *)
Definition works d d' : Prop :=
  (exists calls es, piece [] calls es [] d d') /\ dr_socket d' = dr_socket d.

Lemma works_trans d1 d2 d3 : works d1 d2 -> works d2 d3 -> works d1 d3.
Proof.
  intros [(calls & es & H) Hs] [(calls' & es' & H') Hs']. split; [|congruence].
  exists (calls ++ calls'), (es ++ es'). exact (piece_trans _ _ _ _ _ _ _ _ _ _ _ H H').
Qed.

Lemma works_refl d : works d d.
Proof. split; [|done]. exists [], []. apply piece_refl. Qed.

Definition driver_ok d : Prop := conn_ok (dr_conn d) /\ queues_ok (dr_conn d).

Lemma piece_ok heard calls es os d d' : piece heard calls es os d d' -> driver_ok d -> driver_ok d'.
Proof. intros H Hok. eapply run_ok; [apply H|exact Hok]. Qed.

Lemma works_ok d d' : works d d' -> driver_ok d -> driver_ok d'.
Proof. intros [(calls & es & H) _]. by eapply piece_ok. Qed.

Lemma wp_works_bind {A C} d (m : panicky A) (f : A -> Driver K Chan) (k : A -> panicky C) Q :
  driver_ok d -> wp m (fun a => works d (f a)) ->
  (forall a, works d (f a) -> driver_ok (f a) -> wp (k a) Q) -> wp (m ≫= k) Q.
Proof.
  intros Hok Hm Hk. eapply wp_bind; [exact Hm|]. intros a Ha. apply Hk; [exact Ha|].
  exact (works_ok _ _ Ha Hok).
Qed.

(** Updates of the connection by one call that carries nothing of its own. *)
Lemma works_call call c d d' :
  call_ok call -> is_poll call = false -> sent_by [call] = [] -> fed_by [call] = [] ->
  conn_step call (dr_conn d) = Ret c -> dr_conn d' = c -> dr_channels d' = dr_channels d ->
  dr_inbound d' = dr_inbound d -> dr_pending_data d' = dr_pending_data d ->
  dr_socket d' = dr_socket d -> works d d'.
Proof.
  intros Hc Hp Hsent Hfed Hs Ec Ech Ein Epd Esk. split; [|done]. exists [call], [].
  constructor; unfold app_reads, stream, commands, arrivals; rewrite ?Ech, ?Ein, ?Epd, ?Hsent, ?Hfed, ?app_nil_r;
    try done. by rewrite Ec; apply run_call.
Qed.

(** Everything that is not the connection's or a channel's. *)
Lemma works_local d d' :
  dr_conn d' = dr_conn d -> sh_commands (dr_channels d') = sh_commands (dr_channels d) ->
  sh_data (dr_channels d') = sh_data (dr_channels d) ->
  dr_inbound d' = dr_inbound d -> dr_pending_data d' = dr_pending_data d ->
  dr_socket d' = dr_socket d -> works d d'.
Proof.
  intros Ec E1 E2 Ein Epd Esk. split; [|done]. exists [], [].
  constructor; unfold app_reads, stream, commands, arrivals; rewrite ?E1, ?E2, ?Ein, ?Epd, ?app_nil_r;
    try done. rewrite Ec. constructor.
Qed.

(** ** Due timers *)

Lemma fire_timers_wp due now d :
  driver_ok d -> wp (fire_timers due now d) (works d).
Proof.
  revert d. induction due as [|id due IH]; intros d Hok; cbn [fire_timers]; [by apply works_refl|].
  pose proof (handle_timer_wp id now (dr_conn d) (proj1 Hok)) as Hw.
  destruct (handle_timer id now (dr_conn d)) as [c|] eqn:E; [|done]. cbn [mbind panicky_bind].
  match goal with |- wp (fire_timers _ _ ?d1) _ => assert (works d d1) as H1 end.
  { by apply (works_call (CallTimer id now) c). }
  eapply wp_mono; [apply IH; by eapply works_ok|]. intros d' H'. by eapply works_trans.
Qed.

(** ** Outputs *)

(** What the outputs leave in the wheel. *)
Definition apply_timer (now : Instant) (timers : Timers) (o : Output) : Timers :=
  match o with
  | SetTimer id after => <[id := now + after]> timers
  | ClearTimer id => delete id timers
  | SendDatagram _ => timers
  end.

Lemma collect_outputs_spec fuel now c timers sends :
  (length (cn_outputs c) < fuel)%nat ->
  exists c' calls, collect_outputs fuel now c timers sends =
      Ret (c', foldl (apply_timer now) timers (cn_outputs c), sends ++ datagrams (cn_outputs c)) /\
    run c calls [] (cn_outputs c) c' /\ sent_by calls = [] /\ fed_by calls = [] /\
    cn_events c' = cn_events c /\ cn_outputs c' = [].
Proof.
  revert c timers sends. induction fuel as [|fuel IH]; intros c timers sends Hf; [lia|].
  cbn [collect_outputs]. destruct (cn_outputs c) as [|o os] eqn:E.
  - unfold poll_output. rewrite E. exists c, []. rewrite app_nil_r. split_and!; try done. constructor.
  - rewrite (poll_output_cons o os c E).
    destruct (IH (c <| cn_outputs := os |>) (apply_timer now timers o)
                (match o with SendDatagram d => sends ++ [d] | _ => sends end)) as (c' & calls & Hc & Hr & H1 & H2 & H3 & H4).
    { change (length os < fuel)%nat. simpl in Hf. lia. }
    change (cn_outputs (c <| cn_outputs := os |>)) with os in Hc, Hr.
    exists c', (CallPollOutput :: calls). split_and!; try done.
    + destruct o; (etransitivity; [exact Hc|]); [|done..]. cbn. by rewrite <- app_assoc.
    + pose proof (run_cons c CallPollOutput (c <| cn_outputs := os |>) calls [] os c' I) as H.
      cbn [conn_step polled_event polled_output] in H. rewrite (poll_output_cons o os c E) in H.
      by apply H.
Qed.
End Pieces.

Section Rounds.
Context {B : BytesApi} {HB : BytesSpec B} {P : CryptoPrims} {HP : CryptoSpec P}.
Context {K : Type} {HK : AsyncUdpSocket K} {HU : UdpSpec K}.
Context {Chan : Type -> Type} {HMp : Mpsc Chan} {HM : MpscSpec Chan} {HO : HashOrder}.
Context (rng : nat -> nat -> list byte) (Hrng : rng_fills rng).
Implicit Types d : Driver K Chan.

Lemma output_datagrams_ok os :
  Forall output_ok os -> Forall (fun bs => (1 <= length bs)%nat) (datagrams os).
Proof using.
  induction 1 as [|o os Ho Hos IH]; [constructor|]. destruct o; [|done|done].
  constructor; [simpl in Ho; lia|exact IH].
Qed.

Lemma drain_outputs_spec peer now d :
  driver_ok d -> exists r d' calls,
    drain_outputs peer now d = Ret (r, d') /\
    piece [] calls [] (cn_outputs (dr_conn d)) d d' /\
    sends_of peer (datagrams (cn_outputs (dr_conn d))) (dr_socket d) (r, dr_socket d') /\
    dr_timers d' = foldl (apply_timer now) (dr_timers d) (cn_outputs (dr_conn d)) /\
    cn_outputs (dr_conn d') = [] /\
    dr_pending_data d' = dr_pending_data d.
Proof.
  intros [Hok Hq]. unfold drain_outputs.
  destruct (collect_outputs_spec (S (length (cn_outputs (dr_conn d)))) now (dr_conn d) (dr_timers d)
    []) as (c' & calls & -> & Hr & H1 & H2 & _ & H3); [lia|].
  cbn [mbind panicky_bind app].
  pose proof (flush_sends_of peer (datagrams (cn_outputs (dr_conn d))) (dr_socket d)
    (output_datagrams_ok _ (proj2 Hq))) as Hs.
  destruct (flush_sends _ _ _) as [r k]. eexists r, _, calls. split; [reflexivity|].
  split_and!; try done. by constructor; rewrite ?H1, ?H2, ?app_nil_r.
Qed.

Lemma provide_rekey_events sek now c :
  wp (provide_rekey sek now c) (fun c' => cn_events c' = cn_events c) \/
  provide_rekey sek now c = Panic.
Proof using.
  unfold provide_rekey. destruct (negb _); [by left|].
  destruct (cfg_encryption _); [|by left]. destruct (cn_crypto c); [|by left].
  destruct (sc_salt _); [|by left]. destruct (sk_from_raw _ _ _ _ _) as [[keys km]|]; [|by right].
  cbn [mbind panicky_bind]. match goal with |- context [km_control ?a ?b ?n ?c'] =>
    destruct (km_control a b n c') end; [by left|by right].
Qed.

(** Handing a payload over, or parking it. *)
Lemma offer_data_spec payload d :
  dr_pending_data d = None ->
  let '(parked, d') := offer_data payload d in
  dr_conn d' = dr_conn d /\ dr_inbound d' = dr_inbound d /\ dr_socket d' = dr_socket d /\
  sh_commands (dr_channels d') = sh_commands (dr_channels d) /\ app_reads d' = app_reads d /\
  (app_reads d = true -> stream d' = stream d ++ [payload]) /\
  dr_pending_data d' = if parked then Some payload else None.
Proof using HM.
  intros Hp. unfold offer_data.
  pose proof (try_send_cases payload (sh_data (dr_channels d))) as [Hr Hc].
  destruct (mpsc_try_send _ _) as [[|b|b] ch]; cbn [fst snd] in *.
  - destruct Hc as [Hrc Hq]. split_and!; try done; try exact Hr.
    intros _. unfold stream. change (queued ch ++ option_list (dr_pending_data d) =
      (queued (sh_data (dr_channels d)) ++ option_list (dr_pending_data d)) ++ [payload]).
    by rewrite Hq, Hp, !app_nil_r.
  - destruct Hc as (Hrc & -> & Hq). split_and!; try done; try exact Hr. intros _. unfold stream.
    change (queued ch ++ [payload] =
      (queued (sh_data (dr_channels d)) ++ option_list (dr_pending_data d)) ++ [payload]).
    by rewrite Hq, Hp, app_nil_r.
  - destruct Hc as (Hrc & -> & Hq). split_and!; try done; try exact Hr.
    unfold app_reads. intros H. congruence.
Qed.

(** Taking the next event and acting on it. *)

Lemma signal_connected_works outcome d : works d (signal_connected outcome d).
Proof using.
  unfold signal_connected. destruct (sh_connected (dr_channels d)); [|apply works_refl].
  by apply works_local.
Qed.

Lemma poll_event_run c e rest :
  cn_events c = e :: rest -> run c [CallPollEvent] [e] [] (c <| cn_events := rest |>).
Proof using.
  intros E. pose proof (run_one c CallPollEvent (c <| cn_events := rest |>) I) as H.
  cbn [conn_step polled_event polled_output] in H. rewrite (poll_event_cons _ _ _ E) in H. by apply H.
Qed.

Lemma works_poll_event e rest d :
  cn_events (dr_conn d) = e :: rest -> payloads [e] = [] ->
  works d (d <| dr_conn := ((dr_conn d) <| cn_events := rest |>) |>).
Proof using.
  intros E Hp. split; [|done]. exists [CallPollEvent], [e].
  pose proof (poll_event_run _ _ _ E) as Hr. by constructor; rewrite ?Hp, ?app_nil_r.
Qed.

Lemma handle_event_wp e rest now d :
  driver_ok d -> cn_events (dr_conn d) = e :: rest -> dr_pending_data d = None ->
  wp (handle_event rng e now (d <| dr_conn := ((dr_conn d) <| cn_events := rest |>) |>))
    (fun r => works d r.2 /\
      match r.1 with
      | None => dr_pending_data r.2 = None /\ cn_events (dr_conn r.2) = rest
      | Some b => b = false -> is_Some (dr_pending_data r.2)
      end).
Proof using HB HP HM Hrng.
  intros Hok E Hp. set (d1 := d <| dr_conn := _ |>).
  destruct e as [n|m|x| |n]; cbn [handle_event].
  - pose proof (works_poll_event _ _ _ E eq_refl) as H1. cbn [wp fst snd]. split.
    + eapply works_trans; [exact H1|]. apply signal_connected_works.
    + unfold signal_connected. by destruct (sh_connected _).
  - pose proof (offer_data_spec m d1 Hp) as H. destruct (offer_data m d1) as [parked d'].
    destruct H as (H1 & H2 & H3 & H4 & H5 & H6 & H7).
    assert (works d d') as Hw.
    { split; [|exact H3]. exists [CallPollEvent], [EvDataReceived m].
      pose proof (poll_event_run _ _ _ E) as Hr.
      change ((dr_conn d) <| cn_events := rest |>) with (dr_conn d1) in Hr. rewrite <- H1 in Hr.
      constructor; unfold commands, arrivals; rewrite ?H2, ?H4, ?app_nil_r; try done. }
    destruct parked; cbn [wp fst snd]; (split; [exact Hw|]).
    + intros _. rewrite H7. by eexists.
    + split; [exact H7|]. by rewrite H1.
  - pose proof (works_poll_event _ _ _ E eq_refl) as H1. cbn [wp fst snd]. split; [|done].
    eapply works_trans; [exact H1|]. apply signal_connected_works.
  - cbn [wp fst snd]. split; [|done]. by apply (works_poll_event EvClosed).
  - pose proof (works_poll_event _ _ _ E eq_refl) as H1. pose proof (works_ok _ _ H1 Hok) as Hok1.
    assert (valid_key_length (length (rng (dr_draws d1) n)) = true) as Hk.
    { rewrite (Hrng _ _). destruct (proj2 Hok) as [Hev _]. rewrite E in Hev.
      by apply Forall_cons in Hev as [Hev _]. }
    pose proof (provide_rekey_wp (rng (dr_draws d1) n) now (dr_conn d1) (proj1 Hok1) Hk) as Hw.
    pose proof (provide_rekey_events (rng (dr_draws d1) n) now (dr_conn d1)) as Hev.
    destruct (provide_rekey _ _ _) as [c|] eqn:Ec; [|done]. destruct Hev as [Hev|Hev]; [|done].
    cbn [mbind panicky_bind wp fst snd] in *. split; [|split; [exact Hp|exact Hev]].
    eapply works_trans; [exact H1|].
    by apply (works_call (CallRekey (rng (dr_draws d1) n) now) c).
Qed.

Lemma events_loop_wp fuel now d :
  driver_ok d -> (length (cn_events (dr_conn d)) < fuel)%nat -> dr_pending_data d = None ->
  wp (events_loop rng fuel now d) (fun r => works d r.2 /\
    (r.1 = false -> dr_pending_data r.2 = None -> cn_events (dr_conn r.2) = [])).
Proof using HB HP HM Hrng.
  revert d. induction fuel as [|fuel IH]; intros d Hok Hf Hp; [lia|]. cbn [events_loop].
  destruct (cn_events (dr_conn d)) as [|e rest] eqn:E.
  - unfold poll_event. rewrite E. split; [by apply works_local|done].
  - rewrite (poll_event_cons e rest (dr_conn d) E).
    eapply wp_bind; [by apply handle_event_wp|]. intros [[b|] d'] [Hw Hn]; cbn [fst snd] in *.
    + split; [exact Hw|]. intros Hb Hp'. destruct (Hn Hb) as [x Hx].
      cbn [snd] in Hp'. congruence.
    + destruct Hn as [Hp' E']. eapply wp_mono.
      { apply IH; [by eapply works_ok| |exact Hp']. rewrite E'. simpl in Hf. lia. }
      intros [b d2] [Hw2 Hd]. split; [by eapply works_trans|exact Hd].
Qed.

(** The re-offered payload goes first. *)
Lemma drain_events_wp now d :
  driver_ok d -> wp (drain_events rng now d) (fun r => works d r.2 /\
    (r.1 = false -> dr_pending_data r.2 = None -> cn_events (dr_conn r.2) = [])).
Proof using HB HP HM Hrng.
  intros Hok. unfold drain_events. destruct (dr_pending_data d) as [payload|] eqn:E.
  2: { apply events_loop_wp; [done|lia|done]. }
  pose proof (offer_data_spec payload (d <| dr_pending_data := None |>) eq_refl) as H.
  destruct (offer_data payload _) as [parked d']. destruct H as (H1 & H2 & H3 & H4 & H5 & H6 & H7).
  assert (works d d') as Hw.
  { split; [|exact H3]. exists [], [].
    constructor; unfold commands, arrivals; rewrite ?H1, ?H2, ?H4, ?app_nil_r; try done; [constructor|].
    intros Hr. rewrite (H6 Hr). unfold stream. cbn. by rewrite E, app_nil_r. }
  destruct parked; cbn [wp fst snd].
  - split; [exact Hw|]. intros _ Hn. congruence.
  - eapply wp_mono; [apply events_loop_wp; [by eapply works_ok|rewrite H1; apply Nat.lt_succ_diag_r|exact H7]|].
    intros [b d2] [Hw2 Hd]. split; [by eapply works_trans|exact Hd].
Qed.

(** One round up to the [select!]: it returns; unless a send failed, everything
    the core had queued is on the wire. *)
Lemma loop_head_wp peer now d :
  driver_ok d -> wp (loop_head rng peer now d) (fun r => exists calls es os,
    piece [] calls es os d r.2 /\
    ((sent_wire r.2 = sent_wire d ++ datagrams os /\
      (r.1 = false -> dr_pending_data r.2 = None -> cn_events (dr_conn r.2) = [])) \/
     (r.1 = true /\ prefix (sent_wire r.2) (sent_wire d ++ datagrams os)))).
Proof using HB HP HM HU Hrng.
  intros Hok. unfold loop_head. eapply wp_works_bind with (f := fun d => d);
    [exact Hok|by apply fire_timers_wp|]. intros d1 [(calls1 & es1 & H1) Hk1] Hok1.
  destruct (drain_outputs_spec peer now d1 Hok1) as (r & d2 & calls2 & -> & H2 & Hs & _).
  cbn [mbind panicky_bind]. pose proof (piece_trans _ _ _ _ _ _ _ _ _ _ _ H1 H2) as H12.
  set (os := cn_outputs (dr_conn d1)) in *. cbn [app] in H12.
  assert (sent_wire d1 = sent_wire d) as Hsw by (unfold sent_wire; by rewrite Hk1).
  destruct r as [e|u].
  - cbn [wp fst snd]. eexists _, _, _. split; [exact H12|]. right. split; [done|].
    destruct Hs as (_ & n & Hw & _). cbn [snd] in Hw. unfold sent_wire in *. rewrite <- Hsw, Hw.
    rewrite fmap_app, snd_pair. apply prefix_app. exists (drop n (datagrams os)). by rewrite take_drop.
  - pose proof (sends_of_all _ _ _ _ _ Hs) as Hw.
    eapply wp_mono; [apply drain_events_wp; by eapply piece_ok|].
    intros [b d3] [[(calls3 & es3 & H3) Hk3] Hd]. cbn [fst snd] in *.
    eexists _, _, _. split; [exact (piece_trans _ _ _ _ _ _ _ _ _ _ _ H12 H3)|]. left.
    split; [|exact Hd]. rewrite app_nil_r. unfold sent_wire in *. rewrite Hk3, Hw, fmap_app, Hsw.
    by rewrite snd_pair.
Qed.
End Rounds.

Section Arms.
Context {B : BytesApi} {HB : BytesSpec B} {P : CryptoPrims} {HP : CryptoSpec P}.
Context {K : Type} {HK : AsyncUdpSocket K} {HU : UdpSpec K}.
Context {Chan : Type -> Type} {HMp : Mpsc Chan} {HM : MpscSpec Chan}.
Implicit Types d : Driver K Chan.

Lemma feed_segments_wp segments now c :
  conn_ok c -> wp (feed_segments segments now c) (fun c' => exists calls,
    run c calls [] [] c' /\ sent_by calls = [] /\ fed_by calls = pair now <$> segments).
Proof using HB HP.
  revert c. induction segments as [|s segments IH]; intros c Hok; cbn [feed_segments].
  { exists []. split_and!; [constructor|done..]. }
  pose proof (feed_recv_buf_wp s now c Hok) as Hw.
  destruct (feed_recv_buf s now c) as [c1|] eqn:E; [|done]. cbn [mbind panicky_bind].
  eapply wp_mono; [apply IH, Hw|]. intros c' (calls & Hr & H1 & H2).
  exists (CallFeed s now :: calls). split_and!.
  - exact (run_cons c (CallFeed s now) c1 calls [] [] c' I E Hr).
  - exact H1.
  - cbn. by rewrite <- H2.
Qed.

(** Command [next] was taken from the channel of [d0]; nothing else moved. *)
Record popped (next : option Command) d0 d : Prop := {
  po_conn : dr_conn d = dr_conn d0;
  po_data : sh_data (dr_channels d) = sh_data (dr_channels d0);
  po_inbound : dr_inbound d = dr_inbound d0;
  po_pending : dr_pending_data d = dr_pending_data d0;
  po_socket : dr_socket d = dr_socket d0;
  po_commands : messages (commands d0) = messages (option_list next) ++ messages (commands d);
  po_length : (length (commands d) + length (option_list next) <= length (commands d0))%nat;
}.

Lemma popped_works next d0 d d' call c :
  popped next d0 d -> dr_conn d' = c -> dr_channels d' = dr_channels d ->
  dr_inbound d' = dr_inbound d -> dr_pending_data d' = dr_pending_data d ->
  dr_socket d' = dr_socket d -> call_ok call -> is_poll call = false ->
  conn_step call (dr_conn d) = Ret c -> sent_by [call] = messages (option_list next) ->
  fed_by [call] = [] -> works d0 d'.
Proof using.
  intros [P1 P2 P3 P4 P5 P6 P7] E1 E2 E3 E4 E5 Hc Hp Hs Hsent Hfed. split; [|congruence].
  exists [call], []. assert (commands d' = commands d) as Ecm by (unfold commands; by rewrite E2).
  constructor.
  - rewrite E1, <- P1. by apply run_call.
  - unfold app_reads. by rewrite E2, P2.
  - intros _. unfold stream. by rewrite E2, E4, P2, P4, app_nil_r.
  - by rewrite Ecm, Hsent.
  - rewrite Ecm. lia.
  - by rewrite E3, P3.
  - rewrite Hfed, app_nil_r. unfold arrivals. by rewrite E3, P3.
Qed.

Lemma popped_idle next d0 d d' :
  popped next d0 d -> messages (option_list next) = [] -> dr_conn d' = dr_conn d ->
  dr_channels d' = dr_channels d -> dr_inbound d' = dr_inbound d ->
  dr_pending_data d' = dr_pending_data d -> dr_socket d' = dr_socket d -> works d0 d'.
Proof using.
  intros [P1 P2 P3 P4 P5 P6 P7] Hm E1 E2 E3 E4 E5. split; [|congruence]. exists [], [].
  rewrite Hm in P6. assert (commands d' = commands d) as Ecm by (unfold commands; by rewrite E2).
  constructor; unfold app_reads, stream, arrivals; rewrite ?Ecm, ?E2, ?E3, ?E4, ?P2, ?P3, ?P4, ?app_nil_r;
    try done; [rewrite E1, P1; constructor|lia].
Qed.

Lemma handle_command_wp next now d0 d :
  driver_ok d0 -> popped next d0 d ->
  wp (handle_command next now d) (fun r => works d0 r.2 /\ commands r.2 = commands d).
Proof using HB HP.
  intros Hok Hpop. assert (conn_ok (dr_conn d)) as Hc by (rewrite (po_conn _ _ _ Hpop); apply Hok).
  destruct next as [[payload| |reply]|]; cbn [handle_command].
  - pose proof (conn_step_advance (CallSend payload now) (dr_conn d) Hc I eq_refl) as Hw.
    cbn [conn_step] in Hw. destruct (sent_or _ _) as [c|] eqn:E; [|done].
    cbn [mbind panicky_bind wp fst snd]. split; [|done].
    by apply (popped_works (Some (CmdSend payload)) d0 d _ (CallSend payload now) c).
  - pose proof (conn_close_wp now (dr_conn d) Hc) as Hw. destruct (conn_close now _) as [c|] eqn:E; [|done].
    cbn [mbind panicky_bind wp fst snd]. split; [|done].
    by apply (popped_works (Some CmdClose) d0 d _ (CallClose now) c).
  - cbn [wp fst snd]. split; [|done]. by apply (popped_idle (Some (CmdStats reply)) d0 d).
  - pose proof (conn_close_wp now (dr_conn d) Hc) as Hw. destruct (conn_close now _) as [c|] eqn:E; [|done].
    cbn [mbind panicky_bind wp fst snd]. split; [|done].
    by apply (popped_works None d0 d _ (CallClose now) c).
Qed.

(** The batch ends: every round takes a command, and the channel is bounded. *)
Lemma command_loop_wp fuel next now d0 d :
  driver_ok d0 -> popped next d0 d -> (length (commands d) < fuel)%nat ->
  wp (command_loop fuel next now d) (works d0).
Proof using HB HP HM.
  revert next d0 d. induction fuel as [|fuel IH]; intros next d0 d Hok Hpop Hf; [lia|].
  cbn [command_loop]. eapply wp_bind; [by apply (handle_command_wp next now d0)|].
  intros [stop d1] [Hw Hcm]. cbn [fst snd] in *. destruct stop; [exact Hw|].
  pose proof (try_recv_queued (sh_commands (dr_channels d1))) as (Hr & Hq & Hn).
  destruct (mpsc_try_recv _) as [[more|] ch]; cbn [fst snd option_list app] in *.
  - assert (commands (set_commands ch d1) = queued ch) as Ec by done.
    eapply wp_mono; [apply (IH (Some more) d1)|].
    + by eapply works_ok.
    + constructor; try done; rewrite Ec; unfold commands; rewrite Hq; [by destruct more|simpl; lia].
    + rewrite Ec. unfold commands in Hcm, Hf. rewrite Hq in Hcm. rewrite <- Hcm in Hf. simpl in Hf. lia.
    + intros d2 Hw2. by eapply works_trans.
  - eapply works_trans; [exact Hw|]. split; [|done]. exists [], [].
    constructor; rewrite ?app_nil_r; try done; [constructor|..]; unfold commands; rewrite Hq; done.
Qed.

Lemma works_feed call c rx rx' item d d' :
  dr_inbound d = Demuxed rx -> queued rx = item :: queued rx' ->
  call_ok call -> is_poll call = false -> conn_step call (dr_conn d) = Ret c ->
  sent_by [call] = [] -> fed_by [call] = [item] ->
  dr_conn d' = c -> dr_channels d' = dr_channels d -> dr_inbound d' = Demuxed rx' ->
  dr_pending_data d' = dr_pending_data d -> dr_socket d' = dr_socket d -> works d d'.
Proof using.
  intros Ei Hq Hc Hp Hs Hsent Hfed E1 E2 E3 E4 E5. split; [|done]. exists [call], [].
  constructor; unfold app_reads, stream, commands, arrivals; rewrite ?E2, ?E4, ?Ei, ?E3, ?Hsent, ?Hfed;
    rewrite ?app_nil_r; try done. rewrite E1. by apply run_call.
Qed.

(** What a wake-up reads off the task's own socket. *)
Definition heard_by (w : Wake) : list (Instant * list byte) :=
  match w with
  | WkSocket (inr (recv_buf, len, stride, _)) now => pair now <$> gro_split recv_buf len stride
  | _ => []
  end.

Lemma on_wake_wp w deadline now d :
  driver_ok d -> (length (commands d) <= COMMAND_CAPACITY)%nat ->
  enabled deadline now w d = true ->
  wp (on_wake w d) (fun r =>
    (exists calls es, piece (heard_by w) calls es [] d r.2) /\ dr_socket r.2 = dr_socket d).
Proof using HB HP HM.
  intros Hok Hlen Hen. destruct w as [[e|[[[buf len] stride] from]] at_| | | |at_];
    cbn [on_wake heard_by]; try apply works_refl.
  - eapply wp_bind; [apply feed_segments_wp, Hok|]. intros c (calls & Hr & H1 & H2).
    cbn [wp snd]. cbn [enabled] in Hen. split; [|done]. exists calls, [].
    assert (arrivals d = []) as Ha by (unfold arrivals; by destruct (dr_inbound d)).
    constructor; rewrite ?app_nil_r; try done; [by rewrite H1|].
    change (arrivals (d <| dr_conn := c |>)) with (arrivals d). by rewrite Ha, H2, app_nil_r.
  - destruct (dr_inbound d) as [|rx] eqn:Ei; [apply works_refl|].
    pose proof (recv_queued rx) as [_ Hq].
    destruct (mpsc_recv rx) as [[[[at_ bytes]|]|] rx'] eqn:E; cbn [fst snd] in Hq.
    + pose proof (feed_recv_buf_wp bytes at_ (dr_conn d) (proj1 Hok)) as Hw.
      destruct (feed_recv_buf bytes at_ (dr_conn d)) as [c|] eqn:Ef; [|done].
      cbn [mbind panicky_bind wp snd].
      by eapply (works_feed (CallFeed bytes at_) c rx rx' (at_, bytes) d).
    + cbn [wp snd]. split; [|done]. exists [], []. destruct Hq as [Hq Hq'].
      constructor; unfold arrivals; rewrite ?Ei, ?app_nil_r; try done; [constructor|].
      cbn. by rewrite Hq, Hq'.
    + cbn [wp snd]. split; [|done]. exists [], []. destruct Hq as [Hq Hq'].
      constructor; unfold arrivals; rewrite ?Ei, ?app_nil_r; try done; [constructor|].
      cbn. by rewrite Hq, Hq'.
  - cbn [enabled] in Hen. destruct (dr_pending_data d) as [payload|] eqn:Ep; [|done].
    destruct (mpsc_reserve (sh_data (dr_channels d))) as [[]|] eqn:Er; [| |done];
      apply reserve_ready in Er; cbn [expect mbind panicky_bind wp snd].
    + split; [|done]. exists [], [].
      destruct (permit_send_queued payload (sh_data (dr_channels d))) as [Hq Hr].
      constructor; rewrite ?app_nil_r; try done; [constructor|]. intros _. unfold stream. cbn.
      by rewrite Hq, Ep, app_nil_r.
    + split; [|done]. exists [], []. constructor; rewrite ?app_nil_r; try done; [constructor|].
      unfold app_reads. congruence.
  - pose proof (recv_queued (sh_commands (dr_channels d))) as [_ Hq]. cbn [enabled] in Hen.
    destruct (mpsc_recv (sh_commands (dr_channels d))) as [[next|] ch] eqn:E; cbn [fst snd] in *.
    2: { by rewrite andb_false_r in Hen. }
    assert (popped next d (set_commands ch d)) as Hpop.
    { constructor; try done; change (commands (set_commands ch d)) with (queued ch); unfold commands;
        destruct next as [cmd|]; [by rewrite Hq; destruct cmd| |rewrite Hq; simpl; lia|].
      - destruct Hq as [-> ->]. done.
      - destruct Hq as [-> ->]. done. }
    eapply wp_bind; [apply (command_loop_wp _ next at_ d); [done|exact Hpop|]|].
    + pose proof (po_length _ _ _ Hpop). lia.
    + intros d' Hw. exact Hw.
Qed.
End Arms.
