(* ===== verification/DriverRuns.v ===== *)
(** * DriverRuns: a driver task among the application and the network

    [drives] is the step relation of one task with its surroundings: rounds of
    its loop, and in between, in any order, the application queueing commands,
    reading payloads or dropping its handles, and the endpoint forwarding
    datagrams.  [accounted] is the invariant behind the properties. *)

From coqutil Require Import Datatypes.RecordSetters.
From S2P Require Import Prelude Buf Errors Seq Time Timestamp PacketTypes Handshake Control Packet KeyMaterial Crypto Config Event ConnState Rekey Arq Setup Conn ConnInv ConnStart Listener Session Batch Runtime Driver DriverInv.

(** Before the loop body, waiting in the [select!], or returned. *)
Inductive Phase : Type := AtTop | Waiting (deadline : Instant) | Finished.

Record World (K : Type) (Chan : Type -> Type) : Type := MkWorld {
  wd_driver : Driver K Chan;
  wd_phase : Phase;
  wd_received : list (list byte);
  wd_issued : list Command;
  wd_arrived : list (Instant * list byte);
}.
Arguments MkWorld {K Chan}.
Arguments wd_driver {K Chan}.
Arguments wd_phase {K Chan}.
Arguments wd_received {K Chan}.
Arguments wd_issued {K Chan}.
Arguments wd_arrived {K Chan}.

Section Worlds.
Context {B : BytesApi} {P : CryptoPrims} {K : Type} {HK : AsyncUdpSocket K}.
Context {Chan : Type -> Type} {HMp : Mpsc Chan} {HM : MpscSpec Chan} {HO : HashOrder}.
Context (rng : nat -> nat -> list byte).
Implicit Types d : Driver K Chan.

(** Returning drops the task's channel ends. *)
Definition finish d : Driver K Chan :=
  d <| dr_channels := MkChannels (mpsc_drop_receiver (sh_commands (dr_channels d)))
                        (mpsc_drop_senders (sh_data (dr_channels d))) None |>
    <| dr_inbound := match dr_inbound d with
                     | Owned => Owned | Demuxed rx => Demuxed (mpsc_drop_receiver rx) end |>.

Definition next_world (stop : bool) (phase : Phase) (heard : list (Instant * list byte)) d
  (w : World K Chan) : World K Chan :=
  MkWorld (if stop then finish d else d) (if stop then Finished else phase)
    (wd_received w) (wd_issued w) (wd_arrived w ++ heard).

Definition with_driver d (w : World K Chan) : World K Chan :=
  MkWorld d (wd_phase w) (wd_received w) (wd_issued w) (wd_arrived w).

Inductive drives : World K Chan -> World K Chan -> Prop :=
  | dv_head w peer now stop d :
      wd_phase w = AtTop -> loop_head rng peer now (wd_driver w) = Ret (stop, d) ->
      drives w (next_world stop (Waiting (next_deadline (dr_timers d) now)) [] d w)
  | dv_wake w deadline now wake stop d :
      wd_phase w = Waiting deadline -> enabled deadline now wake (wd_driver w) = true ->
      on_wake wake (wd_driver w) = Ret (stop, d) ->
      drives w (next_world stop AtTop (heard_by wake) d w)
  (** [SrtStream::send] and its siblings: the channel has room. *)
  | dv_issue w cmd (ch := sh_commands (dr_channels (wd_driver w))) :
      wd_phase w <> Finished -> (length (commands (wd_driver w)) < COMMAND_CAPACITY)%nat ->
      drives w (MkWorld (set_commands (mpsc_permit_send cmd ch) (wd_driver w)) (wd_phase w)
                  (wd_received w) (wd_issued w ++ [cmd]) (wd_arrived w))
  (** [SrtStream::recv] *)
  | dv_receive w payload data :
      app_reads (wd_driver w) = true ->
      mpsc_recv (sh_data (dr_channels (wd_driver w))) = (Ready (Some payload), data) ->
      drives w (MkWorld (set_data data (wd_driver w)) (wd_phase w)
                  (wd_received w ++ [payload]) (wd_issued w) (wd_arrived w))
  | dv_drop_receiver w :
      drives w (with_driver (set_data (mpsc_drop_receiver (sh_data (dr_channels (wd_driver w))))
                              (wd_driver w)) w)
  | dv_drop_senders w :
      drives w (with_driver (set_commands
                 (mpsc_drop_senders (sh_commands (dr_channels (wd_driver w)))) (wd_driver w)) w)
  (** The endpoint forwards a datagram. *)
  | dv_arrive w rx rx' item :
      dr_inbound (wd_driver w) = Demuxed rx -> mpsc_try_send item rx = (TsOk, rx') ->
      wd_phase w <> Finished ->
      drives w (MkWorld ((wd_driver w) <| dr_inbound := Demuxed rx' |>) (wd_phase w)
                  (wd_received w) (wd_issued w) (wd_arrived w ++ [item]))
  | dv_endpoint_gone w rx :
      dr_inbound (wd_driver w) = Demuxed rx ->
      drives w (with_driver ((wd_driver w) <| dr_inbound := Demuxed (mpsc_drop_senders rx) |>) w).

(** A schedule, for running a task on concrete inputs. *)
Inductive Action : Type :=
  | AcHead (peer : SocketAddr) (now : Instant)
  | AcWake (now : Instant) (wake : Wake)
  | AcIssue (cmd : Command)
  | AcReceive
  | AcArrive (item : Instant * list byte).

Definition act (a : Action) (w : World K Chan) : option (World K Chan) :=
  match a with
  | AcHead peer now =>
      match wd_phase w, loop_head rng peer now (wd_driver w) with
      | AtTop, Ret (stop, d) =>
          Some (next_world stop (Waiting (next_deadline (dr_timers d) now)) [] d w)
      | _, _ => None
      end
  | AcWake now wake =>
      match wd_phase w, on_wake wake (wd_driver w) with
      | Waiting deadline, Ret (stop, d) =>
          if enabled deadline now wake (wd_driver w)
          then Some (next_world stop AtTop (heard_by wake) d w) else None
      | _, _ => None
      end
  | AcIssue cmd =>
      match wd_phase w with
      | Finished => None
      | _ =>
          if (length (commands (wd_driver w)) <? COMMAND_CAPACITY)%nat
          then Some (MkWorld (set_commands (mpsc_permit_send cmd
                       (sh_commands (dr_channels (wd_driver w)))) (wd_driver w)) (wd_phase w)
                     (wd_received w) (wd_issued w ++ [cmd]) (wd_arrived w))
          else None
      end
  | AcReceive =>
      match app_reads (wd_driver w), mpsc_recv (sh_data (dr_channels (wd_driver w))) with
      | true, (Ready (Some payload), data) =>
          Some (MkWorld (set_data data (wd_driver w)) (wd_phase w)
                  (wd_received w ++ [payload]) (wd_issued w) (wd_arrived w))
      | _, _ => None
      end
  | AcArrive item =>
      match wd_phase w, dr_inbound (wd_driver w) with
      | Finished, _ | _, Owned => None
      | _, Demuxed rx =>
          match mpsc_try_send item rx with
          | (TsOk, rx') =>
              Some (MkWorld ((wd_driver w) <| dr_inbound := Demuxed rx' |>) (wd_phase w)
                      (wd_received w) (wd_issued w) (wd_arrived w ++ [item]))
          | _ => None
          end
      end
  end.

Fixpoint acts (l : list Action) (w : World K Chan) : option (World K Chan) :=
  match l with [] => Some w | a :: l => w1 ← act a w; acts l w1 end.

Lemma act_drives a w w' : act a w = Some w' -> drives w w'.
Proof.
  destruct a as [peer now|now wake|cmd| |item]; cbn [act].
  - destruct (wd_phase w) eqn:Ep; [|done..].
    destruct (loop_head _ _ _ _) as [[stop d]|] eqn:E; [|done]. intros [= <-]. by econstructor.
  - destruct (wd_phase w) as [|deadline|] eqn:Ep; [done| |done].
    destruct (on_wake _ _) as [[stop d]|] eqn:E; [|done].
    destruct (enabled deadline now wake (wd_driver w)) eqn:En; [|done]. intros [= <-]. by econstructor.
  - destruct (wd_phase w) eqn:Ep; [| |done]; (destruct (Nat.ltb_spec (length (commands (wd_driver w)))
      COMMAND_CAPACITY); [|done]); intros [= <-]; rewrite <- Ep; apply dv_issue; by rewrite ?Ep.
  - destruct (app_reads (wd_driver w)) eqn:Er; [|done].
    destruct (mpsc_recv _) as [[[payload|]|] data] eqn:E; [|done..]. intros [= <-]. by apply dv_receive.
  - destruct (wd_phase w) eqn:Ep; [| |done]; (destruct (dr_inbound (wd_driver w)) as [|rx] eqn:Ei; [done|]);
      (destruct (mpsc_try_send item rx) as [[]rx'] eqn:E; [|done..]); intros [= <-]; rewrite <- Ep;
      (eapply dv_arrive; [exact Ei|exact E|by rewrite Ep]).
Qed.

Lemma acts_total l w Q :
  match acts l w with Some w' => Q w' | None => False end -> exists w', rtc drives w w' /\ Q w'.
Proof.
  revert w. induction l as [|a l IH]; intros w; cbn [acts]; [by exists w|].
  destruct (act a w) as [w1|] eqn:E; [|done]. cbn [mbind option_bind]. intros H.
  destruct (IH w1 H) as (w' & Hr & HQ). exists w'. split; [|done].
  eapply rtc_l; [by eapply act_drives|exact Hr].
Qed.

Definition spawned (socket : K) (c : Connection) (connected : option Oneshot) (is_caller : bool)
  : World K Chan :=
  MkWorld (spawn_driver socket c
      (MkChannels (mpsc_channel COMMAND_CAPACITY) (mpsc_channel DATA_CAPACITY) connected)
      (if is_caller then Owned else Demuxed (mpsc_channel INBOUND_CAPACITY)))
    AtTop [] [] [].
End Worlds.

Section Accounting.
Context {B : BytesApi} {HB : BytesSpec B} {P : CryptoPrims} {HP : CryptoSpec P}.
Context {K : Type} {HK : AsyncUdpSocket K} {HU : UdpSpec K}.
Context {Chan : Type -> Type} {HMp : Mpsc Chan} {HM : MpscSpec Chan} {HO : HashOrder}.
Context (rng : nat -> nat -> list byte) (Hrng : rng_fills rng).
Implicit Types d : Driver K Chan.

(** [live] unless the task has returned, then only a prefix. *)
Definition upto {A} (w : World K Chan) (l whole : list A) : Prop :=
  prefix l whole /\ (wd_phase w <> Finished -> l = whole).

Record accounted (c0 : Connection) (sent0 : list (list byte)) (w : World K Chan)
  (calls : list ConnCall) (es : list Event) (os : list Output) : Prop := {
  ac_run : run c0 calls es os (dr_conn (wd_driver w));
  ac_received : prefix (wd_received w) (payloads es);
  ac_stream : app_reads (wd_driver w) = true ->
    wd_received w ++ stream (wd_driver w) = payloads es;
  ac_sent : upto w (sent_by calls ++ messages (commands (wd_driver w))) (messages (wd_issued w));
  ac_room : (length (commands (wd_driver w)) <= COMMAND_CAPACITY)%nat;
  ac_fed : upto w (fed_by calls ++ arrivals (wd_driver w)) (wd_arrived w);
  ac_wire : upto w (sent_wire (wd_driver w)) (sent0 ++ datagrams os);
}.

Lemma upto_refl {A} w (l : list A) : upto w l l.
Proof. by split. Qed.

(** Returning loses what was still queued for the task, not what it queued. *)
Lemma finish_keeps d :
  stream (finish d) = stream d /\ app_reads (finish d) = app_reads d /\
  sent_wire (finish d) = sent_wire d /\ dr_conn (finish d) = dr_conn d /\
  commands (finish d) = [] /\ arrivals (finish d) = [].
Proof using.
  set (ch := dr_channels d). split_and!.
  - change (queued (mpsc_drop_senders (sh_data ch)) ++ option_list (dr_pending_data d) = stream d).
    unfold queued. by rewrite drop_senders_view.
  - change (receiving (mpsc_drop_senders (sh_data ch)) = app_reads d).
    unfold receiving. by rewrite drop_senders_view.
  - done.
  - done.
  - change (queued (mpsc_drop_receiver (sh_commands ch)) = []).
    unfold queued. by rewrite drop_receiver_view.
  - change (arrivals (finish d)) with (match (match dr_inbound d with Owned => Owned
      | Demuxed rx => Demuxed (mpsc_drop_receiver rx) end) with Owned => [] | Demuxed rx => queued rx end).
    destruct (dr_inbound d); [done|]. unfold queued. by rewrite drop_receiver_view.
Qed.

Lemma upto_live {A} w (l whole : list A) : wd_phase w <> Finished -> upto w l whole -> l = whole.
Proof. intros H [_ Hu]. by apply Hu. Qed.

(** What the task does itself. *)
Lemma accounted_piece c0 sent0 w calls es os heard calls' es' os' stop phase d :
  accounted c0 sent0 w calls es os -> wd_phase w <> Finished -> piece heard calls' es' os' (wd_driver w) d ->
  (sent_wire d = sent_wire (wd_driver w) ++ datagrams os' \/
   (stop = true /\ prefix (sent_wire d) (sent_wire (wd_driver w) ++ datagrams os'))) ->
  accounted c0 sent0 (next_world stop phase heard d w) (calls ++ calls') (es ++ es') (os ++ os').
Proof using HM.
  intros [A1 A2 A3 A4 A5 A6 A7] Hph [B1 B2 B3 B4 B5 B6 B7] Hwire.
  apply upto_live in A4; [|exact Hph]. apply upto_live in A6; [|exact Hph].
  apply upto_live in A7; [|exact Hph].
  assert (datagrams (os ++ os') = datagrams os ++ datagrams os') as Hos
    by (unfold datagrams; by rewrite omap_app).
  assert (payloads (es ++ es') = payloads es ++ payloads es') as Hes
    by (unfold payloads; by rewrite omap_app).
  assert (sent_by (calls ++ calls') = sent_by calls ++ sent_by calls') as Hsb
    by (unfold sent_by; by rewrite omap_app).
  assert (fed_by (calls ++ calls') = fed_by calls ++ fed_by calls') as Hfb
    by (unfold fed_by; by rewrite omap_app).
  assert (upto (next_world stop phase heard d w) (sent_wire d) (sent0 ++ datagrams (os ++ os'))) as Hw.
  { rewrite Hos, app_assoc, <- A7. destruct Hwire as [-> |[-> Hpre]]; [apply upto_refl|].
    split; [exact Hpre|done]. }
  assert (messages (wd_issued w) = sent_by (calls ++ calls') ++ messages (commands d)) as Hm
    by (by rewrite <- A4, B4, Hsb, app_assoc).
  assert (wd_arrived w ++ heard = fed_by (calls ++ calls') ++ arrivals d) as Hf
    by (by rewrite <- A6, <- app_assoc, B7, Hfb, app_assoc).
  pose proof (finish_keeps d) as (F1 & F2 & F3 & F4 & F6 & F7).
  unfold next_world in *. destruct stop; constructor;
    cbn [wd_driver wd_phase wd_received wd_issued wd_arrived]; rewrite ?F1, ?F2, ?F3, ?F4, ?F6, ?F7.
  - by eapply run_app.
  - rewrite Hes. by apply prefix_app_r.
  - intros Hr. rewrite B2 in Hr. by rewrite (B3 Hr), Hes, app_assoc, (A3 Hr).
  - split; [|done]. rewrite Hm, app_nil_r. by eexists.
  - simpl. lia.
  - split; [|done]. rewrite Hf, app_nil_r. by eexists.
  - exact Hw.
  - by eapply run_app.
  - rewrite Hes. by apply prefix_app_r.
  - intros Hr. rewrite B2 in Hr. by rewrite (B3 Hr), Hes, app_assoc, (A3 Hr).
  - rewrite Hm. apply upto_refl.
  - lia.
  - rewrite Hf. apply upto_refl.
  - exact Hw.
Qed.

(** What the surroundings do leaves the core and the wire alone. *)
Lemma accounted_env c0 sent0 w w' calls es os :
  accounted c0 sent0 w calls es os ->
  dr_conn (wd_driver w') = dr_conn (wd_driver w) ->
  dr_socket (wd_driver w') = dr_socket (wd_driver w) -> wd_phase w' = wd_phase w ->
  prefix (wd_received w') (payloads es) ->
  (app_reads (wd_driver w') = true -> wd_received w' ++ stream (wd_driver w') = payloads es) ->
  upto w' (sent_by calls ++ messages (commands (wd_driver w'))) (messages (wd_issued w')) ->
  (length (commands (wd_driver w')) <= COMMAND_CAPACITY)%nat ->
  upto w' (fed_by calls ++ arrivals (wd_driver w')) (wd_arrived w') ->
  accounted c0 sent0 w' calls es os.
Proof using.
  intros [A1 A2 A3 A4 A5 A6 A7] Ec Es Ep H1 H2 H3 H4 H5. constructor; try done.
  - by rewrite Ec.
  - unfold upto, sent_wire in *. by rewrite Es, Ep.
Qed.

Lemma accounted_step c0 sent0 w w' calls es os :
  conn_ok c0 /\ queues_ok c0 -> accounted c0 sent0 w calls es os -> drives rng w w' ->
  exists calls' es' os',
    accounted c0 sent0 w' (calls ++ calls') (es ++ es') (os ++ os').
Proof using HB HP HM HU Hrng.
  intros H0 Hac Hs.
  assert (driver_ok (wd_driver w)) as Hok by (eapply run_ok; [apply Hac|exact H0]).
  assert (forall w', accounted c0 sent0 w' calls es os -> exists calls' es' os',
    accounted c0 sent0 w' (calls ++ calls') (es ++ es') (os ++ os')) as Hsame.
  { intros w'' H. exists [], [], []. by rewrite !app_nil_r. }
  destruct Hs as [w peer now stop d Hph E|w dl now wake stop d Hph Hen E|w cmd ch Hph Hroom
    |w payload data Hr E|w|w|w rx rx' item Ei E Hph|w rx Ei].
  - pose proof (loop_head_wp rng Hrng peer now _ Hok) as Hw. rewrite E in Hw. cbn [wp fst snd] in Hw.
    destruct Hw as (calls' & es' & os' & Hp & Hwire). exists calls', es', os'.
    apply accounted_piece; [done|by rewrite Hph|exact Hp|].
    destruct Hwire as [[Hwire _]|Hwire]; [by left|by right].
  - pose proof (on_wake_wp wake dl now _ Hok (ac_room _ _ _ _ _ _ Hac) Hen) as Hw. rewrite E in Hw.
    destruct Hw as [(calls' & es' & Hp) Hk]. exists calls', es', [].
    apply accounted_piece; [done|by rewrite Hph|exact Hp|]. left. cbn [snd] in Hk.
    unfold sent_wire. by rewrite Hk, app_nil_r.
  - apply Hsame. destruct (permit_send_queued cmd ch) as [Hq Hr].
    assert (commands (set_commands (mpsc_permit_send cmd ch) (wd_driver w)) =
            commands (wd_driver w) ++ [cmd]) as Ecm by exact Hq.
    destruct Hac as [A1 A2 A3 A4 A5 A6 A7]. apply (accounted_env _ _ w); try done; cbn [wd_driver].
    + rewrite Ecm. apply upto_live in A4; [|exact Hph]. cbn [wd_issued].
      unfold messages in *. rewrite !omap_app, app_assoc, A4. apply upto_refl.
    + rewrite Ecm, length_app. simpl. lia.
  - apply Hsame. pose proof (recv_queued (sh_data (dr_channels (wd_driver w)))) as [Hrc Hq].
    rewrite E in Hrc, Hq. cbn [fst snd] in Hrc, Hq. destruct Hac as [A1 A2 A3 A4 A5 A6 A7].
    assert (wd_received w ++ [payload] ++ stream (set_data data (wd_driver w)) = payloads es) as Hst.
    { rewrite <- (A3 Hr). unfold stream. rewrite Hq. done. }
    apply (accounted_env _ _ w); try done; cbn [wd_received wd_driver].
    + rewrite <- Hst, app_assoc. by eexists.
    + intros _. by rewrite <- Hst, app_assoc.
  - apply Hsame. destruct Hac as [A1 A2 A3 A4 A5 A6 A7]. apply (accounted_env _ _ w); try done.
    + intros Hr. unfold app_reads, receiving in Hr. cbn [with_driver wd_driver] in Hr.
      change (ch_rx (view (mpsc_drop_receiver (sh_data (dr_channels (wd_driver w))))) = true) in Hr.
      by rewrite drop_receiver_view in Hr.
  - apply Hsame. destruct Hac as [A1 A2 A3 A4 A5 A6 A7].
    assert (commands (set_commands (mpsc_drop_senders (sh_commands (dr_channels (wd_driver w))))
      (wd_driver w)) = commands (wd_driver w)) as Ecm.
    { change (queued (mpsc_drop_senders (sh_commands (dr_channels (wd_driver w)))) =
        commands (wd_driver w)). unfold queued. by rewrite drop_senders_view. }
    apply (accounted_env _ _ w); try done; cbn [with_driver wd_driver]; rewrite ?Ecm; try done.
  - apply Hsame. pose proof (try_send_cases item rx) as [Hrc Hq]. rewrite E in Hrc, Hq.
    cbn [fst snd] in Hrc, Hq. destruct Hq as [_ Hq]. destruct Hac as [A1 A2 A3 A4 A5 A6 A7].
    apply (accounted_env _ _ w); try done.
    apply upto_live in A6; [|exact Hph].
    cbn [wd_arrived]. rewrite <- A6. change (arrivals (wd_driver (MkWorld _ _ _ _ _))) with (queued rx').
    unfold arrivals. rewrite Ei, Hq, app_assoc. apply upto_refl.
  - apply Hsame. destruct Hac as [A1 A2 A3 A4 A5 A6 A7]. apply (accounted_env _ _ w); try done.
    + change (arrivals (wd_driver (with_driver _ w))) with (queued (mpsc_drop_senders rx)).
      unfold arrivals in A6. rewrite Ei in A6. unfold queued in *. rewrite drop_senders_view. exact A6.
Qed.

Lemma accounted_start socket c connected is_caller :
  accounted c (snd <$> wire socket) (spawned socket c connected is_caller) [] [] [].
Proof using.
  assert (forall A n, queued (A := A) (mpsc_channel n) = []) as Hq
    by (intros A n; unfold queued; by rewrite channel_view).
  unfold spawned. constructor; cbn [wd_driver wd_received wd_issued wd_arrived].
  - constructor.
  - done.
  - intros _. unfold stream. cbn. by rewrite Hq.
  - unfold commands. cbn. rewrite Hq. apply upto_refl.
  - unfold commands. cbn. rewrite Hq. simpl. lia.
  - unfold arrivals. cbn. destruct is_caller; [apply upto_refl|]. rewrite Hq. apply upto_refl.
  - rewrite app_nil_r. apply upto_refl.
Qed.

Lemma accounted_reachable c socket connected is_caller w :
  conn_ok c /\ queues_ok c -> rtc (drives rng) (spawned socket c connected is_caller) w ->
  exists calls es os, accounted c (snd <$> wire socket) w calls es os.
Proof using HB HP HM HU Hrng.
  intros H0 Hr. pose proof (accounted_start socket c connected is_caller) as H.
  revert H. generalize (@nil ConnCall) as calls, (@nil Event) as es, (@nil Output) as os.
  induction Hr as [w|w1 w2 w3 Hs Hr IH]; intros calls es os H; [by exists calls, es, os|].
  destruct (accounted_step _ _ _ _ _ _ _ H0 H Hs) as (calls' & es' & os' & H').
  by eapply IH.
Qed.
End Accounting.

(** ** The properties *)

(** C36 (refinement).  The driver adds nothing to the protocol.
    Whatever the network delivers, whenever timers fire, however the application
    interleaves its sends, reads and drops: the task's connection is always the
    result of some sequence of public calls on the core (so everything proved
    about the core holds of it); the datagrams it put on the wire are exactly
    those the core queued, in order (a prefix of them once a send failed); the
    connection was fed exactly the datagrams the endpoint forwarded, or a caller's
    own socket returned, in order and with their arrival times; and no panic written
    in the task or in the core stops the next round or wake-up.  As for the core
    ([no_call_panics]), memory is unbounded and a timer's [now + after] is exact
    here: a peer-idle or linger time-out near [Duration::MAX], which [validate]
    accepts, overflows it in the program. *)
Theorem driver_refines_the_core {B : BytesApi} {HB : BytesSpec B} {P : CryptoPrims}
  {HP : CryptoSpec P} {K : Type} {HK : AsyncUdpSocket K} {HU : UdpSpec K}
  {Chan : Type -> Type} {HMp : Mpsc Chan} {HM : MpscSpec Chan} {HO : HashOrder}
  (rng : nat -> nat -> list byte) (c0 : Connection) (socket : K) (connected : option Oneshot)
  (is_caller : bool) (w : World K Chan) :
  rng_fills rng -> starts c0 ->
  rtc (drives rng) (spawned socket c0 connected is_caller) w ->
  (exists calls es os, run c0 calls es os (dr_conn (wd_driver w)) /\
     upto w (sent_wire (wd_driver w)) ((snd <$> wire socket) ++ datagrams os) /\
     upto w (fed_by calls ++ arrivals (wd_driver w)) (wd_arrived w)) /\
  match wd_phase w with
  | AtTop => forall peer now, exists r, loop_head rng peer now (wd_driver w) = Ret r
  | Waiting deadline => forall wake now, enabled deadline now wake (wd_driver w) = true ->
      exists r, on_wake wake (wd_driver w) = Ret r
  | Finished => True
  end.
Proof.
  intros Hrng H0 Hr. apply starts_queues in H0.
  destruct (accounted_reachable rng Hrng _ _ _ _ _ H0 Hr) as (calls & es & os & Hac).
  pose proof (run_ok _ _ _ _ _ (ac_run _ _ _ _ _ _ Hac) H0) as Hok. split.
  - exists calls, es, os. split_and!; [apply Hac|apply Hac|apply Hac].
  - destruct (wd_phase w) as [|deadline|]; [| |done].
    + intros peer now. pose proof (loop_head_wp rng Hrng peer now (wd_driver w) Hok) as Hw.
      apply wp_ret in Hw as (r & Hr' & _). by exists r.
    + intros wake now Hen.
      pose proof (on_wake_wp wake deadline now _ Hok (ac_room _ _ _ _ _ _ Hac) Hen) as Hw.
      apply wp_ret in Hw as (r & Hr' & _). by exists r.
Qed.

(** A caller that has just been spawned, and its first round. *)
Definition ex_log : LogSocket := MkLog ex_addr 8 100 [].
Definition ex_caller : panicky Connection :=
  @connect vec_bytes toy_prims (ex_config None 120) ex_caller_id (MkSeq 5) 0 ex_rng.
Definition ex_world (c : Connection) : World LogSocket ChanState :=
  spawned ex_log c (Some 1%nat) true.

Lemma ex_caller_starts c : ex_caller = Ret c -> @starts vec_bytes toy_prims c.
Proof.
  intros E. eapply (@starts_connect vec_bytes toy_prims (ex_config None 120) ex_caller_id (MkSeq 5) 0 ex_rng);
    [intros s [= <-]; apply ex_stream_ok|by vm_compute|exact ex_rng_fills|exact E].
Qed.

Lemma driver_refines_the_core_witness :
  exists c0 w calls es os, ex_caller = Ret c0 /\
    rtc (@drives vec_bytes toy_prims _ _ _ _ chan_state_spec key_order ex_rng) (ex_world c0) w /\
    wd_phase w <> AtTop /\
    @run vec_bytes toy_prims c0 calls es os (dr_conn (wd_driver w)) /\
    sent_wire (wd_driver w) = datagrams os /\ length (datagrams os) = 1%nat.
Proof.
  destruct ex_caller as [c0|] eqn:E; [|by vm_compute in E].
  destruct (@loop_head vec_bytes toy_prims _ _ _ _ key_order ex_rng ex_addr 0 (wd_driver (ex_world c0)))
    as [[stop d]|] eqn:Eh; [|vm_compute in E; injection E as <-; by vm_compute in Eh].
  exists c0, (next_world stop (Waiting (next_deadline (dr_timers d) 0)) [] d (ex_world c0)).
  assert (rtc (@drives vec_bytes toy_prims _ _ _ _ chan_state_spec key_order ex_rng) (ex_world c0)
    (next_world stop (Waiting (next_deadline (dr_timers d) 0)) [] d (ex_world c0))) as Hr.
  { apply rtc_once. by apply (dv_head ex_rng (ex_world c0) ex_addr). }
  destruct (@driver_refines_the_core vec_bytes vec_bytes_spec toy_prims toy_spec _ _ log_socket_spec _ _
    chan_state_spec key_order ex_rng c0 ex_log (Some 1%nat) true _ ex_rng_fills (ex_caller_starts c0 E) Hr)
    as [(calls & es & os & Hrun & Hw & _) _].
  exists calls, es, os. split; [done|]. split; [exact Hr|].
  vm_compute in E. injection E as <-. vm_compute in Eh. injection Eh as <- <-.
  split; [done|]. split; [exact Hrun|].
  destruct Hw as [_ Hw]. specialize (Hw ltac:(done)). split; [exact Hw|].
  change ((snd <$> wire ex_log) ++ datagrams os) with (datagrams os) in Hw. rewrite <- Hw. by vm_compute.
Defined.

(** C37 (safety).  No payload is lost, repeated or reordered between the
    application and the core.  In every run: the payloads the application has
    read, then those waiting in the data channel and the one held back, are
    exactly the payloads the core released, in its order, as long as the
    application keeps its receive half (and a prefix of them afterwards); and the
    messages the core was given are, in order, exactly the ones the application
    sent, less those still queued. *)
Theorem application_stream_is_intact {B : BytesApi} {HB : BytesSpec B} {P : CryptoPrims}
  {HP : CryptoSpec P} {K : Type} {HK : AsyncUdpSocket K} {HU : UdpSpec K}
  {Chan : Type -> Type} {HMp : Mpsc Chan} {HM : MpscSpec Chan} {HO : HashOrder}
  (rng : nat -> nat -> list byte) (c0 : Connection) (socket : K) (connected : option Oneshot)
  (is_caller : bool) (w : World K Chan) :
  rng_fills rng -> starts c0 ->
  rtc (drives rng) (spawned socket c0 connected is_caller) w ->
  exists calls es os, run c0 calls es os (dr_conn (wd_driver w)) /\
    prefix (wd_received w) (payloads es) /\
    (app_reads (wd_driver w) = true -> wd_received w ++ stream (wd_driver w) = payloads es) /\
    prefix (sent_by calls) (messages (wd_issued w)) /\
    (wd_phase w <> Finished ->
     messages (wd_issued w) = sent_by calls ++ messages (commands (wd_driver w))).
Proof.
  intros Hrng H0 Hr. apply starts_queues in H0.
  destruct (accounted_reachable rng Hrng _ _ _ _ _ H0 Hr) as (calls & es & os & Hac).
  exists calls, es, os. destruct Hac as [A1 A2 A3 [A4 A4'] A5 A6 A7].
  split_and!; [exact A1|exact A2|exact A3| |].
  - etransitivity; [|exact A4]. by eexists.
  - intros Hph. by rewrite A4'.
Qed.

Lemma application_stream_is_intact_witness :
  exists c0 (w : World LogSocket ChanState) calls es os, ex_caller = Ret c0 /\
    @run vec_bytes toy_prims c0 calls es os (dr_conn (wd_driver w)) /\
    wd_issued w = [CmdSend ex_stream] /\ messages (wd_issued w) = sent_by calls ++ [ex_stream].
Proof.
  destruct ex_caller as [c0|] eqn:E; [|by vm_compute in E].
  set (w := MkWorld (set_commands (st_push (CmdSend ex_stream) (MkChan [] COMMAND_CAPACITY true true))
    (wd_driver (ex_world c0))) AtTop [] [CmdSend ex_stream] []).
  destruct (@application_stream_is_intact vec_bytes vec_bytes_spec toy_prims toy_spec _ _ log_socket_spec
    _ _ chan_state_spec key_order ex_rng c0 ex_log (Some 1%nat) true w ex_rng_fills (ex_caller_starts c0 E))
    as (calls & es & os & Hrun & _ & _ & _ & Hsent).
  { apply rtc_once. exact (@dv_issue vec_bytes toy_prims _ _ _ _ chan_state_spec key_order ex_rng (ex_world c0)
      (CmdSend ex_stream) ltac:(done) ltac:(by vm_compute; lia)). }
  exists c0, w, calls, es, os. split; [done|]. split; [exact Hrun|]. split; [done|].
  by rewrite Hsent.
Defined.

(** C38 (equivalence).  Segmentation offload is invisible.  Whatever number of
    segments the socket takes at once, [flush_sends] puts the queued datagrams on
    the wire one by one, in order and to the peer, exactly as a loop of single
    sends would; a failing send leaves a prefix.  And a receiver that gets any of
    the batches coalesced into one buffer cuts it into the same datagrams. *)
Theorem batching_is_transparent {K : Type} {HK : AsyncUdpSocket K} {HU : UdpSpec K}
  (peer : SocketAddr) (sends : list (list byte)) (socket : K) :
  Forall (fun d => (1 <= length d)%nat) sends ->
  let r := flush_sends peer sends socket in
  (exists n, wire r.2 = wire socket ++ (pair peer <$> take n sends)) /\
  (forall u, r.1 = inr u -> wire r.2 = wire socket ++ (pair peer <$> sends)) /\
  (forall max batch stale, batch ∈ gso_batches sends max ->
     gro_split (concat batch ++ stale) (length (concat batch))
       (length (default [] (head batch))) = batch).
Proof.
  intros Hne r. destruct (flush_sends_of peer sends socket Hne) as (_ & n & Hw & Hn).
  split_and!; [by exists n| |].
  - intros u Hu. unfold r. by rewrite Hw, take_ge by (by eapply Hn).
  - intros max batch stale Hin.
    assert (batch_ok (Nat.max max 1) batch) as Hb.
    { pose proof (gso_batches_ok sends max) as H. rewrite Forall_forall in H. by apply H. }
    assert (Forall (fun d => (1 <= length d)%nat) batch) as Hbne.
    { rewrite <- (gso_batches_concat sends max) in Hne. rewrite Forall_forall in Hne |- *.
      intros d Hd. apply Hne. apply list_elem_of_In, in_concat. exists batch.
      by rewrite <- !list_elem_of_In. }
    destruct batch as [|first rest]; [done|]. destruct Hb as [_ Heq].
    apply Forall_cons in Hbne as [Hf _]. cbv beta in Hf.
    change (default [] (Some first)) with first.
    assert (length first <= length (concat (first :: rest)))%nat as Hl
      by (simpl concat; rewrite length_app; lia).
    rewrite gro_split_segments; [|rewrite length_app; lia|split; [exact Hf|exact Hl]].
    rewrite take_app_length. apply segments_concat; [done|]. by constructor.
Qed.

Lemma batching_is_transparent_witness :
  let sends := [[zero_byte; zero_byte]; [zero_byte; zero_byte]; [zero_byte]] in
  wire (flush_sends ex_addr sends ex_log).2 = pair ex_addr <$> sends /\
  length (gso_batches sends 8) = 2%nat.
Proof.
  intros sends. destruct (batching_is_transparent ex_addr sends ex_log) as (_ & H & _).
  { repeat constructor. }
  split; [|by vm_compute]. exact (H tt eq_refl).
Defined.
