(* ===== verification/Genuine.v ===== *)
(** * Genuine: what a datagram may say, and the handlers that say nothing

    A datagram is [harmless] when the packet it holds, if any, carries no data,
    drops nothing and changes no key.  [squiet] says that a handler left the
    sending side of a connection alone and queued harmless datagrams only,
    [rquiet] that it left the receiving side alone and reported no message;
    [calm] is both.  The end-to-end invariants of [SendInv] and [ReadInv] look
    only at the handlers that are not quiet. *)

From S2P Require Import Prelude Buf Errors Reject Seq LossList Time Timestamp Rate PacketTypes Handshake Control Packet SendBuffer RecvBuffer Fec KeyMaterial Crypto Config Event Fragment ConnState Rekey Arq Setup Conn ConnInv.

(** ** Harmless datagrams *)

Definition harmless_body (body : ControlBody) : Prop :=
  match body with
  | CbDropReq _ _ _ => False
  | CbRaw CtUserDefined subtype _ _ => subtype <> EXT_KMREQ
  | _ => True
  end.

Definition harmless_packet (p : Packet) : Prop :=
  match p with PData _ => False | PControl c => harmless_body (cp_body c) end.

(** The kind of a control packet, in its first header word. *)
Definition harmless_kind (body : ControlBody) : Prop :=
  let '(t, subtype, _) := to_wire body in
  0 <= subtype < 2 ^ 16 /\ t <> ct_to_raw CtDropReq /\
  (t = ct_to_raw CtUserDefined -> subtype <> EXT_KMREQ).

Section Harmless.
Context {B : BytesApi} {HB : BytesSpec B}.

Definition harmless (d : list byte) : Prop :=
  forall p, packet_decode d = Ok p -> harmless_packet p.

Definition harmless_output (o : Output) : Prop :=
  match o with SendDatagram d => harmless d | _ => True end.

Lemma put_ext_header_appends out t n :
  wlp (put_ext_header out t n) (fun out' => prefix out out').
Proof.
  unfold put_ext_header. cbv zeta. destruct (_ <=? _); cbn [expect wlp mbind panicky_bind]; [|done].
  buf_spec. rewrite <- app_assoc. by eexists.
Qed.

Lemma ext_encode_appends e out : wlp (ext_encode e out) (fun out' => prefix out out').
Proof.
  destruct e; cbn [ext_encode]; cbv zeta; (eapply wlp_bind; [apply put_ext_header_appends|]);
    intros out1 [k ->]; cbn [wlp]; rewrite ?srt_hs_encode_bytes; buf_spec;
    rewrite <- app_assoc; by eexists.
Qed.

Lemma exts_encode_appends es out : wlp (exts_encode es out) (fun out' => prefix out out').
Proof.
  revert out. induction es as [|e es IH]; intros out; cbn [exts_encode wlp]; [done|].
  eapply wlp_bind; [apply ext_encode_appends|]. intros out1 H1.
  eapply wlp_mono; [apply IH|]. intros out2 H2. by etransitivity.
Qed.

Lemma hs_encode_appends h out : wlp (hs_encode h out) (fun out' => prefix out out').
Proof.
  unfold hs_encode. eapply wlp_mono; [apply exts_encode_appends|]. intros out' H. buf_spec.
  rewrite <- !app_assoc in H. destruct H as [k ->]. rewrite <- !app_assoc. by eexists.
Qed.

Lemma encode_cif_prefix body out : wlp (encode_cif body out) (fun out' => prefix out out').
Proof.
  destruct body as [| | |n|n f l|n|ack|loss|hs|t st ts cif]; [..|apply hs_encode_appends|].
  all: match goal with |- wlp (encode_cif ?b _) _ =>
    destruct (encode_cif_appends b out I) as [k ->] end; cbn [wlp]; by eexists.
Qed.

(** What is encoded as a control packet decodes to a body of the same kind. *)
Lemma encode_control_kind dest ts body :
  0 <= (to_wire body).1.2 < 2 ^ 16 ->
  wlp (encode_control dest ts body) (fun d => forall p, packet_decode d = Ok p ->
    exists c n cif, p = PControl c /\
      cb_decode (to_wire body).1.1 (to_wire body).1.2 n cif = Ok (cp_body c)).
Proof.
  unfold encode_control. cbn [packet_encode cp_body].
  assert (0 <= (to_wire body).1.1 < 2 ^ 15) as Ht.
  { destruct body; cbn; try lia. destruct control_type; cbn; lia. }
  destruct (to_wire body) as [[t st] n]. cbn [fst snd] in *. intros Hst.
  eapply wlp_mono; [apply encode_cif_prefix|]. intros d [k ->] p.
  rewrite control_word0 by done. buf_spec. rewrite <- !app_assoc. cbn [app].
  destruct (control_word0_fields t st Ht Hst) as (F1 & F2 & F3).
  unfold packet_decode, HEADER_LEN. case_match; [done|]. buf_read. rewrite F1. cbn [negb].
  rewrite F2, F3.
  do 3 (match goal with |- context [get_u32 ?b] => destruct (get_u32 b) as [[? ?]|] end;
        cbn [lift mbind res_bind]; [|done]).
  match goal with |- context [cb_decode t st ?w ?r] => destruct (cb_decode t st w r) eqn:E end;
    cbn [map_err mbind res_bind]; [|done..].
  intros [= <-]. eexists _, _, _. split; [done|exact E].
Qed.

Lemma decode_ack_is_ack n cif body : decode_ack n cif = Ok body -> exists a, body = CbAck a.
Proof.
  unfold decode_ack. cbv zeta. intros H.
  repeat (case_match; try done);
    repeat (match type of H with context [get_u32 ?b] => destruct (get_u32 b) as [[? ?]|] end;
      cbn [lift mbind res_bind] in H; [|done]); injection H as <-; by eexists.
Qed.

Lemma cb_decode_harmless t st n cif body :
  cb_decode t st n cif = Ok body -> t <> ct_to_raw CtDropReq ->
  (t = ct_to_raw CtUserDefined -> st <> EXT_KMREQ) -> harmless_body body.
Proof.
  unfold cb_decode. intros H Hd Hk.
  destruct (ct_from_raw_cases t) as [(ct & Et & <-)|Et]; rewrite Et in H; [|done].
  cbn [mbind res_bind] in H. destruct ct; try done; try (by injection H as <-).
  - destruct (map_err _ _); [|done..]. by injection H as <-.
  - by destruct (decode_ack_is_ack _ _ _ H) as [a ->].
  - destruct (map_err _ _); [|done..]. by injection H as <-.
  - injection H as <-. by apply Hk.
Qed.

Lemma encode_control_harmless dest ts body :
  harmless_kind body -> wlp (encode_control dest ts body) harmless.
Proof.
  unfold harmless_kind. pose proof (encode_control_kind dest ts body) as H.
  destruct (to_wire body) as [[t st] n]. cbn [fst snd] in H. intros (Hst & Hd & Hk).
  eapply wlp_mono; [by apply H|]. intros d Hdec p (c & m & cif & -> & E)%Hdec.
  by eapply cb_decode_harmless.
Qed.
End Harmless.

(** ** Handlers that leave a side alone *)

Definition keys_of (c : Connection) := (cn_crypto c, cn_pending_km c, cn_next_key_ready c).

(** No key exchange is under way. *)
Definition still (c : Connection) : Prop :=
  cn_pending_km c = None /\ cn_next_key_ready c = false.

Definition unpaced (c : Connection) : bool :=
  match cn_live_cc c with None => true | Some _ => false end.

Definition send_side (c : Connection) :=
  (cn_send_buffer c, cn_next_send_seq c, cn_send_queue c, cn_fec_send c, keys_of c,
   cn_last_handshake c, cn_peer_socket_id c, cn_config c, unpaced c).

(** The packets given up as too late, as the statistics count them. *)
Definition dropped (c : Connection) : Z := st_packets_dropped (cn_stats c).

Definition recv_side (c : Connection) :=
  (cn_recv_buffer c, cn_reassembler c, cn_fec_recv c, dropped c, keys_of c).

(** An event that is no message. *)
Definition silent (e : Event) : Prop :=
  match e with EvDataReceived _ => False | _ => True end.

Record rquiet (c c' : Connection) : Prop := {
  rq_side : recv_side c' = recv_side c;
  rq_open : is_handshaking (cn_state c) = false -> is_handshaking (cn_state c') = false;
  rq_connected : cn_state c' = StConnected -> cn_state c = StConnected;
  rq_events : grows silent (cn_events c) (cn_events c');
}.

#[export] Instance rquiet_preorder : PreOrder rquiet.
Proof.
  split; [by constructor|]. intros c1 c2 c3 [A1 A2 A3 A4] [B1 B2 B3 B4].
  constructor; [congruence|auto|auto|by etransitivity].
Qed.

Section Quiet.
Context {B : BytesApi} {HB : BytesSpec B} {P : CryptoPrims}.

Record squiet (c c' : Connection) : Prop := {
  sq_side : send_side c' = send_side c;
  sq_outputs : grows harmless_output (cn_outputs c) (cn_outputs c');
}.

#[export] Instance squiet_preorder : PreOrder squiet.
Proof.
  split; [by constructor|]. intros c1 c2 c3 [A1 A2] [B1 B2].
  constructor; [congruence|by etransitivity].
Qed.

Definition calm (c c' : Connection) : Prop := squiet c c' /\ rquiet c c'.

#[export] Instance calm_preorder : PreOrder calm.
Proof.
  split; [by split|]. intros c1 c2 c3 [A1 A2] [B1 B2]. split; by etransitivity.
Qed.

End Quiet.

(** [quietly] closes a quiet goal for an update that appends at most one entry
    to each queue. *)
Ltac grown := first [reflexivity | apply grows_snoc; first [exact I | assumption | done]].
Ltac quietly :=
  lazymatch goal with
  | |- calm _ _ => split; quietly
  | |- squiet _ _ => constructor; [reflexivity | grown]
  | |- rquiet _ _ => constructor; [reflexivity | first [done | by intros] | first [done | by intros] | grown]
  end.

Section Calm.
Context {B : BytesApi} {HB : BytesSpec B} {P : CryptoPrims}.

Lemma calm_s c c' : calm c c' -> squiet c c'.
Proof. by intros [H _]. Qed.
Lemma calm_r c c' : calm c c' -> rquiet c c'.
Proof. by intros [_ H]. Qed.
Lemma calm_keys c c' : calm c c' -> keys_of c' = keys_of c.
Proof. intros [_ [H _ _ _]]. exact (f_equal snd H). Qed.

Lemma wlp_calm_s c m : wlp m (calm c) -> wlp m (squiet c).
Proof. intros H. eapply wlp_mono; [exact H|]. apply calm_s. Qed.
Lemma wlp_calm_r c m : wlp m (calm c) -> wlp m (rquiet c).
Proof. intros H. eapply wlp_mono; [exact H|]. apply calm_r. Qed.

(** Sequencing for any of the relations. *)
Lemma wlp_chain (R : relation Connection) `{!PreOrder R} c m k :
  wlp m (R c) -> (forall c', R c c' -> wlp (k c') (R c')) -> wlp (m ≫= k) (R c).
Proof.
  intros Hm Hk. eapply wlp_bind; [exact Hm|]. intros c' H1. eapply wlp_mono; [by apply Hk|].
  intros c'' H2. by etransitivity.
Qed.

Lemma wlp_from (R : relation Connection) `{!PreOrder R} c c' m :
  R c c' -> wlp m (R c') -> wlp m (R c).
Proof. intros H Hm. eapply wlp_mono; [exact Hm|]. intros c'' H'. by etransitivity. Qed.

Lemma wlp_encode (R : relation Connection) dest ts body k c :
  harmless_kind body -> (forall d, harmless d -> wlp (k d) (R c)) ->
  wlp (encode_control dest ts body ≫= k) (R c).
Proof. intros Hb Hk. eapply wlp_bind; [by apply encode_control_harmless|exact Hk]. Qed.

Lemma timer_calm c o : match o with SendDatagram _ => False | _ => True end -> calm c (push_output o c).
Proof. intros Ho. destruct o; [done|quietly..]. Qed.
Lemma event_calm c e : silent e -> calm c (push_event e c).
Proof. intros He. quietly. Qed.
Lemma emit_calm d now c : harmless d -> calm c (emit d now c).
Proof. intros Hd. quietly. Qed.
Lemma push_datagram_calm d c : harmless d -> calm c (push_output (SendDatagram d) c).
Proof. intros Hd. quietly. Qed.
Lemma arm_exp_calm c : calm c (arm_exp c).
Proof. by apply timer_calm. Qed.

Lemma clear_arq_timers_calm c : calm c (clear_arq_timers c).
Proof.
  unfold clear_arq_timers. generalize ARQ_TIMERS as ids. intros ids. revert c.
  induction ids as [|id ids IH]; intros c; cbn [foldl]; [done|].
  etransitivity; [by apply (timer_calm c (ClearTimer id))|]. apply IH.
Qed.

Lemma emit_control_calm body now c : harmless_kind body -> wlp (emit_control body now c) (calm c).
Proof.
  intros Hb. unfold emit_control. apply wlp_encode; [done|]. intros d Hd. by apply emit_calm.
Qed.

Lemma finalize_shutdown_calm now c : wlp (finalize_shutdown now c) (calm c).
Proof.
  unfold finalize_shutdown. apply wlp_encode; [done|]. intros d Hd. cbv zeta. cbn [wlp].
  etransitivity; [by apply (push_datagram_calm d)|].
  etransitivity; [apply clear_arq_timers_calm|].
  etransitivity; [by apply (timer_calm _ (ClearTimer TiLinger))|]. quietly.
Qed.

Lemma finish_close_calm now c : wlp (finish_close_if_drained now c) (calm c).
Proof. unfold finish_close_if_drained. case_match; [apply finalize_shutdown_calm|done]. Qed.

Lemma on_linger_calm now c : wlp (on_linger_timer now c) (calm c).
Proof. unfold on_linger_timer. case_match; [apply finalize_shutdown_calm|done]. Qed.

(** ** Keys *)

Lemma account_key_calm c : cn_next_key_ready c = false -> calm c (account_key_and_maybe_rotate c).
Proof.
  intros Hr. unfold account_key_and_maybe_rotate, maybe_switch_key. rewrite Hr.
  destruct (cn_crypto c); [|done]. cbv zeta. cbn [andb]. unfold maybe_request_key.
  case_match; [|quietly]. destruct (cfg_encryption _); quietly.
Qed.

Lemma on_km_rsp_calm cif c : still c -> calm c (on_km_rsp cif c).
Proof. intros [Hp _]. unfold on_km_rsp. by rewrite Hp. Qed.

Lemma resend_pending_km_calm now c : still c -> wlp (resend_pending_km now c) (calm c).
Proof. intros [Hp _]. unfold resend_pending_km. by rewrite Hp. Qed.

Lemma on_km_req_calm cif now c : cn_crypto c = None -> wlp (on_km_req cif now c) (calm c).
Proof.
  intros Hc. unfold on_km_req. rewrite Hc. destruct (cfg_encryption _); [|done].
  by destruct (km_decode cif).
Qed.

Lemma provide_rekey_calm sek now c : cn_crypto c = None -> wlp (provide_rekey sek now c) (calm c).
Proof.
  intros Hc. unfold provide_rekey. rewrite Hc. case_match; [done|]. by destruct (cfg_encryption _).
Qed.

(** ** Receiver bookkeeping *)

Lemma track_reorder_calm seq r c : calm c (track_reorder seq r c).
Proof.
  unfold track_reorder. destruct r; [done|]. destruct (cn_highest_recv_seq c); [|quietly]. cbv zeta.
  case_match; [|quietly]. case_match; quietly.
Qed.

Lemma anchor_tsbpd_calm ts now c : calm c (anchor_tsbpd ts now c).
Proof. unfold anchor_tsbpd. case_match; quietly. Qed.

Lemma sample_drift_calm ts r now c : calm c (sample_drift ts r now c).
Proof. unfold sample_drift. destruct r; [done|]. case_match; quietly. Qed.

Lemma on_ackack_calm n now c : calm c (on_ackack n now c).
Proof. unfold on_ackack. repeat case_match; quietly. Qed.

Lemma send_light_ack_calm now c : wlp (send_light_ack now c) (calm c).
Proof.
  unfold send_light_ack. cbv zeta.
  match goal with |- wlp (emit_control _ _ ?c') _ => apply (wlp_from calm c c'); [quietly|] end.
  by apply emit_control_calm.
Qed.

Lemma send_nak_calm missing now c : wlp (send_nak missing now c) (calm c).
Proof.
  unfold send_nak. cbv zeta. apply wlp_encode; [done|]. intros d Hd. cbn [wlp].
  quietly.
Qed.

Lemma report_loss_calm now c : wlp (report_loss now c) (calm c).
Proof.
  unfold report_loss. case_match; [|case_match; cbn [wlp]; quietly]. cbv zeta. case_match; [|done].
  apply (wlp_chain calm); [apply send_nak_calm|]. intros c' _. cbn [wlp]. quietly.
Qed.

(** ** Timers *)

Lemma on_keepalive_calm now c : still c -> wlp (on_keepalive_timer now c) (calm c).
Proof.
  intros Hs. unfold on_keepalive_timer. case_match; [done|].
  apply (wlp_chain calm); [by apply resend_pending_km_calm|]. intros c1 _.
  apply (wlp_chain calm); [|intros c2 _; cbn [wlp]; by apply timer_calm].
  case_match; [by apply emit_control_calm|done].
Qed.

Lemma on_ack_timer_calm now c : wlp (on_ack_timer now c) (calm c).
Proof.
  unfold on_ack_timer. case_match; [done|]. cbv zeta.
  set (c1 := push_output (SetTimer TiAck ACK_INTERVAL) c).
  apply (wlp_from calm c c1); [by apply timer_calm|]. clearbody c1.
  case_match; [done|]. destruct (delivery_rate _) as [pps bps].
  match goal with |- wlp (emit_control _ _ ?c') _ => apply (wlp_from calm c1 c') end.
  - case_match; quietly.
  - by apply emit_control_calm.
Qed.

Lemma on_nak_timer_calm now c : wlp (on_nak_timer now c) (calm c).
Proof.
  unfold on_nak_timer. case_match; [done|]. cbv zeta.
  set (c1 := push_output _ c). apply (wlp_from calm c c1); [by apply timer_calm|]. clearbody c1.
  match goal with |- wlp (if ?b then _ else _) _ => destruct b end; [done|].
  destruct (bool_decide _); [apply send_nak_calm|done].
Qed.

Lemma on_peer_idle_calm now c : calm c (on_peer_idle_timer now c).
Proof.
  unfold on_peer_idle_timer. case_match; [done|]. cbv zeta. case_match; [|by apply timer_calm].
  etransitivity; [|by apply event_calm]. etransitivity; [|apply clear_arq_timers_calm]. quietly.
Qed.

(** The handshake a connection keeps to send again. *)
Definition handshake_harmless (c : Connection) : Prop :=
  forall bs, cn_last_handshake c = Some bs -> harmless bs.

Lemma on_handshake_timer_calm now c : handshake_harmless c -> calm c (on_handshake_timer now c).
Proof.
  intros Hh. unfold on_handshake_timer. case_match; [done|]. case_match; [quietly|].
  destruct (cn_last_handshake c) as [bs|] eqn:E; [|done].
  etransitivity; [by apply push_datagram_calm, Hh|]. by apply timer_calm.
Qed.

Lemma on_dup_handshake_calm hs c : handshake_harmless c -> calm c (on_dup_handshake hs c).
Proof.
  intros Hh. unfold on_dup_handshake. case_match; [|done].
  destruct (cn_last_handshake c) as [bs|] eqn:E; [|done]. by apply push_datagram_calm, Hh.
Qed.

Lemma on_rejected_calm reason c : calm c (on_rejected reason c).
Proof. quietly. Qed.

Lemma conn_close_calm now c : wlp (conn_close now c) (calm c).
Proof.
  unfold conn_close. case_match; [done|]. case_match; [cbn [wlp]; quietly|].
  case_match; [apply finalize_shutdown_calm|]. cbn [wlp]. quietly.
Qed.
End Calm.
