(* ===== verification/SendInv.v ===== *)
(** * SendInv: everything a sender puts on the wire is genuine

    [L] is the list of fragments the application handed over, in order.  A data
    packet is [carried] when it holds, under keys the receiver has, the fragment
    at its sequence number's place in [L].  [sending] is the invariant of the
    sending side: what it buffers and what it queued as output is genuine,
    whatever the connection received in between.  The messages behind [L] are
    those whose [send] succeeded ([accepted]). *)

From S2P Require Import Prelude Buf Errors Reject Seq LossList Time Timestamp Rate LiveCc PacketTypes Handshake Control Packet SendBuffer RecvBuffer Fec KeyMaterial Crypto Config Event Fragment ConnState Rekey Arq Setup Conn ConnInv ConnStart Session Delivery DriverInv Genuine.

(** ** Receiving leaves the sending side alone *)

Section Receiving.
Context {B : BytesApi} {HB : BytesSpec B} {P : CryptoPrims}.

Lemma deliver_one_squiet c : squiet c (deliver_one c).
Proof.
  unfold deliver_one. cbv zeta. destruct (rb_pop _) as [[p|] rb]; [|quietly].
  destruct (ra_push _ p) as [[m|] ra]; quietly.
Qed.

Lemma deliver_loop_squiet fuel now c : wlp (deliver_loop fuel now c) (squiet c).
Proof.
  revert c. induction fuel as [|fuel IH]; intros c; cbn [deliver_loop]; [done|].
  destruct (rb_peek _) as [[s ts]|]; [|cbn [wlp]; quietly].
  destruct (tsbpd_play_time c ts); [|done]. case_match; [cbn [wlp]; quietly|].
  apply (wlp_from squiet c (deliver_one c)); [apply deliver_one_squiet|apply IH].
Qed.

Lemma deliver_tsbpd_squiet now c : wlp (deliver_tsbpd now c) (squiet c).
Proof. apply deliver_loop_squiet. Qed.

Lemma after_insert_squiet data now c : wlp (after_insert data now c) (squiet c).
Proof.
  unfold after_insert. cbv zeta.
  match goal with |- wlp (deliver_tsbpd now ?c' ≫= _) _ => apply (wlp_from squiet c c') end.
  { etransitivity; [|apply calm_s, sample_drift_calm]. etransitivity; [|apply calm_s, anchor_tsbpd_calm].
    match goal with |- context [track_reorder ?s ?r ?c'] =>
      transitivity c'; [quietly|]; etransitivity; [apply calm_s, (track_reorder_calm s r)|] end.
    quietly. }
  apply (wlp_chain squiet); [apply deliver_tsbpd_squiet|]. intros c1 _.
  match goal with |- context [if ?b then send_light_ack now ?c' else _] =>
    apply (wlp_from squiet c1 c'); [quietly|] end.
  apply (wlp_chain squiet).
  - case_match; [apply wlp_calm_s, send_light_ack_calm|done].
  - intros c2 _. apply wlp_calm_s, report_loss_calm.
Qed.

Lemma insert_data_squiet data now c : wlp (insert_data data now c) (squiet c).
Proof.
  unfold insert_data. case_match; [cbn [wlp]; quietly|].
  apply (wlp_bind _ _ (fun _ => True)); [by destruct (decrypt_data _ _)|].
  intros [q|] _; [|cbn [wlp]; quietly]. destruct (rb_insert _ q) as [ins rb]. cbv zeta.
  destruct (negb ins); [cbn [wlp]; quietly|].
  match goal with |- wlp (after_insert _ _ ?c') _ => apply (wlp_from squiet c c'); [quietly|] end.
  apply after_insert_squiet.
Qed.

Lemma inject_all_squiet rps now c : wlp (inject_all rps now c) (squiet c).
Proof.
  revert c. induction rps as [|rp rps IH]; intros c; cbn [inject_all]; [done|].
  apply (wlp_chain squiet); [|intros c1 _; apply IH]. unfold inject_recovered.
  destruct (enc_from_bits _); [|done..]. cbv zeta.
  match goal with |- wlp (insert_data _ _ ?c') _ => apply (wlp_from squiet c c'); [quietly|] end.
  apply insert_data_squiet.
Qed.

Lemma on_data_squiet data now c : wlp (on_data data now c) (squiet c).
Proof.
  unfold on_data. destruct (cn_fec_recv c) as [fec|]; [|apply insert_data_squiet]. case_match.
  - destruct (observe_parity _ _ _ _) as [fec' rec].
    match goal with |- wlp (inject_all _ _ ?c') _ => apply (wlp_from squiet c c'); [quietly|] end.
    apply inject_all_squiet.
  - destruct (observe_data _ _ _ _ _ _) as [fec' rec].
    apply (wlp_chain squiet); [|intros c1 _; apply inject_all_squiet].
    match goal with |- wlp (insert_data _ _ ?c') _ => apply (wlp_from squiet c c'); [quietly|] end.
    apply insert_data_squiet.
Qed.

Lemma on_dropreq_squiet first last now c : wlp (on_dropreq first last now c) (squiet c).
Proof.
  unfold on_dropreq. cbv zeta.
  match goal with |- wlp (deliver_tsbpd _ ?c') _ => apply (wlp_from squiet c c'); [quietly|] end.
  apply deliver_tsbpd_squiet.
Qed.

Lemma flush_loop_squiet fuel c : wlp (flush_loop fuel c) (squiet c).
Proof.
  revert c. induction fuel as [|fuel IH]; intros c; cbn [flush_loop]; [done|].
  destruct (rb_pop_in_order _) as [[p|] rb]; cbv zeta; [|cbn [wlp]; quietly].
  destruct (ra_push _ p) as [m ra].
  match goal with |- wlp (flush_loop _ ?c') _ => apply (wlp_from squiet c c') end; [|apply IH].
  destruct m; quietly.
Qed.

Lemma on_shutdown_squiet c : wlp (on_shutdown c) (squiet c).
Proof.
  unfold on_shutdown. apply (wlp_chain squiet); [apply flush_loop_squiet|]. intros c1 _. cbn [wlp].
  etransitivity; [|by apply calm_s, event_calm].
  etransitivity; [|apply calm_s, clear_arq_timers_calm]. quietly.
Qed.
End Receiving.

(** ** What a genuine datagram is *)

Section Genuine.
Context {B : BytesApi} {HB : BytesSpec B} {P : CryptoPrims}.
Context (r : Connection) (s0 : SeqNumber).

(** The packet at [L]'s place [i] opens at the receiver as fragment [i]. *)
Definition carried (L : list Fragment) (d : DataPacket) : Prop :=
  exists i f q, L !! i = Some f /\ dp_seq d = seq_add s0 (Z.of_nat i) /\
    decrypt_data d r = Ret (Some q) /\ dp_seq q = dp_seq d /\
    dp_position q = fg_position f /\ dp_payload q = fg_payload f.

(** A drop request stays within what was sent. *)
Definition drops_sent (L : list Fragment) (body : ControlBody) : Prop :=
  exists n first j, body = CbDropReq n first (seq_add s0 (Z.of_nat j)) /\ (j < length L)%nat.

Definition genuine_packet (L : list Fragment) (p : Packet) : Prop :=
  match p with
  | PData d => carried L d
  | PControl c => harmless_body (cp_body c) \/ drops_sent L (cp_body c)
  end.

Definition genuine (L : list Fragment) (d : list byte) : Prop :=
  forall p, packet_decode d = Ok p -> genuine_packet L p.

Definition genuine_output (L : list Fragment) (o : Output) : Prop :=
  match o with SendDatagram d => genuine L d | _ => True end.

Lemma carried_app L L' d : carried L d -> carried (L ++ L') d.
Proof.
  intros (i & f & q & Hi & H). exists i, f, q. split; [|done]. by apply lookup_app_l_Some.
Qed.

Lemma genuine_app L L' d : genuine L d -> genuine (L ++ L') d.
Proof.
  intros H p Hp. specialize (H p Hp). destruct p as [d'|c]; [by apply carried_app|].
  destruct H as [H|(n & first & j & H & Hj)]; [by left|right].
  exists n, first, j. rewrite length_app. split; [done|lia].
Qed.

Lemma genuine_outputs_app L L' os :
  Forall (genuine_output L) os -> Forall (genuine_output (L ++ L')) os.
Proof. intros H. eapply Forall_impl; [exact H|]. intros [d| |]; [apply genuine_app|done..]. Qed.

Lemma harmless_genuine L d : harmless d -> genuine L d.
Proof. intros H p Hp. specialize (H p Hp). destruct p; [done|by left]. Qed.

Lemma harmless_outputs_genuine L os : Forall harmless_output os -> Forall (genuine_output L) os.
Proof. intros H. eapply Forall_impl; [exact H|]. intros [d| |]; [apply harmless_genuine|done..]. Qed.

Lemma genuine_data L d bs : data_packet_ok d -> carried L d -> encode_data d = Ret bs -> genuine L bs.
Proof.
  intros Hok Hc He p Hp. destruct (encode_data_decodes d Hok) as (bs' & E & Hd).
  rewrite He in E. injection E as <-. rewrite Hd in Hp. by injection Hp as <-.
Qed.

(** A buffered packet: it may go out again at any time. *)
Definition stored (L : list Fragment) (d : DataPacket) : Prop :=
  data_packet_ok d /\ carried L d /\ carried L (set_retransmitted d).

Lemma stored_app L L' d : stored L d -> stored (L ++ L') d.
Proof. intros (H1 & H2 & H3). split_and!; [done|by apply carried_app..]. Qed.

Lemma genuine_retransmit L d bs : stored L d -> encode_retransmit d = Ret bs -> genuine L bs.
Proof. intros (Hok & _ & Hc) He. by apply (genuine_data L (set_retransmitted d)). Qed.

Lemma stored_seq L d : stored L d -> exists j, (j < length L)%nat /\ dp_seq d = seq_add s0 (Z.of_nat j).
Proof.
  intros (_ & (i & f & q & Hi & Hs & _) & _). exists i. split; [by eapply lookup_lt_Some|done].
Qed.
End Genuine.

(** ** What a sender accepted *)

(** The messages whose [send] succeeded, in order. *)
Section Accepted.
Context {B : BytesApi} {P : CryptoPrims}.

Definition accepted_one (call : ConnCall) (c : Connection) : list (list byte) :=
  match call with
  | CallSend m now => match conn_send m now c with Ok _ => [m] | _ => [] end
  | _ => []
  end.

Fixpoint accepted (calls : list ConnCall) (c : Connection) : list (list byte) :=
  match calls with
  | [] => []
  | call :: rest =>
      accepted_one call c ++ match conn_step call c with Ret c => accepted rest c | Panic => [] end
  end.

Lemma accepted_sent calls c : sublist (accepted calls c) (sent_by calls).
Proof.
  revert c. induction calls as [|call calls IH]; intros c; cbn [accepted]; [done|].
  assert (sent_by (call :: calls) = sent_by [call] ++ sent_by calls) as ->
    by (unfold sent_by; by rewrite <- omap_app).
  apply sublist_app.
  - destruct call; try done. cbn [accepted_one]. case_match; [done|apply sublist_nil_l..].
  - destruct (conn_step call c); [apply IH|apply sublist_nil_l].
Qed.
End Accepted.

(** ** The sender's invariant *)

Section Sending.
Context {B : BytesApi} {HB : BytesSpec B} {P : CryptoPrims} {HP : CryptoSpec P}.

(** [a] is where the sender starts, [r] holds the receiver's keys. *)
Context (a r : Connection).
Context (Hcrypto : forall sc, cn_crypto a = Some sc -> sc_ok sc) (Hcov : covers a r).
Context (Hs0 : seq_ok (cn_next_send_seq a)).

Abbreviation s0 := (cn_next_send_seq a).

Record sending (L : list Fragment) (c : Connection) : Prop := {
  sd_next : cn_next_send_seq c = seq_add s0 (Z.of_nat (length L));
  sd_stored : Forall (stored r s0 L) (sent_packet <$> sb_packets (cn_send_buffer c));
  sd_outputs : Forall (genuine_output r s0 L) (cn_outputs c);
  sd_fec : cn_fec_send c = None;
  sd_crypto : cn_crypto c = cn_crypto a;
  sd_still : still c;
  sd_handshake : handshake_harmless c;
  sd_peer : socket_id_ok (cn_peer_socket_id c);
  sd_config : cn_config c = cn_config a;
  sd_queue : unpaced c = true -> cn_send_queue c = [];
}.

(** Handlers that send no new fragment. *)
Definition skeeps (c c' : Connection) : Prop :=
  cn_send_queue c' = cn_send_queue c /\ unpaced c' = unpaced c /\
  forall L, sending L c -> sending L c'.

#[local] Instance skeeps_preorder : PreOrder skeeps.
Proof.
  split; [intros c; split; [done|]; split; [done|]; auto|].
  intros c1 c2 c3 (A1 & A2 & A3) (B1 & B2 & B3).
  split; [congruence|]. split; [congruence|auto].
Qed.

Lemma sending_outputs L c os :
  Forall (genuine_output r s0 L) os -> sending L c ->
  sending L (c <| cn_outputs := os |>).
Proof. intros Ho [H1 H2 H3 H4 H5 H6 H7 H8 H9 H10]. by constructor. Qed.

Lemma squiet_skeeps c c' : squiet c c' -> skeeps c c'.
Proof.
  intros [Hv Ho]. unfold send_side, keys_of in Hv.
  injection Hv as E1 E2 E3 E4 E5 E6 E7 E8 E9 E10 E11. split; [done|]. split; [done|].
  intros L [H1 H2 H3 H4 H5 H6 H7 H8 H9 H10].
  constructor; unfold still, handshake_harmless in *;
    rewrite ?E1, ?E2, ?E3, ?E4, ?E5, ?E6, ?E7, ?E8, ?E9, ?E10, ?E11; try done.
  destruct Ho as (k & -> & Hk). apply Forall_app. split; [done|]. by apply harmless_outputs_genuine.
Qed.

Lemma calm_skeeps c c' : calm c c' -> skeeps c c'.
Proof. intros H. by apply squiet_skeeps, calm_s. Qed.
Lemma wlp_squiet c m : wlp m (squiet c) -> wlp m (skeeps c).
Proof. intros H. eapply wlp_mono; [exact H|]. apply squiet_skeeps. Qed.
Lemma wlp_calm c m : wlp m (calm c) -> wlp m (skeeps c).
Proof. intros H. by apply wlp_squiet, wlp_calm_s. Qed.
Lemma wlp_skeeps_from c c' m : skeeps c c' -> wlp m (skeeps c') -> wlp m (skeeps c).
Proof. apply (wlp_from skeeps). Qed.

Lemma fmap_alter_packets (l : list Sent) (i : nat) (now : Instant) :
  sent_packet <$> alter (fun s => MkSent (sent_packet s) (Some now)) i l = sent_packet <$> l.
Proof.
  revert i. induction l as [|x l IH]; intros [|i]; [done..|]. cbn. f_equal. apply IH.
Qed.

Lemma live_cc_squiet f c : squiet c (c <| cn_live_cc ::= fmap f |>).
Proof.
  constructor; [|done]. apply pair_equal_spec. split; [reflexivity|].
  change (match f <$> cn_live_cc c with None => true | Some _ => false end = unpaced c).
  unfold unpaced. by destruct (cn_live_cc c).
Qed.

(** An update of the send buffer that only drops packets or marks them. *)
Lemma buffer_skeeps c sb :
  (forall p, p ∈ (sent_packet <$> sb_packets sb) -> p ∈ (sent_packet <$> sb_packets (cn_send_buffer c))) ->
  skeeps c (c <| cn_send_buffer := sb |>).
Proof.
  intros Hin. split; [done|]. split; [done|]. intros L [H1 H2 H3 H4 H5 H6 H7 H8 H9 H10].
  constructor; try done. rewrite Forall_forall in H2. apply Forall_forall. intros p Hp.
  by apply H2, Hin.
Qed.

Lemma buffer_drop_skeeps c k :
  skeeps c (c <| cn_send_buffer := MkSendBuffer (drop k (sb_packets (cn_send_buffer c))) |>).
Proof.
  apply buffer_skeeps. intros p Hp. cbn [sb_packets] in Hp.
  rewrite <- (take_drop k (sb_packets _)), fmap_app. apply elem_of_app. by right.
Qed.

Lemma sending_emit L c d now : genuine r s0 L d -> sending L c -> sending L (emit d now c).
Proof.
  intros Hd [H1 H2 H3 H4 H5 H6 H7 H8 H9 H10]. constructor; try done.
  change (Forall (genuine_output r s0 L) (cn_outputs c ++ [SendDatagram d])).
  apply Forall_app. split; [done|]. by constructor.
Qed.

Lemma front_stored L c p : sending L c -> sb_front (cn_send_buffer c) = Some p -> stored r s0 L p.
Proof.
  intros Hs. unfold sb_front. pose proof (sd_stored _ _ Hs) as H.
  destruct (sb_packets _) as [|x l]; [done|]. intros [= <-]. by apply Forall_cons in H as [? _].
Qed.

Lemma get_stored L c q p : sending L c -> sb_get (cn_send_buffer c) q = Some p -> stored r s0 L p.
Proof.
  intros Hs. unfold sb_get. destruct (sb_index_of _ q) as [i|]; [|done]. cbn [mbind option_bind].
  intros Hx. rewrite <- list_lookup_fmap in Hx. eapply Forall_lookup_1 in Hx; [exact Hx|apply Hs].
Qed.

(** ** Dropping and retransmitting *)

(** What the shedding loop collects: a range of sent packets. *)
Definition shed_ok (L : list Fragment) (acc : option (SeqNumber * SeqNumber * Z)) : Prop :=
  match acc with
  | None => True
  | Some (first, last, n) => seq_ok first /\ u32_ok n /\
      exists j, (j < length L)%nat /\ last = seq_add s0 (Z.of_nat j)
  end.

Lemma shed_loop_skeeps fuel budget ts acc c :
  wlp (shed_loop fuel budget ts acc c) (fun res =>
    skeeps c res.2 /\ forall L, sending L c -> shed_ok L acc -> shed_ok L res.1).
Proof.
  revert acc c. induction fuel as [|fuel IH]; intros acc c; cbn [shed_loop]; [done|].
  destruct (sb_front _) as [front|] eqn:Ef; [|by cbn [wlp]].
  case_match; [by cbn [wlp]|]. cbv zeta.
  match goal with |- wlp (shed_loop _ _ _ ?acc' ?c') _ => set (c1 := c'); set (acc1 := acc') end.
  assert (skeeps c c1) as H1.
  { unfold c1. transitivity (c <| cn_send_buffer := snd (sb_drop_front (cn_send_buffer c)) |>);
      [|apply squiet_skeeps; quietly].
    unfold sb_drop_front. unfold sb_front in Ef.
    destruct (sb_packets (cn_send_buffer c)) as [|x l] eqn:El; [done|].
    pose proof (buffer_drop_skeeps c 1) as Hd. by rewrite El in Hd. }
  eapply wlp_mono; [apply IH|]. intros [acc2 c2] [H2 Hacc]. cbn [fst snd] in *.
  split; [by etransitivity|]. intros L Hs Ha. apply Hacc; [by apply H1|].
  pose proof (front_stored _ _ _ Hs Ef) as Hf. unfold acc1.
  assert (u32_ok (msg_value (dp_message_number front))) as Hn.
  { destruct Hf as ((_ & Hm & _) & _). unfold msg_ok in Hm. unfold u32_ok. lia. }
  split; [|split; [exact Hn|by apply stored_seq in Hf]].
  destruct acc as [[[f l] n]|]; [apply Ha|apply Hf].
Qed.

Lemma drop_too_late_skeeps now c : wlp (drop_too_late now c) (skeeps c).
Proof.
  unfold drop_too_late. cbv zeta.
  eapply wlp_bind; [apply shed_loop_skeeps|]. intros [acc c1] [H1 Hacc]. cbn [fst snd] in *.
  destruct acc as [[[first last] n]|]; [|done].
  apply wlp_any. intros c2 E.
  destruct (encode_control (cn_peer_socket_id c1) (wire_ts c now) (CbDropReq n first last)) as [d|] eqn:Ed;
    [|done]. cbn [mbind panicky_bind] in E. injection E as <-.
  transitivity (emit d now c1); [|apply calm_skeeps; case_match; [by apply timer_calm|done]].
  split; [apply H1|]. split; [apply H1|]. intros L Hs.
  destruct H1 as (_ & _ & H1). specialize (H1 L Hs). destruct (Hacc L Hs I) as (Hf & Hn & j & Hj & ->).
  apply sending_emit; [|done]. intros p Hp.
  destruct (encode_control_decodes (cn_peer_socket_id c1) (wire_ts c now)
    (CbDropReq n first (seq_add s0 (Z.of_nat j)))) as (d' & E' & Hd);
    [apply H1|apply wire_ts_ok|split_and!; [done..|apply seq_add_ok]|].
  rewrite Ed in E'. injection E' as <-. rewrite Hd in Hp. injection Hp as <-. right.
  by exists n, first, j.
Qed.

Lemma retransmit_one_skeeps seq start stop gate now c :
  wlp (retransmit_one seq start stop gate now c) (skeeps c).
Proof.
  unfold retransmit_one. cbv zeta. destruct (in_range _ _ _ && _); [|done].
  destruct (sb_get _ seq) as [p|] eqn:Eg; [|done].
  destruct (encode_retransmit p) as [d|] eqn:Ed; [|done]. cbn [mbind panicky_bind wlp].
  match goal with |- context [emit d now ?c'] => set (c1 := c') end.
  assert (skeeps c c1) as H1 by (apply squiet_skeeps; quietly).
  transitivity (emit d now c1).
  - split; [done|]. split; [done|]. intros L Hs.
    apply sending_emit; [|by apply H1]. eapply genuine_retransmit; [|exact Ed].
    by eapply get_stored.
  - set (c2 := emit d now c1).
    apply (buffer_skeeps c2 (sb_mark_retransmitted (cn_send_buffer c2) seq now)).
    intros q. unfold sb_mark_retransmitted. destruct (sb_index_of _ _) as [i|]; [|done].
    cbn [sb_packets]. by rewrite fmap_alter_packets.
Qed.

Lemma retransmit_loop_skeeps fuel seq last start stop gate now c :
  wlp (retransmit_loop fuel seq last start stop gate now c) (skeeps c).
Proof.
  revert seq c. induction fuel as [|fuel IH]; intros seq c; cbn [retransmit_loop]; [done|].
  apply (wlp_chain skeeps); [apply retransmit_one_skeeps|]. intros c1 _. case_match; [done|apply IH].
Qed.

Lemma retransmit_range_skeeps start stop now c : wlp (retransmit_range start stop now c) (skeeps c).
Proof.
  unfold retransmit_range. destruct (sb_first_seq _); [|done]. destruct (sb_last_seq _); [|done].
  apply retransmit_loop_skeeps.
Qed.

Lemma retransmit_ranges_skeeps loss now c : wlp (retransmit_ranges loss now c) (skeeps c).
Proof.
  revert c. induction loss as [|x loss IH]; intros c; cbn [retransmit_ranges]; [done|].
  apply (wlp_chain skeeps); [apply retransmit_range_skeeps|]. intros c1 _. apply IH.
Qed.

Lemma on_nak_skeeps loss now c : wlp (on_nak loss now c) (skeeps c).
Proof.
  unfold on_nak. cbv zeta.
  match goal with |- wlp (drop_too_late _ ?c' ≫= _) _ => apply (wlp_skeeps_from c c') end.
  { apply squiet_skeeps. quietly. }
  apply (wlp_chain skeeps); [apply drop_too_late_skeeps|]. intros c1 _. apply retransmit_ranges_skeeps.
Qed.

Lemma on_ack_skeeps ack now c : wlp (on_ack ack now c) (skeeps c).
Proof.
  unfold on_ack. cbv zeta.
  match goal with |- wlp (drop_too_late _ ?c' ≫= _) _ => apply (wlp_skeeps_from c c') end.
  { transitivity (c <| cn_send_buffer := snd (sb_ack (cn_send_buffer c) (ack_last_ack_seq ack)) |>).
    - unfold sb_ack.
      destruct (ack_loop_suffix (sb_packets (cn_send_buffer c)) (ack_last_ack_seq ack) 0) as (k & _ & ->).
      apply buffer_drop_skeeps.
    - apply squiet_skeeps. destruct (ack_cif ack); quietly. }
  apply (wlp_chain skeeps); [apply drop_too_late_skeeps|]. intros c1 _.
  match goal with |- wlp (finish_close_if_drained _ ?c' ≫= _) _ => apply (wlp_skeeps_from c1 c') end.
  { transitivity (c1 <| cn_live_cc ::= fmap cc_on_ack |> <| cn_exp_count := 1 |>).
    - etransitivity; [apply squiet_skeeps, (live_cc_squiet cc_on_ack)|apply squiet_skeeps; quietly].
    - apply squiet_skeeps. case_match; quietly. }
  apply (wlp_chain skeeps); [apply wlp_calm, finish_close_calm|]. intros c2 _.
  destruct (ack_cif ack); [done|..]; by apply wlp_calm, emit_control_calm.
Qed.

Lemma on_exp_skeeps now c : wlp (on_exp_timer now c) (skeeps c).
Proof.
  unfold on_exp_timer. case_match; [done|].
  apply (wlp_chain skeeps); [apply drop_too_late_skeeps|]. intros c1 _. case_match; [done|].
  apply (wlp_chain skeeps).
  - destruct (sb_first_seq _); [|done]. destruct (sb_last_seq _); [|done]. apply retransmit_range_skeeps.
  - intros c2 _. cbn [wlp]. apply squiet_skeeps. quietly.
Qed.

(** ** Sending fragments *)

Definition sent_to (L : list Fragment) (c c' : Connection) : Prop :=
  unpaced c' = unpaced c /\ cn_send_queue c' = cn_send_queue c /\ sending L c'.

Lemma skeeps_sent_to L c c' : skeeps c c' -> sending L c -> sent_to L c c'.
Proof. intros (A1 & A2 & A3) H. split_and!; auto. Qed.

Lemma sent_to_trans L L' c1 c2 c3 : sent_to L c1 c2 -> sent_to L' c2 c3 -> sent_to L' c1 c3.
Proof. intros (A1 & A2 & _) (B1 & B2 & B3). split; [congruence|]. split; [congruence|done]. Qed.

(** The packet [build_packet] makes is stored and carried at the next place. *)
Lemma build_packet_stored f now c L p :
  sending L c -> build_packet f now c = Ret p -> stored r s0 (L ++ [f]) p.
Proof.
  intros [H1 H2 H3 H4 H5 H6 H7 H8 H9 H10] Hb.
  destruct (build_packet_opens f now c r p) as (Hok & Hs & _ & _ & Hop); try done.
  - intros sc Hsc. apply Hcrypto. by rewrite <- H5.
  - rewrite H1. apply seq_add_ok.
  - intros sc. rewrite H5. apply Hcov.
  - assert (forall d, dp_seq d = cn_next_send_seq c -> (exists q, decrypt_data d r = Ret (Some q) /\
      dp_seq q = cn_next_send_seq c /\ dp_position q = fg_position f /\
      dp_message_number q = msg_new (fg_message f) /\ dp_payload q = fg_payload f) ->
      carried r s0 (L ++ [f]) d) as Hc.
    { intros d Hd (q & Hq & Hq1 & Hq2 & _ & Hq3). exists (length L), f, q.
      split; [by rewrite lookup_app_r, Nat.sub_diag by lia|]. split_and!; [by rewrite Hd|done..|congruence|done|done]. }
    split; [done|]. split; apply Hc; try done; [exact (Hop false)|exact (Hop true)].
Qed.

Lemma send_data_sends f now L c :
  sending L c -> wlp (send_data f now c) (sent_to (L ++ [f]) c).
Proof.
  intros Hs. unfold send_data. cbv zeta.
  match goal with |- context [build_packet f now ?c'] => set (c1 := c') end.
  assert (sent_to L c c1) as (Hu1 & Hq1 & Hs1).
  { apply skeeps_sent_to; [|done]. transitivity (account_key_and_maybe_rotate c).
    - apply calm_skeeps, account_key_calm, Hs.
    - apply squiet_skeeps. quietly. }
  clearbody c1. clear Hs. destruct (build_packet f now c1) as [p|] eqn:Eb; [|done].
  pose proof (build_packet_stored f now c1 L p Hs1 Eb) as Hp. cbn [mbind panicky_bind].
  destruct (encode_data p) as [d|] eqn:Ed; [|done]. cbn [mbind panicky_bind].
  rewrite (sd_fec _ _ Hs1).
  cbn [mbind panicky_bind wlp].
  match goal with |- sent_to _ _ (if _ then arm_exp (?c' <| cn_live_cc ::= ?g |>) else _) =>
    set (c2 := c'); pose proof (live_cc_squiet (fun cc => on_packet_sent cc (Z.of_nat (length (dp_payload p)))) c2) as Hcc;
    set (c3 := c' <| cn_live_cc ::= g |>) in * end.
  assert (sent_to (L ++ [f]) c c2) as H2.
  { split; [exact Hu1|]. split; [exact Hq1|].
    destruct Hs1 as [H1 H2 H3 H4 H5 H6 H7 H8 H9 H10]. constructor; try done.
    - change (cn_next_send_seq c2) with (seq_next (cn_next_send_seq c1)).
      rewrite H1, seq_add_next, length_app. f_equal. cbn. lia.
    - change (cn_send_buffer c2) with (sb_push (cn_send_buffer c1) p). unfold sb_push.
      cbn [sb_packets]. rewrite fmap_app. apply Forall_app. split; [|by constructor].
      eapply Forall_impl; [exact H2|]. intros q. apply stored_app.
    - change (cn_outputs c2) with (cn_outputs c1 ++ [SendDatagram d]). apply Forall_app.
      split; [by apply genuine_outputs_app|]. constructor; [|constructor].
      apply (genuine_data r s0 (L ++ [f]) p); [apply Hp|apply Hp|done]. }
  eapply sent_to_trans; [exact H2|]. apply skeeps_sent_to; [|apply H2].
  apply squiet_skeeps. etransitivity; [exact Hcc|].
  destruct (sb_is_empty _); [apply calm_s, arm_exp_calm|done].
Qed.

Lemma send_all_sends fs now L c :
  sending L c -> wlp (send_all fs now c) (sent_to (L ++ fs) c).
Proof.
  revert L c. induction fs as [|f fs IH]; intros L c Hs; cbn [send_all].
  { cbn [wlp]. rewrite app_nil_r. by apply skeeps_sent_to. }
  eapply wlp_bind; [by apply send_data_sends|]. intros c1 H1.
  eapply wlp_mono; [apply (IH (L ++ [f])), H1|]. intros c2 H2.
  rewrite <- app_assoc in H2. by eapply sent_to_trans.
Qed.

(** What was sent and what still waits for its slot. *)
Definition flows (L0 : list Fragment) (c : Connection) : Prop :=
  exists L, sending L c /\ L ++ cn_send_queue c = L0.

Lemma skeeps_flows L0 c c' : skeeps c c' -> flows L0 c -> flows L0 c'.
Proof. intros (H1 & H2 & H3) (L & Hs & E). exists L. rewrite H1. auto. Qed.

Lemma wlp_skeeps_flows L0 c m : wlp m (skeeps c) -> flows L0 c -> wlp m (flows L0).
Proof. intros Hm Hf. eapply wlp_mono; [exact Hm|]. intros c' H. by eapply skeeps_flows. Qed.

Lemma queue_sending L c q : unpaced c = false -> sending L c -> sending L (c <| cn_send_queue := q |>).
Proof.
  intros Hu [H1 H2 H3 H4 H5 H6 H7 H8 H9 H10]. constructor; try done.
  change (unpaced c = true -> q = []). by rewrite Hu.
Qed.

Lemma pace_loop_flows budget period now n L0 c :
  unpaced c = false -> flows L0 c ->
  wlp (pace_loop budget period now n c) (fun res => flows L0 res.2).
Proof.
  revert n c. induction budget as [|budget IH]; intros n c Hu Hf; cbn [pace_loop]; [done|].
  match goal with |- wlp (if ?b then _ else _) _ => destruct b end; [done|].
  destruct (cn_send_queue c) as [|f rest] eqn:Eq.
  { cbn [wlp snd]. eapply skeeps_flows; [|exact Hf]. apply squiet_skeeps. quietly. }
  destruct Hf as (L & Hs & E). rewrite Eq in E.
  eapply wlp_bind; [by apply send_data_sends, (queue_sending _ _ rest Hu)|].
  intros c1 (A1 & A2 & A3). cbv zeta. apply IH; [by rewrite <- Hu|].
  exists (L ++ [f]). split.
  - eapply (squiet_skeeps c1); [quietly|done].
  - change (cn_send_queue (c1 <| cn_next_send := _ |>)) with (cn_send_queue c1).
    rewrite A2, <- app_assoc. exact E.
Qed.

Lemma pace_flows now L0 c : flows L0 c -> wlp (pace now c) (flows L0).
Proof.
  intros Hf. unfold pace. destruct (cn_live_cc c) as [cc|] eqn:Ecc; [|done]. cbv zeta.
  eapply wlp_bind; [apply pace_loop_flows; [|exact Hf]|].
  { unfold unpaced. by rewrite Ecc. }
  intros [n c1] Hf1. cbn [snd] in Hf1.
  match goal with |- context [if ?b then c1 <| cn_next_send := ?v |> else c1] =>
    set (c2 := if b then c1 <| cn_next_send := v |> else c1) end.
  assert (flows L0 c2) as Hf2.
  { eapply skeeps_flows; [|exact Hf1]. apply squiet_skeeps. unfold c2. case_match; quietly. }
  clearbody c2. destruct (cn_send_queue c2).
  - eapply wlp_skeeps_flows; [apply wlp_calm, finish_close_calm|].
    eapply skeeps_flows; [|exact Hf2]. by apply calm_skeeps, timer_calm.
  - cbn [wlp]. eapply skeeps_flows; [|exact Hf2]. by apply calm_skeeps, timer_calm.
Qed.

Lemma conn_send_flows m now L0 c c' :
  flows L0 c -> conn_send m now c = Ok c' ->
  exists n, flows (L0 ++ fragment_message (max_payload a) m n) c'.
Proof.
  intros Hf. unfold conn_send. case_match; [done|]. cbv zeta.
  set (c1 := c <| cn_next_message := next_message_number (cn_next_message c) |>).
  assert (flows L0 c1) as (L & Hs & E).
  { eapply skeeps_flows; [|exact Hf]. apply squiet_skeeps. quietly. }
  assert (max_payload c1 = max_payload a) as ->.
  { unfold max_payload. by rewrite (sd_crypto _ _ Hs), (sd_config _ _ Hs). }
  clearbody c1. set (n := cn_next_message c). intros Hr. exists n.
  destruct (cn_live_cc c1) eqn:Ecc.
  - assert (unpaced c1 = false) as Hu by (unfold unpaced; by rewrite Ecc).
    set (fs := fragment_message (max_payload a) m n) in *.
    match type of Hr with lift (pace now ?c') = _ => set (c2 := c') in Hr end.
    assert (flows (L0 ++ fs) c2) as Hf2.
    { exists L. split; [by apply queue_sending|].
      change (cn_send_queue c2) with (cn_send_queue c1 ++ fs). by rewrite app_assoc, E. }
    pose proof (pace_flows now _ c2 Hf2) as Hw. destruct (pace now c2); [|done].
    by injection Hr as <-.
  - assert (cn_send_queue c1 = []) as Eq by (apply (sd_queue _ _ Hs); unfold unpaced; by rewrite Ecc).
    rewrite Eq, app_nil_r in E. subst L0.
    set (fs := fragment_message (max_payload a) m n) in *.
    pose proof (send_all_sends fs now L c1 Hs) as Hw. destruct (send_all fs now c1); [|done].
    injection Hr as <-. destruct Hw as (_ & Hq & Hs'). eexists. split; [exact Hs'|].
    by rewrite Hq, Eq, app_nil_r.
Qed.

(** ** The handshake *)

Lemma peer_skeeps c id : socket_id_ok id -> skeeps c (c <| cn_peer_socket_id := id |>).
Proof.
  intros Hid. split; [done|]. split; [done|]. intros L [H1 H2 H3 H4 H5 H6 H7 H8 H9 H10].
  by constructor.
Qed.

Lemma handshake_skeeps c d : harmless d -> skeeps c (c <| cn_last_handshake := Some d |>).
Proof.
  intros Hd. split; [done|]. split; [done|]. intros L [H1 H2 H3 H4 H5 H6 H7 H8 H9 H10].
  constructor; try done. by intros bs [= <-].
Qed.

Lemma emit_handshake_skeeps dest hs now c : wlp (emit_handshake dest hs now c) (skeeps c).
Proof.
  unfold emit_handshake. apply (wlp_encode skeeps); [done|]. intros d Hd. cbv zeta. cbn [wlp].
  etransitivity; [by apply (handshake_skeeps c d)|].
  etransitivity; [by apply calm_skeeps, (push_datagram_calm d)|]. by apply calm_skeeps, timer_calm.
Qed.

Lemma on_induction_response_skeeps hs now c :
  socket_id_ok (hs_srt_socket_id hs) -> wlp (on_induction_response hs now c) (skeeps c).
Proof.
  intros Hid. unfold on_induction_response. case_match; [done|]. cbv zeta.
  match goal with |- wlp (send_conclusion now ?c') _ => apply (wlp_skeeps_from c c') end.
  - etransitivity; [by apply (peer_skeeps c)|]. apply squiet_skeeps. quietly.
  - apply emit_handshake_skeeps.
Qed.

Lemma enter_connected_skeeps ng now c :
  socket_id_ok (ng_peer_socket_id ng) -> skeeps c (enter_connected ng now c).
Proof.
  intros Hid. unfold enter_connected. cbv zeta.
  etransitivity; [by apply (peer_skeeps c)|].
  etransitivity; [|apply calm_skeeps, event_calm; done].
  match goal with |- skeeps ?c0 (?c' <| cn_last_sent := _ |> <| cn_last_recv_any := _ |>) =>
    transitivity c'; [|apply squiet_skeeps; quietly] end.
  do 4 (etransitivity; [|apply calm_skeeps, timer_calm; done]).
  apply squiet_skeeps. quietly.
Qed.

Lemma on_conclusion_response_skeeps hs now c :
  socket_id_ok (hs_srt_socket_id hs) -> skeeps c (on_conclusion_response hs now c).
Proof.
  intros Hid. unfold on_conclusion_response. case_match; [done|]. cbv zeta.
  etransitivity; [by apply calm_skeeps, (timer_calm c (ClearTimer TiHandshake))|].
  by apply enter_connected_skeeps.
Qed.

Lemma on_handshake_packet_skeeps p now c : packet_ok p -> wlp (on_handshake_packet p now c) (skeeps c).
Proof.
  intros Hp. unfold on_handshake_packet. destruct p as [d|[ts dest body]]; [done|].
  destruct body; try done. destruct Hp as (_ & _ & Hhs). cbn [cp_body cb_ok] in Hhs.
  destruct (hst_reject_reason _); [by apply calm_skeeps, on_rejected_calm|].
  assert (socket_id_ok (hs_srt_socket_id hs)) as Hid by apply Hhs.
  destruct (cn_state c); try by apply on_conclusion_response_skeeps.
  by apply on_induction_response_skeeps.
Qed.

(** ** The entry points *)

(** A datagram that would install another key. *)
Definition changes_key (p : Packet) : Prop :=
  match p with
  | PControl (MkControl _ _ (CbRaw CtUserDefined subtype _ _)) => subtype = EXT_KMREQ
  | _ => False
  end.

Definition keeps_keys (call : ConnCall) : Prop :=
  match call with
  | CallRekey _ _ => False
  | CallFeed d _ => forall p, packet_decode d = Ok p -> ~ changes_key p
  | _ => True
  end.

(** The session's keys stay what they are. *)
Definition fixed_keys (call : ConnCall) : Prop := cn_crypto a = None \/ keeps_keys call.

Lemma on_connected_packet_skeeps p now c L :
  sending L c -> cn_crypto a = None \/ ~ changes_key p ->
  wlp (on_connected_packet p now c) (skeeps c).
Proof.
  intros Hs Hk. destruct p as [d|[ts dest body]]; cbn [on_connected_packet cp_body].
  { apply wlp_squiet, on_data_squiet. }
  unfold on_control.
  destruct body as [| | |n|n f l|n|ack|loss|hs|t st tsp cif]; try done.
  - apply wlp_squiet, on_shutdown_squiet.
  - apply calm_skeeps, on_ackack_calm.
  - apply wlp_squiet, on_dropreq_squiet.
  - apply on_ack_skeeps.
  - apply on_nak_skeeps.
  - cbn [wlp]. apply calm_skeeps, on_dup_handshake_calm, Hs.
  - destruct t; try done. destruct (Z.eqb_spec st EXT_KMREQ) as [->|].
    + destruct Hk as [Hk|Hk]; [|by destruct Hk].
      apply wlp_calm, on_km_req_calm. by rewrite (sd_crypto _ _ Hs).
    + case_match; [|done]. apply calm_skeeps, on_km_rsp_calm, Hs.
Qed.

Lemma feed_skeeps d now c L :
  sending L c -> fixed_keys (CallFeed d now) -> wlp (feed_recv_buf d now c) (skeeps c).
Proof.
  intros Hs Hk. unfold feed_recv_buf.
  destruct (packet_decode_total d) as [(p & Ep & Hp)|[x Ex]]; [rewrite Ep|by rewrite Ex]. cbv zeta.
  set (c1 := if is_connected (cn_state c) then c <| cn_last_recv_any := now |> else c).
  assert (skeeps c c1) as H1.
  { apply squiet_skeeps. unfold c1. case_match; quietly. }
  apply (wlp_skeeps_from c c1); [exact H1|].
  assert (sending L c1) as Hs1 by by apply H1. clearbody c1.
  destruct (cn_state c1).
  - by apply on_handshake_packet_skeeps.
  - by apply on_handshake_packet_skeeps.
  - eapply on_connected_packet_skeeps; [exact Hs1|].
    destruct Hk as [Hk|Hk]; [by left|right]. by apply Hk.
  - done.
Qed.

Lemma handle_timer_flows id now L0 c : flows L0 c -> wlp (handle_timer id now c) (flows L0).
Proof.
  intros Hf. pose proof Hf as (L & Hs & _).
  destruct id; cbn [handle_timer]; [..|by apply pace_flows| | |];
    (eapply wlp_skeeps_flows; [|exact Hf]).
  - cbn [wlp]. apply calm_skeeps, on_handshake_timer_calm, Hs.
  - apply wlp_calm, on_ack_timer_calm.
  - apply wlp_calm, on_nak_timer_calm.
  - apply on_exp_skeeps.
  - apply wlp_squiet, deliver_tsbpd_squiet.
  - apply wlp_calm, on_linger_calm.
  - apply wlp_calm, on_keepalive_calm, Hs.
  - cbn [wlp]. apply calm_skeeps, on_peer_idle_calm.
Qed.

(** The fragments of some messages, in order, however they were numbered. *)
Definition cut (max : nat) (ms : list (list byte)) (L : list Fragment) : Prop :=
  exists fss, Forall2 (fun m fs => exists n, fs = fragment_message max m n) ms fss /\ L = concat fss.

Lemma cut_one max m n : cut max [m] (fragment_message max m n).
Proof.
  exists [fragment_message max m n]. split; [constructor; [by eexists|constructor]|].
  cbn. by rewrite app_nil_r.
Qed.

Lemma cut_app max ms ms' L L' : cut max ms L -> cut max ms' L' -> cut max (ms ++ ms') (L ++ L').
Proof.
  intros (f1 & H1 & ->) (f2 & H2 & ->). exists (f1 ++ f2). split; [by apply Forall2_app|].
  by rewrite concat_app.
Qed.

Lemma cut_nil max : cut max [] [].
Proof. by exists []. Qed.

Lemma conn_step_flows call L0 c :
  flows L0 c -> fixed_keys call ->
  wlp (conn_step call c) (fun c' => exists L, cut (max_payload a) (accepted_one call c) L /\
    flows (L0 ++ L) c').
Proof.
  intros Hf Hk. pose proof Hf as (L & Hs & _).
  assert (forall m, accepted_one call c = [] -> wlp m (flows L0) ->
    wlp m (fun c' => exists L, cut (max_payload a) (accepted_one call c) L /\ flows (L0 ++ L) c')) as Hsame.
  { intros m -> Hm. eapply wlp_mono; [exact Hm|]. intros c' H'. exists [].
    split; [apply cut_nil|]. by rewrite app_nil_r. }
  destruct call as [d now|id now|m now|now|sek now| |]; cbn [conn_step].
  - apply Hsame; [done|]. eapply wlp_skeeps_flows; [by eapply feed_skeeps|exact Hf].
  - apply Hsame; [done|]. by apply handle_timer_flows.
  - cbn [accepted_one] in *. destruct (conn_send m now c) as [c'|x|] eqn:E; cbn [sent_or]; [|by apply Hsame|done].
    destruct (conn_send_flows m now L0 c c' Hf E) as (n & H').
    exists (fragment_message (max_payload a) m n). split; [apply cut_one|done].
  - apply Hsame; [done|]. eapply wlp_skeeps_flows; [apply wlp_calm, conn_close_calm|exact Hf].
  - destruct Hk as [Hk|[]]. apply Hsame; [done|]. eapply wlp_skeeps_flows; [|exact Hf].
    apply wlp_calm, provide_rekey_calm. by rewrite (sd_crypto _ _ Hs).
  - apply Hsame; [done|]. cbn [wlp]. eapply skeeps_flows; [|exact Hf]. apply squiet_skeeps.
    unfold poll_event. destruct (cn_events c); [done|quietly].
  - apply Hsame; [done|]. cbn [wlp]. unfold poll_output. destruct (cn_outputs c) as [|o os] eqn:Eo; [done|].
    destruct Hf as (L1 & Hs1 & E). exists L1. split; [|exact E].
    apply sending_outputs; [|done]. pose proof (sd_outputs _ _ Hs1) as Ho. rewrite Eo in Ho.
    by apply Forall_cons in Ho as [_ ?].
Qed.

Lemma polled_genuine call L0 c :
  flows L0 c -> Forall (genuine_output r s0 L0) (polled_output call c).
Proof.
  intros (L & Hs & <-). apply genuine_outputs_app. destruct call; try constructor.
  cbn. unfold poll_output. pose proof (sd_outputs _ _ Hs) as Ho.
  destruct (cn_outputs c) as [|o os]; cbn; [constructor|]. apply Forall_cons in Ho as [? _].
  by constructor.
Qed.

(** A whole run: the fragments of what it accepted, and that all its output is
    genuine. *)
Lemma run_sends c calls es os c' L0 :
  run c calls es os c' -> flows L0 c -> Forall fixed_keys calls ->
  exists L, cut (max_payload a) (accepted calls c) L /\
    flows (L0 ++ L) c' /\ Forall (genuine_output r s0 (L0 ++ L)) os.
Proof.
  intros Hr. revert L0. induction Hr as [c|c call c1 calls es os c2 Hc Hst Hr IH]; intros L0 Hf Hk.
  { exists []. split; [apply cut_nil|]. by rewrite app_nil_r. }
  apply Forall_cons in Hk as [Hk1 Hk]. pose proof (conn_step_flows call L0 c Hf Hk1) as Hstep.
  cbn [accepted]. rewrite Hst in *. destruct Hstep as (L1 & Hc1 & Hf1).
  destruct (IH _ Hf1 Hk) as (L2 & Hc2 & Hf2 & Ho2).
  exists (L1 ++ L2). rewrite app_assoc. split; [by apply cut_app|]. split; [done|].
  apply Forall_app. split; [|done]. rewrite <- app_assoc. apply genuine_outputs_app.
  by apply polled_genuine.
Qed.
End Sending.
