(* ===== verification/ReadInv.v ===== *)
(** * ReadInv: everything a receiver delivers is what was sent

    Against a fixed list of sent messages and their fragments, [reading] is the
    invariant of the receiving side: every buffered packet is the fragment its
    sequence number names, the reassembler holds the beginning of one message,
    what was reported so far is a subsequence of the messages before the delivery
    point, and each of these that is missing is paid for by a packet the drop
    counter counts.  It is preserved by every call whose datagrams are genuine
    in the sense of [SendInv]. *)

From S2P Require Import Prelude Buf Errors Reject Seq LossList Time Timestamp Rate LiveCc PacketTypes Handshake Control Packet SendBuffer RecvBuffer Fec KeyMaterial Crypto Config Event Fragment ConnState Rekey Arq Setup Conn ConnInv ConnStart Session Delivery DriverInv Genuine SendInv.

(** ** Sending leaves the receiving side alone *)

Section Sending.
Context {B : BytesApi} {HB : BytesSpec B} {P : CryptoPrims}.

Lemma still_keys c c' : rquiet c c' -> still c -> still c'.
Proof.
  intros [H _ _ _] [Hp Hr]. apply (f_equal snd) in H. unfold recv_side, keys_of in H. cbn in H.
  injection H as _ E1 E2. split; congruence.
Qed.

(** No key is waiting to be switched to. *)
Definition steady (c : Connection) : Prop := cn_next_key_ready c = false.

Lemma still_steady c : still c -> steady c.
Proof. by intros [_ H]. Qed.

Lemma steady_keys c c' : rquiet c c' -> steady c -> steady c'.
Proof.
  intros [H _ _ _] Hr. apply (f_equal snd) in H. unfold recv_side, keys_of in H. cbn in H.
  injection H as _ _ E. unfold steady. congruence.
Qed.

Lemma emit_rquiet d now c : rquiet c (emit d now c).
Proof. quietly. Qed.

Lemma send_data_rquiet f now c : steady c -> wlp (send_data f now c) (rquiet c).
Proof.
  intros Hst. unfold send_data. cbv zeta.
  match goal with |- context [build_packet f now ?c'] => set (c1 := c') end.
  assert (rquiet c c1) as H1.
  { transitivity (account_key_and_maybe_rotate c); [apply calm_r, account_key_calm, Hst|quietly]. }
  apply (wlp_from rquiet c c1); [exact H1|]. clearbody c1.
  apply (wlp_bind _ _ (fun _ => True)); [by destruct (build_packet _ _ _)|]. intros p _.
  apply (wlp_bind _ _ (fun _ => True)); [by destruct (encode_data p)|]. intros d _.
  match goal with |- context [let '(_, _) := ?m in _] => destruct m as [parity fec] end.
  match goal with |- context [emit d now ?c'] => apply (wlp_from rquiet c1 (emit d now c')); [quietly|] end.
  apply (wlp_chain rquiet).
  { destruct parity as [parity|]; [|done]. unfold emit_fec_parity. cbv zeta.
    apply (wlp_bind _ _ (fun _ => True)); [by destruct (encode_data _)|]. intros d' _. apply emit_rquiet. }
  intros c3 _. cbn [wlp]. case_match; [|quietly].
  etransitivity; [|apply calm_r, arm_exp_calm]. quietly.
Qed.

Lemma send_all_rquiet fs now c : steady c -> wlp (send_all fs now c) (rquiet c).
Proof.
  revert c. induction fs as [|f fs IH]; intros c Hst; cbn [send_all]; [done|].
  apply (wlp_chain rquiet); [by apply send_data_rquiet|]. intros c1 H1.
  apply IH. by eapply steady_keys.
Qed.

Lemma pace_loop_rquiet budget period now n c :
  steady c -> wlp (pace_loop budget period now n c) (fun res => rquiet c res.2).
Proof.
  revert n c. induction budget as [|budget IH]; intros n c Hst; cbn [pace_loop]; [done|].
  match goal with |- wlp (if ?b then _ else _) _ => destruct b end; [done|].
  destruct (cn_send_queue c) as [|f rest] eqn:Eq; [cbn [wlp snd]; quietly|].
  eapply wlp_bind; [by apply send_data_rquiet|]. intros c1 H1.
  assert (rquiet c c1) as H1' by (etransitivity; [|exact H1]; quietly). cbv zeta.
  match goal with |- wlp (pace_loop _ _ _ _ ?c') _ => assert (rquiet c c') as H2
    by (etransitivity; [exact H1'|quietly]) end.
  eapply wlp_mono; [apply IH; by eapply steady_keys|]. intros res H3. by etransitivity.
Qed.

Lemma pace_rquiet now c : steady c -> wlp (pace now c) (rquiet c).
Proof.
  intros Hst. unfold pace. destruct (cn_live_cc c) as [cc|]; [|done]. cbv zeta.
  eapply wlp_bind; [by apply pace_loop_rquiet|]. intros [n c1] H1. cbn [snd] in H1.
  match goal with |- context [if ?b then c1 <| cn_next_send := ?v |> else c1] =>
    set (c2 := if b then c1 <| cn_next_send := v |> else c1) end.
  apply (wlp_from rquiet c c2).
  { etransitivity; [exact H1|]. unfold c2. case_match; quietly. }
  clearbody c2. destruct (cn_send_queue c2); [|cbn [wlp]; quietly].
  eapply (wlp_from rquiet); [by apply calm_r, (timer_calm c2 (ClearTimer TiSndPacing))|].
  apply wlp_calm_r, finish_close_calm.
Qed.

Lemma shed_loop_rquiet fuel budget ts acc c :
  wlp (shed_loop fuel budget ts acc c) (fun res => rquiet c res.2).
Proof.
  revert acc c. induction fuel as [|fuel IH]; intros acc c; cbn [shed_loop]; [done|].
  destruct (sb_front _) as [front|]; [|by cbn [wlp]]. case_match; [by cbn [wlp]|]. cbv zeta.
  eapply wlp_mono; [apply IH|]. intros res H1. etransitivity; [|exact H1]. quietly.
Qed.

Lemma drop_too_late_rquiet now c : wlp (drop_too_late now c) (rquiet c).
Proof.
  unfold drop_too_late. cbv zeta. eapply wlp_bind; [apply shed_loop_rquiet|].
  intros [acc c1] H1. cbn [fst snd] in *. destruct acc as [[[first last] n]|]; [|done].
  apply (wlp_from rquiet c c1); [exact H1|].
  apply (wlp_bind _ _ (fun _ => True)); [by destruct (encode_control _ _ _)|]. intros d _.
  cbn [wlp]. case_match; [|apply emit_rquiet].
  transitivity (emit d now c1); [apply emit_rquiet|quietly].
Qed.

Lemma retransmit_one_rquiet seq start stop gate now c :
  wlp (retransmit_one seq start stop gate now c) (rquiet c).
Proof.
  unfold retransmit_one. cbv zeta. destruct (in_range _ _ _ && _); [|done].
  destruct (sb_get _ seq) as [p|]; [|done].
  apply (wlp_bind _ _ (fun _ => True)); [by destruct (encode_retransmit p)|]. intros d _.
  cbn [wlp]. quietly.
Qed.

Lemma retransmit_loop_rquiet fuel seq last start stop gate now c :
  wlp (retransmit_loop fuel seq last start stop gate now c) (rquiet c).
Proof.
  revert seq c. induction fuel as [|fuel IH]; intros seq c; cbn [retransmit_loop]; [done|].
  apply (wlp_chain rquiet); [apply retransmit_one_rquiet|]. intros c1 _. case_match; [done|apply IH].
Qed.

Lemma retransmit_range_rquiet start stop now c : wlp (retransmit_range start stop now c) (rquiet c).
Proof.
  unfold retransmit_range. destruct (sb_first_seq _); [|done]. destruct (sb_last_seq _); [|done].
  apply retransmit_loop_rquiet.
Qed.

Lemma retransmit_ranges_rquiet loss now c : wlp (retransmit_ranges loss now c) (rquiet c).
Proof.
  revert c. induction loss as [|x loss IH]; intros c; cbn [retransmit_ranges]; [done|].
  apply (wlp_chain rquiet); [apply retransmit_range_rquiet|]. intros c1 _. apply IH.
Qed.

Lemma on_nak_rquiet loss now c : wlp (on_nak loss now c) (rquiet c).
Proof.
  unfold on_nak. cbv zeta.
  match goal with |- wlp (drop_too_late _ ?c' ≫= _) _ => apply (wlp_from rquiet c c'); [quietly|] end.
  apply (wlp_chain rquiet); [apply drop_too_late_rquiet|]. intros c1 _. apply retransmit_ranges_rquiet.
Qed.

Lemma on_ack_rquiet ack now c : wlp (on_ack ack now c) (rquiet c).
Proof.
  unfold on_ack. cbv zeta.
  match goal with |- wlp (drop_too_late _ ?c' ≫= _) _ => apply (wlp_from rquiet c c') end.
  { destruct (ack_cif ack); quietly. }
  apply (wlp_chain rquiet); [apply drop_too_late_rquiet|]. intros c1 _.
  match goal with |- wlp (finish_close_if_drained _ ?c' ≫= _) _ => apply (wlp_from rquiet c1 c') end.
  { case_match; quietly. }
  apply (wlp_chain rquiet); [apply wlp_calm_r, finish_close_calm|]. intros c2 _.
  destruct (ack_cif ack); [done|..]; by apply wlp_calm_r, emit_control_calm.
Qed.

Lemma on_exp_rquiet now c : wlp (on_exp_timer now c) (rquiet c).
Proof.
  unfold on_exp_timer. case_match; [done|].
  apply (wlp_chain rquiet); [apply drop_too_late_rquiet|]. intros c1 _. case_match; [done|].
  apply (wlp_chain rquiet).
  - destruct (sb_first_seq _); [|done]. destruct (sb_last_seq _); [|done]. apply retransmit_range_rquiet.
  - intros c2 _. cbn [wlp]. quietly.
Qed.

Lemma conn_send_rquiet m now c c' : steady c -> conn_send m now c = Ok c' -> rquiet c c'.
Proof.
  intros Hst. unfold conn_send. case_match; [done|]. cbv zeta.
  set (c1 := c <| cn_next_message := next_message_number (cn_next_message c) |>).
  assert (rquiet c c1) as H1 by quietly. assert (steady c1) as Hst1 by by eapply steady_keys.
  clearbody c1. destruct (cn_live_cc c1).
  - match goal with |- context [pace now ?c'] => set (c2 := c') end.
    assert (rquiet c1 c2) as H2 by quietly. assert (steady c2) as Hst2 by by eapply steady_keys.
    pose proof (pace_rquiet now c2 Hst2) as Hw. destruct (pace now c2); [|done]. intros [= <-].
    etransitivity; [exact H1|]. by etransitivity.
  - match goal with |- context [send_all ?fs now c1] =>
      pose proof (send_all_rquiet fs now c1 Hst1) as Hw; destruct (send_all fs now c1); [|done] end.
    intros [= <-]. by etransitivity.
Qed.

(** The answer to the peer's handshake, again. *)
Lemma on_dup_handshake_rquiet hs c : rquiet c (on_dup_handshake hs c).
Proof. unfold on_dup_handshake. repeat case_match; quietly. Qed.

Lemma on_handshake_timer_rquiet now c : rquiet c (on_handshake_timer now c).
Proof. unfold on_handshake_timer. repeat case_match; quietly. Qed.
End Sending.

(** ** Reassembly against the sent messages *)

Section Reassembly.
Context (s0 : SeqNumber) (ms : list (list byte)) (fss : list (list Fragment)).
Context (Hshape : Forall2 shaped ms fss).
Context (Hspan : Z.of_nat (length (concat fss)) < 0x40000000).

Definition place (i : nat) : SeqNumber := seq_add s0 (Z.of_nat i).

(** Where message [k] starts. *)
Definition start_of (k : nat) : nat := length (concat (take k fss)).

Lemma start_of_S k fs : fss !! k = Some fs -> start_of (S k) = (start_of k + length fs)%nat.
Proof.
  intros H. unfold start_of. rewrite (take_S_r _ _ _ H), concat_app, length_app. cbn.
  by rewrite app_nil_r.
Qed.

Lemma start_of_le k k' : (k <= k')%nat -> (start_of k <= start_of k')%nat.
Proof.
  intros H. unfold start_of.
  replace k' with (k + (k' - k))%nat by lia.
  rewrite <- (take_drop k (take (k + (k' - k)) fss)), take_take, Nat.min_l by lia.
  rewrite concat_app, length_app. lia.
Qed.

Lemma start_of_total k : (start_of k <= length (concat fss))%nat.
Proof.
  unfold start_of. rewrite <- (take_drop k fss) at 2. rewrite concat_app, length_app. lia.
Qed.

(** The message a fragment belongs to. *)
Lemma fragment_at i f :
  concat fss !! i = Some f ->
  exists k fs j, fss !! k = Some fs /\ fs !! j = Some f /\ i = (start_of k + j)%nat.
Proof.
  clear Hshape Hspan. unfold start_of. revert i.
  induction fss as [|fs l IH]; intros i; cbn [concat]; [done|].
  intros [Hi|[Hl Hi]]%lookup_app_Some.
  - by exists 0%nat, fs, i.
  - destruct (IH _ Hi) as (k & fs' & j & H1 & H2 & H3). exists (S k), fs', j.
    split; [done|]. split; [done|]. cbn [take concat]. rewrite length_app. lia.
Qed.

Lemma fragment_at_unique k k' fs fs' j j' :
  fss !! k = Some fs -> (j < length fs)%nat -> fss !! k' = Some fs' -> (j' < length fs')%nat ->
  (start_of k + j = start_of k' + j')%nat -> k = k' /\ j = j'.
Proof.
  intros H1 Hj H1' Hj' E. pose proof (start_of_S _ _ H1). pose proof (start_of_S _ _ H1').
  destruct (Nat.lt_trichotomy k k') as [Hlt|[->|Hlt]]; [|lia|].
  - pose proof (start_of_le (S k) k'). lia.
  - pose proof (start_of_le (S k') k). lia.
Qed.

(** The reassembler when everything before place [n] was delivered or skipped. *)
Definition gathered (n : nat) (ra : Reassembler) (out : list (list byte)) : Prop :=
  exists k, sublist out (take k ms) /\ (start_of k <= n)%nat /\
    (ra_next_seq ra = None \/ exists fs j, fss !! k = Some fs /\ (0 < j < length fs)%nat /\
       ra_next_seq ra = Some (place (start_of k + j)) /\ (start_of k + j <= n)%nat /\
       ra_fragments ra = fg_payload <$> take j fs).

Lemma gathered_mono n n' ra out : (n <= n')%nat -> gathered n ra out -> gathered n' ra out.
Proof.
  intros Hn (k & H1 & H2 & H3). exists k. split; [done|]. split; [lia|].
  destruct H3 as [H3|(fs & j & Hk & Hj & Hs & Hle & Hf)]; [by left|right].
  exists fs, j. split_and!; try done; lia.
Qed.

Lemma gathered_sent n ra out : gathered n ra out -> sublist out ms.
Proof. intros (k & H & _). etransitivity; [exact H|]. apply sublist_take. Qed.

Lemma push_gathers n ra out i f p :
  gathered n ra out -> (n <= i)%nat -> concat fss !! i = Some f ->
  dp_seq p = place i -> dp_position p = fg_position f -> dp_payload p = fg_payload f ->
  gathered (S i) (ra_push ra p).2 (out ++ option_list (ra_push ra p).1).
Proof.
  intros (k0 & Hout & Hk0 & Hra) Hn Hi Hs Hp Hpl.
  assert (i < length (concat fss))%nat as Hil by by eapply lookup_lt_Some.
  destruct (fragment_at i f Hi) as (k & fs & j & Hk & Hj & ->).
  destruct (Forall2_lookup_r _ _ _ _ _ Hshape Hk) as (m & Hm & Hcat & Hpos).
  pose proof (lookup_lt_Some _ _ _ Hj) as Hjl. pose proof (start_of_S _ _ Hk) as HS.
  assert (k0 <= k)%nat as Hkk.
  { destruct (Nat.le_gt_cases k0 k); [done|]. pose proof (start_of_le (S k) k0). lia. }
  assert (sublist out (take k ms)) as Hout'.
  { etransitivity; [exact Hout|]. replace k0 with (Nat.min k0 k) by lia. rewrite <- take_take.
    apply sublist_take. }
  assert (sublist (out ++ [m]) (take (S k) ms)) as Hdone.
  { rewrite (take_S_r _ _ _ Hm). by apply sublist_app. }
  assert (ra_next_seq ra = Some (dp_seq p) ->
    ra_fragments ra ++ [dp_payload p] = fg_payload <$> take (S j) fs) as Hnext.
  { intros E. destruct Hra as [Hra|(fs' & j' & Hk' & Hj' & Hra & Hle & Hfr)]; [congruence|].
    rewrite E, Hs in Hra.
    assert (place (start_of k + j) = place (start_of k0 + j')) as Hpl'%seq_add_inj by congruence; [|lia..].
    destruct (fragment_at_unique k k0 fs fs' j j') as [-> ->]; [done..|lia|done|lia|lia|].
    assert (fs' = fs) as -> by congruence.
    by rewrite (take_S_r _ _ _ Hj), fmap_app, Hfr, Hpl. }
  assert (forall k', (start_of k' <= S (start_of k + j))%nat -> sublist out (take k' ms) ->
    gathered (S (start_of k + j)) ra_new (out ++ [])) as Hreset.
  { intros k' H1 H2. exists k'. rewrite app_nil_r. split; [done|]. split; [done|by left]. }
  assert (S j = length fs -> gathered (S (start_of k + j)) ra_new (out ++ [m])) as Hlast.
  { intros Ej. exists (S k). split; [done|]. split; [lia|by left]. }
  unfold ra_push. rewrite Hp. destruct Hpos as [(f' & -> & Hf')|[Hlen Hpos]].
  { destruct j; [|by destruct j]. injection Hj as <-. rewrite Hf'. cbn [fst snd option_list].
    rewrite Hpl. cbn in Hcat. rewrite app_nil_r in Hcat. rewrite Hcat. by apply Hlast. }
  rewrite (Hpos _ _ Hj). destruct (Nat.eqb_spec j 0) as [->|Hj0]; cbn [fst snd option_list].
  - exists k. rewrite app_nil_r. split; [done|]. split; [lia|]. right. exists fs, 1%nat.
    split; [done|]. split; [lia|]. cbn [ra_next_seq ra_fragments].
    split; [rewrite Hs; unfold place; rewrite seq_add_next; do 2 f_equal; lia|]. split; [lia|].
    by rewrite (take_S_r _ _ _ Hj), Hpl.
  - destruct (Nat.eqb_spec (S j) (length fs)) as [Ej|Ej]; case_decide as Hd; cbn [fst snd option_list];
      try (apply (Hreset k); [lia|done]).
    + rewrite (Hnext Hd), Ej, firstn_all, Hcat. by apply Hlast.
    + exists k. rewrite app_nil_r. split; [done|]. split; [lia|]. right. exists fs, (S j).
      split; [done|]. split; [lia|]. cbn [ra_next_seq ra_fragments].
      split; [rewrite Hs; unfold place; rewrite seq_add_next; do 2 f_equal; lia|]. split; [lia|].
      by apply Hnext.
Qed.

(** ** How much is missing *)

(** The reassembler after place [n], with [o] messages delivered and [s] packets
    skipped: either it holds exactly what message [k] has before place [n], and
    every missing message before [k] is paid for by a skipped packet, or message
    [k] itself is already lost and paid for. *)
Definition paid_for (n : nat) (ra : Reassembler) (o s : nat) : Prop :=
  exists k j, n = (start_of k + j)%nat /\ (k <= length fss)%nat /\
    (j = 0%nat \/ exists fs, fss !! k = Some fs /\ (0 < j < length fs)%nat) /\
    (((k <= o + s)%nat /\ (j = 0%nat \/ exists fs, fss !! k = Some fs /\
        ra_next_seq ra = Some (place n) /\ ra_fragments ra = fg_payload <$> take j fs)) \/
     ((0 < j)%nat /\ (S k <= o + s)%nat)).

Lemma start_of_all : start_of (length fss) = length (concat fss).
Proof. unfold start_of. by rewrite firstn_all. Qed.

Lemma pieces_nonempty k fs : fss !! k = Some fs -> (0 < length fs)%nat.
Proof.
  intros Hk. destruct (Forall2_lookup_r _ _ _ _ _ Hshape Hk) as (m & _ & _ & [(f & -> & _)|[? _]]);
    simpl; lia.
Qed.

(** Where place [n] is, when it is not the end. *)
Lemma paid_for_at n k j :
  n = (start_of k + j)%nat -> (k <= length fss)%nat ->
  (j = 0%nat \/ exists fs, fss !! k = Some fs /\ (0 < j < length fs)%nat) ->
  (n < length (concat fss))%nat -> exists fs, fss !! k = Some fs /\ (j < length fs)%nat.
Proof.
  intros -> Hk Hj Hn. destruct Hj as [->|(fs & Hfs & ?)]; [|exists fs; split; [done|lia]].
  destruct (fss !! k) as [fs|] eqn:E; [exists fs; split; [done|by eapply pieces_nonempty]|].
  apply lookup_ge_None in E. assert (k = length fss) as -> by lia. rewrite start_of_all in Hn. lia.
Qed.

(** Passing a place moves within the message or to the next one. *)
Lemma paid_for_step n k j fs ra o s :
  n = (start_of k + j)%nat -> fss !! k = Some fs -> (j < length fs)%nat ->
  ((S j < length fs)%nat -> ((k <= o + s)%nat /\ ra_next_seq ra = Some (place (S n)) /\
     ra_fragments ra = fg_payload <$> take (S j) fs) \/ (S k <= o + s)%nat) ->
  (S j = length fs -> (S k <= o + s)%nat) -> paid_for (S n) ra o s.
Proof.
  intros -> Hk Hj Hin Hout. pose proof (start_of_S _ _ Hk). pose proof (lookup_lt_Some _ _ _ Hk).
  destruct (decide (S j = length fs)) as [E|E].
  - exists (S k), 0%nat. split; [lia|]. split; [lia|]. split; [by left|]. left. split; [by apply Hout|by left].
  - exists k, (S j). split; [lia|]. split; [lia|]. split; [right; exists fs; split; [done|lia]|].
    destruct (Hin ltac:(lia)) as [(H1 & H2 & H3)|H1]; [left|right; split; [lia|done]].
    split; [done|]. right. by exists fs.
Qed.

(** A skipped packet costs at most one message. *)
Lemma paid_for_skip n ra o s :
  (n < length (concat fss))%nat -> paid_for n ra o s -> paid_for (S n) ra o (S s).
Proof.
  intros Hn (k & j & E & Hk & Hj & Hc). destruct (paid_for_at _ _ _ E Hk Hj Hn) as (fs & Hfs & Hjl).
  eapply paid_for_step; [exact E|exact Hfs|exact Hjl|intros _; right|intros _];
    destruct Hc as [[? _]|[_ ?]]; lia.
Qed.

Lemma paid_for_skips d n ra o s :
  (n + d <= length (concat fss))%nat -> paid_for n ra o s -> paid_for (n + d) ra o (s + d).
Proof.
  revert n s. induction d as [|d IH]; intros n s Hn H; [by rewrite !Nat.add_0_r|].
  rewrite !Nat.add_succ_r. apply paid_for_skip; [lia|]. apply IH; [lia|done].
Qed.

(** The next packet, in order: a message that was whole so far stays whole. *)
Lemma paid_for_push n ra o s f p :
  paid_for n ra o s -> concat fss !! n = Some f ->
  dp_seq p = place n -> dp_position p = fg_position f -> dp_payload p = fg_payload f ->
  paid_for (S n) (ra_push ra p).2 (o + length (option_list (ra_push ra p).1)) s.
Proof.
  intros (k & j & E & Hk & Hj & Hc) Hf Hs Hp Hpl. pose proof (lookup_lt_Some _ _ _ Hf) as Hn.
  destruct (paid_for_at _ _ _ E Hk Hj Hn) as (fs & Hfs & Hjl).
  destruct (fragment_at n f Hf) as (k' & fs' & j' & Hk' & Hj' & E').
  destruct (fragment_at_unique k k' fs fs' j j') as [<- <-];
    [done|done|done|by eapply lookup_lt_Some|lia|].
  assert (fs' = fs) as -> by congruence.
  destruct (Forall2_lookup_r _ _ _ _ _ Hshape Hfs) as (m & _ & _ & Hpos).
  assert (forall ra' l, (S k <= o + s)%nat -> paid_for (S n) ra' (o + l) s) as Hbroken.
  { intros ra' l Hle. eapply paid_for_step; [exact E|exact Hfs|exact Hjl|intros _; right|intros _]; lia. }
  destruct Hc as [[Hle Hra]|[_ Hle]]; [|by apply Hbroken].
  assert ((0 < j)%nat -> ra_next_seq ra = Some (dp_seq p) /\ ra_fragments ra = fg_payload <$> take j fs) as Hnext.
  { intros Hj0. destruct Hra as [->|(fs' & Hfs' & Hra & Hfr)]; [lia|].
    assert (fs' = fs) as -> by congruence. by rewrite Hra, Hs. }
  unfold ra_push. rewrite Hp. destruct Hpos as [(f' & -> & Hf')|[Hlen Hpos]].
  { destruct j; [|by destruct j]. injection Hj' as <-. rewrite Hf'. cbn [fst snd option_list length].
    eapply paid_for_step; [exact E|exact Hfs|exact Hjl|simpl; intros; lia|intros _; simpl; lia]. }
  rewrite (Hpos _ _ Hj'). destruct (Nat.eqb_spec j 0) as [->|Hj0]; cbn [fst snd option_list length].
  - eapply paid_for_step; [exact E|exact Hfs|exact Hjl| |intros; simpl in *; lia]. intros _. left. split; [simpl; lia|].
    cbn [ra_next_seq ra_fragments]. split; [rewrite Hs; unfold place; rewrite seq_add_next; do 2 f_equal; lia|].
    by rewrite (take_S_r _ _ _ Hj'), Hpl.
  - destruct Hnext as [Hn1 Hn2]; [lia|].
    destruct (Nat.eqb_spec (S j) (length fs)) as [Ej|Ej]; rewrite decide_True by exact Hn1;
      cbn [fst snd option_list length]; (eapply paid_for_step; [exact E|exact Hfs|exact Hjl|intros ?|intros ?]);
      try (simpl; lia).
    left. split; [simpl; lia|]. cbn [ra_next_seq ra_fragments].
    split; [rewrite Hs; unfold place; rewrite seq_add_next; do 2 f_equal; lia|].
    by rewrite Hn2, (take_S_r _ _ _ Hj'), fmap_app, Hpl.
Qed.

Lemma gathered_new : gathered 0 ra_new [].
Proof. exists 0%nat. split; [apply sublist_nil_l|]. split; [by unfold start_of; rewrite take_0|by left]. Qed.

(** Both together, [d] being the count of skipped packets. *)
Definition progress (n : nat) (ra : Reassembler) (out : list (list byte)) (d : Z) : Prop :=
  gathered n ra out /\ exists s, d = Z.of_nat s /\ (s <= n)%nat /\ paid_for n ra (length out) s.

Lemma progress_skip k n ra out d :
  (n + k <= length (concat fss))%nat -> progress n ra out d -> progress (n + k) ra out (d + Z.of_nat k).
Proof.
  intros Hk (Hg & s & -> & Hs & Ha). split; [eapply gathered_mono; [|exact Hg]; lia|].
  exists (s + k)%nat. split; [lia|]. split; [lia|]. by apply paid_for_skips.
Qed.

Lemma progress_push k n ra out d f p :
  progress n ra out d -> concat fss !! (n + k)%nat = Some f ->
  dp_seq p = place (n + k) -> dp_position p = fg_position f -> dp_payload p = fg_payload f ->
  progress (S (n + k)) (ra_push ra p).2 (out ++ option_list (ra_push ra p).1) (d + Z.of_nat k).
Proof.
  intros H Hf Hs Hp Hpl. pose proof (lookup_lt_Some _ _ _ Hf) as Hlt.
  destruct (progress_skip k n ra out d ltac:(lia) H) as (Hg & s & Ed & Hle & Ha). split.
  - by eapply push_gathers; [exact Hg| |exact Hf|..].
  - exists s. split; [done|]. split; [lia|]. rewrite length_app. by eapply paid_for_push.
Qed.

Lemma progress_bound n ra out d :
  (n <= length (concat fss))%nat -> progress n ra out d -> 0 <= d < 0x40000000.
Proof. intros Hn (_ & s & -> & Hs & _). lia. Qed.

Lemma progress_new : progress 0 ra_new [] 0.
Proof.
  split; [apply gathered_new|]. exists 0%nat. split; [done|]. split; [done|]. exists 0%nat, 0%nat.
  split; [by unfold start_of; rewrite take_0|]. split; [lia|]. split; [by left|]. left. split; [lia|by left].
Qed.
End Reassembly.

(** ** The receiver's invariant *)

Section Reading.
Context {B : BytesApi} {HB : BytesSpec B} {P : CryptoPrims}.

(** [b] is where the receiver starts; it never expects [s0] before. *)
Context (b : Connection) (s0 : SeqNumber) (ms : list (list byte)) (fss : list (list Fragment)).
Context (Hshape : Forall2 shaped ms fss).
Context (Hspan : Z.of_nat (length (concat fss)) < 0x40000000).

Abbreviation L := (concat fss).
Abbreviation place := (place s0).

Definition holds (i : nat) (q : DataPacket) : Prop :=
  exists f, L !! i = Some f /\ dp_position q = fg_position f /\ dp_payload q = fg_payload f.

Definition tracks (rb : RecvBuffer) (n : nat) : Prop :=
  (n <= length L)%nat /\ rb_base rb = place n /\
  forall pos q, rb_at rb pos = Some q -> holds (n + pos) q.

(** Past the handshake at a delivery point, or before it with nothing stored. *)
Definition reading_at (out : list (list byte)) (c : Connection) : Prop :=
  (is_handshaking (cn_state c) = false /\ exists n, tracks (cn_recv_buffer c) n /\
     progress s0 ms fss n (cn_reassembler c) (out ++ payloads (cn_events c)) (dropped c)) \/
  (cn_state c <> StConnected /\ rb_slots (cn_recv_buffer c) = [] /\
     cn_reassembler c = ra_new /\ out ++ payloads (cn_events c) = [] /\ dropped c = 0).

Record reading (out : list (list byte)) (c : Connection) : Prop := {
  rd_ok : rb_ok (cn_recv_buffer c);
  rd_fec : cn_fec_recv c = None;
  rd_crypto : cn_crypto c = cn_crypto b;
  rd_still : still c;
  rd_from : is_handshaking (cn_state b) = false -> is_handshaking (cn_state c) = false;
  rd_at : reading_at out c;
}.

Definition rkeeps (c c' : Connection) : Prop := forall out, reading out c -> reading out c'.

#[local] Instance rkeeps_preorder : PreOrder rkeeps.
Proof. split; [by intros c out|]. intros c1 c2 c3 A1 A2 out H. auto. Qed.

Lemma same_rkeeps c : wlp (Ret c) (rkeeps c).
Proof. by intros out H. Qed.

Lemma payloads_app es es' : payloads (es ++ es') = payloads es ++ payloads es'.
Proof. apply omap_app. Qed.

Lemma payloads_silent es : Forall silent es -> payloads es = [].
Proof. induction 1 as [|e es He _ IH]; [done|]. destruct e; done. Qed.

Lemma rquiet_rkeeps c c' : rquiet c c' -> rkeeps c c'.
Proof.
  intros [Hv Ho Hs (k & He & Hk)] out [H1 H2 H3 H4 H0 H5]. unfold recv_side, keys_of in Hv.
  injection Hv as E1 E2 E3 E4 E5 E6 E7. constructor; unfold still, reading_at in *;
    rewrite ?E1, ?E2, ?E3, ?E4, ?E5, ?E6, ?E7; auto.
  rewrite He, payloads_app, (payloads_silent k Hk), app_nil_r.
  destruct H5 as [[H5 H6]|[H5 H6]]; [left|right]; (split; [|exact H6]); auto.
Qed.

Lemma calm_rkeeps c c' : calm c c' -> rkeeps c c'.
Proof. intros H. by apply rquiet_rkeeps, calm_r. Qed.
Lemma wlp_rquiet c m : wlp m (rquiet c) -> wlp m (rkeeps c).
Proof. intros H. eapply wlp_mono; [exact H|]. apply rquiet_rkeeps. Qed.
Lemma wlp_calm_keeps c m : wlp m (calm c) -> wlp m (rkeeps c).
Proof. intros H. by apply wlp_rquiet, wlp_calm_r. Qed.

(** ** Delivery *)

Lemma tracks_skip rb n k :
  tracks rb n -> (n + k <= length L)%nat ->
  tracks (MkRecvBuffer (seq_add (rb_base rb) (Z.of_nat k)) (drop k (rb_slots rb))
            (present_count (drop k (rb_slots rb)))) (n + k).
Proof.
  intros (Hn & Hb & Hat) Hk. split; [done|]. split.
  - cbn [rb_base]. rewrite Hb. unfold place. rewrite seq_add_add. f_equal. lia.
  - intros pos q. rewrite rb_at_drop. intros Hq. rewrite <- Nat.add_assoc. by apply Hat.
Qed.

(** Taking the earliest packet and pushing it into the reassembler. *)
Lemma pop_reading out c c' pos p :
  reading out c -> rb_earliest (cn_recv_buffer c) pos p ->
  cn_recv_buffer c' = (rb_pop (cn_recv_buffer c)).2 ->
  cn_reassembler c' = (ra_push (cn_reassembler c) p).2 ->
  cn_events c' = cn_events c ++ (EvDataReceived <$> option_list (ra_push (cn_reassembler c) p).1) ->
  (cn_fec_recv c', keys_of c', cn_state c') = (cn_fec_recv c, keys_of c, cn_state c) ->
  dropped c' = add64 (dropped c) (Z.of_nat pos) -> reading out c'.
Proof.
  intros [H1 H2 H3 H4 H0 [(H5 & n & Ht & Hg)|(_ & Hnil & _)]] He Erb Era Eev Ek Ed.
  2: { destruct He as [He _]. unfold rb_at in He. by rewrite Hnil in He. }
  unfold keys_of in Ek. injection Ek as K1 K2 K3 K4 K5.
  rewrite (rb_pop_earliest _ _ _ H1 He) in Erb. cbn [snd] in Erb.
  pose proof Ht as (Hn & Hb & Hat). destruct (Hat _ _ (proj1 He)) as (f & Hf & Hpos & Hpl).
  assert (dp_seq p = place (n + pos)) as Hseq.
  { rewrite (rb_ok_seq _ H1 _ _ (proj1 He)), Hb. unfold place. rewrite seq_add_add.
    f_equal. lia. }
  constructor; unfold still, reading_at in *; rewrite ?K1, ?K2, ?K3, ?K4, ?K5; try done.
  { rewrite Erb. by apply rb_skip_ok. }
  left. split; [done|]. exists (n + S pos)%nat. rewrite Erb, Era, Eev. split.
  { apply tracks_skip; [done|]. apply lookup_lt_Some in Hf. lia. }
  rewrite payloads_app. assert (forall o : option (list byte),
    payloads (EvDataReceived <$> option_list o) = option_list o) as -> by by intros [x|].
  rewrite app_assoc. replace (n + S pos)%nat with (S (n + pos)) by lia.
  assert (n + pos < length L)%nat as Hlt by by apply lookup_lt_Some in Hf.
  rewrite Ed. unfold add64, wrap64. rewrite Z.mod_small.
  - by eapply progress_push.
  - pose proof (progress_bound s0 ms fss Hspan n _ _ _ Hn Hg). lia.
Qed.

(** The packet about to be taken is one of those sent. *)
Lemma earliest_sent out c pos p :
  reading out c -> rb_earliest (cn_recv_buffer c) pos p -> Z.of_nat (S pos) < 0x40000000.
Proof.
  intros Hr [Hp _]. destruct (rd_at _ _ Hr) as [(_ & n & (_ & _ & Hat) & _)|(_ & Hnil & _)].
  - destruct (Hat _ _ Hp) as (f & Hf & _). apply lookup_lt_Some in Hf. lia.
  - unfold rb_at in Hp. by rewrite Hnil in Hp.
Qed.

Lemma dropped_small out c : reading out c -> 0 <= dropped c < 0x40000000.
Proof.
  intros Hr. destruct (rd_at _ _ Hr) as [(_ & n & (Hn & _) & Hg)|(_ & _ & _ & _ & ->)]; [|lia].
  by eapply progress_bound.
Qed.

Lemma set_buffer_same c : rkeeps c (c <| cn_recv_buffer := cn_recv_buffer c |>).
Proof. apply rquiet_rkeeps. quietly. Qed.

Lemma deliver_one_rkeeps c : rkeeps c (deliver_one c).
Proof.
  intros out Hr. unfold deliver_one. cbv zeta.
  destruct (rb_pop_cases _ (rd_ok _ _ Hr)) as [(pos & p & He)|[Hn _]].
  - destruct (rb_pop (cn_recv_buffer c)) as [o rb] eqn:Ep.
    pose proof (rb_pop_earliest _ _ _ (rd_ok _ _ Hr) He) as Ep'. rewrite Ep in Ep'.
    injection Ep' as -> Erb.
    destruct (ra_push _ p) as [m ra] eqn:Era.
    change (ra_push (cn_reassembler c) p = (m, ra)) in Era.
    assert (dropped (c <| cn_stats -> st_packets_dropped ::=
        bump (Z.max 0 (offset_from (rb_ack_point rb) (rb_ack_point (cn_recv_buffer c)) - 1)) |>) =
      add64 (dropped c) (Z.of_nat pos)) as Ed.
    { change (add64 (dropped c) (Z.max 0 (offset_from (rb_base rb) (rb_base (cn_recv_buffer c)) - 1)) =
        add64 (dropped c) (Z.of_nat pos)).
      rewrite Erb. cbn [rb_base]. pose proof (earliest_sent _ _ _ _ Hr He).
      rewrite offset_from_add by lia. f_equal. lia. }
    eapply pop_reading; [exact Hr|exact He| | | | |]; rewrite ?Ep, ?Era; destruct m; try reflexivity;
      try exact Ed. cbn. by rewrite app_nil_r.
  - rewrite (rb_pop_empty _ (rd_ok _ _ Hr) Hn). by apply set_buffer_same.
Qed.

Lemma deliver_loop_rkeeps fuel now c : wlp (deliver_loop fuel now c) (rkeeps c).
Proof.
  revert c. induction fuel as [|fuel IH]; intros c; cbn [deliver_loop]; [done|].
  destruct (rb_peek _) as [[s ts]|]; [|cbn [wlp]; apply rquiet_rkeeps; quietly].
  destruct (tsbpd_play_time c ts); [|apply same_rkeeps]. case_match; [cbn [wlp]; apply rquiet_rkeeps; quietly|].
  apply (wlp_from rkeeps c (deliver_one c)); [apply deliver_one_rkeeps|apply IH].
Qed.

Lemma deliver_tsbpd_rkeeps now c : wlp (deliver_tsbpd now c) (rkeeps c).
Proof. apply deliver_loop_rkeeps. Qed.

Lemma flush_loop_rkeeps fuel c out : reading out c -> wlp (flush_loop fuel c) (reading out).
Proof.
  revert c. induction fuel as [|fuel IH]; intros c Hr; cbn [flush_loop]; [done|].
  assert (rb_pop_in_order (cn_recv_buffer c) = (None, cn_recv_buffer c) \/
    exists p, rb_earliest (cn_recv_buffer c) 0 p /\
      rb_pop_in_order (cn_recv_buffer c) = rb_pop (cn_recv_buffer c)) as [E|(p & He & E)].
  { unfold rb_pop_in_order. destruct (rb_slots (cn_recv_buffer c)) as [|[p|] l] eqn:Es;
      [by left| |by left]. right. exists p. split; [|done].
    split; [unfold rb_at; by rewrite Es|lia]. }
  - rewrite E. cbv zeta. cbn [wlp]. by apply set_buffer_same.
  - rewrite E. destruct (rb_pop (cn_recv_buffer c)) as [o rb] eqn:Ep.
    pose proof (rb_pop_earliest _ _ _ (rd_ok _ _ Hr) He) as Ep'. rewrite Ep in Ep'.
    injection Ep' as -> Erb. cbv zeta.
    destruct (ra_push _ p) as [m ra] eqn:Era.
    change (ra_push (cn_reassembler c) p = (m, ra)) in Era. apply IH.
    assert (dropped c = add64 (dropped c) (Z.of_nat 0)) as Ed.
    { pose proof (dropped_small _ _ Hr). unfold add64, wrap64. rewrite Z.mod_small; lia. }
    eapply pop_reading; [exact Hr|exact He| | | | |]; rewrite ?Ep, ?Era; destruct m; try reflexivity;
      try exact Ed. cbn. by rewrite app_nil_r.
Qed.

Lemma on_shutdown_reading c out : reading out c -> wlp (on_shutdown c) (reading out).
Proof.
  intros Hr. unfold on_shutdown. eapply wlp_bind; [by apply flush_loop_rkeeps|]. intros c1 H1. cbn [wlp].
  revert H1. apply rquiet_rkeeps.
  etransitivity; [|by apply calm_r, event_calm].
  etransitivity; [|apply calm_r, clear_arq_timers_calm]. quietly.
Qed.

(** ** Arrival *)

Lemma place_offset i n :
  (i <= length L)%nat -> (n <= length L)%nat ->
  offset_from (place i) (place n) = Z.of_nat i - Z.of_nat n.
Proof.
  intros Hi Hn. unfold place.
  replace (seq_add s0 (Z.of_nat i)) with (seq_add (seq_add s0 (Z.of_nat n)) (Z.of_nat i - Z.of_nat n))
    by (rewrite seq_add_add; f_equal; lia).
  apply offset_from_add. lia.
Qed.

Lemma insert_reading out c q i rb ins :
  reading out c -> cn_state c = StConnected -> dp_seq q = place i -> holds i q ->
  rb_insert (cn_recv_buffer c) q = (ins, rb) -> reading out (c <| cn_recv_buffer := rb |>).
Proof.
  intros Hr Hst Hs Hh E. pose proof Hr as [H1 H2 H3 H4 H0 [(H5 & n & Ht & Hg)|[? _]]]; [|done].
  assert (i < length L)%nat as Hi.
  { destruct Hh as (f & Hf & _). by eapply lookup_lt_Some. }
  pose proof Ht as (Hn & Hb & Hat).
  assert (offset_from (dp_seq q) (rb_base (cn_recv_buffer c)) = Z.of_nat i - Z.of_nat n) as Hoff.
  { rewrite Hs, Hb. apply place_offset; lia. }
  destruct (Nat.lt_ge_cases i n) as [Hlt|Hge].
  { rewrite rb_insert_stale in E by lia. injection E as <- <-. by apply set_buffer_same. }
  assert (offset_from (dp_seq q) (rb_base (cn_recv_buffer c)) = Z.of_nat (i - n)) as Hk by lia.
  destruct (rb_insert_cases _ q _ Hk) as [(q' & _ & E')|[Hnone E']].
  { rewrite E' in E. injection E as <- <-. by apply set_buffer_same. }
  assert (rb_ok rb) as Hok.
  { pose proof (rb_insert_ok _ q H1) as H. rewrite E in H. apply H. rewrite Hs. apply seq_add_ok. }
  constructor; try done. left. split; [done|]. exists n. split; [|exact Hg].
  split; [done|]. split.
  - rewrite <- Hb. pose proof (rb_insert_base (cn_recv_buffer c) q) as H. by rewrite E in H.
  - intros pos p Hp. pose proof (rb_insert_at _ q _ pos Hk Hnone) as H. rewrite E in H. cbn [snd] in H.
    change (rb_at rb pos = Some p) in Hp. rewrite H in Hp. case_decide as Hd; [|by apply Hat].
    injection Hp as <-. subst pos. by replace (n + (i - n))%nat with i by lia.
Qed.

Lemma after_insert_rkeeps data now c : wlp (after_insert data now c) (rkeeps c).
Proof.
  unfold after_insert. cbv zeta.
  match goal with |- wlp (deliver_tsbpd now ?c' ≫= _) _ => apply (wlp_from rkeeps c c') end.
  { apply rquiet_rkeeps. etransitivity; [|apply calm_r, sample_drift_calm].
    etransitivity; [|apply calm_r, anchor_tsbpd_calm].
    match goal with |- context [track_reorder ?s ?r ?c'] =>
      transitivity c'; [quietly|]; etransitivity; [apply calm_r, (track_reorder_calm s r)|] end.
    quietly. }
  apply (wlp_chain rkeeps); [apply deliver_tsbpd_rkeeps|]. intros c1 _.
  match goal with |- context [if ?b then send_light_ack now ?c' else _] =>
    apply (wlp_from rkeeps c1 c'); [apply rquiet_rkeeps; quietly|] end.
  apply (wlp_chain rkeeps).
  - case_match; [apply wlp_calm_keeps, send_light_ack_calm|apply same_rkeeps].
  - intros c2 _. apply wlp_calm_keeps, report_loss_calm.
Qed.

Lemma decrypt_data_crypto d c c' : cn_crypto c = cn_crypto c' -> decrypt_data d c = decrypt_data d c'.
Proof. intros E. unfold decrypt_data. by rewrite E. Qed.

Lemma insert_data_reading d now c out :
  reading out c -> cn_state c = StConnected -> carried b s0 L d -> wlp (insert_data d now c) (reading out).
Proof.
  intros Hr Hst (i & f & q & Hf & Hs & Hd & Hqs & Hqp & Hql). unfold insert_data.
  case_match; [cbn [wlp]; revert Hr; apply rquiet_rkeeps; quietly|].
  rewrite (decrypt_data_crypto d c b (rd_crypto _ _ Hr)), Hd. cbn [mbind panicky_bind].
  destruct (rb_insert _ q) as [ins rb] eqn:Ei. cbv zeta.
  assert (reading out (c <| cn_recv_buffer := rb |>)) as Hr1.
  { eapply insert_reading; [done|done| | |exact Ei]; [by rewrite Hqs|by exists f]. }
  destruct (negb ins); [cbn [wlp]; revert Hr1; apply rquiet_rkeeps; quietly|].
  eapply wlp_mono; [apply after_insert_rkeeps|]. intros c' Hc'. by apply Hc'.
Qed.

(** Moving the delivery point counts the packets it passes. *)
Lemma skip_reading out c c' k :
  reading out c -> cn_state c = StConnected ->
  (exists n, tracks (cn_recv_buffer c) n /\ (n + k <= length L)%nat) ->
  cn_recv_buffer c' = MkRecvBuffer (seq_add (rb_base (cn_recv_buffer c)) (Z.of_nat k))
    (drop k (rb_slots (cn_recv_buffer c))) (present_count (drop k (rb_slots (cn_recv_buffer c)))) ->
  dropped c' = add64 (dropped c) (Z.of_nat k) ->
  (cn_reassembler c', cn_events c', cn_fec_recv c', keys_of c', cn_state c') =
  (cn_reassembler c, cn_events c, cn_fec_recv c, keys_of c, cn_state c) ->
  reading out c'.
Proof.
  intros [H1 H2 H3 H4 H0 [(H5 & n & Ht & Hg)|[? _]]] Hst (n' & Ht' & Hk) Eb Ed E; [|done].
  unfold keys_of in E. injection E as K1 K2 K3 K4 K5 K6 K7.
  assert (n' = n) as ->.
  { destruct Ht as (Hn & Hb & _), Ht' as (Hn' & Hb' & _). rewrite Hb in Hb'. apply seq_add_inj in Hb'; lia. }
  pose proof (progress_bound s0 ms fss Hspan n _ _ _ (proj1 Ht) Hg) as Hd.
  constructor; unfold still, reading_at in *; rewrite ?K1, ?K2, ?K3, ?K4, ?K5, ?K6, ?K7; try done.
  { rewrite Eb. by apply rb_skip_ok. }
  left. split; [done|]. exists (n + k)%nat. split; [rewrite Eb; by apply tracks_skip|].
  rewrite Ed. unfold add64, wrap64. rewrite Z.mod_small by lia. by apply progress_skip.
Qed.

Lemma on_dropreq_reading first j now c out :
  reading out c -> cn_state c = StConnected -> (j < length L)%nat ->
  wlp (on_dropreq first (place j) now c) (reading out).
Proof.
  intros Hr Hst Hj. unfold on_dropreq. cbv zeta.
  match goal with |- wlp (deliver_tsbpd _ ?c') _ => set (c1 := c') end.
  assert (reading out c1) as Hr1.
  { set (rb := rb_drop_range (cn_recv_buffer c) first (place j)).
    assert (dropped c1 = add64 (dropped c) (Z.max 0 (offset_from (rb_base rb) (rb_base (cn_recv_buffer c))))) as Ed
      by reflexivity.
    destruct (rd_at _ _ Hr) as [(_ & n & Ht & _)|[? _]]; [|done]. pose proof Ht as (Hn & Hb & _).
    destruct (rb_drop_range_cases (cn_recv_buffer c) first (place j) (rd_ok _ _ Hr) (seq_add_ok _ _))
      as [E | (Ho & _ & E)]; cbv zeta in E; fold rb in E.
    - eapply (skip_reading out c c1 0); [exact Hr|exact Hst|exists n; split; [exact Ht|lia]| | |reflexivity].
      + change (rb = MkRecvBuffer (seq_add (rb_base (cn_recv_buffer c)) (Z.of_nat 0)) (rb_slots (cn_recv_buffer c))
          (present_count (rb_slots (cn_recv_buffer c)))).
        rewrite E, seq_add_0 by apply (rd_ok _ _ Hr). rewrite <- (rb_ok_count _ (rd_ok _ _ Hr)).
        by destruct (cn_recv_buffer c).
      + rewrite Ed, E. f_equal.
        rewrite <- (seq_add_0 (rb_base (cn_recv_buffer c))) at 1 by apply (rd_ok _ _ Hr).
        by rewrite offset_from_add by lia.
    - set (k := S (Z.to_nat (offset_from (place j) (rb_base (cn_recv_buffer c))))) in E.
      assert (n + k <= length L)%nat as Hk.
      { unfold k. rewrite Hb in *. rewrite place_offset in * by lia. lia. }
      eapply (skip_reading out c c1 k); [exact Hr|exact Hst|by exists n|exact E| |reflexivity].
      rewrite Ed, E. cbn [rb_base]. f_equal. rewrite offset_from_add by lia. lia. }
  eapply wlp_mono; [apply deliver_tsbpd_rkeeps|]. intros c' H. by apply H.
Qed.

(** ** The entry points *)

Lemma on_data_reading d now c out :
  reading out c -> cn_state c = StConnected -> carried b s0 L d -> wlp (on_data d now c) (reading out).
Proof. intros Hr Hst Hd. unfold on_data. rewrite (rd_fec _ _ Hr). by apply insert_data_reading. Qed.

Lemma on_control_reading body now c out :
  reading out c -> cn_state c = StConnected -> harmless_body body \/ drops_sent s0 L body ->
  wlp (on_control body now c) (reading out).
Proof.
  intros Hr Hst [Hb|(n & first & j & -> & Hj)]; [|by apply on_dropreq_reading].
  assert (forall m, wlp m (rkeeps c) -> wlp m (reading out)) as Hk.
  { intros m Hm. eapply wlp_mono; [exact Hm|]. intros c' H. by apply H. }
  unfold on_control.
  destruct body as [| | |n|n f l|n|ack|loss|hs|t st tsp cif]; try done.
  - by apply on_shutdown_reading.
  - apply Hk, calm_rkeeps, on_ackack_calm.
  - apply Hk, wlp_rquiet, on_ack_rquiet.
  - apply Hk, wlp_rquiet, on_nak_rquiet.
  - apply Hk, rquiet_rkeeps, on_dup_handshake_rquiet.
  - destruct t; try done. destruct (Z.eqb_spec st EXT_KMREQ) as [->|]; [done|].
    case_match; [|done]. apply Hk, calm_rkeeps, on_km_rsp_calm, Hr.
Qed.

(** ** The caller's handshake *)

(** A conclusion that introduces the peer names the number it sends from. *)
Definition introduces (p : Packet) : Prop :=
  match p with
  | PControl (MkControl _ _ (CbHandshake hs)) =>
      hs_handshake_type hs = hst_CONCLUSION -> hs_initial_seq hs = s0
  | _ => True
  end.

Lemma handshaking_idle out c :
  reading out c -> is_handshaking (cn_state c) = true ->
  rb_slots (cn_recv_buffer c) = [] /\ cn_reassembler c = ra_new /\ out ++ payloads (cn_events c) = [] /\
  dropped c = 0.
Proof. intros [_ _ _ _ _ [[H _]|(_ & H)]] Hh; [by rewrite H in Hh|exact H]. Qed.

Lemma emit_handshake_rquiet dest hs now c : wlp (emit_handshake dest hs now c) (rquiet c).
Proof.
  unfold emit_handshake. apply (wlp_bind _ _ (fun _ => True)); [by destruct (encode_control _ _ _)|].
  intros d _. cbn [wlp]. quietly.
Qed.

Lemma on_induction_response_reading hs now c out :
  reading out c -> is_handshaking (cn_state c) = true ->
  wlp (on_induction_response hs now c) (reading out).
Proof.
  intros Hr Hh. destruct (handshaking_idle _ _ Hr Hh) as (H1 & H2 & H3 & H6).
  unfold on_induction_response. case_match; [done|]. cbv zeta.
  match goal with |- wlp (send_conclusion now ?c') _ => set (c1 := c') end.
  assert (reading out c1) as Hr1.
  { destruct Hr as [K1 K2 K3 K4 K5 _]. constructor; try done; [|right; split; [done|by split_and!]].
    intros Hb. by rewrite (K5 Hb) in Hh. }
  eapply wlp_mono; [apply emit_handshake_rquiet|]. intros c' H'. by apply (rquiet_rkeeps _ _ H').
Qed.

Lemma on_conclusion_response_reading hs now c out :
  reading out c -> is_handshaking (cn_state c) = true -> seq_ok s0 ->
  (hs_handshake_type hs = hst_CONCLUSION -> hs_initial_seq hs = s0) ->
  reading out (on_conclusion_response hs now c).
Proof.
  intros Hr Hh Hs0 Hi. destruct (handshaking_idle _ _ Hr Hh) as (H1 & H2 & H3 & H6).
  unfold on_conclusion_response. destruct (bool_decide_reflect (hs_handshake_type hs = hst_CONCLUSION)) as [Ht|];
    [|done]. cbn [negb orb]. case_match; [done|]. cbv zeta. specialize (Hi Ht).
  unfold enter_connected. cbv zeta.
  set (ng := negotiate _ _). assert (ng_peer_initial_seq ng = s0) as -> by exact Hi.
  match goal with |- reading out (push_event _ ?c') => set (c1 := c') end.
  assert (reading out c1) as Hr1.
  { destruct Hr as [K1 K2 K3 K4 K5 _]. constructor; [by apply rb_new_ok|exact K2|exact K3|exact K4|done|].
    left. split; [done|]. exists 0%nat. split.
    - split; [lia|]. split; [unfold ReadInv.place; symmetry; by apply seq_add_0|done].
    - change (progress s0 ms fss 0 (cn_reassembler c) (out ++ payloads (cn_events c)) (dropped c)).
      rewrite H2, H3, H6. apply progress_new. }
  revert Hr1. by apply calm_rkeeps, event_calm.
Qed.

Lemma on_handshake_packet_reading p now c out :
  reading out c -> is_handshaking (cn_state c) = true -> seq_ok s0 -> introduces p ->
  wlp (on_handshake_packet p now c) (reading out).
Proof.
  intros Hr Hh Hs0 Hi. unfold on_handshake_packet. destruct p as [d|[ts dest body]]; [done|].
  destruct body; try done. cbn [introduces] in Hi.
  destruct (hst_reject_reason _); [cbn [wlp]; revert Hr; apply calm_rkeeps, on_rejected_calm|].
  destruct (cn_state c) eqn:E; try (cbn [wlp]; apply on_conclusion_response_reading; by rewrite ?E).
  apply on_induction_response_reading; by rewrite ?E.
Qed.

Lemma feed_reading d now c out :
  reading out c -> genuine b s0 L d ->
  (is_handshaking (cn_state c) = true -> seq_ok s0 /\ forall p, packet_decode d = Ok p -> introduces p) ->
  wlp (feed_recv_buf d now c) (reading out).
Proof.
  intros Hr Hg Hi. unfold feed_recv_buf. destruct (packet_decode d) as [p|x|] eqn:Ep; [|done..]. cbv zeta.
  set (c1 := if is_connected (cn_state c) then c <| cn_last_recv_any := now |> else c).
  assert (reading out c1) as Hr1.
  { revert Hr. apply rquiet_rkeeps. unfold c1. case_match; [quietly|done]. }
  assert (cn_state c1 = cn_state c) as Ec by (unfold c1; by case_match). rewrite <- Ec in Hi.
  clearbody c1. specialize (Hg p Ep).
  destruct (cn_state c1) eqn:Est; [| | |done].
  1,2: destruct Hi as [Hs0 Hi]; [done|]; apply on_handshake_packet_reading; auto; by rewrite Est.
  destruct p as [data|[ts dest body]]; cbn [on_connected_packet cp_body].
  - by apply on_data_reading.
  - by apply on_control_reading.
Qed.

Lemma handle_timer_rkeeps id now c : still c -> wlp (handle_timer id now c) (rkeeps c).
Proof.
  intros Hs. destruct id; cbn [handle_timer].
  - apply rquiet_rkeeps, on_handshake_timer_rquiet.
  - apply wlp_calm_keeps, on_ack_timer_calm.
  - apply wlp_calm_keeps, on_nak_timer_calm.
  - apply wlp_rquiet, on_exp_rquiet.
  - apply deliver_tsbpd_rkeeps.
  - by apply wlp_rquiet, pace_rquiet, still_steady.
  - apply wlp_calm_keeps, on_linger_calm.
  - by apply wlp_calm_keeps, on_keepalive_calm.
  - apply calm_rkeeps, on_peer_idle_calm.
Qed.

(** What the receiver's calls may be: genuine datagrams, no rekey of its own. *)
Definition faithful (call : ConnCall) : Prop :=
  match call with
  | CallFeed d _ => genuine b s0 L d /\ (is_handshaking (cn_state b) = true ->
      seq_ok s0 /\ forall p, packet_decode d = Ok p -> introduces p)
  | CallRekey _ _ => cn_crypto b = None
  | _ => True
  end.

Lemma conn_step_reading call c out :
  reading out c -> faithful call ->
  wlp (conn_step call c) (reading (out ++ payloads (polled_event call c))).
Proof.
  intros Hr Hf.
  assert (forall m, wlp m (rkeeps c) -> wlp m (reading (out ++ []))) as Hk.
  { intros m Hm. rewrite app_nil_r. eapply wlp_mono; [exact Hm|]. intros c' H. by apply H. }
  destruct call as [d now|id now|m now|now|sek now| |]; cbn [conn_step polled_event].
  - rewrite app_nil_r. apply feed_reading; [done|apply Hf|]. intros Hh. apply Hf.
    pose proof (rd_from _ _ Hr) as Hb. destruct (is_handshaking (cn_state b)); [done|].
    by rewrite Hb in Hh.
  - apply Hk, handle_timer_rkeeps, Hr.
  - apply Hk. destruct (conn_send m now c) as [c'|x|] eqn:E; cbn [sent_or]; [|apply same_rkeeps|done].
    cbn [wlp]. apply rquiet_rkeeps. eapply conn_send_rquiet; [apply still_steady, Hr|exact E].
  - apply Hk, wlp_calm_keeps, conn_close_calm.
  - apply Hk, wlp_calm_keeps, provide_rekey_calm. rewrite (rd_crypto _ _ Hr). exact Hf.
  - cbn [wlp]. unfold poll_event. destruct (cn_events c) as [|e es] eqn:Ee; cbn [fst snd option_list].
    { by rewrite app_nil_r. }
    destruct Hr as [H1 H2 H3 H4 H0 H5]. constructor; try done.
    unfold reading_at in *. rewrite Ee in H5. change (e :: es) with ([e] ++ es) in H5.
    rewrite payloads_app, app_assoc in H5. exact H5.
  - apply Hk. cbn [wlp]. apply rquiet_rkeeps. unfold poll_output. destruct (cn_outputs c); [done|quietly].
Qed.

Lemma run_reads c calls es os c' out :
  run c calls es os c' -> reading out c -> Forall faithful calls -> reading (out ++ payloads es) c'.
Proof.
  intros Hr. revert out. induction Hr as [c|c call c1 calls es os c2 Hc Hst Hr IH]; intros out H Hf.
  { by rewrite app_nil_r. }
  apply Forall_cons in Hf as [Hf1 Hf]. pose proof (conn_step_reading call c out H Hf1) as Hw.
  rewrite Hst in Hw. rewrite payloads_app, app_assoc. by apply IH.
Qed.
End Reading.

(** ** Reading off the invariant *)

Lemma sublist_full {A} (l l' : list A) : sublist l l' -> (length l' <= length l)%nat -> l = l'.
Proof.
  induction 1 as [|x l l' _ IH|x l l' H _]; intros Hl; [done|f_equal; apply IH; simpl in Hl; lia|].
  apply sublist_length in H. simpl in Hl. lia.
Qed.

Lemma nothing_dropped (ms out : list (list byte)) c k :
  sublist (out ++ payloads (cn_events c)) (take k ms) -> (k <= length ms)%nat -> dropped c = 0 ->
  Z.of_nat k <= Z.of_nat (length (out ++ payloads (cn_events c))) + dropped c ->
  out ++ payloads (cn_events c) = take k ms.
Proof. intros Hs Hk Hd Hle. apply sublist_full; [exact Hs|]. rewrite length_take. lia. Qed.

Section Exact.
Context {B : BytesApi} {HB : BytesSpec B} {P : CryptoPrims}.
Context (b : Connection) (s0 : SeqNumber) (ms : list (list byte)) (fss : list (list Fragment)).
Context (Hshape : Forall2 shaped ms fss).
Context (Hspan : Z.of_nat (length (concat fss)) < 0x40000000).

(** [k] messages lie wholly before place [n]. *)
Definition wholly_before (n k : nat) : Prop :=
  (start_of fss k <= n)%nat /\ (k <= length ms)%nat /\ ((k < length ms)%nat -> (n < start_of fss (S k))%nat).

(** What the receiver has reported, against the messages before its delivery
    point. *)
Lemma reading_exact out c :
  reading b s0 ms fss out c ->
  exists k, sublist (out ++ payloads (cn_events c)) (take k ms) /\
    0 <= dropped c /\ Z.of_nat k <= Z.of_nat (length (out ++ payloads (cn_events c))) + dropped c /\
    (k <= length ms)%nat /\
    (cn_state c = StConnected -> exists n, tracks s0 fss (cn_recv_buffer c) n /\ wholly_before n k).
Proof.
  intros Hr. pose proof (Forall2_length _ _ _ Hshape) as Hlen.
  destruct (rd_at _ _ _ _ _ _ Hr) as
    [(_ & n & Ht & (kg & Hsub & Hkg & _) & s & Hd & _ & k & j & En & Hk & Hj & Hc)|(Hst & _ & _ & Ho & Hd)].
  2: { exists 0%nat. rewrite Ho, Hd. split_and!; [done|lia|simpl; lia|lia|done]. }
  assert ((k < length ms)%nat -> (n < start_of fss (S k))%nat) as Hnext.
  { intros Hlt. destruct (fss !! k) as [fs|] eqn:Ek; [|apply lookup_ge_None in Ek; lia].
    rewrite (start_of_S fss _ _ Ek). pose proof (pieces_nonempty ms fss Hshape _ _ Ek).
    destruct Hj as [->|(fs' & Hfs' & ?)]; [lia|]. assert (fs' = fs) as -> by congruence. lia. }
  exists k. rewrite Hd. split; [|split; [lia|split; [|split; [lia|]]]].
  - etransitivity; [exact Hsub|]. destruct (Nat.le_gt_cases kg k) as [Hle|Hgt].
    + replace (take kg ms) with (take kg (take k ms)) by (rewrite take_take; f_equal; lia). apply sublist_take.
    + destruct (Nat.lt_ge_cases k (length ms)) as [Hlt|Hge].
      * pose proof (start_of_le fss (S k) kg ltac:(lia)). specialize (Hnext Hlt). lia.
      * rewrite !take_ge by lia. done.
  - destruct Hc as [[? _]|[_ ?]]; lia.
  - intros _. exists n. split; [done|]. split; [lia|]. split; [lia|done].
Qed.

(** With everything before the delivery point, all messages are. *)
Lemma all_before k : wholly_before (length (concat fss)) k -> take k ms = ms.
Proof.
  intros (_ & Hk & Hn). apply take_ge. destruct (Nat.le_gt_cases (length ms) k) as [|Hlt]; [done|].
  specialize (Hn Hlt). pose proof (start_of_total fss (S k)). lia.
Qed.
End Exact.
