(* ===== verification/Rotation.v ===== *)
(** * Rotation: a key rotation between two peers

    The sender's [provide_rekey], the receiver's [on_km_req] and the sender's
    [on_km_rsp], across the wire; and [waits], which every call but the arrival of
    the echo preserves. *)

From S2P Require Import Prelude Buf Errors Seq Time Timestamp PacketTypes Control Packet SendBuffer RecvBuffer KeyMaterial Crypto Config Event Fragment ConnState Rekey Arq Setup Conn ConnInv ConnStart Session Delivery DriverInv Genuine SendInv ReadInv.

Section Rotate.
Context {B : BytesApi} {HB : BytesSpec B} {P : CryptoPrims} {HP : CryptoSpec P}.

Lemma km_control_decodes subtype cif now c :
  u16_ok subtype -> socket_id_ok (cn_peer_socket_id c) ->
  exists bs, km_control subtype cif now c = Ret bs /\
    packet_decode bs = Ok (PControl (MkControl (wire_ts c now) (cn_peer_socket_id c)
                             (CbRaw CtUserDefined subtype 0 cif))).
Proof.
  intros Hs Hp. unfold km_control. apply encode_control_decodes; [done|apply wire_ts_ok|].
  split_and!; [done|done|]. unfold u32_ok. lia.
Qed.

Definition next_key (enc : EncryptionSettings) (salt sek : list byte) : SessionKeys :=
  MkKeys salt sek (es_cipher enc).

(** The announcement: the key is staged in the idle slot and sent wrapped. *)
Lemma provide_rekey_exact sek now c enc sc salt :
  conn_ok c -> valid_key_length (length sek) = true -> cn_rekey_pending c = true ->
  cfg_encryption (cn_config c) = Some enc -> cn_crypto c = Some sc -> sc_salt sc = Some salt ->
  socket_id_ok (cn_peer_socket_id c) ->
  exists km bs c', provide_rekey sek now c = Ret c' /\ km_ok km /\
    build_key_material_for (es_passphrase enc) (sc_next_flags sc) (es_cipher enc) salt sek = Ret km /\
    cn_crypto c' = Some (sc_install sc (sc_next_flags sc) (next_key enc salt sek)) /\
    cn_pending_km c' = Some (km_bytes km) /\ cn_rekey_pending c' = false /\
    cn_next_key_ready c' = cn_next_key_ready c /\
    cn_state c' = cn_state c /\ cn_config c' = cn_config c /\
    cn_outputs c' = cn_outputs c ++ [SendDatagram bs] /\
    packet_decode bs = Ok (PControl (MkControl (wire_ts c now) (cn_peer_socket_id c)
                             (CbRaw CtUserDefined EXT_KMREQ 0 (km_bytes km)))).
Proof.
  intros Hok Hk Hr He Hsc Hsalt Hid. unfold provide_rekey. rewrite Hr, He, Hsc, Hsalt. cbn [negb].
  pose proof (ok_crypto _ Hok _ Hsc) as Hscok.
  destruct (build_km_some (es_passphrase enc) (sc_next_flags sc) (es_cipher enc) salt sek Hk
    (sc_salt_ok _ _ Hscok Hsalt)) as (km & Hb & Hkm & _).
  { unfold sc_next_flags. by destruct (sc_active sc). }
  unfold sk_from_raw. rewrite Hb. cbn [mbind panicky_bind]. cbv zeta. rewrite km_encode_bytes.
  cbn [app]. set (c1 := c <| cn_crypto := _ |>).
  destruct (km_control_decodes EXT_KMREQ (km_bytes km) now c1) as (bs & Eb & Hd); [by vm_compute|done|].
  rewrite Eb. cbn [mbind panicky_bind].
  exists km, bs. eexists. split; [reflexivity|]. split_and!; try done.
Qed.

(** The peer installs the key and echoes the message. *)
Lemma km_req_installs km bs ts dest enc sc u now c :
  cn_state c = StConnected ->
  packet_decode bs = Ok (PControl (MkControl ts dest (CbRaw CtUserDefined EXT_KMREQ 0 (km_bytes km)))) ->
  km_ok km -> cfg_encryption (cn_config c) = Some enc -> cn_crypto c = Some sc ->
  sk_from_key_material km (es_passphrase enc) = Ok u -> socket_id_ok (cn_peer_socket_id c) ->
  exists c' rs ts', feed_recv_buf bs now c = Ret c' /\
    cn_crypto c' = Some (sc_install_unwrapped sc u) /\
    last (datagrams (cn_outputs c')) = Some rs /\
    packet_decode rs = Ok (PControl (MkControl ts' (cn_peer_socket_id c)
                             (CbRaw CtUserDefined EXT_KMRSP 0 (km_bytes km)))).
Proof.
  intros Hst Hd Hkm He Hsc Hu Hid. unfold feed_recv_buf. rewrite Hd, Hst. cbn [is_connected].
  cbv zeta. set (c1 := c <| cn_last_recv_any := now |>).
  change (cn_state c1) with (cn_state c). rewrite Hst. cbn [on_connected_packet cp_body on_control].
  rewrite Z.eqb_refl. unfold on_km_req.
  change (cn_config c1) with (cn_config c). change (cn_crypto c1) with (cn_crypto c).
  rewrite He, km_decode_bytes, Hsc, Hu by done. cbv zeta. set (c2 := c1 <| cn_crypto := _ |>).
  destruct (km_control_decodes EXT_KMRSP (km_bytes km) now c2) as (rs & Er & Hrs); [by vm_compute|done|].
  rewrite Er. cbn [mbind panicky_bind].
  eexists _, rs, _. split; [reflexivity|]. split; [reflexivity|]. split; [|exact Hrs].
  change (cn_outputs (emit rs now c2)) with (cn_outputs c ++ [SendDatagram rs]).
  by rewrite datagrams_snoc, last_snoc.
Qed.

(** The echo makes the staged key ready; nothing else changes. *)
Lemma km_rsp_confirms km bs ts dest now c :
  cn_state c = StConnected ->
  packet_decode bs = Ok (PControl (MkControl ts dest (CbRaw CtUserDefined EXT_KMRSP 0 (km_bytes km)))) ->
  cn_pending_km c = Some (km_bytes km) ->
  exists c', feed_recv_buf bs now c = Ret c' /\ cn_crypto c' = cn_crypto c /\
    cn_pending_km c' = None /\ cn_next_key_ready c' = true.
Proof.
  intros Hst Hd Hp. unfold feed_recv_buf. rewrite Hd, Hst. cbn [is_connected]. cbv zeta.
  set (c1 := c <| cn_last_recv_any := now |>).
  change (cn_state c1) with (cn_state c). rewrite Hst. cbn [on_connected_packet cp_body on_control].
  change (EXT_KMRSP =? EXT_KMREQ) with false. rewrite Z.eqb_refl. cbv iota. unfold on_km_rsp.
  change (cn_pending_km c1) with (cn_pending_km c). rewrite Hp, bool_decide_true by done.
  eexists. split; [reflexivity|done].
Qed.

Lemma sc_install_slot sc f k e :
  f <> KfBoth -> e <> EncNone ->
  sc_slot (sc_install sc f k) e =
    if decide (match f with KfOdd => EncOdd | _ => EncEven end = e) then Some k else sc_slot sc e.
Proof. destruct f, e; try done. Qed.

(** The peer's slot the announcement lands in is the one the sender staged. *)
Lemma rotation_covers sc sc' f k :
  f <> KfBoth -> (forall e x, sc_slot sc e = Some x -> sc_slot sc' e = Some x) ->
  forall e x, sc_slot (sc_install sc f k) e = Some x ->
    sc_slot (sc_install_unwrapped sc'
      (match f with KfOdd => MkUnwrapped None (Some k) | _ => MkUnwrapped (Some k) None end)) e = Some x.
Proof. intros Hf H e x. specialize (H e x). by destruct f, e. Qed.
End Rotate.

(** ** Nothing but the echo *)

Section Waiting.
Context {B : BytesApi} {HB : BytesSpec B} {P : CryptoPrims} {HP : CryptoSpec P}.

(** The echo of a Key Material message. *)
Definition echoes (km : list byte) (d : list byte) : Prop :=
  exists ts dest n, packet_decode d = Ok (PControl (MkControl ts dest (CbRaw CtUserDefined EXT_KMRSP n km))).

(** Announced and unconfirmed, or given up on. *)
Definition waits (km : list byte) (c : Connection) : Prop :=
  cn_next_key_ready c = false /\ (cn_pending_km c = Some km \/ cn_pending_km c = None).

Definition still_waits (km : list byte) (c c' : Connection) : Prop := waits km c -> waits km c'.

#[local] Instance still_waits_preorder km : PreOrder (still_waits km).
Proof. split; [by intros c H|]. intros c1 c2 c3 A1 A2 H. auto. Qed.

Lemma keys_wait km c c' : keys_of c' = keys_of c -> still_waits km c c'.
Proof. unfold keys_of. intros [= E1 E2 E3] [H1 H2]. split; [congruence|by rewrite E2]. Qed.

Lemma rquiet_wait km c m : wlp m (rquiet c) -> wlp m (still_waits km c).
Proof. intros H. eapply wlp_mono; [exact H|]. intros c' [H1 _ _ _]. apply keys_wait. exact (f_equal snd H1). Qed.

Lemma squiet_wait km c m : wlp m (squiet c) -> wlp m (still_waits km c).
Proof.
  intros H. eapply wlp_mono; [exact H|]. intros c' [H1 _]. apply keys_wait.
  unfold send_side, keys_of in *. injection H1. congruence.
Qed.

Lemma calm_wait km c m : wlp m (calm c) -> wlp m (still_waits km c).
Proof. intros H. by apply rquiet_wait, wlp_calm_r. Qed.

Lemma on_km_req_wait km cif now c : wlp (on_km_req cif now c) (still_waits km c).
Proof.
  unfold on_km_req. destruct (cfg_encryption _) as [enc|]; [|by intros H].
  destruct (km_decode cif); [|by intros H|done]. destruct (cn_crypto c); [|by intros H].
  destruct (sk_from_key_material _ _); [|by intros H|done]. cbv zeta.
  apply (wlp_bind _ _ (fun _ => True)); [by destruct (km_control _ _ _ _)|]. intros d _. by intros [H1 H2].
Qed.

Lemma on_keepalive_wait km now c : wlp (on_keepalive_timer now c) (still_waits km c).
Proof.
  unfold on_keepalive_timer. case_match; [by intros H'|].
  apply (wlp_chain (still_waits km)).
  - unfold resend_pending_km. destruct (cn_pending_km c); [|by intros H']. case_match.
    + intros [H1 _]. split; [exact H1|by right].
    + apply (wlp_bind _ _ (fun _ => True)); [by destruct (km_control _ _ _ _)|]. intros d _. by intros [H1 H2].
  - intros c1 _. apply (wlp_chain (still_waits km)); [case_match; [by apply calm_wait, emit_control_calm|by intros H']|].
    intros c2 _. by intros [H1 H2].
Qed.

Lemma on_control_wait km d ts dest body now c :
  packet_decode d = Ok (PControl (MkControl ts dest body)) -> ~ echoes km d ->
  wlp (on_control body now c) (still_waits km c).
Proof.
  intros Hd He. unfold on_control. destruct body as [| | |n|n f l|n|ack|loss|hs|t st tsp cif]; try by intros H.
  - apply squiet_wait, on_shutdown_squiet.
  - apply (calm_wait km c (Ret _)), on_ackack_calm.
  - apply squiet_wait, on_dropreq_squiet.
  - apply rquiet_wait, on_ack_rquiet.
  - apply rquiet_wait, on_nak_rquiet.
  - apply (rquiet_wait km c (Ret _)), on_dup_handshake_rquiet.
  - destruct t; try by intros H. case_match; [apply on_km_req_wait|]. destruct (Z.eqb_spec st EXT_KMRSP) as [->|]; [|by intros H'].
    cbn [wlp]. unfold on_km_rsp. destruct (cn_pending_km c) as [km'|] eqn:Ep; [|by intros H'].
    case_bool_decide as Eq; [|by intros H']. subst km'. intros [_ [H2|H2]]; [|congruence].
    assert (cif = km) as -> by congruence. destruct He. by exists ts, dest, tsp.
Qed.

Lemma feed_wait km d now c :
  is_handshaking (cn_state c) = false -> ~ echoes km d -> wlp (feed_recv_buf d now c) (still_waits km c).
Proof.
  intros Hh He. unfold feed_recv_buf. destruct (packet_decode d) as [p|x|] eqn:Ed; [|by intros H|done]. cbv zeta.
  match goal with |- context [if is_connected (cn_state c) then ?x else c] =>
    set (c1 := if is_connected (cn_state c) then x else c) end.
  assert (cn_state c1 = cn_state c /\ still_waits km c c1) as [Es Hw].
  { unfold c1. case_match; (split; [done|]); by intros [H1 H2]. }
  apply (wlp_from (still_waits km) c c1); [exact Hw|]. rewrite <- Es in Hh. clearbody c1.
  destruct (cn_state c1) eqn:E1; try done; [|by intros H].
  destruct p as [data|[ts dest body]]; cbn [on_connected_packet cp_body].
  - apply squiet_wait, on_data_squiet.
  - by eapply on_control_wait.
Qed.

(** No new key and no echo of this one. *)
Definition unconfirmed (km : list byte) (call : ConnCall) : Prop :=
  match call with CallRekey _ _ => False | CallFeed d _ => ~ echoes km d | _ => True end.

Lemma steady_wait km c m : (steady c -> wlp m (rquiet c)) -> wlp m (still_waits km c).
Proof.
  intros H. destruct m as [c'|]; [|done]. intros Hw. destruct (H (proj1 Hw)) as [H1 _ _ _].
  revert Hw. apply keys_wait. exact (f_equal snd H1).
Qed.

Lemma step_waits km call c :
  is_handshaking (cn_state c) = false -> unconfirmed km call -> wlp (conn_step call c) (still_waits km c).
Proof.
  intros Hh Hu. destruct call as [d now|id now|m now|now|sek now| |]; cbn [conn_step unconfirmed] in *; try done.
  - by apply feed_wait.
  - destruct id; cbn [handle_timer].
    + apply (rquiet_wait km c (Ret _)), on_handshake_timer_rquiet.
    + apply calm_wait, on_ack_timer_calm.
    + apply calm_wait, on_nak_timer_calm.
    + apply rquiet_wait, on_exp_rquiet.
    + apply squiet_wait, deliver_tsbpd_squiet.
    + apply steady_wait, pace_rquiet.
    + apply calm_wait, on_linger_calm.
    + apply on_keepalive_wait.
    + apply (calm_wait km c (Ret _)), on_peer_idle_calm.
  - destruct (conn_send m now c) as [c'|x|] eqn:E; cbn [sent_or]; [|by intros H|done].
    apply steady_wait. intros Hs. cbn [wlp]. by eapply conn_send_rquiet.
  - apply calm_wait, conn_close_calm.
  - cbn [wlp]. unfold poll_event. destruct (cn_events c); by intros [H1 H2].
  - cbn [wlp]. unfold poll_output. destruct (cn_outputs c); by intros [H1 H2].
Qed.

Lemma run_waits km c calls es os c' :
  run c calls es os c' -> conn_ok c -> is_handshaking (cn_state c) = false ->
  Forall (unconfirmed km) calls -> waits km c -> waits km c'.
Proof.
  induction 1 as [c|c call c1 calls es os c2 Hc Hs Hr IH]; intros Hok Hh Hu Hw; [done|].
  apply Forall_cons in Hu as [Hu1 Hu].
  pose proof (conn_step_wp call c Hok Hc) as H1. pose proof (step_waits km call c Hh Hu1) as H2.
  rewrite Hs in H1, H2. destruct H1 as (Hok1 & _ & Hrank). apply IH; [done| |done|by apply H2].
  destruct (cn_state c), (cn_state c1); (done || (cbn in Hrank; lia)).
Qed.
End Waiting.

(** What an announcement carries. *)
Definition announces {B : BytesApi} (d km : list byte) : Prop :=
  exists ts dest n, packet_decode d = Ok (PControl (MkControl ts dest (CbRaw CtUserDefined EXT_KMREQ n km))).

(** C21 (refinement).  A key rotation, step by step.  The embedder's new key is
    staged in the sender's idle slot, wrapped under the shared passphrase and
    announced; the peer recovers exactly that key, keeps the one in use, and echoes
    the message.  Nothing but that echo makes the sender ready to switch: after any
    sequence of other calls on it (datagrams that do not echo the announced message,
    timers, sends, a close; no further key from the embedder) it is not ready, and
    accounting for a packet switches nothing.  The echo makes it ready; before it
    the active key is the old one, and once the refresh count is reached after it
    the new one.  At each of these points (announced, confirmed, switched) the peer
    holds every key the sender holds.  The key that was in the idle slot before is
    gone at both ends from the announcement on: a packet stored under it, two
    rotations back, could no longer be decrypted if it were resent. *)
Theorem rotation_never_loses_a_key {B : BytesApi} {HB : BytesSpec B} {P : CryptoPrims}
  {HP : CryptoSpec P} (s r : Connection) (enc enc' : EncryptionSettings) (sc sc' : SessionCrypto)
  (sek : list byte) (t1 t2 t3 refresh : Z) :
  conn_ok s -> cn_state s = StConnected -> cn_state r = StConnected ->
  socket_id_ok (cn_peer_socket_id s) -> socket_id_ok (cn_peer_socket_id r) ->
  cfg_encryption (cn_config s) = Some enc -> cfg_encryption (cn_config r) = Some enc' ->
  es_passphrase enc = es_passphrase enc' ->
  cn_crypto s = Some sc -> cn_crypto r = Some sc' -> covers s r ->
  cn_rekey_pending s = true -> cn_next_key_ready s = false ->
  valid_key_length (length sek) = true -> 0 < refresh ->
  exists s1 kmreq r1 kmrsp s2 old new,
    provide_rekey sek t1 s = Ret s1 /\ last (datagrams (cn_outputs s1)) = Some kmreq /\
    feed_recv_buf kmreq t2 r = Ret r1 /\ last (datagrams (cn_outputs r1)) = Some kmrsp /\
    feed_recv_buf kmrsp t3 s1 = Ret s2 /\
    covers s1 r1 /\ covers s2 r1 /\ covers (maybe_switch_key refresh s2) r1 /\
    sk_sek new = sek /\ sc_active_keys sc = Some old /\
    (sc_active_keys <$> cn_crypto (maybe_switch_key refresh s1)) = Some (Some old) /\
    cn_next_key_ready s2 = true /\
    (exists km, announces kmreq km /\ echoes km kmrsp /\
       forall calls es os s', Forall (unconfirmed km) calls -> run s1 calls es os s' ->
         cn_next_key_ready s' = false /\ maybe_switch_key refresh s' = s') /\
    (refresh <= cn_packets_on_key s2 ->
     (sc_active_keys <$> cn_crypto (maybe_switch_key refresh s2)) = Some (Some new)).
Proof.
  intros Hok Hs Hr Hids Hidr He He' Hpass Hsc Hsc' Hcov Hp Hn Hk Href.
  pose proof (ok_crypto _ Hok _ Hsc) as Hscok.
  assert (exists salt, sc_salt sc = Some salt) as [salt Hsalt].
  { destruct Hscok as (_ & _ & [x Hx] & Ha). unfold sc_salt, sc_active_keys in *.
    destruct (sc_even sc) eqn:E1; [by eexists|]. destruct (sc_active sc); simplify_eq/=.
    rewrite Hx. by eexists. }
  destruct (provide_rekey_exact sek t1 s enc sc salt Hok Hk Hp He Hsc Hsalt Hids)
    as (km & bs & s1 & E1 & Hkm & Hb & Hc1 & Hpend1 & _ & Hready1 & Hst1 & _ & Ho1 & Hd1).
  assert (sc_next_flags sc <> KfBoth) as Hnb by (unfold sc_next_flags; by destruct (sc_active sc)).
  pose proof (sk_from_key_material_single _ _ _ _ _ _ Hk (sc_salt_ok _ _ Hscok Hsalt) Hnb Hb) as Hu.
  rewrite Hpass in Hu.
  destruct (km_req_installs km bs _ _ enc' sc' _ t2 r Hr Hd1 Hkm He' Hsc' Hu Hidr)
    as (r1 & rs & ts' & E2 & Hc2 & Ho2 & Hd2).
  destruct (km_rsp_confirms km rs _ _ t3 s1 (eq_trans Hst1 Hs) Hd2 Hpend1)
    as (s2 & E3 & Hc3 & Hp3 & Hready).
  assert (exists old, sc_active_keys sc = Some old) as [old Hold] by apply Hscok.
  assert (forall c, cn_crypto c = cn_crypto s1 -> covers c r1) as Hcov1.
  { intros c Hc x Hx. rewrite Hc, Hc1 in Hx. injection Hx as <-. eexists. split; [exact Hc2|].
    apply rotation_covers; [done|]. destruct (Hcov sc Hsc) as (sc0 & H1 & H2).
    rewrite Hsc' in H1. injection H1 as <-. exact H2. }
  exists s1, bs, r1, rs, s2, old, (next_key enc salt sek).
  split; [exact E1|]. split; [by rewrite Ho1, datagrams_snoc, last_snoc|].
  split; [exact E2|]. split; [exact Ho2|]. split; [exact E3|].
  split; [by apply Hcov1|]. split; [by apply Hcov1|]. split_and!.
  - eapply covers_slots; [|by apply (Hcov1 s2)]. unfold maybe_switch_key. intros x Hx.
    destruct (_ && _); [|by exists x].
    change ((fun crypto => sc_activate crypto (sc_next_flags crypto)) <$> cn_crypto s2 = Some x) in Hx.
    apply fmap_Some in Hx as (y & Hy & ->). exists y. split; [done|]. intros e. apply covers_activate.
  - done.
  - done.
  - unfold maybe_switch_key. rewrite Hready1, Hn. cbn [andb]. rewrite Hc1. cbn. f_equal.
    rewrite <- Hold. unfold sc_install, sc_next_flags, sc_active_keys. by destruct (sc_active sc) eqn:Ea; simpl; rewrite ?Ea.
  - exact Hready.
  - exists (km_bytes km). split; [by eexists _, _, _|]. split; [by eexists _, _, _|].
    intros calls es os s' Hun Hrun.
    assert (conn_ok s1) as Hok1.
    { pose proof (conn_step_wp (CallRekey sek t1) s Hok Hk) as Hw. cbn [conn_step] in Hw.
      rewrite E1 in Hw. apply Hw. }
    destruct (run_waits (km_bytes km) _ _ _ _ _ Hrun Hok1) as [Hr' _]; [by rewrite Hst1, Hs|done| |].
    { split; [by rewrite Hready1|by left]. }
    split; [exact Hr'|]. unfold maybe_switch_key. by rewrite Hr'.
  - intros Hle. unfold maybe_switch_key. rewrite Hready, (proj2 (Z.leb_le _ _) Hle). cbn [andb].
    change ((sc_active_keys <$> ((fun crypto => sc_activate crypto (sc_next_flags crypto)) <$> cn_crypto s2))
      = Some (Some (next_key enc salt sek))).
    rewrite Hc3, Hc1. cbn. f_equal. unfold sc_install, sc_next_flags, sc_activate, sc_active_keys.
    by destruct (sc_active sc) eqn:Ea; simpl; rewrite ?Ea.
Qed.

Definition ex_peer : Connection :=
  (ex_connected (Some (ex_enc Aes128 Gcm)) (Some (sc_new_even (ex_keys Gcm)))).

Lemma rotation_never_loses_a_key_witness :
  let s := ex_peer <| cn_rekey_pending := true |> in
  exists s1 kmreq r1, @provide_rekey vec_bytes toy_prims (replicate 16 (u8_of_Z 42)) 10 s = Ret s1 /\
    last (datagrams (cn_outputs s1)) = Some kmreq /\
    @feed_recv_buf vec_bytes toy_prims kmreq 20 ex_peer = Ret r1 /\ covers s1 r1.
Proof.
  cbv zeta. pose proof toy_spec as HP.
  assert (sc_ok (sc_new_even (ex_keys Gcm))) as Hsc by apply sc_new_even_ok, ex_keys_ok.
  destruct (@rotation_never_loses_a_key vec_bytes vec_bytes_spec toy_prims HP
    (ex_peer <| cn_rekey_pending := true |>) ex_peer (ex_enc Aes128 Gcm) (ex_enc Aes128 Gcm)
    (sc_new_even (ex_keys Gcm)) (sc_new_even (ex_keys Gcm)) (replicate 16 (u8_of_Z 42)) 10 20 30 1000)
    as (s1 & kmreq & r1 & kmrsp & s2 & old & new & E1 & E2 & E3 & _ & _ & H & _).
  - apply (conn_ok_core ex_peer); [reflexivity..|]. apply ex_connected_ok. by intros sc [= <-].
  - reflexivity.
  - reflexivity.
  - by vm_compute.
  - by vm_compute.
  - reflexivity.
  - reflexivity.
  - reflexivity.
  - reflexivity.
  - reflexivity.
  - intros sc [= <-]. eexists. split; [reflexivity|done].
  - reflexivity.
  - reflexivity.
  - reflexivity.
  - lia.
  - exists s1, kmreq, r1. split; [exact E1|]. split; [exact E2|]. split; [exact E3|exact H].
Defined.
