(* ===== verification/EndToEnd.v ===== *)
(** * EndToEnd: two connections, two driver tasks, and any network between them

    [SendInv] shows that a sender only emits genuine datagrams, [ReadInv] that a
    receiver fed genuine datagrams delivers a subsequence of the messages.  The
    theorems compose them: first for two connections, then for the two driver
    tasks and the applications behind them. *)

From coqutil Require Import Datatypes.RecordSetters.
From S2P Require Import Prelude Buf Errors Reject Seq LossList Time Timestamp PacketTypes Handshake Control Packet SendBuffer RecvBuffer Fec KeyMaterial Crypto Config Event Fragment ConnState Rekey Arq Setup Conn ConnInv ConnStart Listener Session Delivery Batch Runtime Driver DriverInv DriverRuns Genuine SendInv ReadInv.

(** The fragments the application's messages make, whatever their numbers. *)
Definition fragments_of (max : nat) (ms : list (list byte)) : list Fragment :=
  concat ((fun m => fragment_message max m 0) <$> ms).

Lemma fragment_loop_length fuel max offset payload n n' :
  length (fragment_loop fuel max offset payload n) = length (fragment_loop fuel max offset payload n').
Proof.
  revert offset. induction fuel as [|fuel IH]; intros offset; [done|]. cbn [fragment_loop].
  case_match; [|done]. cbn [length]. f_equal. apply IH.
Qed.

Lemma fragment_message_length max m n n' :
  length (fragment_message max m n) = length (fragment_message max m n').
Proof. unfold fragment_message. case_match; [done|]. apply fragment_loop_length. Qed.

Lemma fragments_of_sublist max ms ms' :
  sublist ms ms' -> (length (fragments_of max ms) <= length (fragments_of max ms'))%nat.
Proof.
  unfold fragments_of. induction 1 as [|m ms ms' H IH|m ms ms' H IH]; [done|..];
    rewrite ?fmap_cons; cbn [concat]; rewrite ?length_app; lia.
Qed.

(** A cut list of messages: the pieces, each in the shape reassembly expects. *)
Lemma cut_pieces max ms L :
  (0 < max)%nat -> cut max ms L ->
  exists fss, L = concat fss /\ Forall2 shaped ms fss /\
    forall k, length (concat (take k fss)) = length (fragments_of max (take k ms)).
Proof.
  intros Hm (fss & H & ->). exists fss. split; [done|]. split.
  - eapply Forall2_impl; [exact H|]. intros m fs (n & ->). by apply fragment_message_shaped.
  - intros k. unfold fragments_of. apply (Forall2_take _ _ _ k) in H.
    induction H as [|m fs ms' fss' (n & ->) _ IH]; [done|].
    rewrite fmap_cons. cbn [concat]. rewrite !length_app, IH. f_equal. apply fragment_message_length.
Qed.

(** ** Where the two ends start *)

Section Ends.
Context {B : BytesApi} {HB : BytesSpec B} {P : CryptoPrims} {HP : CryptoSpec P}.

(** Nothing sent yet, no FEC, no key exchange under way. *)
Record fresh_sender (a : Connection) : Prop := {
  fs_ok : conn_ok a;
  fs_buffer : sb_packets (cn_send_buffer a) = [];
  fs_queue : cn_send_queue a = [];
  fs_fec : cn_fec_send a = None;
  fs_still : still a;
  fs_outputs : Forall harmless_output (cn_outputs a);
  fs_handshake : handshake_harmless a;
}.

(** Nothing received yet; it waits for [s0], or has still to learn it from the
    handshake. *)
Record fresh_receiver (s0 : SeqNumber) (b : Connection) : Prop := {
  fv_base : is_handshaking (cn_state b) = true \/ rb_base (cn_recv_buffer b) = s0;
  fv_buffer : rb_ok (cn_recv_buffer b) /\ rb_slots (cn_recv_buffer b) = [];
  fv_reassembler : cn_reassembler b = ra_new;
  fv_fec : cn_fec_recv b = None;
  fv_still : still b;
  fv_events : payloads (cn_events b) = [];
  fv_dropped : dropped b = 0;
}.

Lemma fresh_flows a r : fresh_sender a -> flows a r [] a.
Proof.
  intros [H1 H2 H3 H4 H5 H6 H7]. exists []. rewrite H3. split; [|done]. constructor; try done.
  - cbn. by rewrite seq_add_0 by by apply next_send_ok.
  - by rewrite H2.
  - by apply harmless_outputs_genuine.
  - destruct (ok_book _ H1) as (_ & _ & _ & H & _). exact H.
Qed.

Lemma fresh_reading b s0 ms fss : seq_ok s0 -> fresh_receiver s0 b -> reading b s0 ms fss [] b.
Proof.
  intros Hs0 [H1 [H2 H2'] H3 H4 H5 H6 H7]. constructor; try done. unfold reading_at. rewrite H3, H6, H7.
  destruct (is_handshaking (cn_state b)) eqn:Eh.
  - right. split; [|done]. intros E. by rewrite E in Eh.
  - left. split; [done|]. exists 0%nat. split; [|apply progress_new].
    destruct H1 as [H1|H1]; [done|]. split; [lia|]. split.
    + unfold place. by rewrite seq_add_0.
    + intros pos q. unfold rb_at. by rewrite H2'.
Qed.

(** A datagram the receiver may see: one of the sender's, however often and in
    whatever order, or one that says nothing about data or keys.  While the
    receiver is in its own handshake, a conclusion must name the sender's number. *)
Definition network (a b : Connection) (sent fed : list (list byte)) : Prop :=
  Forall (fun d => (d ∈ sent \/ harmless d) /\
    (is_handshaking (cn_state b) = true ->
     forall p, packet_decode d = Ok p -> introduces (cn_next_send_seq a) p)) fed.

Definition own_rekey (call : ConnCall) : bool :=
  match call with CallRekey _ _ => true | _ => false end.

Lemma datagrams_genuine r s0 L os d :
  Forall (genuine_output r s0 L) os -> d ∈ datagrams os -> genuine r s0 L d.
Proof.
  intros Hos. unfold datagrams. rewrite list_elem_of_omap. intros ([d'| |] & Ho & [= ->]).
  exact (proj1 (Forall_forall _ _) Hos _ Ho).
Qed.

Lemma faithful_calls a b calls L fss sent :
  L = concat fss -> seq_ok (cn_next_send_seq a) ->
  (forall d, d ∈ sent -> genuine b (cn_next_send_seq a) L d) ->
  network a b sent (snd <$> fed_by calls) ->
  cn_crypto b = None \/ Forall (fun call => own_rekey call = false) calls ->
  Forall (faithful b (cn_next_send_seq a) fss) calls.
Proof.
  intros -> Hs0 Hg. induction calls as [|call calls IH]; intros Hn Hk; constructor.
  - destruct call as [d now|id now|m now|now|sek now| |]; cbn [faithful]; try done.
    + cbn [fed_by omap list_omap] in Hn. rewrite fmap_cons in Hn. cbn [snd] in Hn.
      apply Forall_cons in Hn as [[Hd Hi] _]. split.
      * destruct Hd as [Hd|Hd]; [by apply Hg|by apply harmless_genuine].
      * intros Hh. split; [done|by apply Hi].
    + destruct Hk as [Hk|Hk]; [done|]. by apply Forall_cons in Hk as [Hk _].
  - apply IH.
    + destruct call; try done. cbn [fed_by omap list_omap] in Hn. rewrite fmap_cons in Hn.
      by apply Forall_cons in Hn as [_ Hn].
    + destruct Hk as [Hk|Hk]; [by left|right]. by apply Forall_cons in Hk as [_ Hk].
Qed.

(** The composition: the sender's invariant and the receiver's, over the same
    messages. *)
Lemma ends_meet a b callsA esA osA a' callsB esB osB b' :
  fresh_sender a -> fresh_receiver (cn_next_send_seq a) b -> covers a b ->
  Forall (fixed_keys a) callsA ->
  cn_crypto b = None \/ Forall (fun call => own_rekey call = false) callsB ->
  run a callsA esA osA a' -> run b callsB esB osB b' ->
  network a b (datagrams osA) (snd <$> fed_by callsB) ->
  Z.of_nat (length (fragments_of (max_payload a) (sent_by callsA))) < 0x40000000 ->
  let ms := accepted callsA a in
  exists fss, Forall2 shaped ms fss /\
    (forall k, length (concat (take k fss)) = length (fragments_of (max_payload a) (take k ms))) /\
    Z.of_nat (length (concat fss)) < 0x40000000 /\ flows a b (concat fss) a' /\
    reading b (cn_next_send_seq a) ms fss (payloads esB) b'.
Proof.
  intros Ha Hb Hcov Hk Hkb Hra Hrb Hn Hspan ms.
  pose proof (next_send_ok _ (fs_ok _ Ha)) as Hs0.
  destruct (run_sends a b (ok_crypto _ (fs_ok _ Ha)) Hcov _ _ _ _ _ _ Hra (fresh_flows a b Ha) Hk)
    as (L & Hcut & Hfl & Hos). cbn [app] in Hos, Hfl.
  assert (0 < max_payload a)%nat as Hmax by (unfold max_payload; lia).
  destruct (cut_pieces _ _ _ Hmax Hcut) as (fss & -> & Hshape & Hlen).
  pose proof (fragments_of_sublist (max_payload a) _ _ (accepted_sent callsA a)) as Hle.
  assert (length (concat fss) = length (fragments_of (max_payload a) ms)) as Hall.
  { specialize (Hlen (length fss)). pose proof (Forall2_length _ _ _ Hshape) as El.
    by rewrite firstn_all, take_ge in Hlen by (unfold ms; lia). }
  exists fss. split; [exact Hshape|]. split; [exact Hlen|]. unfold ms in Hall. split; [lia|]. split; [exact Hfl|].
  assert (Forall (faithful b (cn_next_send_seq a) fss) callsB) as Hf.
  { eapply faithful_calls; [done|done| |exact Hn|exact Hkb]. intros d Hd. by eapply datagrams_genuine. }
  exact (run_reads b (cn_next_send_seq a) _ fss Hshape ltac:(lia) _ _ _ _ _ [] Hrb
    (fresh_reading _ _ _ _ Hs0 Hb) Hf).
Qed.

Lemma reading_sent b s0 ms fss out c : reading b s0 ms fss out c -> sublist out ms.
Proof.
  intros Hr. destruct (rd_at _ _ _ _ _ _ Hr) as [(_ & n & _ & Hg)|(_ & _ & _ & Hg & _)].
  - destruct Hg as [Hg _]. apply gathered_sent in Hg. etransitivity; [|exact Hg]. by apply sublist_inserts_r.
  - apply app_eq_nil in Hg as [-> _]. apply sublist_nil_l.
Qed.

(** A receiver that counts no drop has reported the first messages the sender took
    on, all of them up to some point. *)
Lemma ends_exact a b callsA esA osA a' callsB esB osB b' :
  fresh_sender a -> fresh_receiver (cn_next_send_seq a) b -> covers a b ->
  Forall (fixed_keys a) callsA ->
  cn_crypto b = None \/ Forall (fun call => own_rekey call = false) callsB ->
  run a callsA esA osA a' -> run b callsB esB osB b' ->
  network a b (datagrams osA) (snd <$> fed_by callsB) ->
  Z.of_nat (length (fragments_of (max_payload a) (sent_by callsA))) < 0x40000000 ->
  dropped b' = 0 -> prefix (payloads esB) (accepted callsA a).
Proof.
  intros Ha Hb Hcov Hk Hkb Hra Hrb Hn Hspan Hd.
  destruct (ends_meet _ _ _ _ _ _ _ _ _ _ Ha Hb Hcov Hk Hkb Hra Hrb Hn Hspan)
    as (fss & Hshape & _ & _ & _ & Hr).
  destruct (reading_exact b _ _ fss Hshape _ _ Hr) as (k & Hsub & _ & Hle & Hk' & _).
  pose proof (nothing_dropped _ _ _ _ Hsub Hk' Hd Hle) as E.
  rewrite <- (take_drop k (accepted callsA a)), <- E, <- app_assoc. by eexists.
Qed.

Lemma ends_agree a b callsA esA osA a' callsB esB osB b' :
  fresh_sender a -> fresh_receiver (cn_next_send_seq a) b -> covers a b ->
  Forall (fixed_keys a) callsA ->
  cn_crypto b = None \/ Forall (fun call => own_rekey call = false) callsB ->
  run a callsA esA osA a' -> run b callsB esB osB b' ->
  network a b (datagrams osA) (snd <$> fed_by callsB) ->
  Z.of_nat (length (fragments_of (max_payload a) (sent_by callsA))) < 0x40000000 ->
  sublist (payloads esB) (sent_by callsA).
Proof.
  intros Ha Hb Hcov Hk Hkb Hra Hrb Hn Hspan.
  destruct (ends_meet _ _ _ _ _ _ _ _ _ _ Ha Hb Hcov Hk Hkb Hra Hrb Hn Hspan)
    as (fss & _ & _ & _ & _ & Hr).
  etransitivity; [|apply accepted_sent]. by eapply reading_sent.
Qed.
End Ends.

(** ** Both ends from their constructors *)

Section Starts.
Context {B : BytesApi} {HB : BytesSpec B} {P : CryptoPrims} {HP : CryptoSpec P}.

Lemma emit_handshake_fresh dest hs now c :
  cn_outputs c = [] ->
  wlp (emit_handshake dest hs now c) (fun c' => Forall harmless_output (cn_outputs c') /\
    handshake_harmless c' /\ rquiet c c' /\
    (cn_send_buffer c', cn_send_queue c', cn_fec_send c', cn_next_send_seq c', cn_config c', cn_state c')
    = (cn_send_buffer c, cn_send_queue c, cn_fec_send c, cn_next_send_seq c, cn_config c, cn_state c)).
Proof.
  intros Ho. unfold emit_handshake. eapply wlp_bind; [by apply encode_control_harmless|].
  intros d Hd. cbv zeta. cbn [wlp]. split; [|split; [by intros bs [= <-]|split; [quietly|done]]].
  match goal with |- Forall _ (cn_outputs ?c') => assert (cn_outputs c' =
    cn_outputs c ++ [SendDatagram d; SetTimer TiHandshake SYN_INTERVAL]) as -> end.
  { change ((cn_outputs c ++ [SendDatagram d]) ++ [SetTimer TiHandshake SYN_INTERVAL]
      = cn_outputs c ++ [SendDatagram d; SetTimer TiHandshake SYN_INTERVAL]). by rewrite <- app_assoc. }
  rewrite Ho. by repeat constructor.
Qed.

(** A caller may send from the first call on (it is refused until connected). *)
Lemma connect_fresh cfg id isn now rng c :
  stream_id_fits_config cfg -> seq_ok isn -> rng_fills rng -> cfg_fec cfg = None ->
  connect cfg id isn now rng = Ret c ->
  fresh_sender c /\ (forall s0, fresh_receiver s0 c) /\ cn_next_send_seq c = isn /\ cn_config c = cfg.
Proof.
  intros Hs Hq Hr Hf E. pose proof (connect_wp cfg id isn now rng Hs Hq Hr) as Hok. rewrite E in Hok.
  destruct Hok as [Hok _]. unfold connect in E. cbv zeta in E.
  set (b := new_base cfg id isn now Caller StInduction) in *.
  match type of E with (?m ≫= _) = _ => set (m0 := m) in E end.
  assert (wlp m0 (fun c0 => c0 = b <| cn_crypto := cn_crypto c0 |> <| cn_key_material := cn_key_material c0 |>)) as H0.
  { unfold m0. destruct (cfg_encryption (cn_config b)); [|done].
    destruct (sk_generate _ _ _ _) as [[keys km]|]; done. }
  destruct m0 as [c0|]; [|done]. cbn [wlp mbind panicky_bind] in *.
  pose proof (emit_handshake_fresh (socket_id_new 0) (induction_hs c0) now c0) as Hw.
  rewrite H0 in Hw at 1. specialize (Hw eq_refl). change (send_induction now c0 = Ret c) in E.
  unfold send_induction in E. rewrite E in Hw. destruct Hw as (Ho & Hh & Hquiet & Hsame).
  injection Hsame as E1 E2 E3 E4 E5 E6.
  assert (still c) as Hst by (eapply still_keys; [exact Hquiet|by rewrite H0]).
  destruct Hquiet as [Hside _ Hcn (k & Hev & Hk)]. unfold recv_side, keys_of in Hside.
  injection Hside as R1 R2 R3 R4 R5 R6 R7. rewrite H0 in E1, E2, E3, E4, E5, E6, R1, R2, R3, R4, Hev.
  split; [|split; [|split; [exact E4|exact E5]]].
  - constructor; try done; [by rewrite E1|]. rewrite E3. cbn. by rewrite Hf.
  - intros s0. constructor; try done; [by rewrite E6; left|by rewrite R1; split; [apply rb_new_ok|]| |].
    + rewrite R3. cbn. by rewrite Hf.
    + rewrite Hev, payloads_app. by rewrite (payloads_silent k Hk).
Qed.

(** An acceptor starts connected, waiting for the caller's number. *)
Lemma accept_fresh cfg id isn hs now c :
  stream_id_fits_config cfg -> hs_ok hs -> cfg_fec cfg = None ->
  accept cfg id isn hs now = Ok c ->
  fresh_sender c /\ fresh_receiver (hs_initial_seq hs) c /\
  cn_next_send_seq c = hs_initial_seq hs /\ cn_config c = cfg.
Proof.
  intros Hs Hhs Hf E. pose proof (starts_queues c ltac:(by eapply starts_accept)) as [Hok _].
  unfold accept in E. cbv zeta in E.
  destruct (accept_crypto _ _) as [[crypto km]|x|]; [|done..]. cbn [mbind res_bind] in E.
  match type of E with lift (encode_control ?d ?t ?b) ≫= _ = _ =>
    pose proof (encode_control_harmless d t b) as Hd; destruct (encode_control d t b) as [bs|] end; [|done].
  specialize (Hd ltac:(done)). cbn [wlp lift mbind res_bind] in *. injection E as <-.
  split; [|split; [|done]].
  - constructor; try done.
    + cbn. by rewrite Hf.
    + do 4 (apply Forall_app_2; [|by repeat constructor]).
      by repeat constructor.
    + by intros d [= <-].
  - constructor; try done.
    + by right.
    + split; [by apply rb_new_ok, Hhs|done].
    + cbn. by rewrite Hf.
Qed.

(** Without encryption there are no keys. *)
Lemma connect_plain cfg id isn now rng c :
  cfg_encryption cfg = None -> connect cfg id isn now rng = Ret c -> cn_crypto c = None.
Proof.
  intros He. unfold connect. cbv zeta.
  set (b := new_base cfg id isn now Caller StInduction).
  assert (cfg_encryption (cn_config b) = None) as -> by exact He. cbn [mbind panicky_bind]. intros E.
  pose proof (emit_handshake_rquiet (socket_id_new 0) (induction_hs b) now b) as Hw.
  change (send_induction now b = Ret c) in E. unfold send_induction in E. rewrite E in Hw.
  destruct Hw as [Hside _ _ _]. unfold recv_side, keys_of in Hside. by injection Hside.
Qed.

Lemma accept_plain cfg id isn hs now c :
  cfg_encryption cfg = None -> accept cfg id isn hs now = Ok c -> cn_crypto c = None.
Proof.
  intros He. unfold accept, accept_crypto. rewrite He. cbv zeta. destruct (find_raw _ _); [done|].
  cbn [mbind res_bind]. destruct (encode_control _ _ _); [|done]. cbn [lift mbind res_bind].
  by intros [= <-].
Qed.
End Starts.

(** ** The properties *)

(** C1 (safety).  Streams survive a lossy, reordering, repeating network.  Take a
    fresh sender and a fresh receiver without FEC, the receiver holding the
    sender's keys and neither rekeying during the run; let each be driven by any
    other calls whatsoever, and let the network show the receiver the sender's
    datagrams in any order, any number of times, at any time, none of them if it
    likes.  It may mix in datagrams of its own, as long as these hold no data
    packet, no key message and no drop request ([harmless]), and as long as no
    handshake conclusion it shows names another initial number than the sender's
    while the receiver is still in its handshake.  If the messages given to the
    sender make fewer than 2^30 packets, everything the receiver delivers is one
    of them, whole and unaltered, in the order of sending, and no message twice.
    (Drop requests carry no authentication: forged ones could move the delivery
    point through the sequence space, which is why they are excluded.) *)
Theorem messages_survive_any_network {B : BytesApi} {HB : BytesSpec B} {P : CryptoPrims}
  {HP : CryptoSpec P} (a b a' b' : Connection) (callsA callsB : list ConnCall)
  (esA esB : list Event) (osA osB : list Output) :
  fresh_sender a -> fresh_receiver (cn_next_send_seq a) b -> covers a b ->
  Forall (fixed_keys a) callsA ->
  cn_crypto b = None \/ Forall (fun call => own_rekey call = false) callsB ->
  run a callsA esA osA a' -> run b callsB esB osB b' ->
  network a b (datagrams osA) (snd <$> fed_by callsB) ->
  Z.of_nat (length (fragments_of (max_payload a) (sent_by callsA))) < 0x40000000 ->
  sublist (payloads esB) (sent_by callsA).
Proof. apply ends_agree. Qed.

(** Two encrypted ends; the sender sends a message of three packets and two of
    one, across the wrap of the sequence numbers. *)
Definition ex_end : Connection := ex_connected None (Some (sc_new_even (ex_keys Gcm))).
Definition ex_messages : list (list byte) :=
  [replicate 3000 (u8_of_Z 7); [u8_of_Z 1]; [u8_of_Z 2; u8_of_Z 3]].

Definition ex_sender_calls : list ConnCall :=
  ((fun m => CallSend m 5000) <$> ex_messages) ++ replicate 8 CallPollOutput.

Definition ex_wire : list (list byte) :=
  match @run_calls vec_bytes toy_prims ex_sender_calls ex_end with
  | Ret r => datagrams r.1.2 | Panic => [] end.

(** The receiver sees the last message first and twice, two of the first
    message's packets (the third is lost), and the second message. *)
Definition ex_feed (order : list nat) : list ConnCall :=
  (fun i => CallFeed (default [] (ex_wire !! i)) 9000) <$> order.
Definition ex_receiver_calls : list ConnCall :=
  ex_feed [4; 0; 4; 2; 3; 0]%nat ++ [CallTimer TiTsbpd (dur_from_secs 1); CallPollEvent; CallPollEvent; CallPollEvent].

Lemma ex_end_fresh : fresh_sender ex_end /\ fresh_receiver (cn_next_send_seq ex_end) ex_end.
Proof.
  assert (conn_ok ex_end) as Hok.
  { apply ex_connected_ok. intros sc [= <-]. apply sc_new_even_ok, ex_keys_ok. }
  split; constructor; try done; try (by constructor); by right.
Qed.

Lemma ex_sender_run :
  exists es os a', @run vec_bytes toy_prims ex_end ex_sender_calls es os a' /\ datagrams os = ex_wire.
Proof.
  assert (wp (@run_calls vec_bytes toy_prims ex_sender_calls ex_end) (fun r => datagrams r.1.2 = ex_wire)) as H.
  { unfold ex_wire. assert (wp (@run_calls vec_bytes toy_prims ex_sender_calls ex_end) (fun _ => True)) as H
      by by vm_compute.
    by destruct (run_calls ex_sender_calls ex_end). }
  assert (Forall call_ok ex_sender_calls) as Hc by by repeat constructor.
  destruct (run_calls_total _ _ _ Hc H) as (es & os & c' & Hr & Hq). cbn [fst snd] in Hq.
  exists es, os, c'. split; [exact Hr|exact Hq].
Qed.

Lemma ex_receiver_run :
  exists es os b', @run vec_bytes toy_prims ex_end ex_receiver_calls es os b' /\
    payloads es = drop 1 ex_messages.
Proof.
  assert (wp (@run_calls vec_bytes toy_prims ex_receiver_calls ex_end)
    (fun r => payloads r.1.1 = drop 1 ex_messages)) as H by by vm_compute.
  assert (Forall call_ok ex_receiver_calls) as Hc by by repeat constructor.
  destruct (run_calls_total _ _ _ Hc H) as (es & os & c' & Hr & Hq). cbn [fst snd] in Hq.
  exists es, os, c'. split; [exact Hr|exact Hq].
Qed.

Lemma ex_feed_fed order :
  Forall (fun i => (i < 5)%nat) order -> Forall (fun d => d ∈ ex_wire) (snd <$> fed_by (ex_feed order)).
Proof.
  assert (length ex_wire = 5%nat) as Hl by by vm_compute. unfold ex_feed. revert Hl.
  generalize ex_wire as l. intros l Hl. induction 1 as [|i order Hi _ IH]; [constructor|].
  change (Forall (fun d => d ∈ l) (default [] (l !! i) :: (snd <$> fed_by ((fun i => CallFeed (default [] (l !! i)) 9000) <$> order)))).
  constructor; [|exact IH]. rewrite <- Hl in Hi. apply lookup_lt_is_Some_2 in Hi as [x Hx]. rewrite Hx.
  by eapply list_elem_of_lookup_2.
Qed.

Lemma ex_fed : Forall (fun d => d ∈ ex_wire) (snd <$> fed_by ex_receiver_calls).
Proof.
  unfold ex_receiver_calls, fed_by. rewrite omap_app, fmap_app. apply Forall_app_2; [|by constructor].
  apply ex_feed_fed. repeat constructor; lia.
Qed.

Lemma ex_calls_fixed :
  Forall (fixed_keys (B := vec_bytes) ex_end) ex_sender_calls /\
  Forall (fun call => own_rekey call = false) ex_receiver_calls.
Proof.
  split; [|by repeat constructor]. apply Forall_forall. intros call Hc. right.
  apply elem_of_app in Hc as [(m & -> & _)%list_elem_of_fmap|[-> _]%elem_of_replicate]; done.
Qed.

Lemma messages_survive_any_network_witness :
  exists esB osB b', @run vec_bytes toy_prims ex_end ex_receiver_calls esB osB b' /\
    payloads esB = drop 1 ex_messages /\ sublist (payloads esB) (sent_by ex_sender_calls).
Proof.
  destruct ex_end_fresh as [Hs Hr]. destruct ex_calls_fixed as [Hk Hkb].
  assert (covers ex_end ex_end) as Hcov by (intros sc Hsc; by exists sc).
  assert (Z.of_nat (length (fragments_of (max_payload ex_end) (sent_by ex_sender_calls))) < 0x40000000)
    as Hspan by by vm_compute.
  assert (forall l, l = ex_wire -> network (B := vec_bytes) ex_end ex_end l (snd <$> fed_by ex_receiver_calls)) as Hn.
  { intros l ->. eapply Forall_impl; [exact ex_fed|]. intros d Hd. split; [by left|done]. }
  destruct ex_sender_run as (esA & osA & a' & RA & HA).
  destruct ex_receiver_run as (esB & osB & b' & RB & HBr).
  exists esB, osB, b'. split; [exact RB|]. split; [exact HBr|].
  exact (@messages_survive_any_network vec_bytes vec_bytes_spec toy_prims toy_spec ex_end ex_end a' b'
    ex_sender_calls ex_receiver_calls esA esB osA osB Hs Hr Hcov Hk (or_intror Hkb) RA RB (Hn _ HA) Hspan).
Defined.

(** ** Why FEC is excluded *)

Definition ex_fec_end : Connection :=
  new_base (MkConfig (dur_from_millis 120) 1500 8192 None None 0 0 (Some (MkFecConfig 2))
    (dur_from_secs 3) (dur_from_secs 5) (dur_from_secs 3)) ex_caller_id (MkSeq 10) 0 Caller StConnected.
Definition ex_fec_message : list byte := replicate 3000 (u8_of_Z 7).
Definition ex_fec_sender_calls : list ConnCall :=
  CallSend ex_fec_message 5000 :: replicate 8 CallPollOutput.

(** Fragments 0 and 1, their parity, fragment 2. *)
Definition ex_fec_wire : list (list byte) :=
  match @run_calls vec_bytes toy_prims ex_fec_sender_calls ex_fec_end with
  | Ret r => datagrams r.1.2 | Panic => [] end.
Definition ex_fec_receiver_calls : list ConnCall :=
  ((fun i => CallFeed (default [] (ex_fec_wire !! i)) 9000) <$> [1; 2; 3]%nat)
    ++ [CallTimer TiTsbpd (dur_from_secs 1); CallPollEvent; CallPollEvent].

(** With FEC a receiver delivers what nobody sent.  One message in three
    packets, a parity packet after the first two; only the first packet is lost.
    FEC rebuilds its payload, but not its place in the message, and the fragment
    is delivered as a message of its own; the message itself, all of whose bytes
    are there, never is. *)
Theorem fec_recovery_delivers_a_fragment :
  exists esA osA a' esB osB b',
    @run vec_bytes toy_prims ex_fec_end ex_fec_sender_calls esA osA a' /\ datagrams osA = ex_fec_wire /\
    @run vec_bytes toy_prims ex_fec_end ex_fec_receiver_calls esB osB b' /\
    sent_by ex_fec_sender_calls = [ex_fec_message] /\ payloads esB = [take 1456 ex_fec_message].
Proof.
  assert (wp (@run_calls vec_bytes toy_prims ex_fec_sender_calls ex_fec_end)
    (fun r => datagrams r.1.2 = ex_fec_wire)) as HA.
  { unfold ex_fec_wire. assert (wp (@run_calls vec_bytes toy_prims ex_fec_sender_calls ex_fec_end)
      (fun _ => True)) as H by by vm_compute. by destruct (run_calls ex_fec_sender_calls ex_fec_end). }
  assert (wp (@run_calls vec_bytes toy_prims ex_fec_receiver_calls ex_fec_end)
    (fun r => payloads r.1.1 = [take 1456 ex_fec_message])) as HB by by vm_compute.
  assert (Forall call_ok ex_fec_sender_calls) as KA by by repeat constructor.
  assert (Forall call_ok ex_fec_receiver_calls) as KB by by repeat constructor.
  destruct (run_calls_total _ _ _ KA HA) as (esA & osA & a' & RA & DA). cbn [fst snd] in DA.
  destruct (run_calls_total _ _ _ KB HB) as (esB & osB & b' & RB & DB). cbn [fst snd] in DB.
  exists esA, osA, a', esB, osB, b'.
  split; [exact RA|]. split; [exact DA|]. split; [exact RB|]. split; [reflexivity|exact DB].
Qed.

(** ** Two driver tasks *)

Section Tasks.
Context {B : BytesApi} {HB : BytesSpec B} {P : CryptoPrims} {HP : CryptoSpec P}.
Context {K : Type} {HK : AsyncUdpSocket K} {HU : UdpSpec K}.
Context {Chan : Type -> Type} {HMp : Mpsc Chan} {HM : MpscSpec Chan} {HO : HashOrder}.

(** What was on a socket's wire before the task ran carries no data. *)
Definition clean (socket : K) : Prop := Forall harmless (snd <$> wire socket).

Lemma prefix_sublist {A} (l l' : list A) : prefix l l' -> sublist l l'.
Proof using. intros [k ->]. by apply sublist_inserts_r. Qed.

Lemma fragments_of_prefix max ms ms' :
  prefix ms ms' -> (length (fragments_of max ms) <= length (fragments_of max ms'))%nat.
Proof using. intros H. by apply fragments_of_sublist, prefix_sublist. Qed.

(** What task [wB]'s application hears of task [wA]'s: a subsequence of what was
    issued there; and, [calls] being what task [wA] did with its core, the beginning
    of what that core accepted, when the core of [wB] counts no drop. *)
Definition hears (a : Connection) (kA : K) (wA wB : World K Chan) : Prop :=
  sublist (wd_received wB) (messages (wd_issued wA)) /\
  exists calls es os, accounted a (snd <$> wire kA) wA calls es os /\
    (dropped (dr_conn (wd_driver wB)) = 0 -> prefix (wd_received wB) (accepted calls a)).

Lemma tasks_agree rngA rngB a b kA kB oA oB callerA callerB (wA wB : World K Chan) :
  rng_fills rngA -> rng_fills rngB -> starts a -> starts b ->
  fresh_sender a -> fresh_receiver (cn_next_send_seq a) b ->
  cn_crypto a = None -> cn_crypto b = None -> clean kA ->
  rtc (drives rngA) (spawned kA a oA callerA) wA -> rtc (drives rngB) (spawned kB b oB callerB) wB ->
  network a b (sent_wire (wd_driver wA)) (snd <$> wd_arrived wB) ->
  Z.of_nat (length (fragments_of (max_payload a) (messages (wd_issued wA)))) < 0x40000000 ->
  hears a kA wA wB.
Proof using HB HP HM HU.
  intros HrA HrB HsA HsB Ha Hb Hka Hkb Hclean RA RB Hn Hspan.
  destruct (accounted_reachable rngA HrA _ _ _ _ _ (starts_queues _ HsA) RA) as (callsA & esA & osA & A).
  destruct (accounted_reachable rngB HrB _ _ _ _ _ (starts_queues _ HsB) RB) as (callsB & esB & osB & Bc).
  destruct (ac_sent _ _ _ _ _ _ A) as [Hsent _]. destruct (ac_wire _ _ _ _ _ _ A) as [Hwire _].
  destruct (ac_fed _ _ _ _ _ _ Bc) as [Hfed _].
  assert (prefix (sent_by callsA) (messages (wd_issued wA))) as Hpre
    by (etransitivity; [|exact Hsent]; by eexists).
  assert (covers a b) as Hcov by (intros sc; by rewrite Hka).
  assert (Forall (fixed_keys a) callsA) as Hfix by (apply Forall_forall; intros call _; by left).
  assert (network a b (datagrams osA) (snd <$> fed_by callsB)) as Hnet.
  { assert (prefix (snd <$> fed_by callsB) (snd <$> wd_arrived wB)) as [k Hk].
    { destruct Hfed as [k ->]. rewrite !fmap_app, <- app_assoc. by eexists. }
    rewrite Hk in Hn. apply Forall_app in Hn as [Hn _]. eapply Forall_impl; [exact Hn|].
    intros d [[Hd|Hd] Hi]; (split; [|exact Hi]); [|by right].
    destruct Hwire as [k' Hk']. assert (d ∈ (snd <$> wire kA) ++ datagrams osA) as Hd'.
    { rewrite Hk'. apply elem_of_app. by left. }
    apply elem_of_app in Hd' as [Hd'|Hd']; [right|by left].
    exact (proj1 (Forall_forall _ _) Hclean _ Hd'). }
  pose proof (fragments_of_prefix (max_payload a) _ _ Hpre) as Hle.
  pose proof (ac_received _ _ _ _ _ _ Bc) as Hrec. split.
  - etransitivity; [apply prefix_sublist, Hrec|]. etransitivity; [|by apply prefix_sublist].
    eapply ends_agree; [exact Ha|exact Hb|exact Hcov|exact Hfix|by left|apply A|apply Bc|exact Hnet|lia].
  - exists callsA, esA, osA. split; [exact A|]. intros Hd. etransitivity; [exact Hrec|].
    eapply ends_exact; [exact Ha|exact Hb|exact Hcov|exact Hfix|by left|apply A|apply Bc|exact Hnet|lia|exact Hd].
Qed.
End Tasks.

(** C5 (safety).  Two applications, two driver tasks and any network between
    them.  A caller made by [connect] and the acceptor [accept]ed for it, without
    encryption or FEC, each run by its driver task in any interleaving of timers,
    wake-ups, reads and writes; what either task hears is what the other put on
    its wire, in any order and multiplicity, or holds no data packet, no key
    message and no drop request, and while it is in its handshake no conclusion it
    hears names another initial number than the other end's.  Each side's messages
    make fewer than 2^30 packets.  Then, in both directions at once, what an application has read is a subsequence of the
    messages the other application sent: whole, in order, none twice.  And as long
    as the core at its end counts no dropped packet, it is the very beginning of
    what the core at the other end accepted: nothing is missing in between. *)
Theorem applications_agree {B : BytesApi} {HB : BytesSpec B} {P : CryptoPrims} {HP : CryptoSpec P}
  {K : Type} {HK : AsyncUdpSocket K} {HU : UdpSpec K}
  {Chan : Type -> Type} {HMp : Mpsc Chan} {HM : MpscSpec Chan} {HO : HashOrder}
  (rngC rngS : nat -> nat -> list byte) (ccfg scfg : Config) (cid sid : SocketId)
  (isn unused : SeqNumber) (hs : Handshake) (t0 t1 : Instant) (c s : Connection)
  (kC kS : K) (oC oS : option Oneshot) (wC wS : World K Chan) :
  rng_fills rngC -> rng_fills rngS -> stream_id_fits_config ccfg -> stream_id_fits_config scfg ->
  seq_ok isn -> hs_ok hs -> hs_initial_seq hs = isn ->
  cfg_fec ccfg = None -> cfg_fec scfg = None ->
  cfg_encryption ccfg = None -> cfg_encryption scfg = None ->
  connect ccfg cid isn t0 rngC = Ret c -> accept scfg sid unused hs t1 = Ok s ->
  clean kC -> clean kS ->
  rtc (drives rngC) (spawned kC c oC true) wC -> rtc (drives rngS) (spawned kS s oS false) wS ->
  network c s (sent_wire (wd_driver wC)) (snd <$> wd_arrived wS) ->
  network s c (sent_wire (wd_driver wS)) (snd <$> wd_arrived wC) ->
  Z.of_nat (length (fragments_of (max_payload c) (messages (wd_issued wC)))) < 0x40000000 ->
  Z.of_nat (length (fragments_of (max_payload s) (messages (wd_issued wS)))) < 0x40000000 ->
  hears c kC wC wS /\ hears s kS wS wC.
Proof.
  intros HrC HrS HsC HsS Hq Hhs Hisn Hfc Hfs Hec Hes Ec Es HkC HkS RC RS HnS HnC HbC HbS.
  destruct (connect_fresh ccfg cid isn t0 rngC c) as (Fc & Rc & Nc & Cc); [done..|].
  destruct (accept_fresh scfg sid unused hs t1 s) as (Fs & Rs & Ns & Cs); [done..|].
  assert (starts c) as Sc by (eapply starts_connect; [exact HsC|exact Hq|exact HrC|exact Ec]).
  assert (starts s) as Ss by (eapply starts_accept; [exact HsS|exact Hhs|exact Es]).
  pose proof (connect_plain _ _ _ _ _ _ Hec Ec) as Kc. pose proof (accept_plain _ _ _ _ _ _ Hes Es) as Ks.
  rewrite Hisn, <- Nc in Rs. split.
  - by apply (tasks_agree rngC rngS c s kC kS oC oS true false).
  - by apply (tasks_agree rngS rngC s c kS kC oS oC false true).
Qed.

(** A session on concrete inputs: handshake, a message each way, a duplicated
    datagram, delivery after the latency. *)
Definition at_ms (n : Z) : Instant := dur_from_millis n.
Definition ex_hear (d : list byte) (now : Instant) : list Action :=
  [AcWake now (WkSocket (inr (d, length d, length d, ex_addr)) now); AcHead ex_addr now].
Definition ex_say (m : list byte) (now : Instant) : list Action :=
  [AcIssue (CmdSend m); AcWake now (WkCommand now); AcHead ex_addr now].

Abbreviation ex_acts := (@acts vec_bytes toy_prims LogSocket _ ChanState _ chan_state_spec key_order ex_rng).
Definition ex_wire_of (l : list Action) (w : World LogSocket ChanState) : list (list byte) :=
  match ex_acts l w with Some w => sent_wire (wd_driver w) | None => [] end.
Definition ex_caller_wire (l : list Action) : list (list byte) :=
  match ex_caller with Ret c => ex_wire_of l (ex_world c) | Panic => [] end.

(** The induction, the listener's response, the conclusion it asks for. *)
Definition ex_d1 : list byte := Eval vm_compute in
  default [] (ex_caller_wire [AcHead ex_addr 0] !! 0%nat).
Definition ex_d2 : list byte := Eval vm_compute in
  match @ln_feed_recv_buf vec_bytes toy_prims ex_d1 ex_addr (at_ms 1) (ex_listener None) with
  | Ret l => default [] (snd <$> last (ln_responses l)) | Panic => [] end.
Definition ex_greets : list Action := AcHead ex_addr 0 :: ex_hear ex_d2 (at_ms 2).
Definition ex_d3 : list byte := Eval vm_compute in default [] (ex_caller_wire ex_greets !! 1%nat).
Definition ex_hs : Handshake := Eval vm_compute in
  match packet_decode ex_d3 with
  | Ok (PControl (MkControl _ _ (CbHandshake hs))) => hs | _ => ex_handshake end.

Definition ex_acceptor : res ConnectionError Connection :=
  @accept vec_bytes toy_prims (ex_config None 250) ex_listener_id (MkSeq 900) ex_hs (at_ms 3).
Definition ex_accepted (s : Connection) : World LogSocket ChanState := spawned ex_log s None false.
Definition ex_acceptor_wire (l : list Action) : list (list byte) :=
  match ex_acceptor with Ok s => ex_wire_of l (ex_accepted s) | _ => [] end.

Definition ex_d4 : list byte := Eval vm_compute in
  default [] (ex_acceptor_wire [AcHead ex_addr (at_ms 3)] !! 0%nat).
Definition ex_speaks : list Action :=
  ex_greets ++ ex_hear ex_d4 (at_ms 4) ++ ex_say [u8_of_Z 7] (at_ms 5).
Definition ex_d5 : list byte := Eval vm_compute in default [] (ex_caller_wire ex_speaks !! 2%nat).

Definition ex_acceptor_acts : list Action :=
  [AcHead ex_addr (at_ms 3); AcArrive (at_ms 6, ex_d5); AcArrive (at_ms 6, ex_d5);
   AcWake (at_ms 6) WkInbound; AcHead ex_addr (at_ms 6);
   AcWake (at_ms 7) WkInbound; AcHead ex_addr (at_ms 7);
   AcWake (at_ms 500) WkTimer; AcHead ex_addr (at_ms 500); AcReceive] ++ ex_say [u8_of_Z 9] (at_ms 502).
Definition ex_d6 : list byte := Eval vm_compute in default [] (last (ex_acceptor_wire ex_acceptor_acts)).
Definition ex_caller_acts : list Action :=
  ex_speaks ++ ex_hear ex_d6 (at_ms 503) ++ [AcWake (at_ms 900) WkTimer; AcHead ex_addr (at_ms 900); AcReceive].

(** What the witness needs of a task that ran. *)
Definition ex_outcome (received issued arrived wire : list (list byte)) (w : World LogSocket ChanState) : Prop :=
  wd_received w = received /\ messages (wd_issued w) = issued /\ snd <$> wd_arrived w = arrived /\
  Forall (fun d => d ∈ sent_wire (wd_driver w)) wire.

Lemma ex_caller_ran : exists c w, ex_caller = Ret c /\ rtc (@drives vec_bytes toy_prims _ _ _ _ chan_state_spec key_order ex_rng) (ex_world c) w /\
  max_payload c = 1456%nat /\ cn_next_send_seq c = MkSeq 5 /\
  ex_outcome [[u8_of_Z 9]] [[u8_of_Z 7]] [ex_d2; ex_d4; ex_d6] [ex_d5] w.
Proof.
  assert (match ex_caller with Ret c => (max_payload c = 1456%nat /\ cn_next_send_seq c = MkSeq 5) /\
    match ex_acts ex_caller_acts (ex_world c) with
    | Some w => ex_outcome [[u8_of_Z 9]] [[u8_of_Z 7]] [ex_d2; ex_d4; ex_d6] [ex_d5] w | None => False end
    | Panic => False end) as H.
  { unfold ex_outcome. vm_compute. split; [done|]. split_and!; [done..|]. repeat constructor. }
  destruct ex_caller as [c|]; [|done]. destruct H as [[H1 H2] H].
  apply acts_total in H as (w & Hr & Hw). by exists c, w.
Qed.

Lemma ex_acceptor_ran : exists s w, ex_acceptor = Ok s /\ rtc (@drives vec_bytes toy_prims _ _ _ _ chan_state_spec key_order ex_rng) (ex_accepted s) w /\
  max_payload s = 1456%nat /\ cn_next_send_seq s = MkSeq 5 /\ is_handshaking (cn_state s) = false /\
  ex_outcome [[u8_of_Z 7]] [[u8_of_Z 9]] [ex_d5; ex_d5] [ex_d4; ex_d6] w.
Proof.
  assert (match ex_acceptor with
    | Ok s => (max_payload s = 1456%nat /\ cn_next_send_seq s = MkSeq 5 /\ is_handshaking (cn_state s) = false) /\
      match ex_acts ex_acceptor_acts (ex_accepted s) with
      | Some w => ex_outcome [[u8_of_Z 7]] [[u8_of_Z 9]] [ex_d5; ex_d5] [ex_d4; ex_d6] w | None => False end
    | _ => False end) as H.
  { unfold ex_outcome. vm_compute. split; [done|]. split_and!; [done..|]. repeat constructor. }
  destruct ex_acceptor as [s| |]; [|done..]. destruct H as [(H1 & H2 & H3) H].
  apply acts_total in H as (w & Hr & Hw). by exists s, w.
Qed.

Lemma ex_hs_ok : hs_ok ex_hs.
Proof.
  destruct (@packet_decode_total vec_bytes vec_bytes_spec ex_d3) as [(p & E & Hp)|[x E]];
    vm_compute in E; [|done]. injection E as <-. exact (proj2 (proj2 Hp)).
Qed.

Lemma ex_introduces : Forall (fun d => forall p, @packet_decode vec_bytes d = Ok p -> introduces (MkSeq 5) p)
  [ex_d2; ex_d4; ex_d6].
Proof. repeat constructor; intros p E; vm_compute in E; by injection E as <-. Qed.

Lemma ex_d2_harmless : harmless (B := vec_bytes) ex_d2.
Proof. intros p E. vm_compute in E. by injection E as <-. Qed.

Lemma applications_agree_witness :
  exists (wC wS : World LogSocket ChanState),
    wd_received wS = [[u8_of_Z 7]] /\ wd_received wC = [[u8_of_Z 9]] /\
    exists c s, hears (P := toy_prims) c ex_log wC wS /\ hears (P := toy_prims) s ex_log wS wC.
Proof.
  destruct ex_caller_ran as (c & wC & Ec & RC & Mc & Nc & A1 & A2 & A3 & A4).
  destruct ex_acceptor_ran as (s & wS & Es & RS & Ms & Ns & Hs & O1 & O2 & O3 & O4).
  exists wC, wS. split; [exact O1|]. split; [exact A1|]. exists c, s.
  assert (clean (K := LogSocket) ex_log) as Hclean by constructor.
  assert (forall enc ms, stream_id_fits_config (ex_config enc ms)) as Hfit
    by (intros enc ms x [= <-]; apply ex_stream_ok).
  assert (network c s (sent_wire (wd_driver wC)) (snd <$> wd_arrived wS)) as HnS.
  { rewrite O3. apply Forall_cons in A4 as [A4 _].
    assert (forall p : Prop, is_handshaking (cn_state s) = true -> p) as Hno by by rewrite Hs.
    constructor; [|constructor; [|constructor]]; (split; [by left|exact (Hno _)]). }
  assert (network s c (sent_wire (wd_driver wS)) (snd <$> wd_arrived wC)) as HnC.
  { rewrite A3. pose proof ex_introduces as Hi. rewrite <- Ns in Hi.
    apply Forall_cons in Hi as [I2 Hi]. apply Forall_cons in Hi as [I4 Hi]. apply Forall_cons in Hi as [I6 _].
    apply Forall_cons in O4 as [O4 O6]. apply Forall_cons in O6 as [O6 _].
    constructor; [split; [right; exact ex_d2_harmless|by intros _]|].
    constructor; [split; [by left|by intros _]|]. constructor; [split; [by left|by intros _]|constructor]. }
  refine (@applications_agree vec_bytes vec_bytes_spec toy_prims toy_spec _ _ log_socket_spec _ _
    chan_state_spec key_order ex_rng ex_rng (ex_config None 120) (ex_config None 250) ex_caller_id
    ex_listener_id (MkSeq 5) (MkSeq 900) ex_hs 0 (at_ms 3) c s ex_log ex_log (Some 1%nat) None wC wS
    ex_rng_fills ex_rng_fills (Hfit _ _) (Hfit _ _) _ ex_hs_ok eq_refl eq_refl eq_refl eq_refl eq_refl
    Ec Es Hclean Hclean RC RS HnS HnC _ _).
  - by vm_compute.
  - rewrite Mc, A2. by vm_compute.
  - rewrite Ms, O2. by vm_compute.
Defined.
