(* ===== verification/Repair.v ===== *)
(** * Repair: one loss report restores what the network lost

    The receiver's NAK timer reports its gaps, the sender resends the packets the
    report names, and these close the gaps.  Part one follows a packet into the
    receive buffer and shows that nothing an arrival does takes it out again
    except delivery; part two follows the report through the sender; the theorem
    puts the exchange together on top of any run of [EndToEnd]. *)

From coqutil Require Import Datatypes.RecordSetters.
From S2P Require Import Prelude Buf Errors Reject Seq LossList Time Timestamp Rtt PacketTypes Handshake Control Packet SendBuffer RecvBuffer Fec KeyMaterial Crypto Config Event Fragment ConnState Rekey Arq Setup Conn ConnInv ConnStart Listener Session Delivery Sending Receiving DriverInv DriverRuns Genuine SendInv ReadInv EndToEnd.

(** ** What an arrival does to the receive buffer *)

Section Arrival.
Context {B : BytesApi} {HB : BytesSpec B} {P : CryptoPrims}.

(** The state and the buffer are left alone. *)
Definition same_buffer (c c' : Connection) : Prop :=
  cn_state c' = cn_state c /\ cn_recv_buffer c' = cn_recv_buffer c.

#[local] Instance same_buffer_preorder : PreOrder same_buffer.
Proof. split; [done|]. intros c1 c2 c3 [A1 A2] [B1 B2]. split; congruence. Qed.

(** Delivery took the buffer's first positions. *)
Definition delivers (c c' : Connection) : Prop :=
  cn_state c' = cn_state c /\ exists m, (m <= length (rb_slots (cn_recv_buffer c)))%nat /\
    cn_recv_buffer c' = past (cn_recv_buffer c) m.

Lemma delivers_nothing c c' : rb_ok (cn_recv_buffer c) -> same_buffer c c' -> delivers c c'.
Proof. intros Hok [H1 H2]. split; [done|]. exists 0%nat. split; [lia|]. by rewrite past_0. Qed.

Lemma emit_control_same body now c : wlp (emit_control body now c) (same_buffer c).
Proof.
  unfold emit_control. apply (wlp_bind _ _ (fun _ => True)); [by destruct (encode_control _ _ _)|].
  by intros d _.
Qed.

Lemma report_loss_same now c : wlp (report_loss now c) (same_buffer c).
Proof.
  unfold report_loss. case_match; [|by case_match]. cbv zeta. case_match; [|done].
  apply (wlp_chain same_buffer); [|by intros c' _].
  unfold send_nak. cbv zeta.
  apply (wlp_bind _ _ (fun _ => True)); [by destruct (encode_control _ _ _)|]. by intros d _.
Qed.

Lemma deliver_loop_delivers fuel now c :
  rb_ok (cn_recv_buffer c) -> wlp (deliver_loop fuel now c) (delivers c).
Proof.
  revert c. induction fuel as [|fuel IH]; intros c Hok; cbn [deliver_loop]; [done|].
  destruct (rb_peek (cn_recv_buffer c)) as [[q ts]|] eqn:E; [|by apply delivers_nothing].
  destruct (tsbpd_play_time c ts) as [t|]; [|by apply delivers_nothing].
  case_match; [by apply delivers_nothing|].
  destruct (rb_peek_earliest _ _ _ Hok E) as (pos & p & He & _ & _).
  assert (cn_state (deliver_one c) = cn_state c /\
    cn_recv_buffer (deliver_one c) = past (cn_recv_buffer c) (S pos)) as [Hs Hb].
  { unfold deliver_one. rewrite (rb_pop_earliest _ _ _ Hok He). cbv zeta.
    destruct (ra_push _ p) as [[m|] ra]; by split. }
  assert (pos < length (rb_slots (cn_recv_buffer c)))%nat as Hpos.
  { destruct He as [He _]. unfold rb_at in He.
    destruct (rb_slots _ !! pos) eqn:El; [|done]. by apply lookup_lt_Some in El. }
  eapply wlp_mono; [apply IH; rewrite Hb; by apply rb_skip_ok|].
  intros c' [Hs' (m & Hm & Hr)]. split; [congruence|]. exists (S pos + m)%nat. split.
  - rewrite Hb in Hm. cbn [past rb_slots] in Hm. rewrite length_drop in Hm. lia.
  - by rewrite Hr, Hb, past_past.
Qed.

Lemma after_insert_delivers data now c :
  rb_ok (cn_recv_buffer c) -> wlp (after_insert data now c) (delivers c).
Proof.
  intros Hok. unfold after_insert. cbv zeta.
  match goal with |- wlp (deliver_tsbpd now ?c' ≫= _) _ => assert (same_buffer c c') as [Hs Hb]; [|set (c1 := c') in *] end.
  { unfold sample_drift, anchor_tsbpd, track_reorder. repeat case_match; by split. }
  clearbody c1. eapply wlp_bind.
  { apply deliver_loop_delivers. by rewrite Hb. }
  intros c2 [Hs2 H2].
  match goal with |- context [if _ then send_light_ack now ?c' else _] => set (c3 := c') end.
  assert (same_buffer c2 c3) as H3 by done. clearbody c3.
  match goal with |- wlp ?m _ => assert (wlp m (same_buffer c3)) as H4 end.
  { apply (wlp_chain same_buffer); [|intros c4 _; apply report_loss_same]. case_match; [|done].
    unfold send_light_ack. cbv zeta.
    match goal with |- wlp (emit_control _ _ ?c') _ => apply (wlp_from same_buffer c3 c'); [done|] end.
    apply emit_control_same. }
  eapply wlp_mono; [exact H4|].
  intros c4 [Hs4 Hb4]. destruct H3 as [Hs3 Hb3]. split; [congruence|].
  by rewrite Hb4, Hb3, <- Hb.
Qed.
End Arrival.

(** ** A packet that has arrived stays until it is delivered *)

Section Covers.
Context {B : BytesApi} {HB : BytesSpec B} {P : CryptoPrims}.
Context (b : Connection) (s0 : SeqNumber) (ms : list (list byte)) (fss : list (list Fragment)).
Context (Hshape : Forall2 shaped ms fss).
Context (Hspan : Z.of_nat (length (concat fss)) < 0x40000000).

Abbreviation L := (concat fss).
Abbreviation place := (place s0).
Abbreviation tracks := (tracks s0 fss).
Abbreviation reading := (reading b s0 ms fss).

(** Fragment [i] is held, or behind the delivery point. *)
Definition covered (i : nat) (rb : RecvBuffer) : Prop :=
  exists n, tracks rb n /\ ((i < n)%nat \/ is_Some (rb_at rb (i - n))).

Lemma tracks_length rb n : rb_ok rb -> tracks rb n -> (n + length (rb_slots rb) <= length L)%nat.
Proof.
  intros Hok (Hn & _ & Hat). destruct (length (rb_slots rb)) as [|l] eqn:El; [lia|].
  destruct (rb_back_present rb Hok ltac:(lia)) as [p Hp].
  destruct (Hat _ _ Hp) as (f & Hf & _). apply lookup_lt_Some in Hf. lia.
Qed.

Lemma tracks_unique rb n n' : tracks rb n -> tracks rb n' -> n = n'.
Proof.
  intros (Hn & Hb & _) (Hn' & Hb' & _). rewrite Hb in Hb'. apply seq_add_inj in Hb'; lia.
Qed.

Lemma covered_past i rb m :
  rb_ok rb -> (m <= length (rb_slots rb))%nat -> covered i rb -> covered i (past rb m).
Proof.
  intros Hok Hm (n & Ht & Hc). pose proof (tracks_length _ _ Hok Ht) as Hl.
  exists (n + m)%nat. split; [apply tracks_skip; [exact Ht|lia]|].
  destruct (Nat.lt_ge_cases i (n + m)); [by left|right].
  destruct Hc as [Hc|Hc]; [lia|]. unfold past. rewrite rb_at_drop.
  by replace (m + (i - (n + m)))%nat with (i - n)%nat by lia.
Qed.

Lemma covered_insert j rb q i ins rb' n :
  rb_ok rb -> tracks rb n -> tracks rb' n -> dp_seq q = place i -> (i < length L)%nat ->
  rb_insert rb q = (ins, rb') ->
  covered i rb' /\ (covered j rb -> covered j rb').
Proof.
  intros Hok Ht Ht' Hs Hi E. pose proof Ht as (Hn & Hb & _).
  assert (offset_from (dp_seq q) (rb_base rb) = Z.of_nat i - Z.of_nat n) as Hoff.
  { rewrite Hs, Hb. apply (place_offset s0 fss); [done|lia..]. }
  destruct (Nat.lt_ge_cases i n) as [Hlt|Hge].
  { rewrite rb_insert_stale in E by lia. injection E as <- <-. split; [|done].
    exists n. split; [done|by left]. }
  assert (offset_from (dp_seq q) (rb_base rb) = Z.of_nat (i - n)) as Hk by lia.
  destruct (rb_insert_cases _ q _ Hk) as [(q' & Hq' & E')|[Hnone E']].
  { rewrite E' in E. injection E as <- <-. split; [|done]. exists n. split; [done|]. right. by eexists. }
  assert (forall pos, rb_at rb' pos = if decide (pos = (i - n)%nat) then Some q else rb_at rb pos) as Hat.
  { intros pos. pose proof (rb_insert_at rb q _ pos Hk Hnone) as H. by rewrite E in H. }
  split.
  - exists n. split; [done|]. right. rewrite Hat, decide_True by done. by eexists.
  - intros (n' & Hn' & Hc). rewrite (tracks_unique _ _ _ Hn' Ht) in Hc. exists n. split; [done|].
    destruct Hc as [Hc|Hc]; [by left|right]. rewrite Hat. case_decide; [by eexists|done].
Qed.

(** Nothing that was covered gets lost, and the delivery point does not go back. *)
Definition onward (rb rb' : RecvBuffer) : Prop :=
  (forall j, covered j rb -> covered j rb') /\
  forall n, tracks rb n -> exists n', tracks rb' n' /\ (n <= n')%nat.

#[local] Instance onward_preorder : PreOrder onward.
Proof.
  split; [split; [done|]; intros n Hn; by exists n|].
  intros rb1 rb2 rb3 [A1 A2] [B1 B2]. split; [auto|]. intros n Hn.
  destruct (A2 n Hn) as (n1 & H1 & Hle1). destruct (B2 n1 H1) as (n2 & H2 & Hle2). exists n2. split; [done|lia].
Qed.

Lemma onward_past rb m : rb_ok rb -> (m <= length (rb_slots rb))%nat -> onward rb (past rb m).
Proof.
  intros Hok Hm. split; [intros j; by apply covered_past|]. intros n Hn.
  pose proof (tracks_length _ _ Hok Hn). exists (n + m)%nat. split; [apply tracks_skip; [exact Hn|lia]|lia].
Qed.

Lemma insert_data_covers d i now c out :
  reading out c -> cn_state c = StConnected -> available_recv_buffer c <> 0 ->
  (exists f q, L !! i = Some f /\ dp_seq d = place i /\ decrypt_data d b = Ret (Some q) /\
     dp_seq q = dp_seq d /\ dp_position q = fg_position f /\ dp_payload q = fg_payload f) ->
  wlp (insert_data d now c) (fun c' => cn_state c' = StConnected /\
    covered i (cn_recv_buffer c') /\ onward (cn_recv_buffer c) (cn_recv_buffer c')).
Proof.
  intros Hr Hst Hroom (f & q & Hf & Hs & Hd & Hqs & Hqp & Hql). unfold insert_data.
  rewrite (proj2 (Z.eqb_neq _ _) Hroom).
  rewrite (decrypt_data_crypto d c b (rd_crypto _ _ _ _ _ _ Hr)), Hd. cbn [mbind panicky_bind].
  destruct (rb_insert _ q) as [ins rb] eqn:Ei. cbv zeta.
  assert (dp_seq q = place i) as Hqi by congruence.
  assert (reading out (c <| cn_recv_buffer := rb |>)) as Hr1.
  { eapply (insert_reading b s0 ms fss Hspan); [done|done|exact Hqi|by exists f|exact Ei]. }
  destruct (rd_at _ _ _ _ _ _ Hr) as [(_ & n & Ht & _)|[? _]]; [|done].
  assert (tracks rb n) as Ht1.
  { destruct (rd_at _ _ _ _ _ _ Hr1) as [(_ & n1 & Ht1 & _)|[? _]]; [|done].
    change (tracks rb n1) in Ht1. pose proof (rb_insert_base (cn_recv_buffer c) q) as Hb. rewrite Ei in Hb.
    assert (n1 = n) as ->; [|done].
    destruct Ht as (Hn & Hb0 & _), Ht1 as (Hn1 & Hb1 & _). cbn [snd] in Hb. rewrite Hb1, Hb0 in Hb.
    apply seq_add_inj in Hb; lia. }
  assert (covered i rb /\ onward (cn_recv_buffer c) rb) as [Hci Hcj].
  { apply lookup_lt_Some in Hf. split; [|split].
    - exact (proj1 (covered_insert i _ _ _ _ _ _ (rd_ok _ _ _ _ _ _ Hr) Ht Ht1 Hqi Hf Ei)).
    - intros j. exact (proj2 (covered_insert j _ _ _ _ _ _ (rd_ok _ _ _ _ _ _ Hr) Ht Ht1 Hqi Hf Ei)).
    - intros n' Hn'. rewrite (tracks_unique _ _ _ Hn' Ht). by exists n. }
  pose proof (rd_ok _ _ _ _ _ _ Hr1) as Hok1. change (rb_ok rb) in Hok1.
  destruct (negb ins); [by cbn [wlp]|].
  eapply wlp_mono; [by apply after_insert_delivers|]. intros c' [Hs' (m & Hm & Hrb)].
  split; [by rewrite Hs'|]. rewrite Hrb. cbn. split; [by apply covered_past|].
  etransitivity; [exact Hcj|by apply onward_past].
Qed.

(** The same for the datagram that carries the fragment. *)
Definition carries (i : nat) (d : list byte) : Prop :=
  exists p f q, packet_decode d = Ok (PData p) /\ L !! i = Some f /\ dp_seq p = place i /\
    decrypt_data p b = Ret (Some q) /\ dp_seq q = dp_seq p /\ dp_position q = fg_position f /\
    dp_payload q = fg_payload f.

Lemma carries_genuine i d : carries i d -> genuine b s0 L d.
Proof.
  intros (p & f & q & Hd & H1 & H2 & H3 & H4) p' Hp. rewrite Hd in Hp. injection Hp as <-.
  by exists i, f, q.
Qed.

Lemma feed_covers d i now c out :
  reading out c -> cn_state c = StConnected -> available_recv_buffer c <> 0 -> carries i d ->
  wlp (conn_step (CallFeed d now) c) (fun c' => reading out c' /\ cn_state c' = StConnected /\
    covered i (cn_recv_buffer c') /\ onward (cn_recv_buffer c) (cn_recv_buffer c')).
Proof.
  intros Hr Hst Hroom Hc. apply wlp_and.
  - apply (feed_reading b s0 ms fss Hshape Hspan); [done|by eapply carries_genuine|].
    intros Hh. by rewrite Hst in Hh.
  - cbn [conn_step]. destruct Hc as (p & f & q & Hd & Hc). unfold feed_recv_buf. rewrite Hd. cbv zeta.
    rewrite Hst. cbn [is_connected]. set (c1 := c <| cn_last_recv_any := now |>).
    assert (reading out c1) as Hr1.
    { revert Hr. apply rquiet_rkeeps. unfold c1. quietly. }
    change (cn_state c1) with (cn_state c). rewrite Hst. cbn [on_connected_packet]. unfold on_data.
    change (cn_fec_recv c1) with (cn_fec_recv c). rewrite (rd_fec _ _ _ _ _ _ Hr). eapply wlp_mono.
    + eapply (insert_data_covers p i now c1); [exact Hr1|done|done|by exists f, q].
    + done.
Qed.

(** Datagrams arriving one after the other while the receive window has room. *)
Fixpoint roomy (arrivals : list (list byte * Instant)) (c : Connection) : Prop :=
  match arrivals with
  | [] => True
  | (d, now) :: rest => available_recv_buffer c <> 0 /\
      match conn_step (CallFeed d now) c with Ret c' => roomy rest c' | Panic => True end
  end.

Definition feeds (arrivals : list (list byte * Instant)) : list ConnCall :=
  (fun a => CallFeed a.1 a.2) <$> arrivals.

Lemma feeds_cover arrivals c out es os c' :
  reading out c -> cn_state c = StConnected -> roomy arrivals c ->
  Forall (fun a => exists i, carries i a.1) arrivals ->
  run c (feeds arrivals) es os c' ->
  reading out c' /\ cn_state c' = StConnected /\
  onward (cn_recv_buffer c) (cn_recv_buffer c') /\
  forall d i, d ∈ arrivals.*1 -> carries i d -> covered i (cn_recv_buffer c').
Proof.
  revert c es os. induction arrivals as [|[d now] rest IH]; intros c es os Hr Hst Hroom Hall Hrun.
  { inversion Hrun; subst. split; [done|]. split; [done|]. split; [done|]. intros d i Hd.
    by apply not_elem_of_nil in Hd. }
  apply Forall_cons in Hall as [[i Hi] Hall]. destruct Hroom as [Hav Hroom].
  inversion Hrun as [|? ? c1 ? es' os' ? _ Hstep Hrest]; subst. cbn [fst snd] in *.
  rewrite Hstep in Hroom.
  pose proof (feed_covers d i now c out Hr Hst Hav Hi) as Hw. rewrite Hstep in Hw.
  destruct Hw as (Hr1 & Hst1 & Hi1 & Hj1).
  destruct (IH _ _ _ Hr1 Hst1 Hroom Hall Hrest) as (Hr2 & Hst2 & Hj2 & Hd2).
  split; [done|]. split; [done|]. split; [by etransitivity|]. intros d' i' [->|Hd']%elem_of_cons Hc'; [|by eapply Hd2].
  apply Hj2. pose proof (feed_covers d i' now c out Hr Hst Hav Hc') as Hw'. rewrite Hstep in Hw'.
  by destruct Hw' as (_ & _ & Hw' & _).
Qed.
End Covers.

(** ** The report *)

Section Report.
Context {B : BytesApi} {HB : BytesSpec B} {P : CryptoPrims} {HP : CryptoSpec P}.

Definition report_of (c : Connection) : list (SeqNumber * SeqNumber) :=
  rb_missing_aged (cn_recv_buffer c) (cn_reorder_tolerance c).

Lemma tolerance_small c : conn_ok c -> 0 <= cn_reorder_tolerance c < 0x40000000.
Proof.
  intros Hok. destruct (ok_book _ Hok) as (_ & H & _). unfold bookkeeping, MAX_REORDER_TOLERANCE in H.
  cbn [fst snd] in H. lia.
Qed.

Lemma report_ranges_ok c : conn_ok c -> Forall range_ok ((fun r => range_new r.1 r.2) <$> report_of c).
Proof.
  intros Hok. unfold report_of. rewrite rb_missing_aged_gaps by (apply Hok || by apply tolerance_small).
  apply Forall_forall. intros r ([s e] & -> & ([s' e'] & Hg & _)%list_elem_of_fmap)%list_elem_of_fmap.
  injection Hg as -> ->. split; apply seq_add_ok.
Qed.

(** The NAK timer may speak: no report went out within the retransmission time-out. *)
Definition nak_allowed (now : Instant) (c : Connection) : Prop :=
  match cn_last_nak c with Some at_ => rtt_rto (cn_rtt c) <= since now at_ | None => True end.

Lemma nak_timer_reports now c :
  conn_ok c -> cn_state c = StConnected -> nak_allowed now c -> report_of c <> [] ->
  exists c' nak ts dest, conn_step (CallTimer TiNak now) c = Ret c' /\
    cn_outputs c' = cn_outputs c ++ [SetTimer TiNak (nak_interval c); SendDatagram nak] /\
    packet_decode nak = Ok (PControl (MkControl ts dest
      (CbNak ((fun r => range_new r.1 r.2) <$> report_of c)))) /\
    same_buffer c c'.
Proof.
  intros Hok Hst Hallow Hne. cbn [conn_step handle_timer]. unfold on_nak_timer. rewrite Hst. cbn [is_connected negb].
  cbv zeta. set (c1 := push_output _ c).
  assert ((match cn_last_nak c1 with Some at_ => since now at_ <? rtt_rto (cn_rtt c1) | None => false end)
    = false) as ->.
  { change (cn_last_nak c1) with (cn_last_nak c). change (cn_rtt c1) with (cn_rtt c).
    unfold nak_allowed in Hallow. destruct (cn_last_nak c); [|done]. by apply Z.ltb_ge. }
  change (rb_missing_aged (cn_recv_buffer c1) (cn_reorder_tolerance c1)) with (report_of c).
  rewrite bool_decide_true by done. unfold send_nak.
  destruct (encode_control_decodes (cn_peer_socket_id c1) (wire_ts c1 now)
    (CbNak ((fun r => range_new r.1 r.2) <$> report_of c))) as (nak & E & Hd).
  - by apply (ok_book _ Hok).
  - apply wire_ts_ok.
  - by apply report_ranges_ok.
  - cbv zeta. rewrite E. cbn [mbind panicky_bind]. eexists _, nak, _, _. split; [done|]. split; [|by split].
    change ((cn_outputs c ++ [SetTimer TiNak (nak_interval c)]) ++ [SendDatagram nak] =
      cn_outputs c ++ [SetTimer TiNak (nak_interval c); SendDatagram nak]). by rewrite <- app_assoc.
Qed.

(** ** Its answer *)

Lemma retransmit_range_rtt start stop now c :
  wlp (retransmit_range start stop now c) (fun c' => cn_rtt c' = cn_rtt c).
Proof.
  unfold retransmit_range. destruct (sb_first_seq _) as [first|]; [|done].
  destruct (sb_last_seq _) as [last|]; [|done].
  generalize (sb_len (cn_send_buffer c)) as fuel. generalize (rtt_rtt (cn_rtt c)) as gate. intros gate fuel.
  revert first c. induction fuel as [|fuel IH]; intros q c; cbn [retransmit_loop]; [done|].
  eapply wlp_bind.
  - instantiate (1 := fun c' => cn_rtt c' = cn_rtt c). unfold retransmit_one. cbv zeta. case_match; [|done].
    destruct (sb_get _ q) as [p|]; [|done].
    apply (wlp_bind _ _ (fun _ => True)); [by destruct (encode_retransmit p)|]. by intros d _.
  - intros c1 H1. case_match; [exact H1|]. eapply wlp_mono; [apply IH|]. intros c2 H2. congruence.
Qed.

(** In one of the reported ranges, and not resent within the last round trip. *)
Definition resend_asked (loss : list LossRange) (now : Instant) (c : Connection) (x : Sent) : Prop :=
  exists r, r ∈ loss /\ resend_due (range_start r) (range_end r) (rtt_rtt (cn_rtt c)) now x = true.

Definition answers (loss : list LossRange) (now : Instant) (c c' : Connection) (xs : list Sent) : Prop :=
  cn_outputs c' = cn_outputs c ++ (SendDatagram <$> (resend_datagram <$> xs)) /\
  (forall x, x ∈ xs -> sent_packet x ∈ sent_packet <$> sb_packets (cn_send_buffer c)) /\
  (forall x, x ∈ sb_packets (cn_send_buffer c) -> resend_asked loss now c x ->
     sent_packet x ∈ sent_packet <$> xs).

Lemma retransmit_ranges_answers loss now c s :
  sb_window (cn_send_buffer c) s ->
  exists c' xs, retransmit_ranges loss now c = Ret c' /\ answers loss now c c' xs.
Proof.
  revert c. induction loss as [|r loss IH]; intros c Hw; cbn [retransmit_ranges].
  { exists c, []. split; [done|]. split; [by rewrite app_nil_r|]. split; [by intros x Hx%not_elem_of_nil|].
    intros x _ (r & Hr%not_elem_of_nil & _). done. }
  set (gate := rtt_rtt (cn_rtt c)).
  destruct (retransmit_range_exact (range_start r) (range_end r) gate now c s Hw eq_refl)
    as (c1 & E1 & Hp1 & Ho1).
  pose proof (retransmit_range_rtt (range_start r) (range_end r) now c) as Hrtt. rewrite E1 in *. cbn [wlp] in Hrtt.
  cbn [mbind panicky_bind]. set (due := resend_due (range_start r) (range_end r) gate now) in *.
  assert (sent_packet <$> sb_packets (cn_send_buffer c1) = sent_packet <$> sb_packets (cn_send_buffer c)) as Hsp.
  { rewrite Hp1, <- list_fmap_compose. apply list_fmap_ext. intros i x _. cbn. unfold resend_mark.
    by case_match. }
  destruct (IH c1) as (c2 & xs & E2 & Ho2 & Hin2 & Hall2).
  { eapply window_same_seqs; [|exact Hw]. unfold sent_seq.
    change (fun x => dp_seq (sent_packet x)) with (dp_seq ∘ sent_packet).
    by rewrite !list_fmap_compose, Hsp. }
  exists c2, (List.filter due (sb_packets (cn_send_buffer c)) ++ xs). split; [exact E2|]. split; [|split].
  - rewrite Ho2, Ho1, !fmap_app, app_assoc. f_equal. unfold resent. by rewrite <- list_fmap_compose.
  - intros x [Hx|Hx]%elem_of_app.
    + apply list_elem_of_In, List.filter_In in Hx as [Hx _]. by apply list_elem_of_fmap_2, list_elem_of_In.
    + rewrite <- Hsp. by apply Hin2.
  - intros x Hx (r' & Hr' & Hdue). rewrite fmap_app, elem_of_app. destruct (due x) eqn:Edue.
    + left. apply list_elem_of_fmap_2, list_elem_of_In, List.filter_In. split; [by apply list_elem_of_In|done].
    + right. apply elem_of_cons in Hr' as [->|Hr']; [unfold due, gate in Edue; congruence|].
      apply Hall2.
      * rewrite Hp1. apply list_elem_of_fmap. exists x. split; [|done]. unfold resend_mark. fold due. by rewrite Edue.
      * exists r'. split; [done|]. by rewrite Hrtt.
Qed.

(** Nothing the sender holds is too late. *)
Definition in_time (now : Instant) (c : Connection) : Prop :=
  stale_prefix (drop_budget c) (wire_ts c now) (sb_packets (cn_send_buffer c)) = 0%nat.

Lemma nak_is_answered nak ts dest loss now c s :
  cn_state c = StConnected -> sb_window (cn_send_buffer c) s -> in_time now c ->
  packet_decode nak = Ok (PControl (MkControl ts dest (CbNak loss))) ->
  exists c' xs, conn_step (CallFeed nak now) c = Ret c' /\ answers loss now c c' xs.
Proof.
  intros Hst Hw Hin Hd. cbn [conn_step]. unfold feed_recv_buf. rewrite Hd. cbv zeta.
  rewrite Hst. cbn [is_connected]. set (c1 := c <| cn_last_recv_any := now |>).
  change (cn_state c1) with (cn_state c). rewrite Hst. cbn [on_connected_packet cp_body on_control].
  unfold on_nak. cbv zeta. set (c2 := c1 <| cn_stats -> st_naks_received ::= bump 1 |>).
  unfold drop_too_late. cbv zeta.
  destruct (shed_loop_exact (S (sb_len (cn_send_buffer c2))) (drop_budget c2) (wire_ts c2 now) None c2 _
    eq_refl ltac:(unfold sb_len; lia)) as (c3 & E & _ & _ & H3).
  change (stale_prefix (drop_budget c2) (wire_ts c2 now) (sb_packets (cn_send_buffer c2)))
    with (stale_prefix (drop_budget c) (wire_ts c now) (sb_packets (cn_send_buffer c))) in *.
  rewrite Hin in E, H3. specialize (H3 eq_refl). subst c3. rewrite take_0 in E. rewrite E.
  cbn [mbind panicky_bind shed_acc foldl].
  destruct (retransmit_ranges_answers loss now c2 s Hw) as (c' & xs & E' & Ha). by exists c', xs.
Qed.
End Report.

(** ** The exchange *)

Section Exchange.
Context {B : BytesApi} {HB : BytesSpec B} {P : CryptoPrims} {HP : CryptoSpec P}.

(** A sender's buffer is a window: shorter than what was sent. *)
Lemma sending_window a r L c :
  sending a r L c -> conn_ok c -> Z.of_nat (length L) < 0x40000000 ->
  exists s, sb_window (cn_send_buffer c) s.
Proof.
  intros Hs Hok HL. destruct (ok_send _ Hok) as (s & Hseq & Hc & Hnext). exists s.
  split; [done|]. split; [done|]. rewrite (sd_next _ _ _ _ Hs) in Hnext.
  pose proof (sd_stored _ _ _ _ Hs) as Hst. rewrite Forall_fmap, Forall_lookup in Hst.
  destruct (sb_packets (cn_send_buffer c)) as [|x0 l] eqn:El; [unfold sb_len; by rewrite El|].
  destruct (stored_seq _ _ _ _ (Hst 0%nat x0 eq_refl)) as (i & Hi & Hx0). pose proof (Hc 0%nat x0 eq_refl) as H0.
  rewrite seq_add_0 in H0 by done. unfold sent_seq in H0. rewrite Hx0 in H0. subst s.
  unfold SB_MAX, sb_len. rewrite El. apply Z.nlt_ge. intros Hlong.
  assert (length L - i < length (x0 :: l))%nat as Hlt by lia.
  apply lookup_lt_is_Some_2 in Hlt as [x Hx].
  destruct (stored_seq _ _ _ _ (Hst _ _ Hx)) as (j & Hj & Hxs). pose proof (Hc _ _ Hx) as Hxc.
  unfold sent_seq in Hxc. rewrite Hxs, seq_add_add in Hxc. apply seq_add_inj in Hxc; lia.
Qed.

(** A stored packet resent carries its fragment. *)
Lemma resend_carries a r fss x :
  stored r (cn_next_send_seq a) (concat fss) (sent_packet x) ->
  exists i, carries r (cn_next_send_seq a) fss i (resend_datagram x) /\
    sent_seq x = place (cn_next_send_seq a) i.
Proof.
  intros (Hok & _ & (i & f & q & Hi & Hs & Hd & H)). exists i. split; [|exact Hs].
  exists (set_retransmitted (sent_packet x)), f, q.
  split; [|split; [exact Hi|split; [exact Hs|split; [exact Hd|exact H]]]].
  unfold resend_datagram, encode_retransmit. rewrite packet_encode_bytes by exact Hok.
  apply packet_decode_bytes. exact Hok.
Qed.

(** A reported place lies in one of the report's ranges. *)
Lemma reported_due c now x k m p :
  conn_ok c -> rb_at (cn_recv_buffer c) k = None -> rb_at (cn_recv_buffer c) m = Some p ->
  (k < m)%nat -> Z.of_nat k + cn_reorder_tolerance c <= Z.of_nat m ->
  sent_seq x = seq_add (rb_base (cn_recv_buffer c)) (Z.of_nat k) ->
  forall gate, match sent_last_retransmit x with Some at_ => gate <= since now at_ | None => True end ->
  exists r, r ∈ ((fun r => range_new r.1 r.2) <$> report_of c) /\
    resend_due (range_start r) (range_end r) gate now x = true.
Proof.
  intros Hok Hk Hm Hkm Hkt Hx gate Hgate. pose proof (rb_ok_span _ (ok_recv _ Hok)) as Hsp.
  destruct (rb_missing_aged_covers _ _ _ _ _ (ok_recv _ Hok) (tolerance_small _ Hok) Hk Hm Hkm Hkt)
    as (s & e & Hse & He & Hin).
  eexists. split; [apply list_elem_of_fmap_2; exact Hin|]. unfold range_new. cbn [fst snd range_start range_end].
  unfold resend_due, in_range. rewrite Hx.
  assert (forall i j, (i <= j)%nat -> (j < length (rb_slots (cn_recv_buffer c)))%nat ->
    0 <=? offset_from (seq_add (rb_base (cn_recv_buffer c)) (Z.of_nat j))
            (seq_add (rb_base (cn_recv_buffer c)) (Z.of_nat i)) = true) as Hoff.
  { intros i j Hij Hj. apply Z.leb_le.
    replace (seq_add (rb_base (cn_recv_buffer c)) (Z.of_nat j)) with
      (seq_add (seq_add (rb_base (cn_recv_buffer c)) (Z.of_nat i)) (Z.of_nat j - Z.of_nat i))
      by (rewrite seq_add_add; f_equal; lia).
    rewrite offset_from_add; lia. }
  rewrite !Hoff by lia. cbn [andb]. destruct (sent_last_retransmit x); [by apply Z.leb_le|done].
Qed.

Lemma run_conn_ok c calls es os c' : run c calls es os c' -> conn_ok c -> conn_ok c'.
Proof.
  induction 1 as [c|c call c1 calls es os c2 Hc Hs Hr IH]; [done|]. intros Hok. apply IH.
  pose proof (conn_step_wp call c Hok Hc) as H. rewrite Hs in H. apply H.
Qed.

(** The [k]-th place past [c]'s delivery point, in the later state [c']: taken out
    by delivery, or held.  The delivery point has moved by [n], less than half the
    sequence space. *)
Definition present_later (c c' : Connection) (k : nat) : Prop :=
  exists n, Z.of_nat n < 0x40000000 /\
    rb_base (cn_recv_buffer c') = seq_add (rb_base (cn_recv_buffer c)) (Z.of_nat n) /\
    ((k < n)%nat \/ is_Some (rb_at (cn_recv_buffer c') (k - n))).

Lemma covered_later s0 fss c c' n k :
  Z.of_nat (length (concat fss)) < 0x40000000 ->
  tracks s0 fss (cn_recv_buffer c) n -> onward s0 fss (cn_recv_buffer c) (cn_recv_buffer c') ->
  covered s0 fss (n + k) (cn_recv_buffer c') -> present_later c c' k.
Proof.
  intros Hspan Ht [_ Hon] (n2 & Ht2 & Hc). destruct (Hon n Ht) as (n1 & Ht1 & Hle).
  rewrite (tracks_unique s0 fss Hspan _ _ _ Ht1 Ht2) in Hle. exists (n2 - n)%nat.
  destruct Ht as (_ & Hb & _), Ht2 as (Hn2 & Hb2 & _). split; [lia|]. split.
  - rewrite Hb2, Hb. unfold place. rewrite seq_add_add. f_equal. lia.
  - destruct Hc as [Hc|Hc]; [left; lia|right]. by replace (k - (n2 - n))%nat with (n + k - n2)%nat by lia.
Qed.
(** A packet the receiver misses, a report names and the sender can resend: absent,
    a packet [m] arrived the reorder tolerance further on, the sender still holds it
    and did not resend it within the last round trip. *)
Definition repairable (ca cb : Connection) (ta : Instant) (k : nat) : Prop :=
  exists m p x, rb_at (cn_recv_buffer cb) m = Some p /\ (k < m)%nat /\
    Z.of_nat k + cn_reorder_tolerance cb <= Z.of_nat m /\
    x ∈ sb_packets (cn_send_buffer ca) /\
    sent_seq x = seq_add (rb_base (cn_recv_buffer cb)) (Z.of_nat k) /\
    match sent_last_retransmit x with Some at_ => rtt_rtt (cn_rtt ca) <= since ta at_ | None => True end.

(** The receiver's report, the sender's answer, and nothing else. *)
Definition exchange (ca cb : Connection) (tn ta : Instant) (ca1 cb1 : Connection) (ds : list (list byte)) : Prop :=
  exists nak, conn_step (CallTimer TiNak tn) cb = Ret cb1 /\
    cn_outputs cb1 = cn_outputs cb ++ [SetTimer TiNak (nak_interval cb); SendDatagram nak] /\
    conn_step (CallFeed nak ta) ca = Ret ca1 /\
    cn_outputs ca1 = cn_outputs ca ++ (SendDatagram <$> ds).

Lemma nak_timer_keeps b s0 ms fss out now c c' :
  Forall2 shaped ms fss -> Z.of_nat (length (concat fss)) < 0x40000000 ->
  reading b s0 ms fss out c -> conn_ok c -> conn_step (CallTimer TiNak now) c = Ret c' ->
  reading b s0 ms fss out c' /\ conn_ok c'.
Proof.
  intros Hshape Hlen Hr Hok E.
  pose proof (conn_step_reading b s0 ms fss Hshape Hlen (CallTimer TiNak now) c _ Hr I) as Hw1.
  pose proof (conn_step_wp (CallTimer TiNak now) c Hok I) as Hw2.
  rewrite E in Hw1, Hw2. cbn [wlp polled_event] in Hw1. rewrite app_nil_r in Hw1.
  split; [exact Hw1|apply Hw2].
Qed.

(** The exchange on top of the two invariants, whatever arrives of the answer. *)
Lemma exchange_restores a b a' b' ms fss out tn ta :
  Forall2 shaped ms fss -> Z.of_nat (length (concat fss)) < 0x40000000 ->
  flows a b (concat fss) a' -> reading b (cn_next_send_seq a) ms fss out b' -> conn_ok a' -> conn_ok b' ->
  cn_state a' = StConnected -> cn_state b' = StConnected ->
  report_of b' <> [] -> nak_allowed tn b' -> in_time ta a' ->
  exists b1 a1 ds, exchange a' b' tn ta a1 b1 ds /\
    forall arrivals es os b2,
      roomy arrivals b1 -> (forall d, d ∈ arrivals.*1 <-> d ∈ ds) -> run b1 (feeds arrivals) es os b2 ->
      cn_state b2 = StConnected /\ conn_ok b2 /\ reading b (cn_next_send_seq a) ms fss out b2 /\
      onward (cn_next_send_seq a) fss (cn_recv_buffer b') (cn_recv_buffer b2) /\
      forall n k, tracks (cn_next_send_seq a) fss (cn_recv_buffer b') n ->
        is_Some (rb_at (cn_recv_buffer b') k) \/ repairable a' b' ta k ->
        covered (cn_next_send_seq a) fss (n + k) (cn_recv_buffer b2).
Proof.
  intros Hshape Hlen (L & Hsd & HL) Hr HokA HokB HsA HsB Hne Hallow Hin.
  assert (Z.of_nat (length L) < 0x40000000) as HlenL by (rewrite <- HL, length_app in Hlen; lia).
  destruct (sending_window _ _ _ _ Hsd HokA HlenL) as (s & Hw).
  destruct (nak_timer_reports tn b' HokB HsB Hallow Hne) as (b1 & nak & ts & dest & Eb & Ob & Hd & Hst1 & Hrb1).
  destruct (nak_is_answered nak ts dest _ ta a' s HsA Hw Hin Hd) as (a1 & xs & Ea & Oa & Hfrom & Hall).
  exists b1, a1, (resend_datagram <$> xs). split; [by exists nak|].
  intros arrivals es os b2 Hroom Hsame Hrun.
  assert (forall y, y ∈ xs -> exists i, carries b (cn_next_send_seq a) fss i (resend_datagram y) /\
    sent_seq y = place (cn_next_send_seq a) i) as Hcarry.
  { intros y Hy. apply resend_carries. rewrite <- HL. apply stored_app.
    pose proof (sd_stored _ _ _ _ Hsd) as Hst. rewrite Forall_forall in Hst. by apply Hst, Hfrom. }
  destruct (nak_timer_keeps b _ ms fss out tn b' b1 Hshape Hlen Hr HokB Eb) as [Hr1 Hok1].
  destruct (feeds_cover b _ ms fss Hshape Hlen arrivals b1 _ es os b2 Hr1) as (Hr2 & Hst2 & Hon & Hcov2);
    [by rewrite Hst1|done| |done|].
  { apply Forall_forall. intros [d now] Hdn. assert (d ∈ resend_datagram <$> xs) as (y & -> & Hy)%list_elem_of_fmap.
    { apply Hsame. apply list_elem_of_fmap. by exists (d, now). }
    destruct (Hcarry y Hy) as (i & Hi & _). by exists i. }
  rewrite Hrb1 in Hon. split; [done|]. split; [by eapply run_conn_ok|]. split; [exact Hr2|].
  split; [exact Hon|]. intros n k Ht Hk'.
  destruct (rb_at (cn_recv_buffer b') k) as [pk|] eqn:Ek.
  { apply Hon. exists n. split; [done|]. right. replace (n + k - n)%nat with k by lia. by rewrite Ek. }
  destruct Hk' as [[? ?]|(m & p & x & Hm & Hkm & Hkt & Hx & Hxs & Hgate)]; [done|].
  destruct (reported_due b' ta x k m p HokB Ek Hm Hkm Hkt Hxs _ Hgate) as (r & Hrl & Hdue).
  specialize (Hall x Hx (ex_intro _ r (conj Hrl Hdue))).
  apply list_elem_of_fmap in Hall as (y & Hxy & Hy). destruct (Hcarry y Hy) as (i & Hi & Hys).
  assert (resend_datagram y ∈ arrivals.*1) as Harr by by apply Hsame, list_elem_of_fmap_2.
  assert (i = n + k)%nat as <-; [|by eapply Hcov2].
  pose proof (tracks_length _ fss _ _ (ok_recv _ HokB) Ht) as Hlen'.
  assert (m < length (rb_slots (cn_recv_buffer b')))%nat as Hm'.
  { unfold rb_at in Hm. destruct (rb_slots _ !! m) eqn:El; [|done]. by apply lookup_lt_Some in El. }
  assert (i < length (concat fss))%nat as Hi'.
  { destruct Hi as (? & ? & ? & _ & Hi & _). by apply lookup_lt_Some in Hi. }
  destruct Ht as (_ & Hbase & _). rewrite Hbase in Hxs. unfold sent_seq in Hxs, Hys. rewrite Hxy, Hys in Hxs.
  unfold place in Hxs. rewrite seq_add_add in Hxs. apply seq_add_inj in Hxs; lia.
Qed.
End Exchange.

(** C6 (liveness).  One loss report restores what the network lost.  Take any two
    ends that have run over a network as in [messages_survive_any_network] and are connected.  When the
    receiver misses packets and its NAK timer fires (no report went out within the
    retransmission time-out), it sends exactly one report; the sender, holding
    nothing that is too late, answers with datagrams; and when these arrive, in
    any order and any number of times, while the receive window has room, every
    packet the receiver missed (absent, and a packet arrived the reorder tolerance
    further on) that the sender still holds and did not resend within the last
    round trip is missing no more: it is held, or the delivery point has moved
    past it.  What was held before is still held or delivered, and the session is
    still connected. *)
Theorem loss_report_restores_the_stream {B : BytesApi} {HB : BytesSpec B} {P : CryptoPrims}
  {HP : CryptoSpec P} (a b a' b' : Connection) (callsA callsB : list ConnCall)
  (esA esB : list Event) (osA osB : list Output) (tn ta : Instant) :
  fresh_sender a -> fresh_receiver (cn_next_send_seq a) b -> conn_ok b -> covers a b ->
  Forall (fixed_keys a) callsA ->
  cn_crypto b = None \/ Forall (fun call => own_rekey call = false) callsB ->
  run a callsA esA osA a' -> run b callsB esB osB b' ->
  network a b (datagrams osA) (snd <$> fed_by callsB) ->
  Z.of_nat (length (fragments_of (max_payload a) (sent_by callsA))) < 0x40000000 ->
  cn_state a' = StConnected -> cn_state b' = StConnected ->
  report_of b' <> [] -> nak_allowed tn b' -> in_time ta a' ->
  exists b1 a1 ds, exchange a' b' tn ta a1 b1 ds /\
    forall arrivals es os b2,
      roomy arrivals b1 -> (forall d, d ∈ arrivals.*1 <-> d ∈ ds) -> run b1 (feeds arrivals) es os b2 ->
      cn_state b2 = StConnected /\
      forall k, is_Some (rb_at (cn_recv_buffer b') k) \/ repairable a' b' ta k -> present_later b' b2 k.
Proof.
  intros Ha Hb Hokb Hcov Hk Hkb Hra Hrb Hn Hspan HsA HsB Hne Hallow Hin.
  destruct (ends_meet _ _ _ _ _ _ _ _ _ _ Ha Hb Hcov Hk Hkb Hra Hrb Hn Hspan)
    as (fss & Hshape & _ & Hlen & Hsd & Hr).
  destruct (exchange_restores a b a' b' _ fss _ tn ta Hshape Hlen Hsd Hr) as (b1 & a1 & ds & Hex & H);
    [by eapply run_conn_ok; [|apply Ha]|by eapply run_conn_ok|done..|].
  exists b1, a1, ds. split; [exact Hex|]. intros arrivals es os b2 Hroom Hsame Hrun.
  destruct (H _ _ _ _ Hroom Hsame Hrun) as (Hst & _ & _ & Hon & Hp). split; [exact Hst|]. intros k Hk'.
  destruct (rd_at _ _ _ _ _ _ Hr) as [(_ & n & Ht & _)|[? _]]; [|done].
  apply (covered_later (cn_next_send_seq a) fss _ _ n); auto.
Qed.

(** ** An executed exchange *)

(** The second of five packets is lost; the receiver notices when the third
    arrives, its timer reports half a second later. *)
Definition ex_lossy_calls : list ConnCall := ex_feed [0; 2; 3; 4]%nat.
Definition ex_nak_time : Instant := dur_from_millis 500.
Definition ex_answer_time : Instant := dur_from_millis 520.
Definition ex_repair_time : Instant := dur_from_millis 540.

Definition run_state (calls : list ConnCall) (c : Connection) : Connection :=
  match @run_calls vec_bytes toy_prims calls c with Ret r => r.2 | Panic => c end.
Definition step_state (call : ConnCall) (c : Connection) : Connection :=
  match @conn_step vec_bytes toy_prims call c with Ret c => c | Panic => c end.

Definition ex_a : Connection := run_state ex_sender_calls ex_end.
Definition ex_b : Connection := run_state ex_lossy_calls ex_end.
Definition ex_b1 : Connection := step_state (CallTimer TiNak ex_nak_time) ex_b.
Definition new_datagrams (c c' : Connection) : list (list byte) :=
  datagrams (drop (length (cn_outputs c)) (cn_outputs c')).
Definition ex_nak : list byte := default [] (head (new_datagrams ex_b ex_b1)).
Definition ex_a1 : Connection := step_state (CallFeed ex_nak ex_answer_time) ex_a.
Definition ex_answer : list (list byte) := new_datagrams ex_a ex_a1.
Definition ex_arrivals : list (list byte * Instant) := (fun d => (d, ex_repair_time)) <$> ex_answer.
Definition ex_repair_calls : list ConnCall :=
  feeds ex_arrivals ++ [CallPollEvent; CallPollEvent; CallPollEvent; CallPollEvent].

Lemma run_state_run calls c :
  Forall call_ok calls -> wp (@run_calls vec_bytes toy_prims calls c) (fun _ => True) ->
  exists es os, @run vec_bytes toy_prims c calls es os (run_state calls c) /\
    (forall Q, wp (@run_calls vec_bytes toy_prims calls c) Q -> Q (es, os, run_state calls c)).
Proof.
  intros Hc H. pose proof (@run_calls_run vec_bytes toy_prims calls c Hc) as Hr. unfold run_state.
  destruct (run_calls calls c) as [[[es os] c']|]; [|done]. exists es, os. split; [exact Hr|]. by intros Q HQ.
Qed.

Lemma ex_lossy_fed : Forall (fun d => d ∈ ex_wire) (snd <$> fed_by ex_lossy_calls).
Proof. apply ex_feed_fed. repeat constructor; lia. Qed.

Lemma ex_a_run : exists es os, @run vec_bytes toy_prims ex_end ex_sender_calls es os ex_a /\ datagrams os = ex_wire.
Proof.
  destruct (run_state_run ex_sender_calls ex_end) as (es & os & Hr & HQ); [by repeat constructor|by vm_compute|].
  exists es, os. split; [exact Hr|]. apply (HQ (fun r => datagrams r.1.2 = ex_wire)). unfold ex_wire.
  assert (wp (@run_calls vec_bytes toy_prims ex_sender_calls ex_end) (fun _ => True)) as H by by vm_compute.
  by destruct (run_calls ex_sender_calls ex_end).
Qed.

Lemma ex_b_run : exists es os, @run vec_bytes toy_prims ex_end ex_lossy_calls es os ex_b /\ payloads es = [].
Proof.
  destruct (run_state_run ex_lossy_calls ex_end) as (es & os & Hr & HQ); [by repeat constructor|by vm_compute|].
  exists es, os. split; [exact Hr|]. apply (HQ (fun r => payloads r.1.1 = [])). by vm_compute.
Qed.

(** What the theorem asks of the two ends, evaluated. *)
Lemma ex_ready :
  cn_state ex_a = StConnected /\ cn_state ex_b = StConnected /\
  report_of ex_b = [(MkSeq 0x7fffffff, MkSeq 0x7fffffff)] /\
  nak_allowed ex_nak_time ex_b /\ in_time ex_answer_time ex_a.
Proof. split; [|split; [|split; [|split]]]; vm_compute; congruence. Qed.

Lemma ex_lost : rb_at (cn_recv_buffer ex_b) 1 = None /\ is_Some (rb_at (cn_recv_buffer ex_b) 2) /\
  cn_reorder_tolerance ex_b = 0 /\ rb_base (cn_recv_buffer ex_b) = MkSeq 0x7ffffffe.
Proof. split; [|split; [|split]]; vm_compute; [done|by eexists|done|done]. Qed.

Lemma ex_stored : exists x, x ∈ sb_packets (cn_send_buffer ex_a) /\ sent_seq x = MkSeq 0x7fffffff /\
  sent_last_retransmit x = None.
Proof.
  assert (match sb_packets (cn_send_buffer ex_a) !! 1%nat with
    Some x => sent_seq x = MkSeq 0x7fffffff /\ sent_last_retransmit x = None | None => False end) as H.
  { vm_compute. by split. }
  revert H. generalize (sb_packets (cn_send_buffer ex_a)) as l. intros l H.
  destruct (l !! 1%nat) as [x|] eqn:E; [|done].
  exists x. split; [by eapply list_elem_of_lookup_2|exact H].
Qed.

Lemma ex_repairable : repairable ex_a ex_b ex_answer_time 1.
Proof.
  destruct ex_lost as (Hl1 & [p Hl2] & Htol & Hbase). destruct ex_stored as (x & Hx & Hxs & Hlast).
  exists 2%nat, p, x. rewrite Htol, Hbase, Hxs, Hlast. split; [exact Hl2|]. split; [lia|]. split; [lia|].
  split; [exact Hx|]. split; [reflexivity|exact I].
Qed.

Lemma step_state_step call c :
  wp (@conn_step vec_bytes toy_prims call c) (fun _ => True) ->
  @conn_step vec_bytes toy_prims call c = Ret (step_state call c).
Proof. unfold step_state. by destruct (@conn_step vec_bytes toy_prims call c). Qed.

Lemma Ret_inj {A} (x y : A) : Ret x = Ret y -> x = y.
Proof. by intros [= ->]. Qed.

Lemma new_datagrams_app c c' os :
  cn_outputs c' = cn_outputs c ++ os -> new_datagrams c c' = datagrams os.
Proof. intros H. unfold new_datagrams. by rewrite H, drop_app_length. Qed.

Lemma datagrams_sent ds : datagrams (SendDatagram <$> ds) = ds.
Proof. induction ds as [|d ds IH]; [done|]. cbn. f_equal. exact IH. Qed.

Lemma ex_b1_step : @conn_step vec_bytes toy_prims (CallTimer TiNak ex_nak_time) ex_b = Ret ex_b1.
Proof. apply step_state_step. by vm_compute. Qed.
Lemma ex_a1_step : @conn_step vec_bytes toy_prims (CallFeed ex_nak ex_answer_time) ex_a = Ret ex_a1.
Proof. apply step_state_step. by vm_compute. Qed.

Lemma ex_roomy : roomy (B := vec_bytes) (P := toy_prims) ex_arrivals ex_b1.
Proof. by vm_compute. Qed.

(** Where the receiver is when the answer has arrived. *)
Definition ex_repaired : Connection := run_state (feeds ex_arrivals) ex_b1.

Lemma ex_repaired_run : exists es os, @run vec_bytes toy_prims ex_b1 (feeds ex_arrivals) es os ex_repaired.
Proof.
  destruct (run_state_run (feeds ex_arrivals) ex_b1) as (es & os & Hr & _); [|by vm_compute|].
  - apply Forall_fmap, Forall_forall. done.
  - by exists es, os.
Qed.

Lemma ex_arrivals_same d : d ∈ ex_arrivals.*1 <-> d ∈ ex_answer.
Proof. unfold ex_arrivals. rewrite <- list_fmap_compose. cbn. by rewrite list_fmap_id. Qed.

Lemma ex_exchange a1 b1 ds :
  @exchange vec_bytes toy_prims ex_a ex_b ex_nak_time ex_answer_time a1 b1 ds -> b1 = ex_b1 /\ ds = ex_answer.
Proof.
  intros (nak & Eb & Ob & Ea & Oa). rewrite ex_b1_step in Eb. apply Ret_inj in Eb. subst b1.
  assert (nak = ex_nak) as -> by (unfold ex_nak; by rewrite (new_datagrams_app _ _ _ Ob)).
  rewrite ex_a1_step in Ea. apply Ret_inj in Ea. subst a1. split; [reflexivity|].
  unfold ex_answer. by rewrite (new_datagrams_app _ _ _ Oa), datagrams_sent.
Qed.

(** In the end the application has all three messages. *)
Example ex_all_delivered :
  wp (@run_calls vec_bytes toy_prims ex_repair_calls ex_b1) (fun r => payloads r.1.1 = ex_messages).
Proof. by vm_compute. Qed.

Lemma loss_report_restores_the_stream_witness :
  exists es os b2, @run vec_bytes toy_prims ex_b1 (feeds ex_arrivals) es os b2 /\
    cn_state b2 = StConnected /\ rb_at (cn_recv_buffer ex_b) 1 = None /\ present_later ex_b b2 1.
Proof.
  destruct ex_end_fresh as [Hs Hr]. destruct ex_calls_fixed as [Hk _].
  assert (Forall (fun call => own_rekey call = false) ex_lossy_calls) as Hkb by by repeat constructor.
  assert (covers ex_end ex_end) as Hcov by (intros sc Hsc; by exists sc).
  assert (Z.of_nat (length (fragments_of (max_payload ex_end) (sent_by ex_sender_calls))) < 0x40000000)
    as Hspan by by vm_compute.
  assert (forall l, l = ex_wire -> network (B := vec_bytes) ex_end ex_end l (snd <$> fed_by ex_lossy_calls)) as Hn.
  { intros l ->. eapply Forall_impl; [exact ex_lossy_fed|]. intros d Hd. split; [by left|done]. }
  destruct ex_a_run as (esA & osA & RA & HA). destruct ex_b_run as (esB & osB & RB & _).
  destruct ex_ready as (HsA & HsB & Hrep & Hallow & Hin).
  assert (report_of ex_b <> []) as Hne by (rewrite Hrep; discriminate).
  destruct (@loss_report_restores_the_stream vec_bytes vec_bytes_spec toy_prims toy_spec ex_end ex_end ex_a ex_b
    ex_sender_calls ex_lossy_calls esA esB osA osB ex_nak_time ex_answer_time Hs Hr (fs_ok _ Hs) Hcov Hk
    (or_intror Hkb) RA RB (Hn _ HA) Hspan HsA HsB Hne Hallow Hin)
    as (b1 & a1 & ds & Hex & H).
  destruct (ex_exchange _ _ _ Hex) as [-> ->].
  destruct ex_repaired_run as (es & os & R2). exists es, os, ex_repaired. split; [exact R2|].
  destruct (H ex_arrivals es os ex_repaired ex_roomy ex_arrivals_same R2) as [Hst2 Hrep2].
  destruct ex_lost as (Hl1 & _). split; [exact Hst2|]. split; [exact Hl1|].
  apply Hrep2. right. exact ex_repairable.
Defined.
