(* ===== verification/Complete.v ===== *)
(** * Complete: nothing is lost that is not counted, and what arrives is delivered

    [EndToEnd] bounds a receiver from above: it delivers nothing but what was
    sent.  This file bounds it from below.  Every message before the delivery point
    that was not delivered is paid for in the receiver's drop counter, so a
    receiver that counts nothing has delivered exactly a prefix of what the sender
    accepted; and when every packet has arrived by the time it is due, the next
    delivery pass completes the stream. *)

From coqutil Require Import Datatypes.RecordSetters.
From S2P Require Import Prelude Buf Errors Reject Seq LossList Time Timestamp PacketTypes Handshake Control Packet SendBuffer RecvBuffer Fec KeyMaterial Crypto Config Event Fragment ConnState Rekey Arq Setup Conn ConnInv ConnStart Session Delivery Receiving DriverInv Genuine SendInv ReadInv EndToEnd Repair.

(** ** A delivery pass over a buffer without gaps *)

Section Pass.
Context {B : BytesApi} {HB : BytesSpec B} {P : CryptoPrims}.

(** No position of the buffer is empty. *)
Definition gapless (rb : RecvBuffer) : Prop :=
  forall i, (i < length (rb_slots rb))%nat -> is_Some (rb_at rb i).

Lemma gapless_past rb m : gapless rb -> gapless (past rb m).
Proof.
  intros H i Hi. unfold past in *. cbn [rb_slots] in Hi. rewrite length_drop in Hi.
  rewrite rb_at_drop. apply H. lia.
Qed.

Lemma gapless_earliest rb pos p : gapless rb -> rb_earliest rb pos p -> pos = 0%nat.
Proof.
  intros H He. pose proof (earliest_length _ _ _ He) as Hl. destruct He as [_ Hn]. destruct pos; [done|].
  destruct (H 0%nat ltac:(lia)) as [q Hq]. by rewrite (Hn 0%nat) in Hq by lia.
Qed.

(** Taking the first position skips nothing. *)
Lemma deliver_one_first c p :
  rb_ok (cn_recv_buffer c) -> rb_earliest (cn_recv_buffer c) 0 p -> dropped c = 0 -> dropped (deliver_one c) = 0.
Proof.
  intros Hok He Hd. unfold deliver_one. cbv zeta. rewrite (rb_pop_earliest _ _ _ Hok He).
  assert (forall ra, dropped ((c <| cn_recv_buffer := past (cn_recv_buffer c) 1 |>
      <| cn_stats -> st_packets_dropped ::= bump (Z.max 0 (offset_from (rb_ack_point (past (cn_recv_buffer c) 1))
           (rb_ack_point (cn_recv_buffer c)) - 1)) |>) <| cn_reassembler := ra |>) = 0) as E.
  { intros ra. change (add64 (dropped c) (Z.max 0 (offset_from
      (seq_add (rb_base (cn_recv_buffer c)) 1) (rb_base (cn_recv_buffer c)) - 1)) = 0).
    by rewrite offset_from_add, Hd by lia. }
  destruct (ra_push _ p) as [[m|] ra]; exact (E ra).
Qed.

Lemma deliver_loop_gapless fuel now c :
  rb_ok (cn_recv_buffer c) -> gapless (cn_recv_buffer c) -> dropped c = 0 ->
  wlp (deliver_loop fuel now c) (fun c' => dropped c' = 0).
Proof.
  revert c. induction fuel as [|fuel IH]; intros c Hok Hg Hd; cbn [deliver_loop]; [done|].
  destruct (rb_peek (cn_recv_buffer c)) as [[q ts]|] eqn:E; [|done].
  destruct (tsbpd_play_time c ts) as [t|]; [|done]. case_match; [done|].
  destruct (rb_peek_earliest _ _ _ Hok E) as (pos & p & He & _ & _).
  assert (pos = 0%nat) as -> by by eapply gapless_earliest.
  assert (cn_recv_buffer (deliver_one c) = past (cn_recv_buffer c) 1) as Hb.
  { unfold deliver_one. rewrite (rb_pop_earliest _ _ _ Hok He). cbv zeta.
    by destruct (ra_push _ p) as [[m|] ra]. }
  apply IH; [rewrite Hb; by apply rb_skip_ok|rewrite Hb; by apply gapless_past|].
  by apply (deliver_one_first c p).
Qed.

Lemma rb_peek_none rb : rb_ok rb -> rb_peek rb = None -> rb_slots rb = [].
Proof.
  intros Hok E. apply position_none_empty; [done|]. unfold rb_peek in E.
  destruct (position is_present (rb_slots rb)) as [pos|] eqn:Epos; [|done].
  destruct (position_earliest _ _ Epos) as (p & [Hp _]). unfold rb_at in Hp. cbn in E.
  destruct (rb_slots rb !! pos) as [[q|]|]; done.
Qed.

(** When all it holds is due, the pass empties the buffer and drops nothing. *)
Lemma pass_empties now c :
  conn_ok c -> gapless (cn_recv_buffer c) -> dropped c = 0 ->
  (forall i p, rb_at (cn_recv_buffer c) i = Some p -> is_due c now p) ->
  exists c', conn_step (CallTimer TiTsbpd now) c = Ret c' /\ dropped c' = 0 /\
    cn_state c' = cn_state c /\
    cn_recv_buffer c' = past (cn_recv_buffer c) (length (rb_slots (cn_recv_buffer c))).
Proof.
  intros Hok Hg Hd Hdue. set (fuel := S (length (rb_slots (cn_recv_buffer c)))).
  destruct (deliver_loop_exact fuel now c Hok ltac:(unfold fuel; lia))
    as (m & c' & E & Hok' & Hr & Hk & _ & _ & _ & Hend).
  pose proof (deliver_loop_gapless fuel now c (ok_recv _ Hok) Hg Hd) as Hd'. rewrite E in Hd'.
  pose proof (deliver_loop_delivers fuel now c (ok_recv _ Hok)) as Hm. rewrite E in Hm.
  destruct Hm as (Hs & m' & Hm' & Hr').
  exists c'. split; [exact E|]. split; [exact Hd'|]. split; [exact Hs|].
  destruct (rb_peek (cn_recv_buffer c')) as [[q ts]|] eqn:Ep.
  - exfalso. destruct (rb_peek_earliest _ _ _ (ok_recv _ Hok') Ep) as (pos & p & [Hp _] & _ & <-).
    rewrite Hr' in Hp. unfold past in Hp. rewrite rb_at_drop in Hp.
    destruct (Hdue _ _ Hp) as (t & Ht & Hle). rewrite Ht in Hend. lia.
  - assert (length (rb_slots (cn_recv_buffer c')) = 0)%nat as Hl.
    { by rewrite (rb_peek_none _ (ok_recv _ Hok') Ep). }
    rewrite Hr'. f_equal. rewrite Hr' in Hl. unfold past in Hl. cbn [rb_slots] in Hl.
    rewrite length_drop in Hl. lia.
Qed.
End Pass.

(** A receiver that misses nothing, once what it holds is due. *)
Lemma pass_completes {B : BytesApi} {HB : BytesSpec B} {P : CryptoPrims}
  b s0 ms fss (Hshape : Forall2 shaped ms fss) (Hlen : Z.of_nat (length (concat fss)) < 0x40000000) out c now :
  reading b s0 ms fss out c -> conn_ok c -> cn_state c = StConnected -> dropped c = 0 ->
  (exists n, ((n <= length (concat fss))%nat /\ rb_base (cn_recv_buffer c) = seq_add s0 (Z.of_nat n)) /\
     forall i, (n <= i < length (concat fss))%nat -> is_Some (rb_at (cn_recv_buffer c) (i - n))) ->
  (forall i p, rb_at (cn_recv_buffer c) i = Some p -> is_due c now p) ->
  exists c2, conn_step (CallTimer TiTsbpd now) c = Ret c2 /\ cn_state c2 = StConnected /\
    out ++ payloads (cn_events c2) = ms /\ dropped c2 = 0 /\ rb_slots (cn_recv_buffer c2) = [].
Proof.
  intros Hr Hok Hst Hd (n & (Hn & Hbase) & Hall) Hdue.
  destruct (rd_at _ _ _ _ _ _ Hr) as [(_ & n' & Ht & _)|[? _]]; [|done].
  assert (n' = n) as ->.
  { destruct Ht as (Hn' & Hb' & _). rewrite Hbase in Hb'. apply seq_add_inj in Hb'; lia. }
  pose proof (tracks_length _ fss _ _ (ok_recv _ Hok) Ht) as Hl.
  destruct (pass_empties now c Hok) as (c2 & Estep & Hd2 & Hst2 & Hb2); [|done|done|].
  { intros i Hi. replace i with (n + i - n)%nat by lia. apply Hall. lia. }
  exists c2. split; [exact Estep|]. split; [congruence|].
  pose proof (conn_step_reading b _ _ fss Hshape Hlen (CallTimer TiTsbpd now) c _ Hr I) as Hr2.
  rewrite Estep in Hr2. cbn [wlp polled_event] in Hr2. rewrite app_nil_r in Hr2.
  assert (n + length (rb_slots (cn_recv_buffer c)) = length (concat fss))%nat as Hfull.
  { destruct (Nat.eq_dec n (length (concat fss))) as [->|Hne]; [lia|].
    destruct (Hall (length (concat fss) - 1)%nat ltac:(lia)) as [p Hp].
    unfold rb_at in Hp. destruct (rb_slots _ !! _) eqn:El in Hp; [|done]. apply lookup_lt_Some in El. lia. }
  destruct (reading_exact b _ _ fss Hshape _ _ Hr2) as (k & Hsub & _ & Hle & Hk & Hat).
  destruct (Hat ltac:(congruence)) as (n2 & Ht2 & Hw).
  assert (n2 = length (concat fss)) as ->.
  { apply (tracks_unique s0 fss Hlen (cn_recv_buffer c2)); [exact Ht2|]. rewrite Hb2, <- Hfull.
    apply tracks_skip; [exact Ht|lia]. }
  split; [|split; [done|]].
  - rewrite <- (all_before _ fss _ Hw). by eapply nothing_dropped.
  - rewrite Hb2. unfold past. cbn [rb_slots]. by rewrite drop_ge by lia.
Qed.

(** ** What a receiver promises the application *)

Section Promises.
Context {B : BytesApi} {HB : BytesSpec B} {P : CryptoPrims} {HP : CryptoSpec P}.

(** Two ends and a network between them, as in [messages_survive_any_network]. *)
Context (a b a' b' : Connection) (callsA callsB : list ConnCall).
Context (esA esB : list Event) (osA osB : list Output).
Context (Ha : fresh_sender a) (Hb : fresh_receiver (cn_next_send_seq a) b) (Hcov : covers a b).
Context (Hka : Forall (fixed_keys a) callsA).
Context (Hkb : cn_crypto b = None \/ Forall (fun call => own_rekey call = false) callsB).
Context (Hra : run a callsA esA osA a') (Hrb : run b callsB esB osB b').
Context (Hnet : network a b (datagrams osA) (snd <$> fed_by callsB)).
Context (Hspan : Z.of_nat (length (fragments_of (max_payload a) (sent_by callsA))) < 0x40000000).

(** What the sender took on, in order, and how many packets its first [k]
    messages make. *)
Abbreviation ms := (accepted callsA a).
Definition packets_of (k : nat) : nat := length (fragments_of (max_payload a) (take k (accepted callsA a))).

(** The receiver's delivery point is [n] packets into the stream. *)
Definition delivery_point (n : nat) : Prop :=
  (n <= packets_of (length ms))%nat /\
  rb_base (cn_recv_buffer b') = seq_add (cn_next_send_seq a) (Z.of_nat n).

(** C2 (safety).  Nothing is lost that is not counted.  The setting is that of
    [messages_survive_any_network]: fresh ends without FEC, the receiver holding
    the sender's keys, neither rekeying; a network that loses, repeats and reorders
    the sender's datagrams and adds only datagrams without data, keys or drop
    requests, and no conclusion naming another initial number; messages that make
    fewer than 2^30 packets.  Whichever calls drive the two ends, what the receiver has handed over or
    has ready for the application comes from the first [k] messages the sender
    accepted, where these are exactly the messages that lie wholly before the
    receiver's delivery point; and every one of them that is missing is paid for
    by at least one packet in the receiver's drop counter.  A receiver whose
    counter is zero has therefore delivered exactly the first [k] messages:
    nothing missing, nothing twice, nothing out of order. *)
Theorem losses_are_counted :
  let out := payloads esB ++ payloads (cn_events b') in
  exists k, (k <= length ms)%nat /\ sublist out (take k ms) /\
    0 <= dropped b' /\ Z.of_nat k <= Z.of_nat (length out) + dropped b' /\
    (dropped b' = 0 -> out = take k ms) /\
    (cn_state b' = StConnected -> exists n, delivery_point n /\
       (packets_of k <= n)%nat /\ ((k < length ms)%nat -> (n < packets_of (S k))%nat)).
Proof.
  destruct (ends_meet _ _ _ _ _ _ _ _ _ _ Ha Hb Hcov Hka Hkb Hra Hrb Hnet Hspan)
    as (fss & Hshape & Hcount & Hlen & _ & Hr).
  destruct (reading_exact b _ _ fss Hshape _ _ Hr) as (k & Hsub & Hd & Hle & Hk & Hat).
  exists k. split_and!; try done.
  - intros Hz. by eapply nothing_dropped.
  - intros Hst. destruct (Hat Hst) as (n & (Hn & Hbase & _) & H1 & _ & H2).
    unfold start_of, delivery_point, packets_of in *. rewrite <- !Hcount. exists n.
    rewrite take_ge by by rewrite (Forall2_length _ _ _ Hshape). done.
Qed.

(** Every packet of the stream has arrived: it was delivered, or is held. *)
Definition all_arrived : Prop :=
  exists n, delivery_point n /\
    forall i, (n <= i < packets_of (length ms))%nat -> is_Some (rb_at (cn_recv_buffer b') (i - n)).

(** C4 (liveness).  What arrives in time is delivered.  Take two ends as before
    (the setting of [losses_are_counted]), the receiver connected.  If every packet of the messages the sender accepted
    has arrived, in whatever order and by whatever repair, and none was given up
    before it came, then the first delivery pass at which the held packets are due
    completes the stream: the application gets exactly the messages the sender
    accepted, all of them, in order, and nothing is counted as dropped. *)
Theorem what_arrives_in_time_is_delivered (now : Instant) :
  conn_ok b -> cn_state b' = StConnected -> dropped b' = 0 -> all_arrived ->
  (forall i p, rb_at (cn_recv_buffer b') i = Some p -> is_due b' now p) ->
  exists b2, conn_step (CallTimer TiTsbpd now) b' = Ret b2 /\ cn_state b2 = StConnected /\
    payloads esB ++ payloads (cn_events b2) = ms /\ dropped b2 = 0 /\
    rb_slots (cn_recv_buffer b2) = [].
Proof.
  intros Hokb Hst Hd Harr Hdue.
  destruct (ends_meet _ _ _ _ _ _ _ _ _ _ Ha Hb Hcov Hka Hkb Hra Hrb Hnet Hspan)
    as (fss & Hshape & Hcount & Hlen & _ & Hr).
  apply (pass_completes b (cn_next_send_seq a) _ fss Hshape Hlen); try done.
  - by eapply run_conn_ok.
  - unfold all_arrived, delivery_point, packets_of in Harr. rewrite <- !Hcount in Harr.
    rewrite take_ge in Harr by by rewrite (Forall2_length _ _ _ Hshape). exact Harr.
Qed.

(** C3 (liveness).  One report, one answer, and the stream is whole.  Take two
    connected ends as before (the setting of [losses_are_counted]), and let every
    packet of the stream past the delivery point be held by the receiver or be
    repairable.  Let the receiver have something to report and its last report be a
    retransmission time-out old, and let the sender hold nothing that is too late
    when the report arrives.  Then a firing of the NAK timer
    sends a report, the sender answers it with some datagrams, and once these have
    arrived (in any order, any number of times, while the receive window has room),
    provided none was given up meanwhile, the delivery pass at which what is held
    is due completes the stream: the application has exactly the messages the
    sender accepted. *)
Theorem one_report_completes_the_stream (tn ta : Instant) :
  conn_ok b -> cn_state a' = StConnected -> cn_state b' = StConnected ->
  report_of b' <> [] -> nak_allowed tn b' -> in_time ta a' ->
  (exists n, delivery_point n /\ forall i, (n <= i < packets_of (length ms))%nat ->
     is_Some (rb_at (cn_recv_buffer b') (i - n)) \/ repairable a' b' ta (i - n)) ->
  exists b1 a1 ds, exchange a' b' tn ta a1 b1 ds /\
    forall arrivals es os b2 now,
      roomy arrivals b1 -> (forall d, d ∈ arrivals.*1 <-> d ∈ ds) -> run b1 (feeds arrivals) es os b2 ->
      dropped b2 = 0 -> (forall i p, rb_at (cn_recv_buffer b2) i = Some p -> is_due b2 now p) ->
      exists b3, conn_step (CallTimer TiTsbpd now) b2 = Ret b3 /\ cn_state b3 = StConnected /\
        payloads esB ++ payloads (cn_events b3) = ms /\ dropped b3 = 0 /\
        rb_slots (cn_recv_buffer b3) = [].
Proof.
  intros Hokb HsA HsB Hne Hallow Hin (n & [Hn Hbase] & Hall).
  destruct (ends_meet _ _ _ _ _ _ _ _ _ _ Ha Hb Hcov Hka Hkb Hra Hrb Hnet Hspan)
    as (fss & Hshape & Hcount & Hlen & Hsd & Hr).
  unfold packets_of in Hn, Hall. rewrite <- Hcount in Hn, Hall.
  rewrite take_ge in Hn, Hall by by rewrite (Forall2_length _ _ _ Hshape).
  destruct (exchange_restores a b a' b' _ fss _ tn ta Hshape Hlen Hsd Hr) as (b1 & a1 & ds & Hex & H);
    [by eapply run_conn_ok; [|apply Ha]|by eapply run_conn_ok|done..|].
  exists b1, a1, ds. split; [exact Hex|]. intros arrivals es os b2 now Hroom Hsame Hrun Hd Hdue.
  destruct (H _ _ _ _ Hroom Hsame Hrun) as (Hst2 & Hok2 & Hr2 & [_ Hon] & Hcovd).
  assert (tracks (cn_next_send_seq a) fss (cn_recv_buffer b') n) as Ht.
  { destruct (rd_at _ _ _ _ _ _ Hr) as [(_ & n' & Ht & _)|[? _]]; [|done].
    pose proof Ht as (Hn' & Hb' & _). rewrite Hbase in Hb'. apply seq_add_inj in Hb'; [|lia..].
    assert (n = n') as -> by lia. exact Ht. }
  apply (pass_completes b (cn_next_send_seq a) _ fss Hshape Hlen); try done.
  destruct (Hon n Ht) as (n2 & Ht2 & Hle). pose proof Ht2 as (Hn2 & Hb2 & _).
  exists n2. split; [split; [exact Hn2|exact Hb2]|]. intros i Hi.
  destruct (Hcovd n (i - n)%nat Ht (Hall i ltac:(lia))) as (n3 & Ht3 & Hi3).
  rewrite (tracks_unique _ fss Hlen _ _ _ Ht3 Ht2) in Hi3.
  replace (n + (i - n))%nat with i in Hi3 by lia. destruct Hi3 as [Hi3|Hi3]; [lia|exact Hi3].
Qed.
End Promises.

(** ** Two executed receivers *)

(** What the theorems ask of the sender and the network, for any receiver that was
    fed from the wire of [ex_sender_calls]. *)
Lemma ex_promised callsB :
  Forall (fun d => d ∈ ex_wire) (snd <$> fed_by callsB) ->
  exists esA osA, @run vec_bytes toy_prims ex_end ex_sender_calls esA osA ex_a /\
    network (B := vec_bytes) ex_end ex_end (datagrams osA) (snd <$> fed_by callsB).
Proof.
  intros Hfed. destruct ex_a_run as (esA & osA & RA & HA). exists esA, osA. split; [exact RA|].
  revert HA. generalize (datagrams osA) as l. intros l ->.
  eapply Forall_impl; [exact Hfed|]. intros d Hd. split; [by left|done].
Qed.

Lemma ex_span : Z.of_nat (length (fragments_of (max_payload ex_end) (sent_by ex_sender_calls))) < 0x40000000.
Proof. by vm_compute. Qed.

Lemma ex_covers : covers ex_end ex_end.
Proof. intros sc Hsc. by exists sc. Qed.

(** The third of five packets never comes; the receiver of [EndToEnd] skips it. *)
Lemma ex_skipping_run :
  exists es os b', @run vec_bytes toy_prims ex_end ex_receiver_calls es os b' /\
    dropped b' = 1 /\ payloads es ++ payloads (cn_events b') = drop 1 ex_messages.
Proof.
  assert (wp (@run_calls vec_bytes toy_prims ex_receiver_calls ex_end)
    (fun r => dropped r.2 = 1 /\ payloads r.1.1 ++ payloads (cn_events r.2) = drop 1 ex_messages)) as H.
  { by vm_compute. }
  assert (Forall call_ok ex_receiver_calls) as Hc by by repeat constructor.
  destruct (run_calls_total _ _ _ Hc H) as (es & os & c' & Hr & Hd & Hp). cbn [fst snd] in Hd, Hp.
  exists es, os, c'. split; [exact Hr|]. split; [exact Hd|exact Hp].
Qed.

Lemma losses_are_counted_witness :
  exists es os b', @run vec_bytes toy_prims ex_end ex_receiver_calls es os b' /\ dropped b' = 1 /\
    exists k, sublist (drop 1 ex_messages) (take k (@accepted vec_bytes toy_prims ex_sender_calls ex_end)) /\
      Z.of_nat k <= Z.of_nat (length (drop 1 ex_messages)) + dropped b'.
Proof.
  destruct ex_end_fresh as [Hs Hr]. destruct ex_calls_fixed as [Hk Hkb].
  destruct ex_skipping_run as (es & os & b' & RB & Hd & Hp).
  destruct (ex_promised ex_receiver_calls ex_fed) as (esA & osA & RA & Hn).
  exists es, os, b'. split; [exact RB|]. split; [exact Hd|].
  pose proof (@losses_are_counted vec_bytes vec_bytes_spec toy_prims toy_spec ex_end ex_end ex_a b'
    ex_sender_calls ex_receiver_calls esA es osA os Hs Hr ex_covers Hk (or_intror Hkb) RA RB Hn ex_span) as H.
  cbv zeta in H. rewrite Hp in H. destruct H as (k & _ & Hsub & _ & Hle & _).
  exists k. split; [exact Hsub|exact Hle].
Defined.

(** All five packets arrive, in another order, and one second passes. *)
Definition ex_full_calls : list ConnCall := ex_feed [2; 0; 4; 1; 3]%nat.
Definition ex_full : Connection := run_state ex_full_calls ex_end.
Definition ex_due_time : Instant := dur_from_secs 1.

(** [is_due] for every held packet, as a check. *)
Definition all_due (c : Connection) (now : Instant) : bool :=
  forallb (fun s => match s with
    | Some p => match tsbpd_play_time c (dp_timestamp p) with Some t => t <=? now | None => false end
    | None => true end) (rb_slots (cn_recv_buffer c)).

Lemma all_due_spec c now i p :
  all_due c now = true -> rb_at (cn_recv_buffer c) i = Some p -> is_due c now p.
Proof.
  intros H Hp. unfold rb_at in Hp. destruct (rb_slots _ !! i) as [[q|]|] eqn:E; [|done..].
  injection Hp as <-. apply list_elem_of_lookup_2, list_elem_of_In in E.
  unfold all_due in H. rewrite forallb_forall in H. specialize (H _ E). cbn in H. unfold is_due.
  destruct (tsbpd_play_time c _) as [t|]; [|done]. exists t. split; [done|lia].
Qed.

(** Gap-free: a buffer that misses none of its [m] positions. *)
Lemma no_gaps rb m :
  forallb (fun i => is_present (rb_at rb i)) (List.seq 0 m) = true ->
  forall i, (0 <= i < m)%nat -> is_Some (rb_at rb (i - 0)).
Proof.
  intros H i Hi. rewrite forallb_forall in H. rewrite Nat.sub_0_r.
  specialize (H i ltac:(apply in_seq; lia)). destruct (rb_at rb i); [by eexists|done].
Qed.

Lemma ex_full_run :
  exists es os, @run vec_bytes toy_prims ex_end ex_full_calls es os ex_full /\ payloads es = [].
Proof.
  destruct (run_state_run ex_full_calls ex_end) as (es & os & Hr & HQ); [by repeat constructor|by vm_compute|].
  exists es, os. split; [exact Hr|]. apply (HQ (fun r => payloads r.1.1 = [])). by vm_compute.
Qed.

Lemma ex_full_ready : cn_state ex_full = StConnected /\ dropped ex_full = 0 /\
  all_arrived ex_end ex_full ex_sender_calls (B := vec_bytes) (P := toy_prims) /\ all_due ex_full ex_due_time = true.
Proof.
  split; [by vm_compute|]. split; [by vm_compute|]. split; [|by vm_compute].
  exists 0%nat. split; [split; [lia|by vm_compute]|]. apply no_gaps. by vm_compute.
Qed.

Lemma ex_accepted : @accepted vec_bytes toy_prims ex_sender_calls ex_end = ex_messages.
Proof. by vm_compute. Qed.

Lemma what_arrives_in_time_is_delivered_witness :
  exists b2, @conn_step vec_bytes toy_prims (CallTimer TiTsbpd ex_due_time) ex_full = Ret b2 /\
    payloads (cn_events b2) = ex_messages /\ dropped b2 = 0.
Proof.
  destruct ex_end_fresh as [Hs Hr]. destruct ex_calls_fixed as [Hk _].
  assert (Forall (fun call => own_rekey call = false) ex_full_calls) as Hkb by by repeat constructor.
  destruct ex_full_run as (es & os & RB & Hp). destruct ex_full_ready as (Hst & Hd & Harr & Hdue).
  destruct (ex_promised ex_full_calls ltac:(apply ex_feed_fed; repeat constructor; lia)) as (esA & osA & RA & Hn).
  destruct (@what_arrives_in_time_is_delivered vec_bytes vec_bytes_spec toy_prims toy_spec ex_end ex_end ex_a
    ex_full ex_sender_calls ex_full_calls esA es osA os Hs Hr ex_covers Hk (or_intror Hkb) RA RB Hn ex_span
    ex_due_time (fs_ok _ Hs) Hst Hd Harr (fun i p => all_due_spec _ _ i p Hdue))
    as (b2 & E & _ & Hall & Hd2 & _).
  rewrite Hp, ex_accepted in Hall. exists b2. split; [exact E|]. split; [exact Hall|exact Hd2].
Defined.

(** The exchange of [Repair]: the second packet is lost, reported and resent. *)
Lemma ex_held_or_repairable :
  exists n, delivery_point ex_end ex_b ex_sender_calls n (B := vec_bytes) (P := toy_prims) /\
    forall i, (n <= i < packets_of ex_end ex_sender_calls
                          (length (@accepted vec_bytes toy_prims ex_sender_calls ex_end)) (B := vec_bytes) (P := toy_prims))%nat ->
      is_Some (rb_at (cn_recv_buffer ex_b) (i - n)) \/ repairable ex_a ex_b ex_answer_time (i - n).
Proof.
  exists 0%nat. split; [split; [lia|by vm_compute]|].
  assert (packets_of ex_end ex_sender_calls (length (@accepted vec_bytes toy_prims ex_sender_calls ex_end))
    (B := vec_bytes) (P := toy_prims) = 5%nat) as -> by by vm_compute.
  assert (forallb (fun i => is_present (rb_at (cn_recv_buffer ex_b) i)) [0; 2; 3; 4]%nat = true) as Hheld by by vm_compute.
  rewrite forallb_forall in Hheld. intros i Hi. rewrite Nat.sub_0_r.
  destruct (Nat.eq_dec i 1) as [->|Hne]; [right; exact ex_repairable|left].
  specialize (Hheld i ltac:(cbn [In]; lia)). destruct (rb_at _ i); [by eexists|done].
Qed.

Lemma one_report_completes_the_stream_witness :
  exists b3, @conn_step vec_bytes toy_prims (CallTimer TiTsbpd ex_due_time) ex_repaired = Ret b3 /\
    payloads (cn_events b3) = ex_messages.
Proof.
  destruct ex_end_fresh as [Hs Hr]. destruct ex_calls_fixed as [Hk _].
  assert (Forall (fun call => own_rekey call = false) ex_lossy_calls) as Hkb by by repeat constructor.
  destruct ex_b_run as (es & os & RB & Hp). destruct (ex_promised ex_lossy_calls ex_lossy_fed) as (esA & osA & RA & Hn).
  destruct ex_ready as (HsA & HsB & Hrep & Hallow & Hin).
  assert (report_of ex_b <> []) as Hne by (rewrite Hrep; discriminate).
  destruct (@one_report_completes_the_stream vec_bytes vec_bytes_spec toy_prims toy_spec ex_end ex_end ex_a ex_b
    ex_sender_calls ex_lossy_calls esA es osA os Hs Hr ex_covers Hk (or_intror Hkb) RA RB Hn ex_span
    ex_nak_time ex_answer_time (fs_ok _ Hs) HsA HsB Hne Hallow Hin ex_held_or_repairable)
    as (b1 & a1 & ds & Hex & H).
  destruct (ex_exchange _ _ _ Hex) as [-> ->].
  destruct ex_repaired_run as (es2 & os2 & R2).
  assert (dropped ex_repaired = 0) as Hd by by vm_compute.
  assert (all_due ex_repaired ex_due_time = true) as Hdue by by vm_compute.
  destruct (H ex_arrivals es2 os2 ex_repaired ex_due_time ex_roomy ex_arrivals_same R2 Hd
    (fun i p => all_due_spec _ _ i p Hdue)) as (b3 & E & _ & Hall & _).
  rewrite Hp, ex_accepted in Hall. exists b3. split; [exact E|exact Hall].
Defined.
